(* ===== verification/_CoqProject ===== *)
-Q . S2P
Prelude.v
GoStrings.v
Regexp.v
GoErrors.v
Models.v
Db.v
Prog.v
Concrete.v
Rely.v
GroupStore.v
PostStore.v
Listing.v
ThreadStore.v
Roles.v
GroupService.v
ThreadService.v
PostService.v
GoJson.v
UserStore.v
SessionStore.v
SettingsStore.v
MessageStore.v
NotificationStore.v
AttachmentStore.v
Encoding.v
JsonText.v
Urls.v
GoTime.v
Sha256.v
Password.v
Config.v
Jwt.v
JsonStruct.v
AuthService.v
AdminService.v
InstallService.v
MessageService.v
Storage.v
MediaService.v
Hub.v
Handlers.v
Requests.v
Samples.v
Frames.v
RefreshOnce.v
Counters.v
Access.v
Privacy.v
Cookies.v
Account.v
Middleware.v
Board.v
Evolution.v
Refinement.v
Views.v
Roster.v
Membership.v
Catalogue.v
Cataloguing.v
Answered.v
Wellformed.v
Dispatch.v
Client.v
System.v
Router.v
Responses.v
Http.v
Visit.v
Realtime.v
Wiring.v
Startup.v
