(* ===== verification/Prelude.v ===== *)
(** * MasonicCore: a verification library

    MasonicCore is the API server of a forum: a Go program that keeps its state in PostgreSQL,
    its uploads in an S3 store, and pushes events over WebSockets.  This library models the
    whole program under src/ as executable definitions and proves what each part, and the
    parts together, promise.

    ** The program and its model

    A request goes down through four layers, and the files follow them.

    - Routes and handlers (internal/http, internal/handlers): Handlers.v has one definition per
      handler, named after its type and method ([threads_Update] is the method Update of Threads);
      [endpoint] lists the API routes, [guard_of] their middleware, and [handle] is what the
      server does with a request.  Middleware.v has the identity in the request context
      (internal/auth/jwt.go, handlers/core.go), which [handle] passes as an argument.  System.v
      has the other routes: probes, version, presence, downloads, and the WebSocket handshake.
      Router.v has the routing table of http/router.go as [NewRouter] nests it, and [serve_http],
      which serves a request from its method, path, query, headers (the Cookie header as
      net/http reads it) and body; Requests.v has the
      request structs as JSON, Responses.v the JSON texts of what is answered, Cookies.v the
      headers of the refresh cookie.
    - Services (internal/services): AuthService.v, GroupService.v, ThreadService.v,
      PostService.v, MediaService.v, MessageService.v (with notifications), AdminService.v and
      InstallService.v; the role check of errors.go is in Roles.v.
    - Stores (internal/store): UserStore.v, SessionStore.v, GroupStore.v, ThreadStore.v,
      PostStore.v, MessageStore.v, NotificationStore.v, AttachmentStore.v and SettingsStore.v.
      Every SQL text is a function on the tables ([..._stmt], [select_...], [insert_...],
      [update_...]), every method the program that runs it and maps its errors.
    - The database (migrations/*.sql): Db.v has the tables as finite maps of the records of
      Models.v (internal/models), with keys, unique indexes, foreign keys and cascades; [db_ok]
      is the schema's integrity.

    Below them, Prog.v is the language of all four: a [prog] is a sequence of atomic actions
    (a statement, a transaction, a call to the object store, a look at the clock or the random
    source) with computation in between.  [run] executes one alone; [step] interleaves a pool
    of them, action by action, which is how concurrent requests meet in the database.
    GoErrors.v has Go's errors and SQLSTATE codes.

    Beside them: Password.v (internal/auth/password.go), Jwt.v (internal/auth/jwt.go), Config.v
    (internal/config), Storage.v (internal/storage), Hub.v (internal/ws/hub.go, as a transition
    system of all connections and the dispatcher), Client.v (internal/ws/client.go, the two
    goroutines of one connection), Wiring.v (the structs that hold other components, with their
    constructors) and Startup.v (cmd/server/main.go, internal/db, the start of the object store
    and [NewRouter]).

    What the source uses of Go's library is defined, not assumed: GoStrings.v (UTF-8, trimming,
    case folding of ASCII), Regexp.v (anchored character-class expressions by derivatives),
    Encoding.v (decimals, hex, base64), Sha256.v, GoJson.v (stored JSON values), JsonText.v (the
    scanner and the printer of encoding/json), JsonStruct.v (objects into structs), Urls.v (query
    strings) and GoTime.v (dates and their text).

    ** What is proved

    About the server as a whole, for any requests interleaved statement by statement:
    - Startup.v: the whole stack, from [main] on a database that was just migrated: the forum
      comes from nothing by permitted changes alone, each of an arrived request ([main_serves]).
    - Http.v: what the next files say of the board, the roster, the catalogue, the tables and the
      end of a request holds of the server as its clients see it, whatever texts arrive, probes,
      downloads and handshakes included.
    - Refinement.v, Membership.v and Cataloguing.v: the API refines three abstract specifications,
      which together speak of every table.  Board.v has the threads and posts as their readers
      see them, and [move], the changes a user may make; Roster.v the accounts, who holds which
      role, the sessions and the mark of the installation, and [change]; Catalogue.v the groups,
      attachments, messages, notifications and the forum's name, and [revision].  Every history
      of the tables is a history of such steps, each of a request that was sent and of the user
      whose token it carries.  What follows for any such history is proved of the histories: nobody
      comes to a role without an administrator ([no_escalation]), a ban holds ([ban_holds]),
      attachments go by their owners and moderators ([attachments_kept]).
      Rely.v has the rely-guarantee logic used, Evolution.v what the other requests may do to the
      board, Views.v the rules for specifications of a part of the tables.
    - RefreshOnce.v: the schema's integrity is kept, and a refresh token is used at most once.
    - Wellformed.v: every row stays in the form the services validate.
    - Answered.v: a request is answered after at most nine turns of its own.
    - Counters.v: served one after another, requests keep [post_count] exact (interleaved they
      do not: [concurrent_overcount]).
    - Access.v: who may call what.  Privacy.v: whom private messages and notifications reach.
      Startup.v: when the server listens and how it ends, that all its objects work on the one
      database that was migrated, and that it believes only tokens under its configured secret.
    - Router.v: a request takes the handler and middleware of its endpoint, and what a client writes
      for an endpoint is decoded to it.  Responses.v: what is answered can be read back, and tells
      nothing of password hashes.  Cookies.v: the refresh cookie that is set comes back.
      Visit.v: a browser that logs in, and sends back the cookie it is given, stays logged in.
    Frames.v has what each statement leaves alone, Samples.v and Concrete.v a server and a small
    forum on which definitions are evaluated.

    About the components: what registration, login, logout, groups, threads, posts, uploads,
    messages, settings and setup do on each branch (in the services' files); that the owner of an
    active account does log in and stays logged in (Account.v); that pages of a thread tile it
    (Listing.v); password and token round trips (Password.v, Jwt.v); the hub's
    safety and deliveries (Hub.v), that the dispatcher empties its queue in order
    (Dispatch.v), and the end and the deliveries of a connection (Client.v).  Realtime.v runs the
    hub and all connections together and follows an announcement to the peers.

    ** Assumptions

    Code outside src/ is a parameter: [Postgres] (case folding, collation, address literals),
    [Argon2], [Uuid], [Jwt], [Unicode], [ObjectReader], [Mux] (which route chi takes), [Zone] (the
    process's time zone), [Jsonb] (the text of a jsonb column), and the answers in [env] and in
    Startup.v's [outside].  Their documented laws are the classes [Argon2Laws], [UuidLaws],
    [UuidText], [JwtLaws], [ObjectReaderLaws], [MuxLaws] and [JsonbLaws], and the hypotheses
    [fresh_uuids] (the server's generated ids do not repeat), [honest_scans] (a query's rows come
    in some order, none lost) and [honest_store] (an upload reported as stored is stored); each theorem that uses one has an instance where it holds.  The environment is otherwise arbitrary: any
    action may fail, and a statement may take effect although its answer is lost.

    A transaction is one action: it takes effect as a whole when it commits, or not at all.
    Each statement sees the tables as they are when it runs, as under PostgreSQL's READ
    COMMITTED.  A request's deadline is one of the failures an action may have.

    ** Bounds and fuel

    Integers that the code or a column bounds are checked at that width: [int32_ok] and
    [int64_ok] at the statements, [wrap64] for durations, and the seconds of a duration go through
    64-bit floating point ([Seconds]).  [most_actions] is nine, the longest
    path of a handler; no fuel is involved, a [prog] is finite.  The JSON scanner has fuel, twice
    the length of the text, and more makes no difference ([read_fuel_enough]); its nesting limit
    is the one of encoding/json.  Query strings of more than 10000 parameters are refused, as
    net/url does.  The recursions of GoStrings.v, Encoding.v, Sha256.v and the hub are structural, or have a measure stated with them
    ([drain_steps], [steps_left]).

    ** What modelling showed

    Private messages cannot be sent ([MessageStore.Send] names a missing alias).  A rename undoes
    a concurrent lock ([rename_undoes_lock]); a recount can overcount a reply; a thread can be
    lost with its group; two setups can both succeed; the loser of two refreshes is answered
    with 500; untrimmed slugs are stored; a cut file name orphans its object; a half-refused
    user update bans; a password with blanks at its ends registers but does not log in; a cookie
    name that HTTP does not allow is accepted, and then no refresh cookie is ever sent.

    ** Not modelled

    Chi's choice of a route beyond its law, and its generic middleware (request ids, real
    addresses, logs, panic recovery, the timeout); the parsing of multipart forms and of headers,
    and response headers other than the refresh cookie; the limit of net/http on the number of
    cookies it reads; the internals of pgx, goose, minio and
    gorilla; WebSocket framing and the value of its deadlines, which are failures of the socket
    that may come at any time; the go:embed directive of migrations.go; the tests. *)
From stdpp Require Export prelude strings gmap sorting.

(** ** Scope and notations of the development *)

Declare Scope mc_scope.
Delimit Scope mc_scope with mc.

(** UUIDs are 128-bit numbers; [uuid.Nil] is the all-zero one.  Instants are
    microseconds, the resolution of [timestamptz]. *)
Abbreviation uuid := N (only parsing).
Abbreviation time := Z (only parsing).
Definition uuid_Nil : uuid := 0%N.

(** ** Rewriting and hint databases *)

Create HintDb mc discriminated.
Create Rewrite HintDb mc_rw.

(** ** Generic lemmas on options and lists *)

Section generic.
Context {A B : Type}.

Lemma option_bool_None (o : option A) :
  match o with Some _ => true | None => false end = false <-> o = None.
Proof. destruct o; split; congruence. Qed.

Lemma existsb_false_iff (f : A -> bool) (l : list A) :
  existsb f l = false <-> forall x, x ∈ l -> f x = false.
Proof.
  induction l as [|y l IH]; cbn.
  - split; [intros _ x Hx; inversion Hx | done].
  - rewrite orb_false_iff, IH. split.
    + intros [Hy Hl] x [->|Hx]%elem_of_cons; auto.
    + intros H. split; [apply H; left | intros x Hx; apply H; by right].
Qed.

Lemma existsb_true_iff (f : A -> bool) (l : list A) :
  existsb f l = true <-> exists x, x ∈ l /\ f x = true.
Proof.
  rewrite existsb_exists. split; intros (x & Hx & Hf); exists x;
    (split; [by apply list_elem_of_In | done]).
Qed.

Lemma drop_take_app (l : list A) (n m : nat) :
  take n l ++ take m (drop n l) = take (n + m) l.
Proof.
  revert n. induction l as [|x l IH]; intros [|n]; cbn; try done.
  - by destruct m.
  - by rewrite IH.
Qed.

End generic.

(** ** Tactics

    [destr_match H] splits the outermost [match] or [if] of a hypothesis and keeps the
    equation; [inv_all] does so until no match is left and closes the impossible branches. *)

Ltac destr_match H :=
  match type of H with
  | context [match ?x with _ => _ end] =>
      lazymatch x with
      | context [match _ with _ => _ end] => fail
      | _ => let E := fresh "E" in destruct x eqn:E
      end
  end.

Ltac inv_all H := repeat (destr_match H; simplify_eq/=; try done).

Ltac destr_goal :=
  match goal with
  | |- context [match ?x with _ => _ end] =>
      lazymatch x with
      | context [match _ with _ => _ end] => fail
      | _ => let E := fresh "E" in destruct x eqn:E
      end
  end.

Ltac split_and_all := repeat match goal with |- _ /\ _ => split end.
