(* ===== verification/GoStrings.v ===== *)
(** * Go strings

    A Go string is a byte sequence, here a [string] of 8-bit [ascii] characters.  This file
    holds what the program uses of the packages [unicode/utf8], [strings], [path] and
    [strconv]: UTF-8 decoding with Go's error rule (a byte that starts no valid encoding is
    one [RuneError] of width 1), [utf8.RuneCountInString], [strings.TrimSpace],
    [strings.ToLower], [path.Ext], [path.Base], [strconv.Atoi]. *)
From S2P Require Import Prelude.
From Stdlib Require Import Ascii.

Local Open Scope N_scope.

Definition byte_of (a : ascii) : N := N_of_ascii a.

Definition byte_in (lo hi : N) (a : ascii) : bool :=
  (lo <=? byte_of a) && (byte_of a <=? hi).

(** ** UTF-8 *)

(** One decoded unit: the rune, the bytes it came from, and whether the encoding was valid. *)
Record chunk := Chunk { c_rune : N; c_bytes : string; c_valid : bool }.

Definition RuneError : N := 65533.

Definition bad_chunk (a : ascii) : chunk := Chunk RuneError (String a "") false.

Definition is2 (a b : ascii) : bool := byte_in 194 223 a && byte_in 128 191 b.

(** The accept ranges of [unicode/utf8]: the second byte of a 3- or 4-byte encoding is
    restricted for the lead bytes E0, ED, F0 and F4. *)
Definition is3 (a b c : ascii) : bool :=
  byte_in 224 239 a && byte_in 128 191 c &&
  (if byte_of a =? 224 then byte_in 160 191 b
   else if byte_of a =? 237 then byte_in 128 159 b
   else byte_in 128 191 b).

Definition is4 (a b c d : ascii) : bool :=
  byte_in 240 244 a && byte_in 128 191 c && byte_in 128 191 d &&
  (if byte_of a =? 240 then byte_in 144 191 b
   else if byte_of a =? 244 then byte_in 128 143 b
   else byte_in 128 191 b).

Definition rune2 (a b : ascii) : N := (byte_of a - 192) * 64 + (byte_of b - 128).
Definition rune3 (a b c : ascii) : N :=
  (byte_of a - 224) * 4096 + (byte_of b - 128) * 64 + (byte_of c - 128).
Definition rune4 (a b c d : ascii) : N :=
  (byte_of a - 240) * 262144 + (byte_of b - 128) * 4096 + (byte_of c - 128) * 64
  + (byte_of d - 128).

(** [for _, r := range s]: the runes of a string, left to right. *)
Fixpoint chunks (s : string) : list chunk :=
  match s with
  | EmptyString => []
  | String a s1 =>
    if byte_of a <? 128 then Chunk (byte_of a) (String a "") true :: chunks s1 else
    match s1 with
    | EmptyString => [bad_chunk a]
    | String b s2 =>
      if is2 a b then Chunk (rune2 a b) (String a (String b "")) true :: chunks s2 else
      match s2 with
      | EmptyString => bad_chunk a :: chunks s1
      | String c s3 =>
        if is3 a b c then
          Chunk (rune3 a b c) (String a (String b (String c ""))) true :: chunks s3 else
        match s3 with
        | EmptyString => bad_chunk a :: chunks s1
        | String d s4 =>
          if is4 a b c d then
            Chunk (rune4 a b c d) (String a (String b (String c (String d "")))) true
              :: chunks s4
          else bad_chunk a :: chunks s1
        end
      end
    end
  end.

Definition concat_chunks (l : list chunk) : string :=
  foldr (fun c s => c_bytes c +:+ s) "" l.

(** [utf8.RuneCountInString], [utf8.ValidString] *)
Definition RuneCountInString (s : string) : Z := Z.of_nat (length (chunks s)).
Definition ValidString (s : string) : bool := forallb c_valid (chunks s).

(** [len(s)] *)
Definition len (s : string) : Z := Z.of_nat (String.length s).

(** ** [strings] *)

(** [unicode.IsSpace] *)
Definition IsSpace (r : N) : bool :=
  ((9 <=? r) && (r <=? 13)) || (r =? 32) || (r =? 133) || (r =? 160) || (r =? 5760)
  || ((8192 <=? r) && (r <=? 8202)) || (r =? 8232) || (r =? 8233) || (r =? 8239)
  || (r =? 8287) || (r =? 12288).

Fixpoint trim_left (l : list chunk) : list chunk :=
  match l with
  | [] => []
  | c :: l' => if IsSpace (c_rune c) then trim_left l' else l
  end.

(** [strings.TrimSpace] *)
Definition TrimSpace (s : string) : string :=
  concat_chunks (reverse (trim_left (reverse (trim_left (chunks s))))).

Definition lower_byte (a : ascii) : ascii :=
  if byte_in 65 90 a then ascii_of_N (byte_of a + 32) else a.

Fixpoint map_bytes (f : ascii -> ascii) (s : string) : string :=
  match s with EmptyString => "" | String a s' => String (f a) (map_bytes f s') end.

Fixpoint all_bytes (f : ascii -> bool) (s : string) : bool :=
  match s with EmptyString => true | String a s' => f a && all_bytes f s' end.

Fixpoint has_byte (f : ascii -> bool) (s : string) : bool :=
  match s with EmptyString => false | String a s' => f a || has_byte f s' end.

Definition is_ascii (s : string) : bool := all_bytes (fun a => byte_of a <? 128) s.

(** [strings.ToLower]: the ASCII fast path, else the Unicode simple case mapping [low],
    re-encoded rune by rune (the mapping is a table of the Unicode data, a parameter). *)
Class Unicode := unicode_lower : chunk -> string.
Definition ToLower (low : chunk -> string) (s : string) : string :=
  if is_ascii s then map_bytes lower_byte s
  else foldr (fun c t => low c +:+ t) "" (chunks s).

(** [strings.HasPrefix] *)
Definition HasPrefix (s p : string) : bool := String.prefix p s.

(** The bytes [s[:n]] and [s[n:]] of a slice expression within bounds. *)
Fixpoint str_take (n : nat) (s : string) : string :=
  match n, s with
  | S n', String a s' => String a (str_take n' s')
  | _, _ => ""
  end.

Fixpoint str_drop (n : nat) (s : string) : string :=
  match n, s with
  | S n', String _ s' => str_drop n' s'
  | _, _ => s
  end.

Fixpoint string_of (l : list ascii) : string :=
  match l with [] => "" | a :: l' => String a (string_of l') end.
Fixpoint bytes_of (s : string) : list ascii :=
  match s with EmptyString => [] | String a s' => a :: bytes_of s' end.

Definition is_byte (n : N) (a : ascii) : bool := byte_of a =? n.

Fixpoint drop_while (f : ascii -> bool) (l : list ascii) : list ascii :=
  match l with
  | [] => []
  | a :: l' => if f a then drop_while f l' else l
  end.

(** [strings.TrimRight(s, "/")] *)
Definition TrimRightSlash (s : string) : string :=
  string_of (reverse (drop_while (is_byte 47) (reverse (bytes_of s)))).

(** ** [path] *)

Fixpoint ext_loop (rev_s acc : list ascii) : list ascii :=
  match rev_s with
  | [] => []
  | a :: r => if is_byte 47 a then [] else if is_byte 46 a then a :: acc
              else ext_loop r (a :: acc)
  end.

(** [path.Ext]: from the last dot of the last path element, empty when there is none. *)
Definition path_Ext (s : string) : string := string_of (ext_loop (reverse (bytes_of s)) []).

Fixpoint take_until (f : ascii -> bool) (l : list ascii) : list ascii :=
  match l with
  | [] => []
  | a :: l' => if f a then [] else a :: take_until f l'
  end.

(** [path.Base]: "." for the empty path, "/" for a path of slashes. *)
Definition path_Base (s : string) : string :=
  match s with
  | EmptyString => "."
  | _ => match drop_while (is_byte 47) (reverse (bytes_of s)) with
         | [] => "/"
         | r => string_of (reverse (take_until (is_byte 47) r))
         end
  end.

(** ** [strconv.Atoi] *)

Definition digit_of (a : ascii) : option Z :=
  if byte_in 48 57 a then Some (Z.of_N (byte_of a - 48)) else None.

Fixpoint digits_val (acc : Z) (s : string) : option Z :=
  match s with
  | EmptyString => Some acc
  | String a s' => match digit_of a with
                   | Some d => digits_val (acc * 10 + d)%Z s'
                   | None => None
                   end
  end.

Definition int64_ok (z : Z) : bool := ((- 2 ^ 63 <=? z) && (z <? 2 ^ 63))%Z.
Definition int32_ok (z : Z) : bool := ((- 2 ^ 31 <=? z) && (z <? 2 ^ 31))%Z.

(** [None] stands for a syntax or range error. *)
Definition Atoi (s : string) : option Z :=
  let num t := match t with EmptyString => None | _ => digits_val 0 t end in
  let v := match s with
           | EmptyString => None
           | String a t => if is_byte 43 a then num t
                           else if is_byte 45 a then Z.opp <$> num t
                           else num s
           end in
  match v with
  | Some z => if int64_ok z then Some z else None
  | None => None
  end.

(** ** Lemmas *)

Lemma string_len_ind (P : string -> Prop) :
  (forall s, (forall t, (String.length t < String.length s)%nat -> P t) -> P s) ->
  forall s, P s.
Proof.
  intros H s. remember (String.length s) as n eqn:Hn. revert s Hn.
  induction n as [n IH] using lt_wf_ind. intros s ->.
  apply H. intros t Ht. by apply (IH (String.length t)).
Qed.

Lemma str_app_nil (t : string) : "" +:+ t = t.
Proof. done. Qed.
Lemma str_app_cons a (s t : string) : String a s +:+ t = String a (s +:+ t).
Proof. done. Qed.
#[export] Hint Rewrite str_app_nil str_app_cons : mc_rw.

(** The case analysis of [chunks]: the empty string, or a first chunk and the rest. *)
Lemma chunks_cons a s :
  exists c r, chunks (String a s) = c :: chunks r /\ String a s = c_bytes c +:+ r /\
    (String.length r < String.length (String a s))%nat.
Proof.
  cbn. destruct (byte_of a <? 128). { do 2 eexists; split_and!; [done..|cbn; lia]. }
  destruct s as [|b s]. { exists (bad_chunk a), ""; cbn; split_and!; [done..|lia]. }
  destruct (is2 a b). { do 2 eexists; split_and!; [done..|cbn; lia]. }
  destruct s as [|c s]. { exists (bad_chunk a), (String b ""); cbn; split_and!; [done..|lia]. }
  destruct (is3 a b c). { do 2 eexists; split_and!; [done..|cbn; lia]. }
  destruct s as [|d s].
  { exists (bad_chunk a), (String b (String c "")); split_and!; [done..|cbn; lia]. }
  destruct (is4 a b c d). { do 2 eexists; split_and!; [done..|cbn; lia]. }
  exists (bad_chunk a), (String b (String c (String d s))); split_and!; [done..|cbn; lia].
Qed.

(** Decoding loses no byte. *)
Lemma concat_chunks_chunks s : concat_chunks (chunks s) = s.
Proof.
  induction s as [s IH] using string_len_ind. destruct s as [|a s]; [done|].
  destruct (chunks_cons a s) as (c & r & -> & Heq & Hlt).
  cbn [concat_chunks foldr]. fold (concat_chunks (chunks r)).
  rewrite (IH r Hlt). by rewrite Heq.
Qed.

Lemma length_append (s t : string) :
  String.length (s +:+ t) = (String.length s + String.length t)%nat.
Proof. induction s as [|a s IH]; [done|]. rewrite str_app_cons. cbn. by rewrite IH. Qed.

Lemma append_assoc (s t u : string) : (s +:+ t) +:+ u = s +:+ (t +:+ u).
Proof. induction s as [|a s IH]; [done|]. autorewrite with mc_rw. by rewrite IH. Qed.

Lemma append_empty_r (s : string) : s +:+ "" = s.
Proof. induction s as [|a s IH]; [done|]. autorewrite with mc_rw. by rewrite IH. Qed.

(** A string never has more runes than bytes, and an ASCII string has exactly as many. *)
Lemma RuneCount_le s : (0 <= RuneCountInString s <= len s)%Z.
Proof.
  unfold RuneCountInString, len. induction s as [s IH] using string_len_ind.
  destruct s as [|a s]; [cbn; lia|].
  destruct (chunks_cons a s) as (c & r & -> & Heq & Hlt).
  specialize (IH r Hlt). cbn [length]. lia.
Qed.

Lemma chunks_ascii s :
  is_ascii s = true -> chunks s = (fun a => Chunk (byte_of a) (String a "") true) <$> bytes_of s.
Proof.
  induction s as [|a s IH]; [done|]. cbn. intros [Ha Hs]%andb_true_iff.
  rewrite Ha. f_equal. by apply IH.
Qed.

Lemma length_bytes_of s : length (bytes_of s) = String.length s.
Proof. induction s; cbn; congruence. Qed.

Lemma RuneCount_ascii s : is_ascii s = true -> RuneCountInString s = len s.
Proof.
  intros H. unfold RuneCountInString, len. rewrite (chunks_ascii _ H), length_fmap.
  by rewrite length_bytes_of.
Qed.

Lemma ValidString_ascii s : is_ascii s = true -> ValidString s = true.
Proof.
  intros H. unfold ValidString. rewrite (chunks_ascii _ H). by induction (bytes_of s).
Qed.

Lemma string_of_bytes_of s : string_of (bytes_of s) = s.
Proof. induction s; cbn; congruence. Qed.

Lemma bytes_of_string_of l : bytes_of (string_of l) = l.
Proof. induction l; cbn; congruence. Qed.

Lemma length_string_of l : String.length (string_of l) = length l.
Proof. induction l; cbn; congruence. Qed.

Lemma length_str_take n s : (String.length (str_take n s) <= n)%nat.
Proof. revert s. induction n; intros [|a s]; cbn; [lia..|]. specialize (IHn s). lia. Qed.

Lemma str_take_drop n s : str_take n s +:+ str_drop n s = s.
Proof. revert s. induction n; intros [|a s]; cbn; try done. rewrite str_app_cons. by rewrite IHn. Qed.

(** Trimming leaves nothing to trim at either end. *)
Lemma trim_left_head l c r : trim_left l = c :: r -> IsSpace (c_rune c) = false.
Proof.
  induction l as [|d l IH]; cbn; [done|]. destruct (IsSpace (c_rune d)) eqn:E; [done|].
  congruence.
Qed.

Lemma trim_left_suffix l : exists k, l = k ++ trim_left l.
Proof.
  induction l as [|d l [k IH]]; cbn; [by exists []|].
  destruct (IsSpace (c_rune d)); [|by exists []].
  exists (d :: k). cbn. by rewrite <- IH.
Qed.

Lemma TrimSpace_ascii_nospace s :
  is_ascii s = true -> all_bytes (fun a => negb (IsSpace (byte_of a))) s = true ->
  TrimSpace s = s.
Proof.
  intros Ha Hs. unfold TrimSpace.
  assert (Hid : forall l : list chunk, Forall (fun c => IsSpace (c_rune c) = false) l -> trim_left l = l).
  { intros l Hl. destruct Hl as [|c l Hc Hl]; [done|]. cbn. by rewrite Hc. }
  assert (Hall : Forall (fun c => IsSpace (c_rune c) = false) (chunks s)).
  { rewrite (chunks_ascii _ Ha). clear Ha. induction s as [|a s IH]; [constructor|].
    cbn in Hs. apply andb_true_iff in Hs as [H1 H2]. constructor; [|by apply IH].
    cbn. by apply negb_true_iff. }
  rewrite (Hid _ Hall), (Hid (reverse _)); [|by apply Forall_reverse].
  rewrite reverse_involutive. apply concat_chunks_chunks.
Qed.

(** U+3000 is a space of three bytes. *)
Example TrimSpace_ex :
  TrimSpace ("  ab c" +:+ string_of (ascii_of_N <$> [227; 128; 128]) +:+ " ") = "ab c".
Proof. reflexivity. Qed.
Example RuneCount_ex : RuneCountInString "héé…" = 4%Z.
Proof. reflexivity. Qed.
Example Atoi_ex : (Atoi "20", Atoi "-7", Atoi "", Atoi "9223372036854775808", Atoi "1x")
  = (Some 20, Some (-7), None, None, None)%Z.
Proof. reflexivity. Qed.
Example path_ex : (path_Ext "a/b.tar.GZ", path_Base "/x/y.png/", path_Base "", path_Base "//")
  = (".GZ", "y.png", ".", "/").
Proof. reflexivity. Qed.
