(* ===== verification/Regexp.v ===== *)
(** * Anchored regular expressions

    The three patterns of the program ([usernameRe], [emailRe], [slugRe]) are anchored at both
    ends, so [MatchString] asks whether the whole string is in the pattern's language.  They
    use character classes, sequence, [*], [+] and [{n,m}].  The matcher works with derivatives;
    [matches_correct] shows it decides the denotation [in_re].  The classes are sets of ASCII
    characters or complements of such sets under [+], so matching bytes and matching runes
    agree. *)
From S2P Require Import Prelude GoStrings.
From Stdlib Require Import Ascii.

Inductive re :=
| Void
| Eps
| Cls (f : ascii -> bool)
| Seq (r1 r2 : re)
| Alt (r1 r2 : re)
| Star (r : re).

Definition Plus (r : re) : re := Seq r (Star r).

Fixpoint Times (n : nat) (r : re) : re :=
  match n with O => Eps | S n' => Seq r (Times n' r) end.

(** At most [n] repetitions. *)
Fixpoint UpTo (n : nat) (r : re) : re :=
  match n with O => Eps | S n' => Alt Eps (Seq r (UpTo n' r)) end.

(** [r{lo,hi}] *)
Definition Repeat (lo hi : nat) (r : re) : re := Seq (Times lo r) (UpTo (hi - lo) r).

Definition chr (a : ascii) : re := Cls (Ascii.eqb a).

(** ** The matcher *)

Fixpoint nullable (r : re) : bool :=
  match r with
  | Void | Cls _ => false
  | Eps | Star _ => true
  | Seq r1 r2 => nullable r1 && nullable r2
  | Alt r1 r2 => nullable r1 || nullable r2
  end.

(** Smart constructors keep derivatives small. *)
Definition seq_ (r1 r2 : re) : re :=
  match r1 with Void => Void | Eps => r2 | _ => Seq r1 r2 end.
Definition alt_ (r1 r2 : re) : re :=
  match r1, r2 with Void, _ => r2 | _, Void => r1 | _, _ => Alt r1 r2 end.

Fixpoint deriv (a : ascii) (r : re) : re :=
  match r with
  | Void | Eps => Void
  | Cls f => if f a then Eps else Void
  | Seq r1 r2 =>
      if nullable r1 then alt_ (seq_ (deriv a r1) r2) (deriv a r2)
      else seq_ (deriv a r1) r2
  | Alt r1 r2 => alt_ (deriv a r1) (deriv a r2)
  | Star r' => seq_ (deriv a r') (Star r')
  end.

Fixpoint matches (r : re) (s : string) : bool :=
  match s with
  | EmptyString => nullable r
  | String a s' => matches (deriv a r) s'
  end.

(** ** The language of an expression *)

Inductive in_re : re -> list ascii -> Prop :=
| in_eps : in_re Eps []
| in_cls f a : f a = true -> in_re (Cls f) [a]
| in_seq r1 r2 l1 l2 : in_re r1 l1 -> in_re r2 l2 -> in_re (Seq r1 r2) (l1 ++ l2)
| in_alt_l r1 r2 l : in_re r1 l -> in_re (Alt r1 r2) l
| in_alt_r r1 r2 l : in_re r2 l -> in_re (Alt r1 r2) l
| in_star_nil r : in_re (Star r) []
| in_star_cons r a l1 l2 :
    in_re r (a :: l1) -> in_re (Star r) l2 -> in_re (Star r) (a :: l1 ++ l2).

#[export] Hint Constructors in_re : mc.

Lemma in_void l : in_re Void l <-> False.
Proof. split; [inversion 1 | done]. Qed.

Lemma in_eps_iff l : in_re Eps l <-> l = [].
Proof. split; [by inversion 1 | intros ->; constructor]. Qed.

Lemma in_cls_iff f l : in_re (Cls f) l <-> exists a, l = [a] /\ f a = true.
Proof. split; [inversion 1; eauto | intros (a & -> & H); by constructor]. Qed.

Lemma in_seq_iff r1 r2 l :
  in_re (Seq r1 r2) l <-> exists l1 l2, l = l1 ++ l2 /\ in_re r1 l1 /\ in_re r2 l2.
Proof. split; [inversion 1; eauto | intros (l1 & l2 & -> & H1 & H2); by constructor]. Qed.

Lemma in_alt_iff r1 r2 l : in_re (Alt r1 r2) l <-> in_re r1 l \/ in_re r2 l.
Proof. split; [inversion 1; auto | intros [H|H]; auto with mc]. Qed.

Lemma in_star_iff r l :
  in_re (Star r) l <->
  l = [] \/ exists a l1 l2, l = a :: l1 ++ l2 /\ in_re r (a :: l1) /\ in_re (Star r) l2.
Proof.
  split; [inversion 1; subst; eauto 10|].
  intros [->|(a & l1 & l2 & -> & H1 & H2)]; auto with mc.
Qed.

Lemma seq_in r1 r2 l : in_re (seq_ r1 r2) l <-> in_re (Seq r1 r2) l.
Proof.
  destruct r1; cbn; try done; rewrite in_seq_iff.
  - rewrite in_void. split; [done|]. by intros (l1 & l2 & _ & ?%in_void & _).
  - split; [intros H; exists [], l; auto with mc|].
    by intros (l1 & l2 & -> & ->%in_eps_iff & H).
Qed.

Lemma alt_in r1 r2 l : in_re (alt_ r1 r2) l <-> in_re (Alt r1 r2) l.
Proof.
  destruct r1, r2; cbn; try done; symmetry; rewrite in_alt_iff, ?in_void; tauto.
Qed.

Lemma nullable_correct r : nullable r = true <-> in_re r [].
Proof.
  induction r; cbn.
  - by rewrite in_void.
  - split; auto with mc.
  - rewrite in_cls_iff. split; [done|]. by intros (b & ? & _).
  - rewrite andb_true_iff, in_seq_iff, IHr1, IHr2. split.
    + intros [H1 H2]. by exists [], [].
    + intros (l1 & l2 & Heq & H1 & H2). symmetry in Heq.
      by apply app_eq_nil in Heq as [-> ->].
  - by rewrite orb_true_iff, in_alt_iff, IHr1, IHr2.
  - split; auto with mc.
Qed.

Lemma deriv_correct a r l : in_re (deriv a r) l <-> in_re r (a :: l).
Proof.
  revert l. induction r as [| |f|r1 IH1 r2 IH2|r1 IH1 r2 IH2|r IH]; intros l; cbn.
  - by rewrite !in_void.
  - rewrite in_void, in_eps_iff. done.
  - rewrite in_cls_iff. destruct (f a) eqn:E; rewrite ?in_eps_iff, ?in_void.
    + split; [intros ->; by exists a|]. by intros (b & [= -> ->] & _).
    + split; [done|]. intros (b & [= -> ->] & ?). congruence.
  - assert (Hs : in_re (seq_ (deriv a r1) r2) l <->
      exists l1 l2, l = l1 ++ l2 /\ in_re r1 (a :: l1) /\ in_re r2 l2).
    { rewrite seq_in, in_seq_iff. by setoid_rewrite IH1. }
    rewrite in_seq_iff. destruct (nullable r1) eqn:En.
    + rewrite alt_in, in_alt_iff, Hs, IH2. split.
      * intros [(l1 & l2 & -> & H1 & H2)|H].
        { by exists (a :: l1), l2. }
        exists [], (a :: l). split_and!; [done|by apply nullable_correct|done].
      * intros (l1 & l2 & Heq & H1 & H2). destruct l1 as [|b l1]; simplify_eq/=; eauto 10.
    + rewrite Hs. split.
      * intros (l1 & l2 & -> & H1 & H2). by exists (a :: l1), l2.
      * intros (l1 & l2 & Heq & H1 & H2). destruct l1 as [|b l1]; simplify_eq/=; eauto 10.
        apply nullable_correct in H1. congruence.
  - by rewrite alt_in, !in_alt_iff, IH1, IH2.
  - rewrite seq_in, in_seq_iff, in_star_iff. setoid_rewrite IH. split.
    + intros (l1 & l2 & -> & H1 & H2). right. by exists a, l1, l2.
    + intros [|(b & l1 & l2 & Heq & H1 & H2)]; [done|]. simplify_eq. eauto.
Qed.

(** The derivative matcher decides membership in the language. *)
Lemma matches_correct r s : matches r s = true <-> in_re r (bytes_of s).
Proof.
  revert r. induction s as [|a s IH]; intros r; cbn.
  - apply nullable_correct.
  - by rewrite IH, deriv_correct.
Qed.

(** ** Languages of repeated classes *)

Lemma in_star_cls f l : in_re (Star (Cls f)) l <-> Forall (fun a => f a = true) l.
Proof.
  split.
  - intros H. remember (Star (Cls f)) as r eqn:Hr. induction H; simplify_eq.
    + constructor.
    + match goal with H : in_re (Cls _) _ |- _ => apply in_cls_iff in H as (b & [= -> ->] & Hb) end.
      cbn. constructor; auto.
  - induction 1 as [|a l Ha Hl IH]; [constructor|].
    apply (in_star_cons _ a [] l); [by constructor|done].
Qed.

Lemma in_plus_cls f l :
  in_re (Plus (Cls f)) l <-> l <> [] /\ Forall (fun a => f a = true) l.
Proof.
  unfold Plus. rewrite in_seq_iff. setoid_rewrite in_cls_iff. setoid_rewrite in_star_cls. split.
  - intros (l1 & l2 & -> & (a & -> & Ha) & H2). by split; [done|constructor].
  - intros [Hne H]. destruct H as [|a l Ha Hl]; [done|]. exists [a], l; eauto.
Qed.

Lemma in_times_cls n f l :
  in_re (Times n (Cls f)) l <-> length l = n /\ Forall (fun a => f a = true) l.
Proof.
  revert l. induction n as [|n IH]; intros l; cbn.
  - rewrite in_eps_iff. split; [intros ->; done|]. by intros [->%nil_length_inv _].
  - rewrite in_seq_iff. setoid_rewrite in_cls_iff. setoid_rewrite IH. split.
    + intros (l1 & l2 & -> & (a & -> & Ha) & Hlen & Hf). cbn. auto.
    + intros [Hlen Hf]. destruct Hf as [|a l Ha Hl]; [done|]. exists [a], l; cbn in Hlen; split_and!; [done|by exists a|lia|done].
Qed.

Lemma in_upto_cls n f l :
  in_re (UpTo n (Cls f)) l <-> (length l <= n)%nat /\ Forall (fun a => f a = true) l.
Proof.
  revert l. induction n as [|n IH]; intros l; cbn.
  - rewrite in_eps_iff. split; [intros ->; done|]. intros [H _]. destruct l; cbn in H; [done|lia].
  - rewrite in_alt_iff, in_eps_iff, in_seq_iff. setoid_rewrite in_cls_iff. setoid_rewrite IH.
    split.
    + intros [->|(l1 & l2 & -> & (a & -> & Ha) & Hlen & Hf)]; cbn; split; auto with lia.
    + intros [Hlen Hf]. destruct Hf as [|a l Ha Hl]; [by left|]. right.
      exists [a], l; cbn in Hlen; split_and!; eauto with lia.
Qed.

Lemma in_repeat_cls lo hi f l :
  (lo <= hi)%nat ->
  in_re (Repeat lo hi (Cls f)) l <->
  (lo <= length l <= hi)%nat /\ Forall (fun a => f a = true) l.
Proof.
  intros Hle. unfold Repeat. rewrite in_seq_iff.
  setoid_rewrite in_times_cls. setoid_rewrite in_upto_cls. split.
  - intros (l1 & l2 & -> & [<- H1] & H2 & H3). rewrite length_app.
    split; [lia|by apply Forall_app].
  - intros [Hlen Hf]. exists (take lo l), (drop lo l). rewrite take_drop. split_and!; [done|..].
    + rewrite length_take. lia.
    + by apply Forall_take.
    + rewrite length_drop. lia.
    + by apply Forall_drop.
Qed.

Lemma in_chr_iff a l : in_re (chr a) l <-> l = [a].
Proof.
  unfold chr. rewrite in_cls_iff. split.
  - intros (b & -> & ->%Ascii.eqb_eq). done.
  - intros ->. exists a. by rewrite Ascii.eqb_refl.
Qed.
