(* ===== verification/GoErrors.v ===== *)
(** * Go error values

    [errors.New] values are compared by identity: one constructor of [sentinel] each.
    [fmt.Errorf] with [%w] wraps a cause; [errors.Is] walks the chain of causes.  A
    [*pgconn.PgError] carries its SQLSTATE code. *)
From S2P Require Import Prelude.

Inductive sentinel :=
(* internal/store *)
| store_ErrNotFound | store_ErrConflict
(* internal/services/errors.go *)
| ErrNotFound | ErrGroupNotFound | ErrThreadNotFound | ErrPostNotFound
| ErrAttachmentNotFound | ErrForbidden | ErrInvalidInput | ErrConflict | ErrThreadLocked
| ErrNotEmpty | ErrFileTooLarge | ErrUnsupportedType
(* internal/services/auth.go *)
| ErrInvalidCredentials | ErrInvalidRefresh | ErrUserNotActive | ErrUserNotFound
| ErrValidation | ErrUsernameTaken | ErrEmailTaken
(* internal/services/install.go *)
| ErrAlreadyInstalled
(* internal/auth *)
| ErrNoClaims | ErrInvalidPassword
(* pgx *)
| pgx_ErrNoRows
(* net/http *)
| http_ErrServerClosed.

#[export] Instance sentinel_eq_dec : EqDecision sentinel.
Proof. solve_decision. Defined.

Inductive error :=
| New (s : sentinel)
| PgErr (code : string)
| Wrapf (before : string) (cause : error) (after : string)
| Plain (msg : string).

#[export] Instance error_eq_dec : EqDecision error.
Proof. solve_decision. Defined.

Coercion New : sentinel >-> error.

(** [errors.Is(err, target)] for a sentinel target. *)
Fixpoint errors_Is (e : error) (target : sentinel) : bool :=
  match e with
  | New s => bool_decide (s = target)
  | Wrapf _ c _ => errors_Is c target
  | PgErr _ | Plain _ => false
  end.

(** The text of a sentinel, [None] for those of the libraries. *)
Definition sentinel_text (s : sentinel) : option string :=
  match s with
  | store_ErrNotFound | ErrNotFound => Some "not found"
  | store_ErrConflict | ErrConflict => Some "conflict"
  | ErrGroupNotFound => Some "group not found"
  | ErrThreadNotFound => Some "thread not found"
  | ErrPostNotFound => Some "post not found"
  | ErrAttachmentNotFound => Some "attachment not found"
  | ErrForbidden => Some "forbidden"
  | ErrInvalidInput | ErrValidation => Some "validation failed"
  | ErrThreadLocked => Some "thread locked"
  | ErrNotEmpty => Some "resource not empty"
  | ErrFileTooLarge => Some "file too large"
  | ErrUnsupportedType => Some "unsupported content type"
  | ErrInvalidCredentials => Some "invalid credentials"
  | ErrInvalidRefresh => Some "invalid refresh token"
  | ErrUserNotActive => Some "user is not active"
  | ErrUserNotFound => Some "user not found"
  | ErrUsernameTaken => Some "username taken"
  | ErrEmailTaken => Some "email taken"
  | ErrAlreadyInstalled => Some "already installed"
  | ErrNoClaims => Some "no authenticated user"
  | ErrInvalidPassword => Some "invalid password"
  | pgx_ErrNoRows | http_ErrServerClosed => None
  end.

(** [err.Error()], [None] when a part of it is the text of a library's error. *)
Fixpoint Error (e : error) : option string :=
  match e with
  | New s => sentinel_text s
  | Wrapf before c after => (fun t => before +:+ t +:+ after) <$> Error c
  | PgErr _ | Plain _ => None
  end.

(** [errors.As(err, &pgErr)] for [*pgconn.PgError]: the code of the first one in the chain. *)
Fixpoint errors_As_PgError (e : error) : option string :=
  match e with
  | PgErr code => Some code
  | Wrapf _ c _ => errors_As_PgError c
  | New _ | Plain _ => None
  end.

(** SQLSTATE codes the model raises. *)
Definition unique_violation : string := "23505".
Definition foreign_key_violation : string := "23503".
Definition numeric_out_of_range : string := "22003".
Definition undefined_table : string := "42P01".
Definition bad_text : string := "22021".
Definition bad_inet : string := "22P02".
Definition bad_jsonb : string := "22P05".
Definition bad_limit : string := "2201W".
Definition bad_offset : string := "2201X".

(** [isUniqueViolation] of store/user.go; a nil error is [None]. *)
Definition isUniqueViolation (err : option error) : bool :=
  match err with
  | Some e => match errors_As_PgError e with
              | Some code => String.eqb code "23505"
              | None => false
              end
  | None => false
  end.

(** [isNoRows] of store/group.go *)
Definition isNoRows (e : error) : bool := errors_Is e pgx_ErrNoRows.

(** ** Results: Go's [(T, error)] pairs of which exactly one component is meaningful *)

Inductive result (A : Type) :=
| Ok (a : A)
| Err (e : error).
Arguments Ok {A} a.
Arguments Err {A} e.

Definition rbind {A B} (r : result A) (k : A -> result B) : result B :=
  match r with Ok a => k a | Err e => Err e end.

Definition rmap_err {A} (f : error -> error) (r : result A) : result A :=
  match r with Ok a => Ok a | Err e => Err (f e) end.

Definition is_ok {A} (r : result A) : bool := match r with Ok _ => true | Err _ => false end.

Definition err_of {A} (r : result A) : option error :=
  match r with Ok _ => None | Err e => Some e end.

Lemma errors_Is_New s t : errors_Is (New s) t = bool_decide (s = t).
Proof. done. Qed.

Lemma errors_Is_Wrapf b e a t : errors_Is (Wrapf b e a) t = errors_Is e t.
Proof. done. Qed.

Lemma errors_Is_refl s : errors_Is (New s) s = true.
Proof. by apply bool_decide_eq_true. Qed.
#[export] Hint Rewrite errors_Is_Wrapf errors_Is_refl : mc_rw.
