(* ===== verification/Models.v ===== *)
(** * Domain structs (internal/models)

    One module per struct; the row of a table and the struct scanned from it have the same
    fields.  Go's [int] columns are [integer] columns, kept as [Z] with their range checked
    where a statement writes them. *)
From S2P Require Import Prelude.

Module User.
Record t := Mk {
  ID : uuid; Username : string; Email : string; PasswordHash : string;
  DisplayName : string; AvatarURL : string; Status : string;
  CreatedAt : time; UpdatedAt : time; LastSeenAt : option time }.
End User.

Module UserWithRoles.
Record t := Mk { theUser : User.t; Roles : list string }.
End UserWithRoles.

Module NewUser.
Record t := Mk { Username : string; Email : string; PasswordHash : string;
  DisplayName : string }.
End NewUser.

Module Role.
Record t := Mk { ID : uuid; Key : string; Name : string; Description : string }.
End Role.

Definition UserStatusActive : string := "active".
Definition UserStatusBanned : string := "banned".
Definition UserStatusPending : string := "pending".
Definition RoleAdmin : string := "admin".
Definition RoleModerator : string := "moderator".
Definition RoleMember : string := "member".

Module Session.
Record t := Mk { ID : uuid; UserID : uuid; TokenHash : string; UserAgent : string;
  IP : option string; CreatedAt : time; ExpiresAt : time; RevokedAt : option time }.
End Session.

Module NewSession.
Record t := Mk { UserID : uuid; TokenHash : string; UserAgent : string; IP : string;
  ExpiresAt : time }.
End NewSession.

Module Group.
Record t := Mk { ID : uuid; Name : string; Slug : string; Description : string;
  ParentID : option uuid; SortOrder : Z; CreatedAt : time; UpdatedAt : time }.
End Group.

Module NewGroup.
Record t := Mk { Name : string; Slug : string; Description : string;
  ParentID : option uuid; SortOrder : Z }.
End NewGroup.

Module Thread.
Record t := Mk { ID : uuid; GroupID : uuid; AuthorID : uuid; Title : string;
  Pinned : bool; Locked : bool; Views : Z; PostCount : Z; LastPostAt : option time;
  CreatedAt : time; UpdatedAt : time }.
End Thread.

Module ThreadSummary.
Record t := Mk { theThread : Thread.t; AuthorUsername : string; AuthorDisplay : string }.
End ThreadSummary.

Module NewThread.
Record t := Mk { GroupID : uuid; AuthorID : uuid; Title : string }.
End NewThread.

Module Post.
Record t := Mk { ID : uuid; ThreadID : uuid; AuthorID : uuid; Body : string;
  EditedByID : option uuid; EditedAt : option time; CreatedAt : time; UpdatedAt : time }.
End Post.

Module PostSummary.
Record t := Mk { thePost : Post.t; AuthorUsername : string; AuthorDisplay : string }.
End PostSummary.

Module NewPost.
Record t := Mk { ThreadID : uuid; AuthorID : uuid; Body : string }.
End NewPost.

Module PrivateMessage.
Record t := Mk { ID : uuid; SenderID : uuid; RecipientID : uuid; Body : string;
  ReadAt : option time; CreatedAt : time }.
End PrivateMessage.

Module NewPrivateMessage.
Record t := Mk { SenderID : uuid; RecipientID : uuid; Body : string }.
End NewPrivateMessage.

Module PMConversation.
Record t := Mk { theMessage : PrivateMessage.t; SenderUsername : string;
  SenderDisplay : string }.
End PMConversation.

(** JSON values the program stores in [jsonb] columns, by value: the text that
    encoding/json writes and reads is JsonText.v's. *)
Inductive json :=
| JBool (b : bool)
| JString (s : string)
| JObject (fields : list (string * json)).

Module Notification.
Record t := Mk { ID : uuid; UserID : uuid; Type_ : string; Payload : json;
  ReadAt : option time; CreatedAt : time }.
End Notification.

Module NewNotification.
Record t := Mk { UserID : uuid; Type_ : string; Payload : option json }.
End NewNotification.

Module Attachment.
Record t := Mk { ID : uuid; OwnerID : uuid; PostID : option uuid; Filename : string;
  ContentType : string; SizeBytes : Z; StorageKey : string; PublicURL : string;
  CreatedAt : time; UpdatedAt : time }.
End Attachment.

Module NewAttachment.
Record t := Mk { OwnerID : uuid; PostID : option uuid; Filename : string;
  ContentType : string; SizeBytes : Z; StorageKey : string; PublicURL : string }.
End NewAttachment.

Module AttachmentWithOwner.
Record t := Mk { theAttachment : Attachment.t; OwnerUsername : string }.
End AttachmentWithOwner.
