(* ===== verification/Db.v ===== *)
(** * The database (migrations/*.sql)

    The schema of the migrations as a record of tables, each a finite map from primary key to
    row, and the meaning of the SQL fragments the stores use: selection, ordering and paging,
    uniqueness and foreign-key checks, cascades.  A statement is a function from what the
    server supplies (the transaction's timestamp, a generated UUID, a scan order) and the
    current tables to an error or to a value and new tables; a failing statement changes
    nothing.

    [db_ok] is the integrity the schema declares: primary keys, unique indexes and foreign
    keys.  The lemmas after it say how each kind of row change keeps each clause. *)
From S2P Require Import Prelude GoStrings GoErrors Models.

(** ** Tables *)

Record setting_row := SettingRow { set_value : json; set_updated_at : time }.

Record database := Database {
  settings : gmap string setting_row;
  users : gmap uuid User.t;
  roles : gmap uuid Role.t;
  user_roles : gset (uuid * uuid);
  user_sessions : gmap uuid Session.t;
  groups : gmap uuid Group.t;
  threads : gmap uuid Thread.t;
  posts : gmap uuid Post.t;
  attachments : gmap uuid Attachment.t;
  private_messages : gmap uuid PrivateMessage.t;
  notifications : gmap uuid Notification.t }.

Definition set_settings x d := Database x (users d) (roles d) (user_roles d) (user_sessions d)
  (groups d) (threads d) (posts d) (attachments d) (private_messages d) (notifications d).
Definition set_users x d := Database (settings d) x (roles d) (user_roles d) (user_sessions d)
  (groups d) (threads d) (posts d) (attachments d) (private_messages d) (notifications d).
Definition set_user_roles x d := Database (settings d) (users d) (roles d) x (user_sessions d)
  (groups d) (threads d) (posts d) (attachments d) (private_messages d) (notifications d).
Definition set_user_sessions x d := Database (settings d) (users d) (roles d) (user_roles d) x
  (groups d) (threads d) (posts d) (attachments d) (private_messages d) (notifications d).
Definition set_groups x d := Database (settings d) (users d) (roles d) (user_roles d)
  (user_sessions d) x (threads d) (posts d) (attachments d) (private_messages d)
  (notifications d).
Definition set_threads x d := Database (settings d) (users d) (roles d) (user_roles d)
  (user_sessions d) (groups d) x (posts d) (attachments d) (private_messages d)
  (notifications d).
Definition set_posts x d := Database (settings d) (users d) (roles d) (user_roles d)
  (user_sessions d) (groups d) (threads d) x (attachments d) (private_messages d)
  (notifications d).
Definition set_attachments x d := Database (settings d) (users d) (roles d) (user_roles d)
  (user_sessions d) (groups d) (threads d) (posts d) x (private_messages d) (notifications d).
Definition set_private_messages x d := Database (settings d) (users d) (roles d) (user_roles d)
  (user_sessions d) (groups d) (threads d) (posts d) (attachments d) x (notifications d).
Definition set_notifications x d := Database (settings d) (users d) (roles d) (user_roles d)
  (user_sessions d) (groups d) (threads d) (posts d) (attachments d) (private_messages d) x.

(** ** What PostgreSQL supplies

    [lower] is the server's locale-dependent case folding, [text_leb] its collation order;
    [inet_text] is the text form of an address literal, [None] when it is not one. *)
Class Postgres := {
  lower : string -> string;
  text_leb : string -> string -> bool;
  inet_text : string -> option string }.

(** Per statement: [now()], [gen_random_uuid()], and the order in which a scan without
    [ORDER BY], or among ties, yields rows. *)
Record server := Server {
  sv_now : time;
  sv_uuid : uuid;
  sv_scan : forall R : Type, list R -> list R }.

Definition stmt (A : Type) : Type := server -> database -> result (A * database).

(** Text parameters must be valid UTF-8 without NUL bytes. *)
Definition text_ok (s : string) : bool :=
  ValidString s && all_bytes (fun a => negb (is_byte 0 a)) s.
Definition texts_ok (l : list string) : bool := forallb text_ok l.

(** [Row.Scan]: no row is [pgx.ErrNoRows]. *)
Definition Scan {A} (row : result (option A)) : result A :=
  match row with
  | Ok (Some a) => Ok a
  | Ok None => Err pgx_ErrNoRows
  | Err e => Err e
  end.

(** A checked write: the parameters' encoding, then unique indexes, then foreign keys. *)
Definition checked {A} (texts uniques fks : bool) (r : result (A * database))
    : result (A * database) :=
  if negb texts then Err (PgErr bad_text)
  else if negb uniques then Err (PgErr unique_violation)
  else if negb fks then Err (PgErr foreign_key_violation)
  else r.

(** ** Reading tables *)

Section rows.
Context {R : Type}.

Definition rows (m : gmap uuid R) : list R := (map_to_list m).*2.

(** [SELECT ... WHERE f] *)
Definition select (f : R -> bool) (m : gmap uuid R) : list R := List.filter f (rows m).

(** [SELECT count( * ) ... WHERE f] *)
Definition count (f : R -> bool) (m : gmap uuid R) : Z := Z.of_nat (length (select f m)).

Definition exists_row (f : R -> bool) (m : gmap uuid R) : bool := existsb f (rows m).

(** No row other than [k]'s has the value of [f] that [r] has. *)
Definition unique_ok {K} `{EqDecision K} (f : R -> K) (k : uuid) (r : R)
    (m : gmap uuid R) : bool :=
  negb (existsb (fun p => negb (N.eqb p.1 k) && bool_decide (f p.2 = f r)) (map_to_list m)).

Definition has_key (m : gmap uuid R) (k : uuid) : bool := bool_decide (is_Some (m !! k)).

Definition has_key_opt (m : gmap uuid R) (k : option uuid) : bool :=
  match k with Some u => has_key m u | None => true end.

(** A boolean comparison as a decidable relation. *)
Definition rel (leb : R -> R -> bool) : relation R := fun a b => leb a b = true.

#[export] Instance rel_dec leb : RelDecision (rel leb).
Proof. intros a b. unfold rel. apply _. Defined.

(** [ORDER BY] and [LIMIT]/[OFFSET]; negative bounds are errors. *)
Definition order_by (leb : R -> R -> bool) (l : list R) : list R :=
  merge_sort (rel leb) l.

Definition page (limit offset : Z) (l : list R) : result (list R) :=
  if (offset <? 0)%Z then Err (PgErr bad_offset)
  else if (limit <? 0)%Z then Err (PgErr bad_limit)
  else Ok (take (Z.to_nat limit) (drop (Z.to_nat offset) l)).

End rows.

(** [FROM t JOIN users u ON u.id = f]: rows whose user is missing drop out. *)
Definition join_users {R S} (f : R -> uuid) (mk : R -> User.t -> S) (us : gmap uuid User.t)
    (l : list R) : list S :=
  omap (fun r => mk r <$> us !! f r) l.

(** [COALESCE(u.display_name, u.username)]; the first column is NOT NULL. *)
Definition COALESCE {A} (a : option A) (b : A) : A := default b a.
Definition display_of (u : User.t) : string :=
  COALESCE (Some (User.DisplayName u)) (User.Username u).

(** A delete cascades through a foreign key: the rows whose key is gone go too, or lose the
    reference. *)
Definition keep {R} (f : R -> bool) (m : gmap uuid R) : gmap uuid R :=
  filter (fun p => f p.2 = true) m.

(** ** Integrity *)

Section integrity.
Context {R S : Type}.

Definition keyed (ID : R -> uuid) (m : gmap uuid R) : Prop :=
  forall k r, m !! k = Some r -> ID r = k.

Definition unique {K} (f : R -> K) (m : gmap uuid R) : Prop :=
  forall i j r s, m !! i = Some r -> m !! j = Some s -> f r = f s -> i = j.

Definition fk (f : R -> uuid) (m : gmap uuid R) (m' : gmap uuid S) : Prop :=
  forall k r, m !! k = Some r -> is_Some (m' !! f r).

Definition fk_opt (f : R -> option uuid) (m : gmap uuid R) (m' : gmap uuid S) : Prop :=
  forall k r u, m !! k = Some r -> f r = Some u -> is_Some (m' !! u).

End integrity.

Record db_ok `{Postgres} (d : database) : Prop := {
  ok_users : keyed User.ID (users d);
  ok_users_name : unique (fun u => lower (User.Username u)) (users d);
  ok_users_email : unique User.Email (users d);
  ok_roles : keyed Role.ID (roles d);
  ok_roles_key : unique Role.Key (roles d);
  ok_user_roles : forall p, p ∈ user_roles d ->
    is_Some (users d !! p.1) /\ is_Some (roles d !! p.2);
  ok_sessions : keyed Session.ID (user_sessions d);
  ok_sessions_hash : unique Session.TokenHash (user_sessions d);
  ok_sessions_user : fk Session.UserID (user_sessions d) (users d);
  ok_groups : keyed Group.ID (groups d);
  ok_groups_name : unique Group.Name (groups d);
  ok_groups_slug : unique Group.Slug (groups d);
  ok_groups_parent : fk_opt Group.ParentID (groups d) (groups d);
  ok_threads : keyed Thread.ID (threads d);
  ok_threads_group : fk Thread.GroupID (threads d) (groups d);
  ok_threads_author : fk Thread.AuthorID (threads d) (users d);
  ok_posts : keyed Post.ID (posts d);
  ok_posts_thread : fk Post.ThreadID (posts d) (threads d);
  ok_posts_author : fk Post.AuthorID (posts d) (users d);
  ok_posts_editor : fk_opt Post.EditedByID (posts d) (users d);
  ok_attachments : keyed Attachment.ID (attachments d);
  ok_attachments_key : unique Attachment.StorageKey (attachments d);
  ok_attachments_owner : fk Attachment.OwnerID (attachments d) (users d);
  ok_attachments_post : fk_opt Attachment.PostID (attachments d) (posts d);
  ok_messages : keyed PrivateMessage.ID (private_messages d);
  ok_messages_sender : fk PrivateMessage.SenderID (private_messages d) (users d);
  ok_messages_recipient : fk PrivateMessage.RecipientID (private_messages d) (users d);
  ok_notifications : keyed Notification.ID (notifications d);
  ok_notifications_user : fk Notification.UserID (notifications d) (users d) }.

(** ** Deleting with cascades

    [ON DELETE CASCADE] drops the rows whose parent is gone; [ON DELETE SET NULL] clears the
    reference. *)

Definition clear_post (ps : gmap uuid Post.t) (a : Attachment.t) : Attachment.t :=
  if has_key_opt ps (Attachment.PostID a) then a else
  Attachment.Mk (Attachment.ID a) (Attachment.OwnerID a) None (Attachment.Filename a)
    (Attachment.ContentType a) (Attachment.SizeBytes a) (Attachment.StorageKey a)
    (Attachment.PublicURL a) (Attachment.CreatedAt a) (Attachment.UpdatedAt a).

Definition clear_parent (gs : gmap uuid Group.t) (g : Group.t) : Group.t :=
  if has_key_opt gs (Group.ParentID g) then g else
  Group.Mk (Group.ID g) (Group.Name g) (Group.Slug g) (Group.Description g) None
    (Group.SortOrder g) (Group.CreatedAt g) (Group.UpdatedAt g).

(** Replace the posts and clear dangling [attachments.post_id]. *)
Definition cascade_posts (ps : gmap uuid Post.t) (d : database) : database :=
  set_attachments (clear_post ps <$> attachments d) (set_posts ps d).

(** Replace the threads and drop the posts of threads that are gone. *)
Definition cascade_threads (ts : gmap uuid Thread.t) (d : database) : database :=
  cascade_posts (keep (fun p => has_key ts (Post.ThreadID p)) (posts d)) (set_threads ts d).

(** Replace the groups, clear dangling [groups.parent_id], drop the threads of groups that
    are gone. *)
Definition cascade_groups (gs : gmap uuid Group.t) (d : database) : database :=
  cascade_threads (keep (fun t => has_key gs (Thread.GroupID t)) (threads d))
    (set_groups (clear_parent gs <$> gs) d).

Definition delete_post (k : uuid) (d : database) : database :=
  cascade_posts (delete k (posts d)) d.
Definition delete_thread (k : uuid) (d : database) : database :=
  cascade_threads (delete k (threads d)) d.
Definition delete_group (k : uuid) (d : database) : database :=
  cascade_groups (delete k (groups d)) d.

(** ** The tables after the migrations: empty but for the three seeded roles. *)
Definition migrated (r1 r2 r3 : uuid) : database :=
  Database ∅ ∅
    (<[r1 := Role.Mk r1 "admin" "Administrator"
        "Full access to administration and moderation"]>
    (<[r2 := Role.Mk r2 "moderator" "Moderator" "Content moderation, no system settings"]>
    {[r3 := Role.Mk r3 "member" "Member" "Regular registered user"]}))
    ∅ ∅ ∅ ∅ ∅ ∅ ∅ ∅.

(** ** Lemmas: reading *)

Section row_lemmas.
Context {R : Type}.
Implicit Types (m : gmap uuid R) (f : R -> bool).

Lemma elem_rows m r : r ∈ rows m <-> exists k, m !! k = Some r.
Proof.
  unfold rows. rewrite list_elem_of_fmap. split.
  - intros ([k r'] & -> & H%elem_of_map_to_list). by exists k.
  - intros [k H]. exists (k, r). split; [done|]. by apply elem_of_map_to_list.
Qed.

Lemma elem_select f m r : r ∈ select f m <-> f r = true /\ exists k, m !! k = Some r.
Proof.
  unfold select. rewrite list_elem_of_In, List.filter_In, <- list_elem_of_In, elem_rows. tauto.
Qed.

Lemma exists_row_true f m :
  exists_row f m = true <-> exists k r, m !! k = Some r /\ f r = true.
Proof.
  unfold exists_row. rewrite existsb_true_iff. setoid_rewrite elem_rows. naive_solver.
Qed.

Lemma exists_row_false f m :
  exists_row f m = false <-> forall k r, m !! k = Some r -> f r = false.
Proof.
  unfold exists_row. rewrite existsb_false_iff. setoid_rewrite elem_rows. naive_solver.
Qed.

Lemma unique_ok_true {K} `{EqDecision K} (g : R -> K) k r m :
  unique_ok g k r m = true <->
  forall j s, m !! j = Some s -> j <> k -> g s <> g r.
Proof.
  unfold unique_ok. rewrite negb_true_iff, existsb_false_iff. split.
  - intros H j s Hj Hne Heq. specialize (H (j, s)). cbn in H.
    rewrite elem_of_map_to_list in H. specialize (H Hj).
    apply andb_false_iff in H as [H%negb_false_iff%N.eqb_eq|H%bool_decide_eq_false]; done.
  - intros H [j s] Hj%elem_of_map_to_list. cbn. apply andb_false_iff.
    destruct (decide (j = k)) as [->|Hne].
    + left. by rewrite N.eqb_refl.
    + right. apply bool_decide_eq_false. eauto.
Qed.

Lemma has_key_true m k : has_key m k = true <-> is_Some (m !! k).
Proof. apply bool_decide_eq_true. Qed.

Lemma has_key_false m k : has_key m k = false <-> m !! k = None.
Proof. unfold has_key. rewrite bool_decide_eq_false. by rewrite eq_None_not_Some. Qed.

Lemma rows_insert m k r : m !! k = None -> rows (<[k:=r]> m) ≡ₚ r :: rows m.
Proof. intros H. unfold rows. by rewrite map_to_list_insert by done. Qed.

Lemma rows_replace m k r0 r :
  m !! k = Some r0 -> exists l, rows m ≡ₚ r0 :: l /\ rows (<[k:=r]> m) ≡ₚ r :: l.
Proof.
  intros H. exists (rows (delete k m)). split.
  - rewrite <- rows_insert by apply lookup_delete_eq. by rewrite insert_delete_id.
  - rewrite <- rows_insert by apply lookup_delete_eq. by rewrite insert_delete_eq.
Qed.

Lemma filter_Permutation f (l l' : list R) :
  l ≡ₚ l' -> List.filter f l ≡ₚ List.filter f l'.
Proof.
  induction 1 as [|x l l' H IH|x y l|l l' l'' H1 IH1 H2 IH2]; cbn.
  - done.
  - destruct (f x); by rewrite IH.
  - destruct (f x), (f y); try done. apply perm_swap.
  - by rewrite IH1.
Qed.

Lemma select_insert f m k r :
  m !! k = None -> select f (<[k:=r]> m) ≡ₚ if f r then r :: select f m else select f m.
Proof.
  intros H. unfold select. rewrite (filter_Permutation _ _ _ (rows_insert _ _ r H)).
  cbn. by destruct (f r).
Qed.

Lemma select_delete f m k r :
  m !! k = Some r ->
  select f m ≡ₚ if f r then r :: select f (delete k m) else select f (delete k m).
Proof.
  intros H. rewrite <- (insert_delete_id _ _ _ H) at 1.
  apply select_insert, lookup_delete_eq.
Qed.

Lemma count_insert f m k r :
  m !! k = None -> count f (<[k:=r]> m) = ((if f r then 1 else 0) + count f m)%Z.
Proof.
  intros H. unfold count. rewrite (Permutation_length (select_insert f m k r H)).
  destruct (f r); cbn [length]; lia.
Qed.

Lemma count_delete f m k r :
  m !! k = Some r -> count f (delete k m) = (count f m - (if f r then 1 else 0))%Z.
Proof.
  intros H. unfold count. rewrite (Permutation_length (select_delete f m k r H)).
  destruct (f r); cbn [length]; lia.
Qed.

(** Replacing a row by one with the same value of the predicate keeps the count. *)
Lemma count_replace f m k r0 r :
  m !! k = Some r0 -> f r = f r0 -> count f (<[k:=r]> m) = count f m.
Proof.
  intros H Hf. destruct (rows_replace m k r0 r H) as (l & H1 & H2). unfold count, select.
  rewrite (Permutation_length (filter_Permutation f _ _ H1)).
  rewrite (Permutation_length (filter_Permutation f _ _ H2)). cbn. rewrite Hf.
  by destruct (f r0).
Qed.

Lemma count_nonneg f m : (0 <= count f m)%Z.
Proof. unfold count. lia. Qed.

Lemma count_zero f m : count f m = 0%Z <-> forall k r, m !! k = Some r -> f r = false.
Proof.
  unfold count. split.
  - intros H k r Hk. destruct (f r) eqn:E; [|done].
    assert (Hin : r ∈ select f m) by (apply elem_select; eauto).
    destruct (select f m); [by apply not_elem_of_nil in Hin|]. cbn in H. lia.
  - intros H. destruct (select f m) as [|r l] eqn:E; [done|].
    assert (Hin : r ∈ select f m) by (rewrite E; by left).
    apply elem_select in Hin as [Hf [k Hk]]. by rewrite (H k r Hk) in Hf.
Qed.

(** A change of the rows that the predicate does not see. *)
Lemma count_fmap f m (g : R -> R) :
  (forall r, f (g r) = f r) -> count f (g <$> m) = count f m.
Proof.
  intros Hg. induction m as [|k r m Hk IH] using map_ind; [by rewrite fmap_empty|].
  rewrite fmap_insert, !count_insert by (rewrite ?lookup_fmap, Hk; done). by rewrite Hg, IH.
Qed.

Lemma page_ok limit offset (l l' : list R) :
  page limit offset l = Ok l' ->
  (0 <= limit)%Z /\ (0 <= offset)%Z /\ l' = take (Z.to_nat limit) (drop (Z.to_nat offset) l).
Proof.
  unfold page. destruct (Z.ltb_spec offset 0); [done|]. destruct (Z.ltb_spec limit 0); [done|].
  by intros [= <-].
Qed.

Lemma page_nonneg limit offset (l : list R) :
  (0 <= limit)%Z -> (0 <= offset)%Z ->
  page limit offset l = Ok (take (Z.to_nat limit) (drop (Z.to_nat offset) l)).
Proof.
  intros. unfold page. destruct (Z.ltb_spec offset 0); [lia|].
  by destruct (Z.ltb_spec limit 0); [lia|].
Qed.

Lemma lookup_keep f m k r : keep f m !! k = Some r <-> m !! k = Some r /\ f r = true.
Proof. unfold keep. by rewrite map_lookup_filter_Some. Qed.

End row_lemmas.

(** A row is selected once. *)
Lemma NoDup_select {R} (ID : R -> uuid) f (m : gmap uuid R) : keyed ID m -> NoDup (select f m).
Proof.
  intros Hk. unfold select. apply NoDup_ListNoDup, List.NoDup_filter, NoDup_ListNoDup.
  unfold rows. apply NoDup_fmap_2_strong; [|apply NoDup_map_to_list].
  intros [i x] [j y] Hi%elem_of_map_to_list Hj%elem_of_map_to_list Hxy. cbn in Hxy. subst y.
  by rewrite <- (Hk i x Hi), <- (Hk j x Hj).
Qed.

Lemma keep_all {R} (f : R -> bool) (m : gmap uuid R) :
  (forall k r, m !! k = Some r -> f r = true) -> keep f m = m.
Proof. intros H. apply map_filter_id. intros k r Hk. by apply (H k r). Qed.

Lemma order_by_Permutation {R} (leb : R -> R -> bool) l : order_by leb l ≡ₚ l.
Proof. apply merge_sort_Permutation. Qed.

(** A sorted answer, for a total and transitive comparison. *)
Lemma order_by_sorted {R} (leb : R -> R -> bool) l :
  (forall a b, leb a b = true \/ leb b a = true) ->
  (forall a b c, leb a b = true -> leb b c = true -> leb a c = true) ->
  StronglySorted (rel leb) (order_by leb l).
Proof. intros Htot Htrans. apply StronglySorted_merge_sort; [exact Htrans|exact Htot]. Qed.

Lemma checked_Ok {A} t u f (r : result (A * database)) x :
  checked t u f r = Ok x <-> t = true /\ u = true /\ f = true /\ r = Ok x.
Proof. unfold checked. destruct t, u, f; cbn; naive_solver. Qed.

(** ** Lemmas: integrity under row changes *)

Section integrity_lemmas.
Context {R S : Type}.
Implicit Types (m : gmap uuid R) (p : gmap uuid S).

Lemma keyed_insert (ID : R -> uuid) m k r :
  keyed ID m -> ID r = k -> keyed ID (<[k:=r]> m).
Proof.
  intros H Hr j s. rewrite lookup_insert_Some. intros [[<- <-]|[_ Hj]]; [done|by apply H].
Qed.

Lemma keyed_fmap (ID : R -> uuid) m (g : R -> R) :
  keyed ID m -> (forall r, ID (g r) = ID r) -> keyed ID (g <$> m).
Proof.
  intros H Hg j s. rewrite lookup_fmap_Some. intros (r & <- & Hr).
  rewrite Hg. by apply H.
Qed.

Lemma keyed_subset (ID : R -> uuid) m m2 : keyed ID m -> m2 ⊆ m -> keyed ID m2.
Proof. intros H Hs k r Hk. apply H. by eapply lookup_weaken. Qed.

Lemma unique_insert {K} `{EqDecision K} (f : R -> K) m k r :
  unique f m -> unique_ok f k r m = true -> unique f (<[k:=r]> m).
Proof.
  intros H Hok. rewrite unique_ok_true in Hok. intros i j x y.
  rewrite !lookup_insert_Some. intros [[<- <-]|[Hi Hx]] [[<- <-]|[Hj Hy]] Heq; try done.
  - destruct (Hok j y Hy); [done|congruence].
  - destruct (Hok i x Hx); [done|congruence].
  - by eapply H.
Qed.

(** Replacing a row without touching the indexed value. *)
Lemma unique_replace {K} (f : R -> K) m k r0 r :
  unique f m -> m !! k = Some r0 -> f r = f r0 -> unique f (<[k:=r]> m).
Proof.
  intros H Hk Hf i j x y.
  rewrite !lookup_insert_Some. intros [[<- <-]|[Hi Hx]] [[<- <-]|[Hj Hy]] Heq; try done.
  - apply (H k j r0 y); congruence.
  - apply (H i k x r0); congruence.
  - by eapply H.
Qed.

Lemma unique_fmap {K} (f : R -> K) m (g : R -> R) :
  unique f m -> (forall r, f (g r) = f r) -> unique f (g <$> m).
Proof.
  intros H Hg i j x y. rewrite !lookup_fmap_Some.
  intros (x' & <- & Hx) (y' & <- & Hy). rewrite !Hg. by eapply H.
Qed.

Lemma unique_subset {K} (f : R -> K) m m2 : unique f m -> m2 ⊆ m -> unique f m2.
Proof. intros H Hs i j x y Hi Hj. eapply H; by eapply lookup_weaken. Qed.

Lemma fk_insert (f : R -> uuid) m p k r :
  fk f m p -> is_Some (p !! f r) -> fk f (<[k:=r]> m) p.
Proof.
  intros H Hr j s. rewrite lookup_insert_Some. intros [[<- <-]|[_ Hj]]; [done|by eapply H].
Qed.

Lemma fk_opt_insert (f : R -> option uuid) m p k r :
  fk_opt f m p -> (forall u, f r = Some u -> is_Some (p !! u)) ->
  fk_opt f (<[k:=r]> m) p.
Proof.
  intros H Hr j s u. rewrite lookup_insert_Some. intros [[<- <-]|[_ Hj]]; [apply Hr|by eapply H].
Qed.

(** A new row without the reference. *)
Lemma fk_opt_insert_none (f : R -> option uuid) m p k r :
  f r = None -> fk_opt f m p -> fk_opt f (<[k:=r]> m) p.
Proof. intros Hr H. apply fk_opt_insert; [done|]. by rewrite Hr. Qed.

Lemma fk_parent (f : R -> uuid) m p p2 :
  fk f m p -> (forall u, is_Some (p !! u) -> is_Some (p2 !! u)) -> fk f m p2.
Proof. intros H Hs k r Hk. apply Hs. by eapply H. Qed.

Lemma fk_opt_parent (f : R -> option uuid) m p p2 :
  fk_opt f m p -> (forall u, is_Some (p !! u) -> is_Some (p2 !! u)) -> fk_opt f m p2.
Proof. intros H Hs k r u Hk Hu. apply Hs. by eapply H. Qed.

Lemma fk_subset (f : R -> uuid) m m2 p : fk f m p -> m2 ⊆ m -> fk f m2 p.
Proof. intros H Hs k r Hk. eapply H. by eapply lookup_weaken. Qed.

Lemma fk_opt_subset (f : R -> option uuid) m m2 p :
  fk_opt f m p -> m2 ⊆ m -> fk_opt f m2 p.
Proof. intros H Hs k r u Hk. eapply H. by eapply lookup_weaken. Qed.

Lemma fk_keep (f : R -> uuid) m p : fk f (keep (fun r => has_key p (f r)) m) p.
Proof. intros k r [_ H]%lookup_keep. by apply has_key_true. Qed.

Lemma fk_fmap (f : R -> uuid) m p (g : R -> R) :
  fk f m p -> (forall r, f (g r) = f r) -> fk f (g <$> m) p.
Proof.
  intros H Hg k r. rewrite lookup_fmap_Some. intros (r' & <- & Hr). rewrite Hg. by eapply H.
Qed.

Lemma keep_subset (f : R -> bool) m : keep f m ⊆ m.
Proof. apply map_filter_subseteq. Qed.

Lemma insert_is_Some m k r u : is_Some (m !! u) -> is_Some (<[k:=r]> m !! u).
Proof. rewrite lookup_insert_is_Some'. by right. Qed.

Lemma fmap_is_Some m (g : R -> R) u : is_Some (m !! u) -> is_Some ((g <$> m) !! u).
Proof. by rewrite lookup_fmap, fmap_is_Some. Qed.

End integrity_lemmas.

Lemma has_key_opt_true {R} (m : gmap uuid R) o :
  has_key_opt m o = true <-> forall u, o = Some u -> is_Some (m !! u).
Proof.
  destruct o as [u|]; cbn; [rewrite has_key_true|]; naive_solver.
Qed.

Lemma clear_post_ok ps (a : Attachment.t) u :
  Attachment.PostID (clear_post ps a) = Some u -> is_Some (ps !! u).
Proof.
  unfold clear_post. destruct (has_key_opt ps (Attachment.PostID a)) eqn:E; [|done].
  by apply has_key_opt_true.
Qed.

Lemma clear_parent_ok gs (g : Group.t) u :
  Group.ParentID (clear_parent gs g) = Some u -> is_Some (gs !! u).
Proof.
  unfold clear_parent. destruct (has_key_opt gs (Group.ParentID g)) eqn:E; [|done].
  by apply has_key_opt_true.
Qed.

(** With every reference in place, clearing and dropping do nothing. *)
Lemma clear_posts_id ps (m : gmap uuid Attachment.t) :
  fk_opt Attachment.PostID m ps -> clear_post ps <$> m = m.
Proof.
  intros H. apply map_eq. intros k. rewrite lookup_fmap.
  destruct (m !! k) as [a|] eqn:Ha; [|done]. cbn. f_equal. unfold clear_post.
  rewrite (proj2 (has_key_opt_true _ _)); [done|]. intros u Hu. by apply (H k a u).
Qed.

Lemma keep_fk {R S} (f : R -> uuid) (m : gmap uuid R) (p : gmap uuid S) :
  fk f m p -> keep (fun r => has_key p (f r)) m = m.
Proof. intros H. apply keep_all. intros k r Hk. apply has_key_true. by apply (H k r). Qed.

Ltac clear_fields := intros r; unfold clear_post, clear_parent; by destruct (has_key_opt _ _).

#[export] Hint Resolve keyed_insert keyed_fmap unique_fmap fk_insert fk_opt_insert_none fk_opt_insert fk_fmap
  fk_parent fk_opt_parent insert_is_Some fmap_is_Some keep_subset delete_subseteq : mc.
#[export] Hint Extern 1 (forall r, _ (clear_post _ r) = _) => clear_fields : mc.
#[export] Hint Extern 1 (forall r, _ (clear_parent _ r) = _) => clear_fields : mc.

(** ** Cascades keep integrity *)

Section cascades.
Context `{Postgres}.

Lemma cascade_posts_ok ps d :
  db_ok d -> ps ⊆ posts d -> fk Post.ThreadID ps (threads d) -> db_ok (cascade_posts ps d).
Proof.
  intros [] Hs Hfk. constructor; cbn; eauto using keyed_subset, fk_subset, fk_opt_subset with mc.
  intros k r u. rewrite lookup_fmap_Some. intros (a & <- & _). apply clear_post_ok.
Qed.

(** Everything but the reference from posts to threads, which the cascade restores. *)
Lemma cascade_threads_ok ts d :
  db_ok d -> ts ⊆ threads d -> fk Thread.GroupID ts (groups d) -> db_ok (cascade_threads ts d).
Proof.
  intros [] Hs Hfk.
  constructor; cbn; eauto using keyed_subset, fk_subset, fk_opt_subset, fk_keep with mc.
  intros k r u. rewrite lookup_fmap_Some. intros (a & <- & _). apply clear_post_ok.
Qed.

Lemma cascade_groups_ok gs d :
  db_ok d -> gs ⊆ groups d -> db_ok (cascade_groups gs d).
Proof.
  intros [] Hs.
  assert (Hk : fk Thread.GroupID
    (keep (fun t => has_key gs (Thread.GroupID t)) (threads d)) (clear_parent gs <$> gs)).
  { eapply fk_parent; [apply fk_keep|eauto with mc]. }
  constructor; cbn; eauto using keyed_subset, unique_subset, fk_subset, fk_opt_subset, fk_keep
    with mc.
  - intros k r u. rewrite lookup_fmap_Some. intros (g & <- & _) Hu.
    by eapply fmap_is_Some, clear_parent_ok.
  - intros k r u. rewrite lookup_fmap_Some. intros (a & <- & _). apply clear_post_ok.
Qed.

Lemma delete_post_ok k d : db_ok d -> db_ok (delete_post k d).
Proof.
  intros Hd. apply cascade_posts_ok; [done|apply delete_subseteq|].
  eapply fk_subset; [apply Hd|apply delete_subseteq].
Qed.

Lemma delete_thread_ok k d : db_ok d -> db_ok (delete_thread k d).
Proof.
  intros Hd. apply cascade_threads_ok; [done|apply delete_subseteq|].
  eapply fk_subset; [apply Hd|apply delete_subseteq].
Qed.

Lemma delete_group_ok k d : db_ok d -> db_ok (delete_group k d).
Proof. intros Hd. apply cascade_groups_ok; [done|apply delete_subseteq]. Qed.

Lemma migrated_ok r1 r2 r3 : r1 <> r2 -> r1 <> r3 -> r2 <> r3 -> db_ok (migrated r1 r2 r3).
Proof.
  intros H12 H13 H23. constructor; cbn;
    try (by intros k r Hk; rewrite lookup_empty in Hk);
    try (by intros i j r s Hi; rewrite lookup_empty in Hi);
    try (by intros k r u Hk; rewrite lookup_empty in Hk).
  - intros k r. rewrite !lookup_insert_Some, lookup_singleton_Some. naive_solver.
  - intros i j r s. rewrite !lookup_insert_Some, !lookup_singleton_Some.
    intros [[<- <-]|[? [[<- <-]|[? [<- <-]]]]] [[<- <-]|[? [[<- <-]|[? [<- <-]]]]]; done.
  - set_solver.
Qed.

End cascades.

#[export] Hint Resolve delete_post_ok delete_thread_ok delete_group_ok : mc.
