(* ===== verification/Prog.v ===== *)
(** * Programs over the database

    A handler is a sequence of atomic actions (one SQL statement, one transaction, one call to
    the object store, one reading of the clock) with ordinary computation between them.
    [prog] is that sequence.  It has two readings: [run] executes it alone, and [step]
    interleaves the actions of a pool of programs, which is how concurrent requests share one
    database.

    Everything outside the repository that an action consults is in [env]: the server's clock
    and UUIDs, the process's clock and random source, the order of unordered scans, the object
    store, and the faults.  A fault makes the client see an error; [Lost] means the server did
    nothing, [Unacked] that the statement took effect but the answer was lost. *)
From S2P Require Import Prelude GoStrings GoErrors Models Db.

Inductive fault := Lost | Unacked.

Record object := Object { obj_type : string; obj_size : Z; obj_data : string }.

Record world := World {
  w_db : database;
  w_objects : gmap string object;
  w_tick : nat;                     (* counts actions *)
  w_tx : option time }.             (* the timestamp of the open transaction *)

Record env := Env {
  env_now : nat -> time;
  env_uuid : nat -> uuid;
  env_scan : nat -> forall R : Type, list R -> list R;
  env_fault : nat -> option fault;
  env_clock : nat -> time;
  env_rand : nat -> nat -> option string;
  env_PutObject : nat -> string -> object -> gmap string object ->
                  option error * gmap string object;
  env_RemoveObject : nat -> string -> gmap string object ->
                     option error * gmap string object }.

Inductive prog (A : Type) : Type :=
| Ret (a : A)
| Act {B : Type} (op : env -> world -> B * world) (k : B -> prog A).
Arguments Ret {A} a.
Arguments Act {A B} op k.

Fixpoint bind {A B} (p : prog A) (k : A -> prog B) : prog B :=
  match p with
  | Ret a => k a
  | Act op q => Act op (fun b => bind (q b) k)
  end.

(** Sequencing with error propagation: [x, err := p; if err != nil { return err }]. *)
Definition bindr {A B} (p : prog (result A)) (k : A -> prog (result B)) : prog (result B) :=
  bind p (fun r => match r with Ok a => k a | Err e => Ret (Err e) end).

Definition ret {A} (a : A) : prog (result A) := Ret (Ok a).
Definition fail {A} (e : error) : prog (result A) := Ret (Err e).

Notation "x <- p ;; k" := (bind p (fun x => k))
  (at level 60, p at next level, right associativity) : mc_scope.
Notation "x <-? p ;; k" := (bindr p (fun x => k))
  (at level 60, p at next level, right associativity) : mc_scope.
Local Open Scope mc_scope.

(** ** Running alone *)

Fixpoint run {A} (e : env) (p : prog A) (w : world) : A * world :=
  match p with
  | Ret a => (a, w)
  | Act op k => let (b, w') := op e w in run e (k b) w'
  end.

Definition set_db (d : database) (w : world) : world :=
  World d (w_objects w) (w_tick w) (w_tx w).
Definition set_objects (o : gmap string object) (w : world) : world :=
  World (w_db w) o (w_tick w) (w_tx w).
Definition tick (w : world) : world := World (w_db w) (w_objects w) (S (w_tick w)) (w_tx w).
Definition set_tx (t : option time) (w : world) : world :=
  World (w_db w) (w_objects w) (w_tick w) t.

(** ** Actions *)

(** The timestamp of a transaction is that of its first action. *)
Definition server_at (e : env) (w : world) : server :=
  Server (match w_tx w with Some t => t | None => env_now e (w_tick w) end)
         (env_uuid e (w_tick w)) (env_scan e (w_tick w)).

Definition ErrConn : error := Plain "connection lost".

(** One statement. *)
Definition exec_op {A} (s : stmt A) (e : env) (w : world) : result A * world :=
  match env_fault e (w_tick w), s (server_at e w) (w_db w) with
  | Some Lost, _ => (Err ErrConn, tick w)
  | Some Unacked, Ok (_, d') => (Err ErrConn, set_db d' (tick w))
  | Some Unacked, Err _ => (Err ErrConn, tick w)
  | None, Ok (a, d') => (Ok a, set_db d' (tick w))
  | None, Err er => (Err er, tick w)
  end.
Definition exec {A} (s : stmt A) : prog (result A) := Act (exec_op s) Ret.

(** [Begin], a body that runs on the transaction's own view, then [Commit]; an error of the
    body rolls back.  The body's effects become visible at the commit. *)
Definition tx_op {A} (body : prog (result A)) (e : env) (w : world) : result A * world :=
  match env_fault e (w_tick w) with
  | Some _ => (Err ErrConn, tick w)
  | None =>
    let '(r, w1) := run e body (set_tx (Some (env_now e (w_tick w))) (tick w)) in
    let back := World (w_db w) (w_objects w) (S (w_tick w1)) (w_tx w) in
    let done := World (w_db w1) (w_objects w) (S (w_tick w1)) (w_tx w) in
    match r with
    | Err er => (Err er, back)
    | Ok a => match env_fault e (w_tick w1) with
              | None => (Ok a, done)
              | Some Lost => (Err ErrConn, back)
              | Some Unacked => (Err ErrConn, done)
              end
    end
  end.
Definition transact {A} (body : prog (result A)) : prog (result A) := Act (tx_op body) Ret.

(** [time.Now()], [rand.Read] of [n] bytes, [uuid.NewString] *)
Definition clock_Now : prog time := Act (fun e w => (env_clock e (w_tick w), tick w)) Ret.
Definition rand_Read (n : nat) : prog (option string) :=
  Act (fun e w => (env_rand e (w_tick w) n, tick w)) Ret.
Definition uuid_New : prog uuid := Act (fun e w => (env_uuid e (w_tick w), tick w)) Ret.

(** Calls to the object store: an error or nothing. *)
Definition object_op (f : env -> nat -> gmap string object -> option error * gmap string object)
    : prog (result unit) :=
  Act (fun e w => let '(r, o) := f e (w_tick w) (w_objects w) in
                  (match r with None => Ok tt | Some er => Err er end, set_objects o (tick w)))
      Ret.

(** ** Interleaving *)

(** A pool of programs with the same result type, sharing a world; new requests of the kind
    [allowed] arrive at any time. *)
Definition pool (A : Type) : Type := list (prog A).

Inductive step {A} (allowed : prog A -> Prop) (e : env) :
    pool A * world -> pool A * world -> Prop :=
| step_act (ps : pool A) i B (op : env -> world -> B * world) k w :
    ps !! i = Some (Act op k) ->
    step allowed e (ps, w) (<[i := k (op e w).1]> ps, (op e w).2)
| step_arrive (ps : pool A) p w :
    allowed p -> step allowed e (ps, w) (ps ++ [p], w).

(** The executable form: the schedule names the program that acts next. *)
Fixpoint run_sched {A} (e : env) (sched : list nat) (c : pool A * world) : pool A * world :=
  match sched with
  | [] => c
  | i :: sched' =>
    match c.1 !! i with
    | Some (Act op k) => run_sched e sched' (<[i := k (op e c.2).1]> c.1, (op e c.2).2)
    | _ => run_sched e sched' c
    end
  end.

(** ** Properties of programs *)

(** Every action keeps the property [I] of the world, whatever the earlier ones returned. *)
Fixpoint keeps {A} (e : env) (I : world -> Prop) (p : prog A) : Prop :=
  match p with
  | Ret _ => True
  | Act op k => (forall w, I w -> I (op e w).2) /\ forall b, keeps e I (k b)
  end.

(** A statement that keeps a property of the tables, and one that only reads. *)
Class StmtKeeps {A} (J : database -> Prop) (s : stmt A) : Prop :=
  stmt_keeps : forall sv d a d', s sv d = Ok (a, d') -> J d -> J d'.
Class StmtReads {A} (s : stmt A) : Prop :=
  stmt_reads : forall sv d a d', s sv d = Ok (a, d') -> d' = d.

(** [DbSafe J p]: in every environment every action of [p] keeps the property [J] of the
    tables.  Instances follow the structure of programs, so the property of a handler is
    found by resolution from those of its statements. *)
Class DbSafe {A} (J : database -> Prop) (p : prog A) : Prop :=
  db_safe : forall e, keeps e (fun w => J (w_db w)) p.

Definition no_faults (e : env) : Prop := forall t, env_fault e t = None.

(** Scans return the rows of the table, in some order. *)
Definition honest_scans (e : env) : Prop := forall t R (l : list R), env_scan e t R l ≡ₚ l.

(** ** Lemmas: running *)

Lemma run_bind {A B} e (p : prog A) (k : A -> prog B) w :
  run e (bind p k) w = let (a, w') := run e p w in run e (k a) w'.
Proof.
  revert w. induction p as [a|C op q IH]; intros w; cbn; [done|].
  destruct (op e w) as [b w']. apply IH.
Qed.

Lemma run_bindr {A B} e (p : prog (result A)) (k : A -> prog (result B)) w :
  run e (bindr p k) w =
  match run e p w with (Ok a, w') => run e (k a) w' | (Err er, w') => (Err er, w') end.
Proof. unfold bindr. rewrite run_bind. by destruct (run e p w) as [[a|er] w']. Qed.

Lemma run_exec {A} e (s : stmt A) w : run e (exec s) w = exec_op s e w.
Proof. unfold exec. cbn. by destruct (exec_op s e w). Qed.

Lemma run_transact {A} e (body : prog (result A)) w :
  run e (transact body) w = tx_op body e w.
Proof. unfold transact. cbn. by destruct (tx_op body e w). Qed.

Lemma run_ret {A} e (a : A) w : run e (ret a) w = (Ok a, w).
Proof. done. Qed.

Lemma run_fail {A} e er w : run e (@fail A er) w = (Err er, w).
Proof. done. Qed.

Lemma run_Ret {A} e (a : A) w : run e (Ret a) w = (a, w).
Proof. done. Qed.

#[export] Hint Rewrite @run_bind @run_bindr @run_exec @run_transact @run_ret @run_fail @run_Ret
  : mc_rw.

Lemma exec_op_no_fault {A} e (s : stmt A) w :
  env_fault e (w_tick w) = None ->
  exec_op s e w = match s (server_at e w) (w_db w) with
                  | Ok (a, d') => (Ok a, set_db d' (tick w))
                  | Err er => (Err er, tick w)
                  end.
Proof. intros H. unfold exec_op. rewrite H. by destruct (s _ _) as [[a d']|]. Qed.

Lemma set_db_tick w : set_db (w_db w) (tick w) = tick w.
Proof. done. Qed.
Lemma w_db_tick w : w_db (tick w) = w_db w.
Proof. done. Qed.
Lemma w_db_set_db d w : w_db (set_db d w) = d.
Proof. done. Qed.
Lemma tick_set_db d w : w_tick (tick (set_db d w)) = S (w_tick w).
Proof. done. Qed.
#[export] Hint Rewrite set_db_tick w_db_tick w_db_set_db : mc_rw.

(** What a statement can do to the tables: nothing, or its effect. *)
Lemma exec_op_db {A} e (s : stmt A) w :
  w_db (exec_op s e w).2 = w_db w \/
  exists a d', s (server_at e w) (w_db w) = Ok (a, d') /\ w_db (exec_op s e w).2 = d'.
Proof.
  unfold exec_op. destruct (env_fault e (w_tick w)) as [[]|];
    destruct (s (server_at e w) (w_db w)) as [[a d']|er] eqn:Es; cbn; eauto.
Qed.

(** Statements do not touch the object store. *)
Lemma exec_op_objects {A} e (s : stmt A) w : w_objects (exec_op s e w).2 = w_objects w.
Proof.
  unfold exec_op. destruct (env_fault e (w_tick w)) as [[]|];
    by destruct (s (server_at e w) (w_db w)) as [[a d']|er].
Qed.

(** A successful answer means the statement took effect. *)
Lemma exec_op_Ok {A} e (s : stmt A) w a w' :
  exec_op s e w = (Ok a, w') ->
  exists d', s (server_at e w) (w_db w) = Ok (a, d') /\ w' = set_db d' (tick w).
Proof.
  unfold exec_op. destruct (env_fault e (w_tick w)) as [[]|];
    destruct (s (server_at e w) (w_db w)) as [[b d']|er] eqn:Es; intros [=]; subst; eauto.
Qed.

(** Inversion of runs. *)
Lemma run_bind_inv {A B} e (p : prog A) (k : A -> prog B) w r w' :
  run e (bind p k) w = (r, w') ->
  exists a w1, run e p w = (a, w1) /\ run e (k a) w1 = (r, w').
Proof. rewrite run_bind. destruct (run e p w) as [a w1]. eauto. Qed.

Lemma run_bindr_Ok {A B} e (p : prog (result A)) (k : A -> prog (result B)) w b w' :
  run e (bindr p k) w = (Ok b, w') ->
  exists a w1, run e p w = (Ok a, w1) /\ run e (k a) w1 = (Ok b, w').
Proof. rewrite run_bindr. destruct (run e p w) as [[a|er] w1]; [eauto|done]. Qed.

Lemma run_bindr_inv {A B} e (p : prog (result A)) (k : A -> prog (result B)) w r w' :
  run e (bindr p k) w = (r, w') ->
  (exists a w1, run e p w = (Ok a, w1) /\ run e (k a) w1 = (r, w')) \/
  (exists er, run e p w = (Err er, w') /\ r = Err er).
Proof.
  rewrite run_bindr. destruct (run e p w) as [[a|er] w1]; [eauto|]. intros [= <- <-]. eauto.
Qed.

(** A read in any environment: the tables stay, and an answer is the query's. *)
Lemma exec_read {A} e (s : stmt A) `{!StmtReads s} w r w' :
  exec_op s e w = (r, w') ->
  w_db w' = w_db w /\ forall a, r = Ok a -> s (server_at e w) (w_db w) = Ok (a, w_db w).
Proof.
  intros Hs. split.
  - replace w' with (exec_op s e w).2 by by rewrite Hs.
    destruct (exec_op_db e s w) as [->|(a & d' & Ha & ->)]; [done|]. by eapply stmt_reads.
  - intros a ->. apply exec_op_Ok in Hs as (d' & Ha & _).
    by rewrite (stmt_reads (s := s) _ _ _ _ Ha) in Ha.
Qed.

(** A transaction in any environment: all of the body's effect, or none. *)
Lemma tx_op_cases {A} e (body : prog (result A)) w r w' :
  tx_op body e w = (r, w') ->
  (w_db w' = w_db w /\ forall a, r <> Ok a) \/
  exists a w0 w1, w_db w0 = w_db w /\ run e body w0 = (Ok a, w1) /\ w_db w' = w_db w1 /\
    (r = Ok a \/ r = Err ErrConn).
Proof.
  unfold tx_op. destruct (env_fault e (w_tick w)); [intros [= <- <-]; by left|].
  destruct (run _ _ _) as [[a|er] w1] eqn:Hr; [|intros [= <- <-]; by left].
  destruct (env_fault e (w_tick w1)) as [[]|]; intros [= <- <-]; [by left|..];
    right; exists a, (set_tx (Some (env_now e (w_tick w))) (tick w)), w1; auto.
Qed.

(** ** Programs that do the same *)

(** The same actions and results, whatever each action returns. *)
Inductive same {A} : prog A -> prog A -> Prop :=
| same_Ret a : same (Ret a) (Ret a)
| same_Act B (op : env -> world -> B * world) k k' :
    (forall b, same (k b) (k' b)) -> same (Act op k) (Act op k').

Lemma same_refl {A} (p : prog A) : same p p.
Proof. induction p; by constructor. Qed.

Lemma same_bind {A B} (p : prog A) (k k' : A -> prog B) :
  (forall a, same (k a) (k' a)) -> same (bind p k) (bind p k').
Proof. intros Hk. induction p as [a|C op q IH]; cbn; [apply Hk|by constructor]. Qed.

Lemma run_same {A} e (p q : prog A) w : same p q -> run e p w = run e q w.
Proof.
  intros Hs. revert w. induction Hs as [a|B op k k' _ IH]; intros w; cbn; [done|].
  destruct (op e w) as [b w']. apply IH.
Qed.

Lemma keeps_same {A} e I (p q : prog A) : same p q -> keeps e I q -> keeps e I p.
Proof.
  induction 1 as [a|B op k k' _ IH]; cbn; [done|]. intros [Hop Hk]. split; [done|]. intros b. by apply IH.
Qed.

(** ** Lemmas: invariants *)

Section keeps_lemmas.
Context (e : env) (I : world -> Prop).

Lemma keeps_bind {A B} (p : prog A) (k : A -> prog B) :
  keeps e I p -> (forall a, keeps e I (k a)) -> keeps e I (bind p k).
Proof.
  intros Hp Hk. induction p as [a|C op q IH]; cbn; [done|].
  destruct Hp as [Hop Hq]. split; [done|]. intros b. by apply IH.
Qed.

Lemma keeps_run {A} (p : prog A) w : keeps e I p -> I w -> I (run e p w).2.
Proof.
  revert w. induction p as [a|C op q IH]; intros w Hp Hw; cbn; [done|].
  destruct Hp as [Hop Hq]. specialize (Hop w Hw). destruct (op e w) as [b w'].
  by apply IH.
Qed.

(** A property that every arriving program keeps holds after any interleaving. *)
Lemma keeps_steps {A} (allowed : prog A -> Prop) (c c' : pool A * world) :
  (forall p, allowed p -> keeps e I p) ->
  rtc (step allowed e) c c' ->
  Forall (keeps e I) c.1 -> I c.2 -> Forall (keeps e I) c'.1 /\ I c'.2.
Proof.
  intros Hall Hs. induction Hs as [c|c1 c2 c3 H12 _ IH]; [done|]. intros Hps Hw.
  destruct H12 as [ps i B op k w Hi|ps p w Hp]; cbn in *.
  - destruct (Forall_lookup_1 _ _ _ _ Hps Hi) as [Hop Hk].
    apply IH; [apply Forall_insert; [done|apply Hk]|by apply Hop].
  - apply IH; [|done]. apply Forall_app. auto.
Qed.

End keeps_lemmas.

(** ** At most one winner

    Programs compete for a state change [R] that, once made, is never undone: a program is
    [pending] as long as it can only win ([won] its result) by making the change itself. *)

Section race.
Context {A : Type} (e : env) (I R : world -> Prop) (won : A -> Prop).

Fixpoint pending (p : prog A) : Prop :=
  match p with
  | Ret a => ~ won a
  | Act op k => forall w, I w -> pending (k (op e w).1) \/ (~ R w /\ R (op e w).2)
  end.

(** All competitors are pending, or the change is made and all but one are. *)
Definition race_inv (S : nat -> bool) (ps : pool A) (w : world) : Prop :=
  I w /\ Forall (keeps e I) ps /\ Forall (keeps e R) ps /\
  ((forall i p, S i = true -> ps !! i = Some p -> pending p) \/
   (R w /\ exists j, forall i p, S i = true -> i <> j -> ps !! i = Some p -> pending p)).

Lemma race_step S ps w i B (op : env -> world -> B * world) k :
  race_inv S ps w -> ps !! i = Some (Act op k) ->
  race_inv S (<[i := k (op e w).1]> ps) (op e w).2.
Proof.
  unfold pool in *. intros (HI & HkI & HkR & Hp) Ei.
  destruct (Forall_lookup_1 _ _ _ _ HkI Ei) as [HopI HnI].
  destruct (Forall_lookup_1 _ _ _ _ HkR Ei) as [HopR HnR].
  assert (Hi : i < length ps) by by eapply lookup_lt_Some.
  unfold race_inv. split_and!; 
    [auto|apply Forall_insert; [done|apply HnI]|apply Forall_insert; [done|apply HnR]|].
  assert (Hnext : forall j p, <[i := k (op e w).1]> ps !! j = Some p ->
    (j = i /\ p = k (op e w).1) \/ (j <> i /\ ps !! j = Some p)).
  { intros j p. destruct (decide (j = i)) as [->|Hne].
    - rewrite list_lookup_insert_eq by done. intros [= <-]. by left.
    - rewrite list_lookup_insert_ne by done. by right. }
  destruct Hp as [Hp|[HR [j Hp]]].
  - destruct (S i) eqn:Si.
    + destruct (Hp i _ Si Ei w HI) as [Hk|[_ HR]].
      * left. intros j p Sj [[-> ->]|[_ Hj]]%Hnext; [done|eauto].
      * right. split; [done|]. exists i.
        intros j p Sj Hne [[-> ->]|[_ Hj]]%Hnext; [done|eauto].
    + left. intros j p Sj [[-> ->]|[_ Hj]]%Hnext; [congruence|eauto].
  - right. split; [auto|]. exists j. intros j' p Sj Hne [[-> ->]|[_ Hj]]%Hnext; [|eauto].
    destruct (Hp i _ Sj Hne Ei w HI) as [Hk|[HnR' _]]; done.
Qed.

(** Of any two competitors one is still pending, so at most one has won. *)
Lemma one_winner (S : nat -> bool) sched (ps ps' : pool A) w w' :
  run_sched e sched (ps, w) = (ps', w') -> I w ->
  Forall (keeps e I) ps -> Forall (keeps e R) ps ->
  (forall i p, S i = true -> ps !! i = Some p -> pending p) ->
  forall i j p q, S i = true -> S j = true -> i <> j ->
    ps' !! i = Some p -> ps' !! j = Some q -> pending p \/ pending q.
Proof.
  intros Hrun HI HkI HkR Hall.
  assert (Hinv : race_inv S ps w) by (unfold race_inv; auto).
  assert (Hend : race_inv S ps' w').
  { clear - Hrun Hinv. revert ps w Hrun Hinv.
    induction sched as [|i sched IH]; intros ps w; cbn; [by intros [= <- <-]|].
    destruct (ps !! i) as [[a|B op k]|] eqn:Ei; [by apply IH| |by apply IH].
    intros Hrun Hinv. eapply IH; [exact Hrun|]. by apply race_step. }
  destruct Hend as (_ & _ & _ & [Hp|[_ [m Hp]]]); intros i j p q Si Sj Hne Hi Hj; [by eauto|].
  destruct (decide (i = m)) as [->|]; [right; by eauto|left; by eauto].
Qed.

End race.

(** Running a schedule is a sequence of steps. *)
Lemma run_sched_steps {A} (allowed : prog A -> Prop) e sched (c : pool A * world) :
  rtc (step allowed e) c (run_sched e sched c).
Proof.
  revert c. induction sched as [|i sched IH]; intros [ps w]; cbn; [done|].
  destruct (ps !! i) as [[a|B op k]|] eqn:Ei; [done| |done].
  eapply rtc_l; [|apply IH]. by constructor.
Qed.

(** All programs arrive, then the schedule runs. *)
Lemma run_sched_reached {A} (allowed : prog A -> Prop) e sched (ps : pool A) w :
  Forall allowed ps ->
  rtc (step allowed e) ([], w) ((run_sched e sched (ps, w)).1, (run_sched e sched (ps, w)).2).
Proof.
  intros Hps. rewrite <- surjective_pairing.
  transitivity (ps, w); [|apply run_sched_steps].
  induction ps as [|p ps IH] using rev_ind; [apply rtc_refl|].
  apply Forall_app in Hps as [Hps Hp]. apply rtc_r with (ps, w); [by apply IH|].
  constructor. by apply Forall_inv in Hp.
Qed.

(** ** Instances: safety by the structure of a program *)

Section db_safe.
Context (J : database -> Prop).

#[export] Instance reads_keeps {A} (s : stmt A) : StmtReads s -> StmtKeeps J s.
Proof. intros H sv d a d' Hs. by rewrite (H _ _ _ _ Hs). Qed.

#[export] Instance db_safe_Ret {A} (a : A) : DbSafe J (Ret a).
Proof. done. Qed.

#[export] Instance db_safe_ret {A} (a : A) : DbSafe J (ret a).
Proof. done. Qed.

#[export] Instance db_safe_fail {A} er : DbSafe J (@fail A er).
Proof. done. Qed.

#[export] Instance db_safe_bind {A B} (p : prog A) (k : A -> prog B) :
  DbSafe J p -> (forall a, DbSafe J (k a)) -> DbSafe J (bind p k).
Proof. intros Hp Hk e. apply keeps_bind; [apply Hp|]. intros a. apply Hk. Qed.

#[export] Instance db_safe_bindr {A B} (p : prog (result A)) (k : A -> prog (result B)) :
  DbSafe J p -> (forall a, DbSafe J (k a)) -> DbSafe J (bindr p k).
Proof. intros Hp Hk. apply db_safe_bind; [done|]. intros [a|er]; [apply Hk|done]. Qed.

#[export] Instance db_safe_exec {A} (s : stmt A) : StmtKeeps J s -> DbSafe J (exec s).
Proof.
  intros Hs e. split; [|done]. intros w Hw.
  destruct (exec_op_db e s w) as [->|(a & d' & Hok & ->)]; [done|]. by eapply Hs.
Qed.

#[export] Instance db_safe_transact {A} (body : prog (result A)) :
  DbSafe J body -> DbSafe J (transact body).
Proof.
  intros Hb e. split; [|done]. intros w Hw. unfold tx_op.
  destruct (env_fault e (w_tick w)); [done|].
  set (w0 := set_tx _ _). pose proof (keeps_run e _ body w0 (Hb e) Hw) as Hr.
  destruct (run e body w0) as [[a|er] w1]; cbn in *; [|done].
  by destruct (env_fault e (w_tick w1)) as [[]|].
Qed.

#[export] Instance db_safe_clock : DbSafe J clock_Now.
Proof. intros e. by split. Qed.
#[export] Instance db_safe_rand n : DbSafe J (rand_Read n).
Proof. intros e. by split. Qed.
#[export] Instance db_safe_uuid : DbSafe J uuid_New.
Proof. intros e. by split. Qed.
#[export] Instance db_safe_object f : DbSafe J (object_op f).
Proof. intros e. split; [|done]. intros w Hw. by destruct (f _ _ _). Qed.

End db_safe.

#[export] Hint Extern 2 (DbSafe _ (match ?x with _ => _ end)) => destruct x : typeclass_instances.

(** [alone Hf] evaluates, in a goal [run e p w = (r, w') -> P], a run in an environment
    without faults ([Hf]): it rewrites with the behaviour of the store methods (database
    [mc_run]) and splits on the conditions of the program as they are met. *)
Create Rewrite HintDb mc_run.

Ltac run_simpl Hf :=
  repeat first
    [ progress autorewrite with mc_rw
    | progress autorewrite with mc_run
    | rewrite exec_op_no_fault by apply Hf
    | progress cbn [errors_Is Scan err_of rmap_err isUniqueViolation errors_As_PgError fst snd] ].

Ltac split_run :=
  match goal with
  | |- ?L = _ -> _ =>
      match L with
      | context [match ?x with _ => _ end] =>
          lazymatch x with
          | context [match _ with _ => _ end] => fail
          | context [run] => fail
          | _ => let E := fresh "E" in destruct x eqn:E
          end
      end
  end.

Ltac alone Hf := repeat (run_simpl Hf; try split_run).

(** A program with a safety instance keeps the property when it runs alone. *)
Lemma db_safe_run {A} J (p : prog A) `{!DbSafe J p} e w :
  J (w_db w) -> J (w_db (run e p w).2).
Proof. apply (keeps_run e (fun w => J (w_db w)) p w), db_safe. Qed.

(** A program that is safe for every property of the tables changes none. *)
Lemma db_safe_reads {A} (p : prog A) (Hp : forall J, DbSafe J p) e w :
  w_db (run e p w).2 = w_db w.
Proof. by apply (db_safe_run (fun d => d = w_db w) p). Qed.
