(* ===== verification/Concrete.v ===== *)
(** * A concrete environment

    Instances of the parameters of the model on which its definitions can be evaluated: an
    ASCII server, a clock that advances by one second per action, distinct UUIDs, no faults,
    an object store that stores.  The examples of the development run in it. *)
From S2P Require Import Prelude GoStrings GoErrors Models Db Prog.
From Stdlib Require Import Ascii.

Fixpoint ascii_leb (s t : string) : bool :=
  match s, t with
  | EmptyString, _ => true
  | String _ _, EmptyString => false
  | String a s', String b t' =>
      (byte_of a <? byte_of b)%N || ((byte_of a =? byte_of b)%N && ascii_leb s' t')
  end.

Definition ascii_server : Postgres :=
  {| lower := map_bytes lower_byte; text_leb := ascii_leb; inet_text := Some |}.

(** Case mapping of the ASCII letters only. *)
Definition ascii_unicode : Unicode :=
  fun c => map_bytes lower_byte (concat_chunks [c]).

Fixpoint letters (n : nat) (s : string) : string :=
  match n with O => s | S n' => letters n' (String "a" s) end.

(** [n] bytes that differ from action to action. *)
Definition some_bytes (t n : nat) : string :=
  match n with O => "" | S n' => letters n' (String (ascii_of_nat t) "") end.

(** Instants are microseconds; the clock of the process is half a second ahead. *)
Definition quiet (faults : nat -> option fault) : env :=
  {| env_now := fun t => (1000000 * Z.of_nat (S t))%Z;
     env_uuid := fun t => N.of_nat (1000 + t);
     env_scan := fun _ _ l => l;
     env_fault := faults;
     env_clock := fun t => (1000000 * Z.of_nat (S t) + 500000)%Z;
     env_rand := fun t n => Some (some_bytes t n);
     env_PutObject := fun _ k o m => (None, <[k := o]> m);
     env_RemoveObject := fun _ k m => (None, delete k m) |}.

Definition calm : env := quiet (fun _ => None).

Lemma calm_no_faults : no_faults calm.
Proof. done. Qed.

Lemma calm_honest_scans : honest_scans calm.
Proof. by intros t R l. Qed.

(** The migrated database with two users, the first a moderator. *)
Definition alice : uuid := 1%N.
Definition bob : uuid := 2%N.
Definition a_user (id : uuid) (name mail hash : string) : User.t :=
  User.Mk id name mail hash name "" UserStatusActive 0 0 None.

Definition sample : database :=
  set_user_roles {[(alice, 12%N); (bob, 13%N)]}
    (set_users (<[alice := a_user alice "alice" "alice@example.org" "x"]>
                {[bob := a_user bob "bob" "bob@example.org" "x"]})
       (migrated 11%N 12%N 13%N)).

Definition world_of (d : database) : world := World d ∅ 0 None.

(** A group, with a thread of alice's and its first post. *)
Definition one_group : world :=
  world_of (set_groups {[20%N := Group.Mk 20%N "News" "news" "" None 0 0 0]} sample).
Definition one_thread : world :=
  world_of (set_posts {[40%N := Post.Mk 40%N 30%N alice "first" None None 5 5]}
    (set_threads {[30%N := Thread.Mk 30%N 20%N alice "Hello" false false 0 1 (Some 5%Z) 5 5]}
       (w_db one_group))).

(** A concrete run that succeeds. *)

Lemma is_ok_true {A} (r : result A) : is_ok r = true -> (forall a, r <> Ok a) -> False.
Proof. destruct r as [a|]; [|done]. intros _ H. by destruct (H a). Qed.

(** ** Deciding integrity of concrete tables *)

Section decide.
Context {R S : Type}.

Definition all_rows (f : uuid -> R -> bool) (m : gmap uuid R) : bool :=
  forallb (fun p => f p.1 p.2) (map_to_list m).

Lemma all_rows_true f m : all_rows f m = true <-> forall k r, m !! k = Some r -> f k r = true.
Proof.
  unfold all_rows. rewrite forallb_forall. split.
  - intros H k r Hk. apply (H (k, r)). by apply list_elem_of_In, elem_of_map_to_list.
  - intros H [k r] Hk%list_elem_of_In%elem_of_map_to_list. by apply H.
Qed.

Definition keyedb (ID : R -> uuid) (m : gmap uuid R) : bool := all_rows (fun k r => N.eqb (ID r) k) m.
Definition uniqueb {K} `{EqDecision K} (f : R -> K) (m : gmap uuid R) : bool :=
  all_rows (fun k r => unique_ok f k r m) m.
Definition fkb (f : R -> uuid) (m : gmap uuid R) (m' : gmap uuid S) : bool :=
  all_rows (fun _ r => has_key m' (f r)) m.
Definition fk_optb (f : R -> option uuid) (m : gmap uuid R) (m' : gmap uuid S) : bool :=
  all_rows (fun _ r => has_key_opt m' (f r)) m.

Lemma keyedb_true ID m : keyedb ID m = true -> keyed ID m.
Proof. unfold keyedb. rewrite all_rows_true. intros H k r Hk. by apply N.eqb_eq, H. Qed.
Lemma uniqueb_true {K} `{EqDecision K} (f : R -> K) m : uniqueb f m = true -> unique f m.
Proof.
  unfold uniqueb. rewrite all_rows_true. intros H i j r s Hi Hj Hf.
  destruct (decide (i = j)) as [|Hne]; [done|]. exfalso. specialize (H j s Hj).
  rewrite unique_ok_true in H. by apply (H i r).
Qed.
Lemma fkb_true f m m' : fkb f m m' = true -> fk f m m'.
Proof. unfold fkb. rewrite all_rows_true. intros H k r Hk. by apply has_key_true, (H k). Qed.
Lemma fk_optb_true f m m' : fk_optb f m m' = true -> fk_opt f m m'.
Proof.
  unfold fk_optb. rewrite all_rows_true. intros H k r u Hk.
  apply has_key_opt_true. by apply (H k).
Qed.

End decide.

Definition db_okb `{Postgres} (d : database) : bool :=
  forallb id
  [keyedb User.ID (users d); uniqueb (fun u => lower (User.Username u)) (users d);
   uniqueb User.Email (users d); keyedb Role.ID (roles d); uniqueb Role.Key (roles d);
   forallb (fun p => has_key (users d) p.1 && has_key (roles d) p.2) (elements (user_roles d));
   keyedb Session.ID (user_sessions d); uniqueb Session.TokenHash (user_sessions d);
   fkb Session.UserID (user_sessions d) (users d);
   keyedb Group.ID (groups d); uniqueb Group.Name (groups d); uniqueb Group.Slug (groups d);
   fk_optb Group.ParentID (groups d) (groups d);
   keyedb Thread.ID (threads d); fkb Thread.GroupID (threads d) (groups d);
   fkb Thread.AuthorID (threads d) (users d);
   keyedb Post.ID (posts d); fkb Post.ThreadID (posts d) (threads d);
   fkb Post.AuthorID (posts d) (users d); fk_optb Post.EditedByID (posts d) (users d);
   keyedb Attachment.ID (attachments d); uniqueb Attachment.StorageKey (attachments d);
   fkb Attachment.OwnerID (attachments d) (users d);
   fk_optb Attachment.PostID (attachments d) (posts d);
   keyedb PrivateMessage.ID (private_messages d);
   fkb PrivateMessage.SenderID (private_messages d) (users d);
   fkb PrivateMessage.RecipientID (private_messages d) (users d);
   keyedb Notification.ID (notifications d);
   fkb Notification.UserID (notifications d) (users d)].

Lemma db_okb_true `{Postgres} d : db_okb d = true -> db_ok d.
Proof.
  unfold db_okb. cbn [forallb id]. rewrite !andb_true_iff. intros Hd. destruct_and! Hd.
  constructor; first [by apply keyedb_true | by eapply uniqueb_true | by apply fkb_true
    | by apply fk_optb_true | idtac].
  intros p Hp.
  match goal with H : forallb _ (elements _) = true |- _ => rename H into Hall end.
  rewrite forallb_forall in Hall. specialize (Hall p).
  rewrite <- list_elem_of_In, elem_of_elements, andb_true_iff, !has_key_true in Hall. auto.
Qed.
