(* ===== verification/Rely.v ===== *)
(** * Interleaved programs against a specification of what they change

    A rely-guarantee logic for [prog].  A part of the world, its [view], is what a
    specification talks about.  While a program runs, other programs act between its actions;
    what it may rely on is a preorder [R] on worlds.  [wp G x p Q]: from the configuration [x]
    on, whatever happens between the actions of [p], each of them keeps [R] and changes the view
    only in a way that [G] allows, and [p] ends in [Q].

    [G] sees the history of views, so that a change may be justified by what the program read
    some time ago. *)
From S2P Require Import Prelude GoStrings GoErrors Models Db Prog.
Local Open Scope mc_scope.

(** ** Time passes *)

(** No action turns the counter of actions back. *)
Class Ticks {A} (p : prog A) : Prop := ticks : forall e n, keeps e (fun w => n <= w_tick w) p.

Section ticks.

#[export] Instance ticks_Ret {A} (a : A) : Ticks (Ret a).
Proof. done. Qed.
#[export] Instance ticks_ret {A} (a : A) : Ticks (ret a).
Proof. done. Qed.
#[export] Instance ticks_fail {A} er : Ticks (@fail A er).
Proof. done. Qed.
#[export] Instance ticks_bind {A B} (p : prog A) (k : A -> prog B) :
  Ticks p -> (forall a, Ticks (k a)) -> Ticks (bind p k).
Proof. intros Hp Hk e n. apply keeps_bind; [apply Hp|]. intros a. apply Hk. Qed.
#[export] Instance ticks_bindr {A B} (p : prog (result A)) (k : A -> prog (result B)) :
  Ticks p -> (forall a, Ticks (k a)) -> Ticks (bindr p k).
Proof. intros Hp Hk. apply ticks_bind; [done|]. intros [a|er]; [apply Hk|done]. Qed.

Lemma exec_op_tick {A} (s : stmt A) e w : w_tick (exec_op s e w).2 = S (w_tick w).
Proof.
  unfold exec_op. destruct (env_fault e (w_tick w)) as [[]|]; try done;
    by destruct (s _ _) as [[a d']|er].
Qed.

#[export] Instance ticks_exec {A} (s : stmt A) : Ticks (exec s).
Proof. intros e n. split; [|done]. intros w Hw. rewrite exec_op_tick. lia. Qed.
#[export] Instance ticks_transact {A} (body : prog (result A)) : Ticks body -> Ticks (transact body).
Proof.
  intros Hb e n. split; [|done]. intros w Hw. unfold tx_op.
  destruct (env_fault e (w_tick w)); [cbn; lia|].
  pose proof (keeps_run e _ body (set_tx (Some (env_now e (w_tick w))) (tick w)) (Hb e n)) as Hr.
  cbn in Hr. destruct (run _ _ _) as [[a|er] w1]; cbn in *; [|lia].
  destruct (env_fault e (w_tick w1)) as [[]|]; cbn; lia.
Qed.
#[export] Instance ticks_clock : Ticks clock_Now.
Proof. intros e n. split; [|done]. cbn. lia. Qed.
#[export] Instance ticks_rand m : Ticks (rand_Read m).
Proof. intros e n. split; [|done]. cbn. lia. Qed.
#[export] Instance ticks_uuid : Ticks uuid_New.
Proof. intros e n. split; [|done]. cbn. lia. Qed.
#[export] Instance ticks_object f : Ticks (object_op f).
Proof. intros e n. split; [|done]. intros w Hw. destruct (f _ _ _); cbn; lia. Qed.

End ticks.

#[export] Hint Extern 2 (Ticks (match ?x with _ => _ end)) => destruct x : typeclass_instances.

(** ** The logic *)

Section rely.
Context {V : Type} (e : env) (view : world -> V) (inv : world -> Prop).
Context (R : relation world) `{!PreOrder R}.

(** A world and the views so far, the current one first. *)
Definition config : Type := world * list V.

Definition later (x y : config) : Prop := R x.1 y.1 /\ suffix x.2 y.2.
Definition legal (x : config) : Prop := inv x.1 /\ head x.2 = Some (view x.1).
Definition push_view (w : world) (h : list V) : config := (w, view w :: h).

#[export] Instance later_preorder : PreOrder later.
Proof.
  split; [done|]. intros x y z [H1 H2] [H3 H4]. split; by etrans.
Qed.

Lemma later_push w w2 h : R w w2 -> later (w, h) (push_view w2 h).
Proof. intros H. split; [done|]. by apply suffix_cons_r. Qed.

(** What one action does: a legal step that others can live with. *)
Definition action_ok (G : list V -> V -> V -> Prop) (w w2 : world) (h : list V) : Prop :=
  inv w2 /\ R w w2 /\ G h (view w) (view w2).

Fixpoint wp {A} (G : list V -> V -> V -> Prop) (x : config) (p : prog A)
    (Q : A -> config -> Prop) : Prop :=
  match p with
  | Ret a => Q a x
  | Act op k => forall w h, later x (w, h) -> legal (w, h) ->
      action_ok G w (op e w).2 h /\ wp G (push_view (op e w).2 h) (k (op e w).1) Q
  end.

Lemma wp_ret {A} G x (a : A) (Q : A -> config -> Prop) : Q a x -> wp G x (Ret a) Q.
Proof. done. Qed.

Lemma wp_bind {A B} G x (p : prog A) (k : A -> prog B) Q :
  wp G x p (fun a y => wp G y (k a) Q) -> wp G x (bind p k) Q.
Proof.
  revert x. induction p as [a|C op q IH]; intros x; cbn; [done|].
  intros Hp w h Hl Hg. destruct (Hp w h Hl Hg) as [Ha Hw]. split; [done|]. by apply IH.
Qed.

Lemma wp_same {A} G x (p q : prog A) Q : same p q -> wp G x q Q -> wp G x p Q.
Proof.
  intros Hs. revert x. induction Hs as [a|B op k k' _ IH]; intros x; cbn; [done|].
  intros Hp w h Hl Hg. destruct (Hp w h Hl Hg) as [Ha Hw]. split; [done|]. by apply IH.
Qed.

(** A postcondition that time cannot falsify. *)
Definition lasting {A} (Q : A -> config -> Prop) : Prop :=
  forall a x y, later x y -> Q a x -> Q a y.

(** A later start. *)
Lemma wp_later {A} G x y (p : prog A) (Q : A -> config -> Prop) :
  later x y -> lasting Q -> wp G x p Q -> wp G y p Q.
Proof.
  intros Hxy HQ. destruct p as [a|C op k]; cbn; [by apply HQ|].
  intros Hp w h Hyw. apply Hp. by etrans.
Qed.

(** ** Pools *)

(** The histories that [G] allows, the latest view first. *)
Inductive history (G : list V -> V -> V -> Prop) (s0 : V) : list V -> Prop :=
| history_start : history G s0 [s0]
| history_step h s s' : history G s0 (s :: h) -> G (s :: h) s s' -> history G s0 (s' :: s :: h).

Definition done_with {A} (_ : A) (_ : config) : Prop := True.

(** Programs that are correct each on its own, relying on what all of them guarantee, are
    correct together: the views of any interleaving form a history that [G] allows. *)
Lemma wp_steps {A} G (allowed : prog A -> Prop) (c c' : pool A * world) h :
  (forall p x, allowed p -> legal x -> wp G x p done_with) ->
  rtc (step allowed e) c c' ->
  legal (c.2, h) -> Forall (fun p => wp G (c.2, h) p done_with) c.1 ->
  forall s0, history G s0 h -> exists h', history G s0 h' /\ legal (c'.2, h').
Proof.
  intros Hall Hs. revert h.
  induction Hs as [c|c1 c2 c3 H12 _ IH]; intros h Hl Hps s0 Hh; [by exists h|].
  destruct H12 as [ps i B op k w Hi|ps p w Hp]; cbn in *.
  - destruct (Forall_lookup_1 _ _ _ _ Hps Hi w h (reflexivity _) Hl) as [(Hv & HR & HG) Hk].
    apply (IH (view (op e w).2 :: h)); [done| |].
    + apply Forall_insert; [|done]. eapply Forall_impl; [exact Hps|]. intros q Hq.
      by apply (wp_later G (w, h)); [apply later_push|..].
    + destruct Hl as [_ Hd]. cbn in Hd. destruct h as [|s h]; [done|]. injection Hd as ->.
      by constructor.
  - apply (IH h); [done| |done]. apply Forall_app. split; [done|]. by auto.
Qed.

(** ** Actions *)

Section actions.
Context (G : list V -> V -> V -> Prop) (HG : forall h s, G h s s).

(** An action that changes neither the view nor the invariant. *)
Class Quiet {A} (p : prog A) : Prop :=
  quiet : forall w0, keeps e (fun w => inv w /\ view w = view w0 /\ R w0 w) p.

Lemma wp_quiet {A} (p : prog A) x (Q : A -> config -> Prop) :
  Quiet p -> (forall a y, later x y -> Q a y) -> wp G x p Q.
Proof.
  unfold Quiet. revert x. induction p as [a|C op k IH]; intros x Hp HQ; cbn; [by apply HQ|].
  intros w h Hl [Hv Hd]. destruct (Hp w) as [Hop _].
  destruct (Hop w) as (Hv2 & Hview & HR); [done|].
  split; [split_and!; [done|done|by rewrite Hview]|].
  apply IH.
  - intros w0. apply (Hp w0).
  - intros a y Hy. apply HQ. etrans; [done|]. etrans; [|done]. by apply later_push.
Qed.

Context (Htick : forall w, inv w -> inv (tick w) /\ view (tick w) = view w /\ R w (tick w)).

(** A statement: it fails without effect, or it has its effect and the client may or may not
    learn of it. *)
Lemma wp_exec {A} (s : stmt A) x Q :
  (forall w h, later x (w, h) -> legal (w, h) ->
     (forall er, Q (Err er) (push_view (tick w) h)) /\
     forall a d', s (server_at e w) (w_db w) = Ok (a, d') ->
       let w2 := set_db d' (tick w) in
       action_ok G w w2 h /\ forall r, r = Ok a \/ r = Err ErrConn -> Q r (push_view w2 h)) ->
  wp G x (exec s) Q.
Proof.
  intros Hs w h Hl Hg. destruct (Hs w h Hl Hg) as [Herr Hok]. clear Hs.
  assert (Hno : action_ok G w (tick w) h).
  { destruct Hg as [Hv _]. destruct (Htick w Hv) as (H1 & H2 & H3).
    unfold action_ok. by rewrite H2. }
  unfold exec_op. destruct (s _ _) as [[a d']|er] eqn:Es.
  - destruct (Hok a d' eq_refl) as [H1 H2].
    destruct (env_fault e (w_tick w)) as [[]|]; cbn; auto.
  - destruct (env_fault e (w_tick w)) as [[]|]; cbn; auto.
Qed.

(** A read: its answer was true of the world it saw. *)
Lemma wp_read {A} (s : stmt A) `{!StmtReads s} x (Q : result A -> config -> Prop) :
  (forall w h, later x (w, h) -> legal (w, h) ->
     (forall er, Q (Err er) (push_view (tick w) h)) /\
     forall a, s (server_at e w) (w_db w) = Ok (a, w_db w) -> Q (Ok a) (push_view (tick w) h)) ->
  wp G x (exec s) Q.
Proof.
  intros Hs. apply wp_exec. intros w h Hl Hg. destruct (Hs w h Hl Hg) as [Herr Hok].
  split; [done|]. intros a d' Ha. pose proof (stmt_reads (s := s) _ _ _ _ Ha) as ->. cbn.
  rewrite set_db_tick. destruct (Htick w (proj1 Hg)) as (H1 & H2 & H3).
  split; [split_and!; [done|done|by rewrite H2]|]. intros r [-> | ->]; auto.
Qed.

(** A transaction: as one statement, with the effect of its body. *)
Lemma wp_transact {A} (body : prog (result A)) x (Q : result A -> config -> Prop) :
  (forall w h, later x (w, h) -> legal (w, h) ->
     (forall er w2, w_db w2 = w_db w -> w_tick w < w_tick w2 -> action_ok G w w2 h /\
        Q (Err er) (push_view w2 h)) /\
     forall a w0 w1 w2, w_db w0 = w_db w -> w_tick w <= w_tick w0 -> run e body w0 = (Ok a, w1) ->
       w_db w2 = w_db w1 -> w_tick w1 < w_tick w2 ->
       action_ok G w w2 h /\ forall r, r = Ok a \/ r = Err ErrConn -> Q r (push_view w2 h)) ->
  Ticks body -> wp G x (transact body) Q.
Proof.
  intros Hs Hb w h Hl Hg. destruct (Hs w h Hl Hg) as [Herr Hok]. clear Hs. cbn.
  unfold tx_op. destruct (env_fault e (w_tick w)) as [f|]; [apply Herr; cbn; lia || done|].
  set (w0 := set_tx _ _).
  pose proof (keeps_run e _ body w0 (Hb e (S (w_tick w))) (le_n _)) as Ht. cbn in Ht.
  destruct (run e body w0) as [[a|er] w1] eqn:Hr; cbn in Ht.
  2: { apply Herr; cbn; [done|lia]. }
  assert (Hdone : forall w2, w_db w2 = w_db w1 -> w_tick w1 < w_tick w2 ->
    action_ok G w w2 h /\ forall r, r = Ok a \/ r = Err ErrConn -> Q r (push_view w2 h)).
  { intros w2 H1 H2. by apply (Hok a w0 w1); [|cbn; lia|..]. }
  destruct (env_fault e (w_tick w1)) as [[]|]; cbn.
  - apply Herr; cbn; [done|lia].
  - destruct (Hdone (World (w_db w1) (w_objects w) (S (w_tick w1)) (w_tx w))) as [H1 H2];
      [done|cbn; lia|]. auto.
  - destruct (Hdone (World (w_db w1) (w_objects w) (S (w_tick w1)) (w_tx w))) as [H1 H2];
      [done|cbn; lia|]. auto.
Qed.

End actions.
End rely.
