(* ===== verification/GroupStore.v ===== *)
(** * Groups (internal/store/group.go)

    The statements of [GroupStore] and its methods, with the checks of the [groups] table. *)
From S2P Require Import Prelude GoStrings GoErrors Models Db Prog.
Local Open Scope mc_scope.

Section store.
Context `{Postgres}.

(** The row an INSERT or UPDATE writes. *)
Definition group_row (id : uuid) (created updated : time) (g : NewGroup.t) : Group.t :=
  Group.Mk id (NewGroup.Name g) (NewGroup.Slug g) (NewGroup.Description g)
    (NewGroup.ParentID g) (NewGroup.SortOrder g) created updated.

(** The constraints of the table on a new version of the row [id]. *)
Definition write_group (id : uuid) (r : Group.t) (d : database)
    : result (option Group.t * database) :=
  let gs := <[id := r]> (groups d) in
  checked true
    (unique_ok Group.Name id r (groups d) && unique_ok Group.Slug id r (groups d))
    (has_key_opt gs (Group.ParentID r))
    (Ok (Some r, set_groups gs d)).

Definition group_params_ok (g : NewGroup.t) : bool :=
  texts_ok [NewGroup.Name g; NewGroup.Slug g; NewGroup.Description g].

Definition insert_group (g : NewGroup.t) : stmt (option Group.t) := fun sv d =>
  if negb (int32_ok (NewGroup.SortOrder g)) then Err (Plain "sort_order out of range")
  else checked (group_params_ok g) (negb (has_key (groups d) (sv_uuid sv))) true
         (write_group (sv_uuid sv) (group_row (sv_uuid sv) (sv_now sv) (sv_now sv) g) d).

Definition update_group (id : uuid) (g : NewGroup.t) : stmt (option Group.t) := fun sv d =>
  if negb (int32_ok (NewGroup.SortOrder g)) then Err (Plain "sort_order out of range")
  else checked (group_params_ok g) true true
    match groups d !! id with
    | None => Ok (None, d)
    | Some old => write_group id (group_row id (Group.CreatedAt old) (sv_now sv) g) d
    end.

Definition group_leb (a b : Group.t) : bool :=
  (Group.SortOrder a <? Group.SortOrder b)%Z ||
  ((Group.SortOrder a =? Group.SortOrder b)%Z && text_leb (Group.Name a) (Group.Name b)).

Definition select_groups : stmt (list Group.t) := fun sv d =>
  Ok (order_by group_leb (sv_scan sv _ (rows (groups d))), d).

Definition select_group (id : uuid) : stmt (option Group.t) := fun sv d =>
  Ok (groups d !! id, d).

Definition select_group_by_slug (slug : string) : stmt (option Group.t) := fun sv d =>
  checked (text_ok slug) true true
    (Ok (head (sv_scan sv _ (select (fun g => String.eqb (Group.Slug g) slug) (groups d))), d)).

(** The rows affected: zero or one. *)
Definition delete_group_stmt (id : uuid) : stmt Z := fun sv d =>
  if has_key (groups d) id then Ok (1%Z, delete_group id d) else Ok (0%Z, d).

Definition scanGroup (row : result (option Group.t)) : result Group.t :=
  match Scan row with
  | Ok g => Ok g
  | Err err => if isNoRows err then Err store_ErrNotFound else Err err
  end.

(** Create inserts a new group and returns it. *)
Definition Create (g : NewGroup.t) : prog (result Group.t) :=
  row <- exec (insert_group g) ;;
  let created := scanGroup row in
  if isUniqueViolation (err_of created) then fail store_ErrConflict
  else Ret created.

(** List returns all groups ordered by sort order then name. *)
Definition List : prog (result (list Group.t)) := exec select_groups.

(** GetByID returns a group by its ID. *)
Definition GetByID (id : uuid) : prog (result Group.t) :=
  row <- exec (select_group id) ;; Ret (scanGroup row).

(** GetBySlug returns a group by its slug. *)
Definition GetBySlug (slug : string) : prog (result Group.t) :=
  row <- exec (select_group_by_slug slug) ;; Ret (scanGroup row).

(** Update replaces the mutable fields of a group and returns it. *)
Definition Update (id : uuid) (g : NewGroup.t) : prog (result Group.t) :=
  row <- exec (update_group id g) ;; Ret (scanGroup row).

(** Delete removes a group by its ID. *)
Definition Delete (id : uuid) : prog (result unit) :=
  tag <-? exec (delete_group_stmt id) ;;
  if (tag =? 0)%Z then fail store_ErrNotFound else ret tt.

End store.

(** ** Integrity *)

Section safety.
Context `{Postgres}.

Lemma write_group_ok id r d x d' :
  write_group id r d = Ok (x, d') -> Group.ID r = id -> db_ok d -> db_ok d'.
Proof.
  unfold write_group. rewrite checked_Ok.
  intros (_ & [Hn Hs]%andb_true_iff & Hp & [= <- <-]) Hid Hd. rewrite has_key_opt_true in Hp.
  destruct Hd. constructor; cbn; eauto using unique_insert with mc.
Qed.

#[export] Instance insert_group_keeps g : StmtKeeps db_ok (insert_group g).
Proof.
  intros sv d a d'. unfold insert_group. destruct (negb _); [done|].
  rewrite checked_Ok. intros (_ & _ & _ & Hw). by eapply write_group_ok.
Qed.

#[export] Instance update_group_keeps id g : StmtKeeps db_ok (update_group id g).
Proof.
  intros sv d a d'. unfold update_group. destruct (negb _); [done|].
  rewrite checked_Ok. intros (_ & _ & _ & Hw).
  destruct (groups d !! id); [by eapply write_group_ok|by simplify_eq].
Qed.

#[export] Instance delete_group_keeps id : StmtKeeps db_ok (delete_group_stmt id).
Proof.
  intros sv d a d'. unfold delete_group_stmt.
  destruct (has_key _ _); intros [= <- <-]; auto with mc.
Qed.

#[export] Instance select_groups_reads : StmtReads select_groups.
Proof. by intros sv d a d' [= <- <-]. Qed.
#[export] Instance select_group_reads id : StmtReads (select_group id).
Proof. by intros sv d a d' [= <- <-]. Qed.
#[export] Instance select_group_by_slug_reads s : StmtReads (select_group_by_slug s).
Proof. by intros sv d a d' (_ & _ & _ & [= <- <-])%checked_Ok. Qed.

#[export] Instance Create_safe g : DbSafe db_ok (Create g).
Proof. unfold Create. apply _. Qed.
#[export] Instance Update_safe id g : DbSafe db_ok (Update id g).
Proof. unfold Update. apply _. Qed.
#[export] Instance Delete_safe id : DbSafe db_ok (Delete id).
Proof. unfold Delete. apply _. Qed.
#[export] Instance List_safe J : DbSafe J List.
Proof. unfold List. apply _. Qed.
#[export] Instance GetByID_safe J id : DbSafe J (GetByID id).
Proof. unfold GetByID. apply _. Qed.
#[export] Instance GetBySlug_safe J s : DbSafe J (GetBySlug s).
Proof. unfold GetBySlug. apply _. Qed.

End safety.

(** ** Behaviour without faults *)

Section alone.
Context `{Postgres} (e : env) (Hf : no_faults e).

Lemma group_run_GetByID id w :
  run e (GetByID id) w
  = (match groups (w_db w) !! id with Some g => Ok g | None => Err store_ErrNotFound end, tick w).
Proof.
  unfold GetByID. run_simpl Hf. unfold select_group. run_simpl Hf.
  by destruct (groups (w_db w) !! id).
Qed.

Lemma group_run_Delete id w :
  run e (Delete id) w
  = (if has_key (groups (w_db w)) id then Ok tt else Err store_ErrNotFound,
     set_db (if has_key (groups (w_db w)) id then delete_group id (w_db w) else w_db w) (tick w)).
Proof.
  unfold Delete. run_simpl Hf. unfold delete_group_stmt. by destruct (has_key _ id).
Qed.

(** What a write of a group row answers. *)
Definition write_answer (r : result (option Group.t * database)) (conflict : bool) (w : world)
    : result Group.t * world :=
  match r with
  | Ok (Some g, d') => (Ok g, set_db d' (tick w))
  | Ok (None, d') => (Err store_ErrNotFound, set_db d' (tick w))
  | Err er =>
      let er := if isNoRows er then New store_ErrNotFound else er in
      (Err (if conflict && isUniqueViolation (Some er) then New store_ErrConflict else er), tick w)
  end.

Lemma group_run_Create g w :
  run e (Create g) w = write_answer (insert_group g (server_at e w) (w_db w)) true w.
Proof.
  unfold Create. run_simpl Hf. unfold write_answer, scanGroup.
  destruct (insert_group _ _ _) as [[[x|] d']|er]; run_simpl Hf; [done|done|].
  destruct (isNoRows er); run_simpl Hf; cbn; [done|].
  by destruct (isUniqueViolation (Some er)) eqn:E; unfold isUniqueViolation in E; rewrite E.
Qed.

Lemma group_run_Update id g w :
  run e (Update id g) w = write_answer (update_group id g (server_at e w) (w_db w)) false w.
Proof.
  unfold Update. run_simpl Hf. unfold write_answer, scanGroup.
  destruct (update_group _ _ _ _) as [[[x|] d']|er]; run_simpl Hf; [done|done|].
  by destruct (isNoRows er).
Qed.

End alone.
#[export] Hint Rewrite @group_run_GetByID @group_run_Delete @group_run_Create @group_run_Update using assumption : mc_run.
