(* ===== verification/PostStore.v ===== *)
(** * Posts (internal/store/post.go)

    The statements of [PostStore] and its methods. *)
From S2P Require Import Prelude GoStrings GoErrors Models Db Prog.
Local Open Scope mc_scope.

Section store.

Definition insert_post (p : NewPost.t) : stmt (option Post.t) := fun sv d =>
  let id := sv_uuid sv in
  let r := Post.Mk id (NewPost.ThreadID p) (NewPost.AuthorID p) (NewPost.Body p) None None
             (sv_now sv) (sv_now sv) in
  checked (text_ok (NewPost.Body p)) (negb (has_key (posts d) id))
    (has_key (threads d) (Post.ThreadID r) && has_key (users d) (Post.AuthorID r))
    (Ok (Some r, set_posts (<[id := r]> (posts d)) d)).

Definition summary (p : Post.t) (u : User.t) : PostSummary.t :=
  PostSummary.Mk p (User.Username u) (display_of u).

Definition in_thread (threadID : uuid) (p : Post.t) : bool := N.eqb (Post.ThreadID p) threadID.

(** [ORDER BY p.created_at ASC] *)
Definition post_leb (a b : PostSummary.t) : bool :=
  (Post.CreatedAt (PostSummary.thePost a) <=? Post.CreatedAt (PostSummary.thePost b))%Z.

Definition select_posts (threadID : uuid) (limit offset : Z) : stmt (list PostSummary.t) :=
  fun sv d =>
  let joined := join_users Post.AuthorID summary (users d)
                  (select (in_thread threadID) (posts d)) in
  match page limit offset (order_by post_leb (sv_scan sv _ joined)) with
  | Ok l => Ok (l, d)
  | Err e => Err e
  end.

Definition count_posts (threadID : uuid) : stmt Z := fun sv d =>
  Ok (count (in_thread threadID) (posts d), d).

Definition select_post (id : uuid) : stmt (option Post.t) := fun sv d => Ok (posts d !! id, d).

Definition select_post_summary (id : uuid) : stmt (option PostSummary.t) := fun sv d =>
  Ok (head (join_users Post.AuthorID summary (users d) (option_list (posts d !! id))), d).

Definition edited (body : string) (editor : uuid) (now : time) (p : Post.t) : Post.t :=
  Post.Mk (Post.ID p) (Post.ThreadID p) (Post.AuthorID p) body (Some editor) (Some now)
    (Post.CreatedAt p) now.

Definition update_post_body (id : uuid) (body : string) (editorID : uuid)
    : stmt (option Post.t) := fun sv d =>
  checked (text_ok body) true true
    match posts d !! id with
    | None => Ok (None, d)
    | Some p =>
        let r := edited body editorID (sv_now sv) p in
        checked true true (has_key (users d) editorID)
          (Ok (Some r, set_posts (<[id := r]> (posts d)) d))
    end.

Definition delete_post_stmt (id : uuid) : stmt Z := fun sv d =>
  if has_key (posts d) id then Ok (1%Z, delete_post id d) else Ok (0%Z, d).

Definition scanPost (row : result (option Post.t)) : result Post.t :=
  match Scan row with
  | Ok p => Ok p
  | Err err => if isNoRows err then Err store_ErrNotFound else Err err
  end.

Definition scanPostSummary (row : result (option PostSummary.t)) : result PostSummary.t :=
  match Scan row with
  | Ok p => Ok p
  | Err err => if isNoRows err then Err store_ErrNotFound else Err err
  end.

(** Create inserts a new post and returns it. *)
Definition Create (p : NewPost.t) : prog (result Post.t) :=
  row <- exec (insert_post p) ;; Ret (scanPost row).

(** ListByThread returns posts in chronological order with pagination. *)
Definition ListByThread (threadID : uuid) (limit offset : Z)
    : prog (result (list PostSummary.t * Z)) :=
  items <-? exec (select_posts threadID limit offset) ;;
  total <-? exec (count_posts threadID) ;;
  ret (items, total).

(** GetByID returns a post by its ID. *)
Definition GetByID (id : uuid) : prog (result Post.t) :=
  row <- exec (select_post id) ;; Ret (scanPost row).

(** SummaryByID returns a post joined with its author. *)
Definition SummaryByID (id : uuid) : prog (result PostSummary.t) :=
  row <- exec (select_post_summary id) ;; Ret (scanPostSummary row).

(** UpdateBody replaces the body of a post and records the editor. *)
Definition UpdateBody (id : uuid) (body : string) (editorID : uuid) : prog (result Post.t) :=
  row <- exec (update_post_body id body editorID) ;; Ret (scanPost row).

(** Delete removes a post by its ID. *)
Definition Delete (id : uuid) : prog (result unit) :=
  tag <-? exec (delete_post_stmt id) ;;
  if (tag =? 0)%Z then fail store_ErrNotFound else ret tt.

End store.

(** ** Integrity *)

Section safety.
Context `{Postgres}.

#[export] Instance insert_post_keeps p : StmtKeeps db_ok (insert_post p).
Proof.
  intros sv d a d'. unfold insert_post. rewrite checked_Ok.
  intros (_ & _ & [Ht%has_key_true Hu%has_key_true]%andb_true_iff & [= <- <-]) Hd.
  destruct Hd. constructor; cbn; eauto with mc.
Qed.

#[export] Instance update_post_body_keeps id body u : StmtKeeps db_ok (update_post_body id body u).
Proof.
  intros sv d a d'. unfold update_post_body. rewrite checked_Ok. intros (_ & _ & _ & Hw).
  destruct (posts d !! id) as [p|] eqn:Hp; [|by simplify_eq].
  apply checked_Ok in Hw as (_ & _ & Hu%has_key_true & [= <- <-]). intros Hd.
  assert (Hid : Post.ID p = id) by by eapply ok_posts.
  assert (Ht := ok_posts_thread d Hd id p Hp). assert (Ha := ok_posts_author d Hd id p Hp).
  destruct Hd. constructor; cbn; eauto with mc.
  apply fk_opt_insert; [done|]. cbn. by intros ? [= <-].
Qed.

#[export] Instance delete_post_keeps id : StmtKeeps db_ok (delete_post_stmt id).
Proof.
  intros sv d a d'. unfold delete_post_stmt.
  destruct (has_key _ _); intros [= <- <-]; auto with mc.
Qed.

#[export] Instance select_posts_reads t l o : StmtReads (select_posts t l o).
Proof.
  intros sv d a d'. unfold select_posts. destruct (page _ _ _); [|done]. by intros [= <- <-].
Qed.
#[export] Instance count_posts_reads t : StmtReads (count_posts t).
Proof. by intros sv d a d' [= <- <-]. Qed.
#[export] Instance select_post_reads id : StmtReads (select_post id).
Proof. by intros sv d a d' [= <- <-]. Qed.
#[export] Instance select_post_summary_reads id : StmtReads (select_post_summary id).
Proof. by intros sv d a d' [= <- <-]. Qed.

#[export] Instance Create_safe p : DbSafe db_ok (Create p).
Proof. unfold Create. apply _. Qed.
#[export] Instance UpdateBody_safe id b u : DbSafe db_ok (UpdateBody id b u).
Proof. unfold UpdateBody. apply _. Qed.
#[export] Instance Delete_safe id : DbSafe db_ok (Delete id).
Proof. unfold Delete. apply _. Qed.
#[export] Instance ListByThread_safe J t l o : DbSafe J (ListByThread t l o).
Proof. unfold ListByThread. apply _. Qed.
#[export] Instance GetByID_safe J id : DbSafe J (GetByID id).
Proof. unfold GetByID. apply _. Qed.
#[export] Instance SummaryByID_safe J id : DbSafe J (SummaryByID id).
Proof. unfold SummaryByID. apply _. Qed.

End safety.

(** What an INSERT does when it succeeds. *)
Lemma insert_post_Ok np sv d o d' :
  insert_post np sv d = Ok (o, d') ->
  exists p, o = Some p /\ posts d !! Post.ID p = None /\ Post.ThreadID p = NewPost.ThreadID np /\
    Post.AuthorID p = NewPost.AuthorID np /\ Post.Body p = NewPost.Body np /\
    d' = set_posts (<[Post.ID p := p]> (posts d)) d.
Proof.
  intros (_ & Hk%negb_true_iff%has_key_false & _ & Hs)%checked_Ok. injection Hs as <- <-.
  by eexists.
Qed.

Lemma insert_post_id np sv d p d' :
  insert_post np sv d = Ok (Some p, d') -> Post.ID p = sv_uuid sv.
Proof. intros (_ & _ & _ & [= <- <-])%checked_Ok. done. Qed.

(** ** Behaviour without faults *)

Section alone.
Context (e : env) (Hf : no_faults e).

Lemma post_run_GetByID id w :
  run e (GetByID id) w
  = (match posts (w_db w) !! id with Some p => Ok p | None => Err store_ErrNotFound end, tick w).
Proof.
  unfold GetByID. run_simpl Hf. unfold select_post. run_simpl Hf.
  by destruct (posts (w_db w) !! id).
Qed.

(** The post [id] with its author, in the tables [d]. *)
Definition summary_of (id : uuid) (d : database) : result PostSummary.t :=
  match posts d !! id with
  | Some p => match users d !! Post.AuthorID p with
              | Some u => Ok (summary p u)
              | None => Err store_ErrNotFound
              end
  | None => Err store_ErrNotFound
  end.

Lemma post_run_SummaryByID id w : run e (SummaryByID id) w = (summary_of id (w_db w), tick w).
Proof.
  unfold SummaryByID, summary_of. run_simpl Hf. unfold select_post_summary. run_simpl Hf.
  destruct (posts (w_db w) !! id) as [p|]; cbn; [|done].
  by destruct (users (w_db w) !! Post.AuthorID p).
Qed.

(** A row an INSERT or UPDATE returned, or none. *)
Definition row_answer (r : result (option Post.t * database)) (w : world) : result Post.t * world :=
  match r with
  | Ok (Some p, d') => (Ok p, set_db d' (tick w))
  | Ok (None, d') => (Err store_ErrNotFound, set_db d' (tick w))
  | Err er => (Err (if isNoRows er then New store_ErrNotFound else er), tick w)
  end.

Lemma run_row (s : stmt (option Post.t)) w :
  run e (row <- exec s ;; Ret (scanPost row)) w = row_answer (s (server_at e w) (w_db w)) w.
Proof.
  run_simpl Hf. destruct (s _ _) as [[[p|] d']|er]; run_simpl Hf; [done|done|].
  cbn. by destruct (isNoRows er).
Qed.

Lemma post_run_Create p w :
  run e (Create p) w = row_answer (insert_post p (server_at e w) (w_db w)) w.
Proof. apply run_row. Qed.
Lemma run_UpdateBody id body u w :
  run e (UpdateBody id body u) w
  = row_answer (update_post_body id body u (server_at e w) (w_db w)) w.
Proof. apply run_row. Qed.

Lemma post_run_Delete id w :
  run e (Delete id) w
  = (if has_key (posts (w_db w)) id then Ok tt else Err store_ErrNotFound,
     set_db (if has_key (posts (w_db w)) id then delete_post id (w_db w) else w_db w) (tick w)).
Proof. unfold Delete. run_simpl Hf. unfold delete_post_stmt. by destruct (has_key _ id). Qed.

End alone.
#[export] Hint Rewrite @post_run_GetByID @post_run_SummaryByID @post_run_Create @run_UpdateBody @post_run_Delete using assumption : mc_run.

(** ** Behaviour in any environment *)

Section any.
Context (e : env).

Lemma post_any_GetByID id w r w' :
  run e (GetByID id) w = (r, w') ->
  w_db w' = w_db w /\ forall p, r = Ok p -> posts (w_db w) !! id = Some p.
Proof.
  unfold GetByID. intros Hr. autorewrite with mc_rw in Hr.
  destruct (exec_op (select_post id) e w) as [o w1] eqn:Ho.
  apply exec_read in Ho as [Hdb Ho]; [|apply _]. autorewrite with mc_rw in Hr.
  injection Hr as <- <-. split; [done|].
  destruct o as [[t|]|er]; cbn; [|done|by destruct (isNoRows er)].
  intros t' [= ->]. specialize (Ho _ eq_refl). unfold select_post in Ho. congruence.
Qed.

Lemma post_any_SummaryByID id w : w_db (run e (SummaryByID id) w).2 = w_db w.
Proof. apply db_safe_reads. apply _. Qed.

(** A write of a post: without effect, or the statement's. *)
Lemma any_row (s : stmt (option Post.t)) w r w' :
  run e (row <- exec s ;; Ret (scanPost row)) w = (r, w') ->
  (w_db w' = w_db w /\ forall p, r <> Ok p) \/
  exists sv o, s sv (w_db w) = Ok (o, w_db w') /\ forall p, r = Ok p -> o = Some p.
Proof.
  intros Hr. autorewrite with mc_rw in Hr. destruct (exec_op s e w) as [o w1] eqn:Ho.
  autorewrite with mc_rw in Hr. injection Hr as <- <-.
  destruct (exec_op_db e s w) as [Hd|(a & d' & Hs & Hd)]; rewrite Ho in Hd; cbn in Hd.
  - destruct o as [o|er]; [|left; split; [done|]; intros p; cbn; by destruct (isNoRows er)].
    apply exec_op_Ok in Ho as (d' & Hs & ->). right. exists (server_at e w), o. cbn in *.
    split; [done|]. destruct o; cbn; [by intros ? [= ->]|done].
  - right. exists (server_at e w), a. rewrite Hd. split; [done|]. intros p Hp.
    destruct o as [o|er]; [|cbn in Hp; by destruct (isNoRows er)].
    apply exec_op_Ok in Ho as (d2 & Hs2 & _). assert (o = a) as -> by congruence.
    destruct a; [cbn in Hp; congruence|done].
Qed.

Lemma post_any_Delete id w r w' :
  run e (Delete id) w = (r, w') ->
  (w_db w' = w_db w /\ r <> Ok tt) \/
  (is_Some (posts (w_db w) !! id) /\ w_db w' = delete_post id (w_db w)).
Proof.
  unfold Delete. intros Hr. rewrite run_bindr, run_exec in Hr.
  destruct (exec_op _ e w) as [o w1] eqn:Ho.
  assert (Hd : w_db w1 = w_db w \/ exists a d', delete_post_stmt id (server_at e w) (w_db w) = Ok (a, d') /\ w_db w1 = d').
  { pose proof (exec_op_db e (delete_post_stmt id) w) as Hd. by rewrite Ho in Hd. }
  unfold delete_post_stmt in *. destruct o as [n|er].
  - apply exec_op_Ok in Ho as (d' & Hs & ->). destruct (has_key _ id) eqn:Hk; injection Hs as <- <-;
      cbn in Hr; injection Hr as <- <-; [right|by left]. split; [by apply has_key_true|done].
  - injection Hr as <- <-. destruct Hd as [Hd|(a & d' & Hs & Hd)]; [by left|].
    destruct (has_key _ id) eqn:Hk; injection Hs as _ <-; [right|by left].
    split; [by apply has_key_true|done].
Qed.

End any.
