(* ===== verification/Listing.v ===== *)
(** * Pages of a thread (internal/store/post.go, [ListByThread])

    What a client gets that walks through a thread page by page. *)
From S2P Require Import Prelude GoStrings GoErrors Models Db Prog Concrete PostStore.
Local Open Scope mc_scope.

(** The posts of a thread with their authors, unordered. *)
Definition thread_posts (id : uuid) (d : database) : list PostSummary.t :=
  join_users Post.AuthorID summary (users d) (select (in_thread id) (posts d)).

(** No two posts of the thread were created at the same instant. *)
Definition distinct_times (id : uuid) (d : database) : Prop :=
  forall i j p q, posts d !! i = Some p -> posts d !! j = Some q -> in_thread id p = true ->
    in_thread id q = true -> Post.CreatedAt p = Post.CreatedAt q -> i = j.

Section pages.
Context (e : env) (Hs : honest_scans e).

Lemma post_leb_sorted l : StronglySorted (rel post_leb) (order_by post_leb l).
Proof. apply order_by_sorted; unfold post_leb; intros; rewrite ?Z.leb_le in *; lia. Qed.

(** One page: a slice of the thread's posts in chronological order, and their number. *)
Lemma any_ListByThread id limit offset w items total w' :
  run e (ListByThread id limit offset) w = (Ok (items, total), w') ->
  w_db w' = w_db w /\ (0 <= limit)%Z /\ (0 <= offset)%Z /\
  total = count (in_thread id) (posts (w_db w)) /\
  exists l, l ≡ₚ thread_posts id (w_db w) /\ StronglySorted (rel post_leb) l /\
    items = take (Z.to_nat limit) (drop (Z.to_nat offset) l).
Proof.
  unfold ListByThread. intros (its & w1 & H1 & Hr)%run_bindr_Ok.
  apply run_bindr_Ok in Hr as (n & w2 & H2 & Hr). injection Hr as <- <- <-.
  rewrite run_exec in H1. rewrite run_exec in H2.
  apply exec_read in H1 as [Hw1 H1]; [|apply _]. apply exec_read in H2 as [Hw2 H2]; [|apply _].
  specialize (H1 _ eq_refl). specialize (H2 _ eq_refl). rewrite Hw1 in *.
  injection H2 as <-. unfold select_posts in H1.
  destruct (page _ _ _) as [l|] eqn:Hp; [|done]. injection H1 as <-.
  apply page_ok in Hp as (Hl & Ho & ->). split_and!; try done.
  exists (order_by post_leb (sv_scan (server_at e w) _ (thread_posts id (w_db w)))).
  split_and!; [|apply post_leb_sorted|done]. rewrite order_by_Permutation. apply Hs.
Qed.

Lemma elem_thread_posts id d x :
  x ∈ thread_posts id d -> exists k, posts d !! k = Some (PostSummary.thePost x) /\
    in_thread id (PostSummary.thePost x) = true /\
    exists u, users d !! Post.AuthorID (PostSummary.thePost x) = Some u /\
      x = summary (PostSummary.thePost x) u.
Proof.
  unfold thread_posts, join_users. rewrite list_elem_of_omap.
  intros (p & [Hp [k Hk]]%elem_select & Hx). apply fmap_Some in Hx as (u & Hu & ->). eauto 6.
Qed.

(** With distinct times there is one chronological order. *)
Lemma chronological_unique id d l l' :
  distinct_times id d -> l ≡ₚ thread_posts id d -> l' ≡ₚ thread_posts id d ->
  StronglySorted (rel post_leb) l -> StronglySorted (rel post_leb) l' -> l = l'.
Proof.
  intros Hd Hl Hl' Hsl Hsl'. apply (StronglySorted_unique_strong (rel post_leb)); try done.
  2: by rewrite Hl, Hl'.
  intros x y. rewrite Hl, Hl'. intros (i & Hi & Hti & u & Hu & Hx)%elem_thread_posts
    (j & Hj & Htj & v & Hv & Hy)%elem_thread_posts Hxy Hyx.
  unfold rel, post_leb in Hxy, Hyx. apply Z.leb_le in Hxy, Hyx.
  assert (i = j) as -> by (apply (Hd i j _ _ Hi Hj); [done|done|lia]). congruence.
Qed.

Lemma concat_pages {A} (l : list A) m n :
  concat ((fun k => take m (drop (k * m) l)) <$> seq 0 n) = take (n * m) l.
Proof.
  induction n as [|n IH]; [done|]. rewrite seq_S, fmap_app, concat_app, IH. cbn.
  rewrite app_nil_r, drop_take_app. f_equal. lia.
Qed.

(** Every post of the thread has its author: none drops out of the join. *)
Lemma length_thread_posts `{Postgres} id d :
  db_ok d -> Z.of_nat (length (thread_posts id d)) = count (in_thread id) (posts d).
Proof.
  intros Hd. unfold thread_posts, join_users, count. f_equal.
  assert (Hall : forall p, p ∈ select (in_thread id) (posts d) -> is_Some (users d !! Post.AuthorID p)).
  { intros p [_ [k Hk]]%elem_select. by apply (ok_posts_author d Hd k p). }
  induction (select (in_thread id) (posts d)) as [|p l IH]; [done|]. cbn.
  destruct (Hall p ltac:(by left)) as [u ->]. cbn. f_equal. apply IH. intros q Hq. apply Hall. by right.
Qed.


End pages.

(** ** Examples *)

Section examples.
#[local] Existing Instance ascii_server.

(** A thread with three posts, stored out of order. *)
Definition three_posts : database :=
  set_posts (<[41%N := Post.Mk 41%N 30%N bob "third" None None 9 9]>
    (<[42%N := Post.Mk 42%N 30%N alice "second" None None 7 7]>
       {[40%N := Post.Mk 40%N 30%N alice "first" None None 5 5]})) (w_db one_thread).

Definition three_pages (k : nat) : list PostSummary.t :=
  match (run calm (ListByThread 30%N 2 (Z.of_nat (k * 2))) (world_of three_posts)).1 with
  | Ok (items, _) => items | Err _ => [] end.

Lemma three_distinct : distinct_times 30%N three_posts.
Proof.
  intros i j p q. cbn. rewrite !lookup_insert_Some, !lookup_singleton_Some. naive_solver.
Qed.


End examples.
