(* ===== verification/ThreadStore.v ===== *)
(** * Threads (internal/store/thread.go)

    The statements of [ThreadStore] and its methods.  [Create] runs in a transaction: the
    thread, its first post and the counters appear together or not at all. *)
From S2P Require Import Prelude GoStrings GoErrors Models Db Prog PostStore.
Local Open Scope mc_scope.

Section store.

Definition insert_thread (t : NewThread.t) : stmt (option Thread.t) := fun sv d =>
  let id := sv_uuid sv in
  let r := Thread.Mk id (NewThread.GroupID t) (NewThread.AuthorID t) (NewThread.Title t)
             false false 0 0 None (sv_now sv) (sv_now sv) in
  checked (text_ok (NewThread.Title t)) (negb (has_key (threads d) id))
    (has_key (groups d) (Thread.GroupID r) && has_key (users d) (Thread.AuthorID r))
    (Ok (Some r, set_threads (<[id := r]> (threads d)) d)).

(** A thread with new counters, and one with new mutable fields. *)
Definition with_stats (count : Z) (last : option time) (now : time) (t : Thread.t) : Thread.t :=
  Thread.Mk (Thread.ID t) (Thread.GroupID t) (Thread.AuthorID t) (Thread.Title t)
    (Thread.Pinned t) (Thread.Locked t) (Thread.Views t) count last (Thread.CreatedAt t) now.
Definition with_views (views : Z) (t : Thread.t) : Thread.t :=
  Thread.Mk (Thread.ID t) (Thread.GroupID t) (Thread.AuthorID t) (Thread.Title t)
    (Thread.Pinned t) (Thread.Locked t) views (Thread.PostCount t) (Thread.LastPostAt t)
    (Thread.CreatedAt t) (Thread.UpdatedAt t).
Definition with_fields (title : string) (pinned locked : bool) (now : time) (t : Thread.t)
    : Thread.t :=
  Thread.Mk (Thread.ID t) (Thread.GroupID t) (Thread.AuthorID t) title pinned locked
    (Thread.Views t) (Thread.PostCount t) (Thread.LastPostAt t) (Thread.CreatedAt t) now.

(** [UPDATE threads SET ... WHERE id = $1]: the rows affected.  A counter outside the range
    of [integer] is an error. *)
Definition update_thread_row (id : uuid) (f : Thread.t -> Thread.t) (d : database)
    : result (Z * database) :=
  match threads d !! id with
  | None => Ok (0%Z, d)
  | Some t =>
      let r := f t in
      if int32_ok (Thread.PostCount r) && int32_ok (Thread.Views r)
      then Ok (1%Z, set_threads (<[id := r]> (threads d)) d)
      else Err (PgErr numeric_out_of_range)
  end.

(** [SET post_count = post_count + 1, last_post_at = $2, updated_at = now()] *)
Definition bump_post_stmt (id : uuid) (lastPostAt : time) : stmt Z := fun sv d =>
  update_thread_row id
    (fun t => with_stats (Thread.PostCount t + 1) (Some lastPostAt) (sv_now sv) t) d.

(** [SET views = views + 1] *)
Definition increment_views_stmt (id : uuid) : stmt Z := fun sv d =>
  update_thread_row id (fun t => with_views (Thread.Views t + 1) t) d.

(** [max(created_at)], NULL on no rows. *)
Definition max_created (l : list Post.t) : option time :=
  foldr (fun p acc => Some (match acc with
                            | None => Post.CreatedAt p
                            | Some m => Z.max (Post.CreatedAt p) m
                            end)) None l.

(** [SET post_count = (SELECT count( * ) ...), last_post_at = (SELECT max(created_at) ...)] *)
Definition recalc_stats_stmt (id : uuid) : stmt Z := fun sv d =>
  update_thread_row id
    (fun t => with_stats (count (in_thread id) (posts d))
                (max_created (select (in_thread id) (posts d))) (sv_now sv) t) d.

Definition thread_summary (t : Thread.t) (u : User.t) : ThreadSummary.t :=
  ThreadSummary.Mk t (User.Username u) (display_of u).

Definition in_group (groupID : uuid) (t : Thread.t) : bool := N.eqb (Thread.GroupID t) groupID.

(** [ORDER BY t.pinned DESC, t.last_post_at DESC NULLS LAST, t.created_at DESC] *)
Definition thread_leb (x y : ThreadSummary.t) : bool :=
  let a := ThreadSummary.theThread x in
  let b := ThreadSummary.theThread y in
  if Bool.eqb (Thread.Pinned a) (Thread.Pinned b) then
    match Thread.LastPostAt a, Thread.LastPostAt b with
    | Some s, Some t => (t <? s) || ((t =? s) && (Thread.CreatedAt b <=? Thread.CreatedAt a))
    | Some _, None => true
    | None, Some _ => false
    | None, None => Thread.CreatedAt b <=? Thread.CreatedAt a
    end%Z
  else Thread.Pinned a.

Definition select_threads (groupID : uuid) (limit offset : Z) : stmt (list ThreadSummary.t) :=
  fun sv d =>
  let joined := join_users Thread.AuthorID thread_summary (users d)
                  (select (in_group groupID) (threads d)) in
  match page limit offset (order_by thread_leb (sv_scan sv _ joined)) with
  | Ok l => Ok (l, d)
  | Err e => Err e
  end.

Definition count_threads (groupID : uuid) : stmt Z := fun sv d =>
  Ok (count (in_group groupID) (threads d), d).

Definition select_thread (id : uuid) : stmt (option Thread.t) := fun sv d =>
  Ok (threads d !! id, d).

Definition select_thread_summary (id : uuid) : stmt (option ThreadSummary.t) := fun sv d =>
  Ok (head (join_users Thread.AuthorID thread_summary (users d)
              (option_list (threads d !! id))), d).

Definition update_thread_stmt (id : uuid) (title : string) (pinned locked : bool)
    : stmt (option Thread.t) := fun sv d =>
  checked (text_ok title) true true
    match threads d !! id with
    | None => Ok (None, d)
    | Some t => let r := with_fields title pinned locked (sv_now sv) t in
                Ok (Some r, set_threads (<[id := r]> (threads d)) d)
    end.

Definition delete_thread_stmt (id : uuid) : stmt Z := fun sv d =>
  if has_key (threads d) id then Ok (1%Z, delete_thread id d) else Ok (0%Z, d).

Definition scanThread (row : result (option Thread.t)) : result Thread.t :=
  match Scan row with
  | Ok t => Ok t
  | Err err => if isNoRows err then Err store_ErrNotFound else Err err
  end.

Definition scanThreadSummary (row : result (option ThreadSummary.t))
    : result ThreadSummary.t :=
  match Scan row with
  | Ok t => Ok t
  | Err err => if isNoRows err then Err store_ErrNotFound else Err err
  end.

(** The body of the transaction of [Create]: the new thread and its first post's time. *)
Definition create_body (t : NewThread.t) (first : NewPost.t)
    : prog (result (Thread.t * time)) :=
  row <- exec (insert_thread t) ;;
  th <-? Ret (scanThread row) ;;
  row <- exec (insert_post
           (NewPost.Mk (Thread.ID th) (NewPost.AuthorID first) (NewPost.Body first))) ;;
  post <-? Ret (Scan row) ;;
  let postCreatedAt := Post.CreatedAt post in
  _ <-? exec (bump_post_stmt (Thread.ID th) postCreatedAt) ;;
  ret (th, postCreatedAt).

(** Create inserts a new thread with its first post. *)
Definition Create (t : NewThread.t) (first : NewPost.t) : prog (result Thread.t) :=
  thp <-? transact (create_body t first) ;;
  let '(th, postCreatedAt) := thp in
  ret (with_stats 1 (Some postCreatedAt) (Thread.UpdatedAt th) th).

(** ListByGroup returns a page of the threads of a group, and their number. *)
Definition ListByGroup (groupID : uuid) (limit offset : Z)
    : prog (result (list ThreadSummary.t * Z)) :=
  items <-? exec (select_threads groupID limit offset) ;;
  total <-? exec (count_threads groupID) ;;
  ret (items, total).

(** GetByID returns a thread by its ID. *)
Definition GetByID (id : uuid) : prog (result Thread.t) :=
  row <- exec (select_thread id) ;; Ret (scanThread row).

(** SummaryByID returns a thread joined with its author. *)
Definition SummaryByID (id : uuid) : prog (result ThreadSummary.t) :=
  row <- exec (select_thread_summary id) ;; Ret (scanThreadSummary row).

(** Update sets the mutable fields of a thread and returns it. *)
Definition Update (id : uuid) (title : string) (pinned locked : bool)
    : prog (result Thread.t) :=
  row <- exec (update_thread_stmt id title pinned locked) ;; Ret (scanThread row).

(** Delete removes a thread by its ID. *)
Definition Delete (id : uuid) : prog (result unit) :=
  tag <-? exec (delete_thread_stmt id) ;;
  if (tag =? 0)%Z then fail store_ErrNotFound else ret tt.

(** IncrementViews bumps the view counter of a thread. *)
Definition IncrementViews (id : uuid) : prog (result unit) :=
  _ <-? exec (increment_views_stmt id) ;; ret tt.

(** CountByGroup counts threads belonging to a group. *)
Definition CountByGroup (groupID : uuid) : prog (result Z) := exec (count_threads groupID).

(** BumpPost increments the post counter and refreshes the last activity time. *)
Definition BumpPost (threadID : uuid) (lastPostAt : time) : prog (result unit) :=
  _ <-? exec (bump_post_stmt threadID lastPostAt) ;; ret tt.

(** RecalcStats recomputes the post counter and last activity time from the posts table. *)
Definition RecalcStats (threadID : uuid) : prog (result unit) :=
  _ <-? exec (recalc_stats_stmt threadID) ;; ret tt.

End store.

(** ** Integrity *)

Section safety.
Context `{Postgres}.

(** An update that leaves the identity and the references of a thread alone. *)
Definition same_refs (f : Thread.t -> Thread.t) : Prop := forall t,
  Thread.ID (f t) = Thread.ID t /\ Thread.GroupID (f t) = Thread.GroupID t /\
  Thread.AuthorID (f t) = Thread.AuthorID t.

Lemma replace_thread_ok d id t r :
  db_ok d -> threads d !! id = Some t -> Thread.ID r = Thread.ID t ->
  Thread.GroupID r = Thread.GroupID t -> Thread.AuthorID r = Thread.AuthorID t ->
  db_ok (set_threads (<[id := r]> (threads d)) d).
Proof.
  intros Hd Ht Hid Hg Ha.
  pose proof (ok_threads d Hd id t Ht). pose proof (ok_threads_group d Hd id t Ht).
  pose proof (ok_threads_author d Hd id t Ht). rewrite <- Hg, <- Ha in *.
  assert (Thread.ID r = id) by congruence. destruct Hd. constructor; cbn; eauto with mc.
Qed.

Lemma update_thread_row_ok id f d n d' :
  same_refs f -> update_thread_row id f d = Ok (n, d') -> db_ok d -> db_ok d'.
Proof.
  intros Hf. unfold update_thread_row. destruct (threads d !! id) as [t|] eqn:Ht.
  - destruct (_ && _); [|done]. intros [= <- <-] Hd. destruct (Hf t) as (? & ? & ?).
    by eapply replace_thread_ok.
  - by intros [= <- <-].
Qed.

#[export] Instance insert_thread_keeps t : StmtKeeps db_ok (insert_thread t).
Proof.
  intros sv d a d'. unfold insert_thread. rewrite checked_Ok.
  intros (_ & _ & [Hg%has_key_true Hu%has_key_true]%andb_true_iff & [= <- <-]) Hd.
  destruct Hd. constructor; cbn; eauto with mc.
Qed.

#[export] Instance bump_post_keeps id t : StmtKeeps db_ok (bump_post_stmt id t).
Proof. intros sv d a d'. by apply update_thread_row_ok. Qed.
#[export] Instance increment_views_keeps id : StmtKeeps db_ok (increment_views_stmt id).
Proof. intros sv d a d'. by apply update_thread_row_ok. Qed.
#[export] Instance recalc_stats_keeps id : StmtKeeps db_ok (recalc_stats_stmt id).
Proof. intros sv d a d'. by apply update_thread_row_ok. Qed.

#[export] Instance update_thread_keeps id t p l : StmtKeeps db_ok (update_thread_stmt id t p l).
Proof.
  intros sv d a d'. unfold update_thread_stmt. rewrite checked_Ok. intros (_ & _ & _ & Hw).
  destruct (threads d !! id) eqn:Ht; simplify_eq; [|done].
  intros Hd. by eapply replace_thread_ok.
Qed.

#[export] Instance delete_thread_keeps id : StmtKeeps db_ok (delete_thread_stmt id).
Proof.
  intros sv d a d'. unfold delete_thread_stmt.
  destruct (has_key _ _); intros [= <- <-]; auto with mc.
Qed.

#[export] Instance select_threads_reads g l o : StmtReads (select_threads g l o).
Proof.
  intros sv d a d'. unfold select_threads. destruct (page _ _ _); [|done]. by intros [= <- <-].
Qed.
#[export] Instance count_threads_reads g : StmtReads (count_threads g).
Proof. by intros sv d a d' [= <- <-]. Qed.
#[export] Instance select_thread_reads id : StmtReads (select_thread id).
Proof. by intros sv d a d' [= <- <-]. Qed.
#[export] Instance select_thread_summary_reads id : StmtReads (select_thread_summary id).
Proof. by intros sv d a d' [= <- <-]. Qed.

#[export] Instance Create_safe t p : DbSafe db_ok (Create t p).
Proof. unfold Create, create_body. apply _. Qed.
#[export] Instance Update_safe id t p l : DbSafe db_ok (Update id t p l).
Proof. unfold Update. apply _. Qed.
#[export] Instance Delete_safe id : DbSafe db_ok (Delete id).
Proof. unfold Delete. apply _. Qed.
#[export] Instance IncrementViews_safe id : DbSafe db_ok (IncrementViews id).
Proof. unfold IncrementViews. apply _. Qed.
#[export] Instance BumpPost_safe id t : DbSafe db_ok (BumpPost id t).
Proof. unfold BumpPost. apply _. Qed.
#[export] Instance RecalcStats_safe id : DbSafe db_ok (RecalcStats id).
Proof. unfold RecalcStats. apply _. Qed.
#[export] Instance ListByGroup_safe J g l o : DbSafe J (ListByGroup g l o).
Proof. unfold ListByGroup. apply _. Qed.
#[export] Instance CountByGroup_safe J g : DbSafe J (CountByGroup g).
Proof. unfold CountByGroup. apply _. Qed.
#[export] Instance GetByID_safe J id : DbSafe J (GetByID id).
Proof. unfold GetByID. apply _. Qed.
#[export] Instance SummaryByID_safe J id : DbSafe J (SummaryByID id).
Proof. unfold SummaryByID. apply _. Qed.

End safety.

(** ** Behaviour without faults *)

Section alone.
Context (e : env) (Hf : no_faults e).

Lemma run_CountByGroup g w :
  run e (CountByGroup g) w = (Ok (count (in_group g) (threads (w_db w))), tick w).
Proof. unfold CountByGroup. run_simpl Hf. unfold count_threads. by run_simpl Hf. Qed.

Lemma thread_run_GetByID id w :
  run e (GetByID id) w
  = (match threads (w_db w) !! id with Some t => Ok t | None => Err store_ErrNotFound end, tick w).
Proof.
  unfold GetByID. run_simpl Hf. unfold select_thread. run_simpl Hf.
  by destruct (threads (w_db w) !! id).
Qed.

(** The thread [id] with its author, in the tables [d]. *)
Definition summary_of (id : uuid) (d : database) : result ThreadSummary.t :=
  match threads d !! id with
  | Some t => match users d !! Thread.AuthorID t with
              | Some u => Ok (thread_summary t u)
              | None => Err store_ErrNotFound
              end
  | None => Err store_ErrNotFound
  end.

Lemma thread_run_SummaryByID id w : run e (SummaryByID id) w = (summary_of id (w_db w), tick w).
Proof.
  unfold SummaryByID, summary_of. run_simpl Hf. unfold select_thread_summary. run_simpl Hf.
  destruct (threads (w_db w) !! id) as [t|]; cbn; [|done].
  by destruct (users (w_db w) !! Thread.AuthorID t).
Qed.

Lemma thread_run_Update id title p l w :
  run e (Update id title p l) w
  = if text_ok title then
      match threads (w_db w) !! id with
      | Some t =>
          let r := with_fields title p l (sv_now (server_at e w)) t in
          (Ok r, set_db (set_threads (<[id := r]> (threads (w_db w))) (w_db w)) (tick w))
      | None => (Err store_ErrNotFound, tick w)
      end
    else (Err (PgErr bad_text), tick w).
Proof.
  unfold Update. run_simpl Hf. unfold update_thread_stmt, checked.
  destruct (text_ok title); cbn [negb]; [|done].
  by destruct (threads (w_db w) !! id); run_simpl Hf.
Qed.

Lemma thread_run_Delete id w :
  run e (Delete id) w
  = (if has_key (threads (w_db w)) id then Ok tt else Err store_ErrNotFound,
     set_db (if has_key (threads (w_db w)) id then delete_thread id (w_db w) else w_db w) (tick w)).
Proof.
  unfold Delete. run_simpl Hf. unfold delete_thread_stmt. by destruct (has_key _ id).
Qed.

(** The answer of a counter update, whatever the rows affected. *)
Definition touched (r : result (Z * database)) (w : world) : result unit * world :=
  match r with
  | Ok (_, d') => (Ok tt, set_db d' (tick w))
  | Err er => (Err er, tick w)
  end.

Lemma run_touch (s : stmt Z) w :
  run e (_ <-? exec s ;; ret tt) w = touched (s (server_at e w) (w_db w)) w.
Proof. run_simpl Hf. by destruct (s _ _) as [[n d']|er]. Qed.

Lemma run_IncrementViews id w :
  run e (IncrementViews id) w = touched (increment_views_stmt id (server_at e w) (w_db w)) w.
Proof. apply run_touch. Qed.
Lemma run_BumpPost id t w :
  run e (BumpPost id t) w = touched (bump_post_stmt id t (server_at e w) (w_db w)) w.
Proof. apply run_touch. Qed.
Lemma run_RecalcStats id w :
  run e (RecalcStats id) w = touched (recalc_stats_stmt id (server_at e w) (w_db w)) w.
Proof. apply run_touch. Qed.

End alone.
#[export] Hint Rewrite @run_CountByGroup @thread_run_GetByID @thread_run_SummaryByID @thread_run_Update @thread_run_Delete
  @run_IncrementViews @run_BumpPost @run_RecalcStats using assumption : mc_run.

(** ** Behaviour in any environment *)

Section any.
Context (e : env).

Lemma thread_any_GetByID id w r w' :
  run e (GetByID id) w = (r, w') ->
  w_db w' = w_db w /\ forall t, r = Ok t -> threads (w_db w) !! id = Some t.
Proof.
  unfold GetByID. intros Hr. autorewrite with mc_rw in Hr.
  destruct (exec_op (select_thread id) e w) as [o w1] eqn:Ho.
  apply exec_read in Ho as [Hdb Ho]; [|apply _]. autorewrite with mc_rw in Hr.
  injection Hr as <- <-. split; [done|].
  destruct o as [[t|]|er]; cbn; [|done|by destruct (isNoRows er)].
  intros t' [= ->]. specialize (Ho _ eq_refl). unfold select_thread in Ho. congruence.
Qed.

Lemma thread_any_SummaryByID id w : w_db (run e (SummaryByID id) w).2 = w_db w.
Proof. apply db_safe_reads. apply _. Qed.

Lemma any_Update id title p l w r w' :
  run e (Update id title p l) w = (r, w') ->
  w_db w' = w_db w \/
  exists t now, threads (w_db w) !! id = Some t /\
    w_db w' = set_threads (<[id := with_fields title p l now t]> (threads (w_db w))) (w_db w).
Proof.
  unfold Update. intros Hr. autorewrite with mc_rw in Hr.
  destruct (exec_op _ e w) as [o w1] eqn:Ho. autorewrite with mc_rw in Hr. injection Hr as _ <-.
  destruct (exec_op_db e (update_thread_stmt id title p l) w) as [Hs|(a & d' & Hs & Hd)];
    rewrite Ho in *; cbn in *; [by left|].
  apply checked_Ok in Hs as (_ & _ & _ & Hs). rewrite Hd.
  destruct (threads (w_db w) !! id) as [t|]; injection Hs as _ <-; [right; by eauto|by left].
Qed.

(** A thread and its first post, or nothing. *)
Definition starting (t : NewThread.t) (first : NewPost.t) (th : Thread.t) (p : Post.t)
    (d d' : database) : Prop :=
    threads d !! Thread.ID th = None /\ posts d !! Post.ID p = None /\
    d' = set_posts (<[Post.ID p := p]> (posts d)) (set_threads (<[Thread.ID th := th]> (threads d)) d) /\
    Thread.GroupID th = NewThread.GroupID t /\ Thread.AuthorID th = NewThread.AuthorID t /\
    Thread.Title th = NewThread.Title t /\ Thread.Pinned th = false /\ Thread.Locked th = false /\
    Thread.Views th = 0%Z /\ Thread.PostCount th = 1%Z /\ Thread.LastPostAt th = Some (Post.CreatedAt p) /\
    Post.ThreadID p = Thread.ID th /\ Post.AuthorID p = NewPost.AuthorID first /\
    Post.Body p = NewPost.Body first.
Definition started (t : NewThread.t) (first : NewPost.t) (d d' : database) : Prop :=
  exists th p, starting t first th p d d'.

Lemma run_create_body t first w x w' :
  run e (create_body t first) w = (Ok x, w') ->
  exists th p, starting t first th p (w_db w) (w_db w') /\
    Thread.ID th = env_uuid e (w_tick w) /\ Post.ID p = env_uuid e (S (w_tick w)) /\
    w_tick w' = (3 + w_tick w)%nat.
Proof.
  unfold create_body. intros (row & w1 & H1 & Hr)%run_bind_inv.
  apply run_bindr_Ok in Hr as (th & w2 & H2 & Hr).
  apply run_bind_inv in Hr as (row2 & w3 & H3 & Hr).
  apply run_bindr_Ok in Hr as (p & w4 & H4 & Hr).
  apply run_bindr_Ok in Hr as (n & w5 & H5 & Hr).
  rewrite run_exec in H1. rewrite run_exec in H3. rewrite run_exec in H5. cbn in H2, H4, Hr.
  injection H2 as Ht <-. injection H4 as Hp <-. injection Hr as _ <-.
  destruct row as [[th0|]|er]; cbn in Ht; [|done|by destruct (isNoRows er)]. injection Ht as ->.
  destruct row2 as [[p0|]|er]; cbn in Hp; try done. injection Hp as ->.
  apply exec_op_Ok in H1 as (d1 & Hs1 & ->). apply exec_op_Ok in H3 as (d2 & Hs2 & ->).
  apply exec_op_Ok in H5 as (d3 & Hs3 & ->).
  unfold insert_thread in Hs1. apply checked_Ok in Hs1 as (_ & Hk1%negb_true_iff%has_key_false & _ & Hs1).
  unfold insert_post in Hs2. apply checked_Ok in Hs2 as (_ & Hk2%negb_true_iff%has_key_false & _ & Hs2).
  simplify_eq/=. unfold bump_post_stmt, update_thread_row in Hs3. cbn in Hs3.
  rewrite lookup_insert_eq, insert_insert_eq in Hs3. cbn in Hs3.
  change (int32_ok (0 + 1) && int32_ok 0) with true in Hs3. injection Hs3 as _ <-.
  eexists (with_stats 1 _ _ (Thread.Mk _ _ _ _ _ _ _ _ _ _ _)), (Post.Mk _ _ _ _ _ _ _ _). unfold starting. cbn.
  by split_and!.
Qed.

Lemma any_Create t first w r w' :
  run e (Create t first) w = (r, w') ->
  (w_db w' = w_db w /\ forall th, r <> Ok th) \/ started t first (w_db w) (w_db w').
Proof.
  unfold Create. rewrite run_bindr, run_transact.
  destruct (tx_op _ e w) as [[x|er] w1] eqn:Ht; cbn.
  - destruct x as [th pc]. intros [= <- <-].
    apply tx_op_cases in Ht as [[_ Hx]|(a & w0 & w2 & Hw0 & Hb & Hw & _)]; [by destruct (Hx (th, pc))|].
    right. rewrite Hw, <- Hw0. by apply run_create_body in Hb as (th' & p & Hb & _); exists th', p.
  - intros [= <- <-].
    apply tx_op_cases in Ht as [[Hw _]|(a & w0 & w2 & Hw0 & Hb & Hw & _)]; [by left|].
    right. rewrite Hw, <- Hw0. by apply run_create_body in Hb as (th' & p & Hb & _); exists th', p.
Qed.

End any.

Lemma thread_any_Delete e id w r w' :
  run e (Delete id) w = (r, w') ->
  w_db w' = w_db w \/
  (is_Some (threads (w_db w) !! id) /\ w_db w' = delete_thread id (w_db w)).
Proof.
  unfold Delete. intros Hr. rewrite run_bindr, run_exec in Hr.
  destruct (exec_op _ e w) as [o w1] eqn:Ho.
  assert (w' = w1) as ->.
  { destruct o as [n|er]; [|congruence]. destruct (n =? 0)%Z; cbn in Hr; congruence. }
  destruct (exec_op_db e (delete_thread_stmt id) w) as [Hd|(a & d' & Hs & Hd)];
    rewrite Ho in Hd; cbn in Hd; [by left|]. rewrite Hd.
  unfold delete_thread_stmt in Hs. destruct (has_key _ id) eqn:Hk; injection Hs as _ <-; [|by left].
  right. split; [by apply has_key_true|done].
Qed.

(** A counter update in any environment. *)
Lemma any_touch e (s : stmt Z) w r w' :
  run e (_ <-? exec s ;; ret tt) w = (r, w') ->
  w_db w' = w_db w \/ exists sv n, s sv (w_db w) = Ok (n, w_db w').
Proof.
  intros Hr. rewrite run_bindr, run_exec in Hr. destruct (exec_op s e w) as [o w1] eqn:Ho.
  assert (w' = w1) as -> by (destruct o; cbn in Hr; congruence).
  destruct (exec_op_db e s w) as [Hd|(a & d' & Hs & Hd)]; rewrite Ho in Hd; cbn in Hd;
    [by left|]. right. rewrite Hd. eauto.
Qed.
