(* ===== verification/Roles.v ===== *)
(** * Role checks shared by the services (internal/services/errors.go) *)
From S2P Require Import Prelude Models.

(** hasRole reports whether the role list contains any of the given keys. *)
Definition hasRole (roles keys : list string) : bool :=
  existsb (fun r => existsb (String.eqb r) keys) roles.

Definition moderators : list string := [RoleAdmin; RoleModerator].

Lemma hasRole_true roles keys :
  hasRole roles keys = true <-> exists r, r ∈ roles /\ r ∈ keys.
Proof.
  unfold hasRole. rewrite existsb_true_iff. split.
  - intros (r & Hr & (k & Hk & ->%String.eqb_eq)%existsb_true_iff). by exists k.
  - intros (r & Hr & Hk). exists r. split; [done|]. apply existsb_true_iff.
    exists r. by rewrite String.eqb_refl.
Qed.
