(* ===== verification/GroupService.v ===== *)
(** * Group service (internal/services/group.go) *)
From S2P Require Import Prelude GoStrings Regexp GoErrors Models Db Prog Concrete GroupStore ThreadStore.
From Stdlib Require Import Ascii.
Local Open Scope mc_scope.

(** [^[a-z0-9]+(-[a-z0-9]+)*$] *)
Definition slug_char (a : ascii) : bool := byte_in 97 122 a || byte_in 48 57 a.
Definition slugRe : re :=
  Seq (Plus (Cls slug_char)) (Star (Seq (chr "-"%char) (Plus (Cls slug_char)))).

Definition maxGroupNameLen : Z := 100.
Definition maxGroupDescriptionLen : Z := 2000.
Definition maxSlugLen : Z := 80.

Module GroupInput.
Record t := Mk { Name : string; Slug : string; Description : string;
  ParentID : option uuid; SortOrder : Z }.
End GroupInput.

Definition validateGroup (inp : GroupInput.t) : option error :=
  let name := TrimSpace (GroupInput.Name inp) in
  if String.eqb name "" || (maxGroupNameLen <? RuneCountInString name)%Z then
    Some (New ErrInvalidInput)
  else
  let slug := TrimSpace (GroupInput.Slug inp) in
  if negb (matches slugRe slug) || (maxSlugLen <? len slug)%Z then
    Some (New ErrInvalidInput)
  else if (maxGroupDescriptionLen <? RuneCountInString (GroupInput.Description inp))%Z then
    Some (New ErrInvalidInput)
  else if bool_decide (GroupInput.ParentID inp = Some uuid_Nil) then Some (New ErrInvalidInput)
  else None.

Definition to_new (inp : GroupInput.t) : NewGroup.t :=
  NewGroup.Mk (GroupInput.Name inp) (GroupInput.Slug inp) (GroupInput.Description inp)
    (GroupInput.ParentID inp) (GroupInput.SortOrder inp).

Section service.
Context `{Postgres}.

(** List returns all groups ordered for display. *)
Definition List : prog (result (list Group.t)) := GroupStore.List.

(** Get returns a single group by ID. *)
Definition Get (id : uuid) : prog (result Group.t) :=
  r <- GroupStore.GetByID id ;;
  match r with
  | Err err => if errors_Is err store_ErrNotFound then fail ErrGroupNotFound else fail err
  | Ok g => ret g
  end.

(** Create validates and inserts a new group. *)
Definition Create (inp : GroupInput.t) : prog (result Group.t) :=
  match validateGroup inp with
  | Some err => fail err
  | None =>
    r <- GroupStore.Create (to_new inp) ;;
    match r with
    | Err err => if errors_Is err store_ErrConflict then fail ErrConflict else fail err
    | Ok g => ret g
    end
  end.

(** Update validates and applies new values to a group. *)
Definition Update (id : uuid) (inp : GroupInput.t) : prog (result Group.t) :=
  match validateGroup inp with
  | Some err => fail err
  | None =>
    r <- GroupStore.Update id (to_new inp) ;;
    match r with
    | Err err =>
        if errors_Is err store_ErrNotFound then fail ErrGroupNotFound
        else if errors_Is err store_ErrConflict then fail ErrConflict
        else fail err
    | Ok g => ret g
    end
  end.

(** Delete removes a group if it contains no threads. *)
Definition Delete (id : uuid) : prog (result unit) :=
  r <- GroupStore.GetByID id ;;
  match r with
  | Err err => if errors_Is err store_ErrNotFound then fail ErrGroupNotFound else fail err
  | Ok _ =>
    n <-? ThreadStore.CountByGroup id ;;
    if (0 <? n)%Z then fail ErrNotEmpty else
    r <- GroupStore.Delete id ;;
    match r with
    | Err err => if errors_Is err store_ErrNotFound then fail ErrGroupNotFound else fail err
    | Ok _ => ret tt
    end
  end.

#[export] Instance List_safe J : DbSafe J List.
Proof. unfold List. apply _. Qed.
#[export] Instance Get_safe J id : DbSafe J (Get id).
Proof. unfold Get. apply _. Qed.
#[export] Instance Create_safe inp : DbSafe db_ok (Create inp).
Proof. unfold Create. apply _. Qed.
#[export] Instance Update_safe id inp : DbSafe db_ok (Update id inp).
Proof. unfold Update. apply _. Qed.
#[export] Instance Delete_safe id : DbSafe db_ok (Delete id).
Proof. unfold Delete. apply _. Qed.

End service.

(** ** Correctness *)

Section correctness.
Context `{Postgres}.
Implicit Types (d : database).

(** Deleting a group without threads takes nothing else away. *)
Lemma delete_empty_group id d :
  db_ok d -> exists_row (in_group id) (threads d) = false ->
  delete_group id d = set_groups (clear_parent (delete id (groups d)) <$> delete id (groups d)) d.
Proof.
  intros Hd He. rewrite exists_row_false in He.
  unfold delete_group, cascade_groups, cascade_threads, cascade_posts. cbn.
  rewrite (keep_fk _ (threads d)).
  2: { intros k t Hk. rewrite lookup_delete_ne; [by apply (ok_threads_group d Hd k t)|].
       intros Heq. specialize (He k t Hk). unfold in_group in He. by rewrite <- Heq, N.eqb_refl in He. }
  rewrite (keep_fk _ (posts d)) by apply (ok_posts_thread d Hd).
  rewrite clear_posts_id by apply (ok_attachments_post d Hd). by destruct d.
Qed.


(** Creating a group: input that fails validation is answered [ErrInvalidInput], a name
    or slug that some group already has [ErrConflict], both without effect; on success exactly
    one row is added, under a fresh id, with the given fields, its parent exists, and no other
    group has its name or its slug. *)
Theorem Create_spec e w inp r w' :
  no_faults e -> run e (Create inp) w = (r, w') ->
  let d := w_db w in
  (validateGroup inp <> None -> r = Err ErrInvalidInput /\ w_db w' = d) /\
  (validateGroup inp = None -> group_params_ok (to_new inp) = true ->
   int32_ok (GroupInput.SortOrder inp) = true -> groups d !! env_uuid e (w_tick w) = None ->
   (exists k g, groups d !! k = Some g /\
      (Group.Name g = GroupInput.Name inp \/ Group.Slug g = GroupInput.Slug inp)) ->
   r = Err ErrConflict /\ w_db w' = d) /\
  (forall g, r = Ok g ->
   validateGroup inp = None /\ groups d !! Group.ID g = None /\
   w_db w' = set_groups (<[Group.ID g := g]> (groups d)) d /\
   Group.Name g = GroupInput.Name inp /\ Group.Slug g = GroupInput.Slug inp /\
   Group.Description g = GroupInput.Description inp /\
   Group.ParentID g = GroupInput.ParentID inp /\ Group.SortOrder g = GroupInput.SortOrder inp /\
   (forall k h, groups d !! k = Some h -> Group.Name h <> Group.Name g /\ Group.Slug h <> Group.Slug g)).
Proof.
  intros Hf Hrun d. revert Hrun. unfold Create.
  destruct (validateGroup inp) as [err|] eqn:Hv.
  { run_simpl Hf. intros [= <- <-]. split_and!; [|done|done]. intros _. split; [|done].
    revert Hv. unfold validateGroup. by repeat case_match; intros; simplify_eq. }
  run_simpl Hf. fold d. set (sv := server_at e w).
  unfold insert_group, write_answer.
  destruct (int32_ok (NewGroup.SortOrder (to_new inp))) eqn:Hi; cbn [negb];
    [|run_simpl Hf; intros [= <- <-]; split_and!; try done; cbn in *; congruence].
  unfold checked at 1. destruct (group_params_ok (to_new inp)) eqn:Hp; cbn [negb];
    [|run_simpl Hf; intros [= <- <-]; split_and!; try done; cbn in *; congruence].
  destruct (has_key (groups d) (sv_uuid sv)) eqn:Hk; cbn [negb].
  { run_simpl Hf. cbn. by intros [= <- <-]. }
  apply has_key_false in Hk. unfold write_group, checked. cbn [negb].
  destruct (unique_ok Group.Name _ _ _) eqn:Hn; cbn [andb negb].
  1: destruct (unique_ok Group.Slug _ _ _) eqn:Hs; cbn [andb negb].
  - rewrite unique_ok_true in Hn, Hs.
    assert (Hfresh : forall k h, groups d !! k = Some h ->
      Group.Name h <> GroupInput.Name inp /\ Group.Slug h <> GroupInput.Slug inp).
    { intros k h Hh. assert (k <> sv_uuid sv) by congruence.
      split; [by apply (Hn k)|by apply (Hs k)]. }
    destruct (has_key_opt _ _) eqn:Hpar; cbn [negb]; run_simpl Hf; intros [= <- <-];
      (split_and!; [done|..]).
    + intros _ _ _ _ (k & h & Hh & [He|He]); by destruct (Hfresh k h Hh).
    + intros g [= <-]. cbn. by split_and!.
    + intros _ _ _ _ (k & h & Hh & [He|He]); by destruct (Hfresh k h Hh).
    + done.
  - run_simpl Hf. cbn. by intros [= <- <-].
  - run_simpl Hf. cbn. by intros [= <- <-].
Qed.

(** [Update] never answers [ErrConflict], in any environment: the store maps no unique
    violation to [store.ErrConflict], so the branch of the service for it is dead and a taken
    name or slug surfaces as the raw database error. *)
Theorem Update_never_conflict e w id inp : (run e (Update id inp) w).1 <> Err ErrConflict.
Proof.
  unfold Update, GroupStore.Update. destruct (validateGroup inp) as [err|] eqn:Hv.
  { intros [= ->]. revert Hv. unfold validateGroup. by repeat case_match; intros; simplify_eq. }
  autorewrite with mc_rw.
  destruct (exec_op (update_group id (to_new inp)) e w) as [[[g|]|er] w1] eqn:Ho;
    autorewrite with mc_rw; cbn; [done|done|].
  unfold exec_op in Ho.
  assert (Her : er = ErrConn \/ update_group id (to_new inp) (server_at e w) (w_db w) = Err er).
  { destruct (env_fault e (w_tick w)) as [[]|];
      destruct (update_group _ _ _ _) as [[x d']|er']; simplify_eq; auto. }
  destruct Her as [->|Her]; [done|]. revert Her. unfold update_group, checked, write_group, checked.
  repeat case_match; intros; simplify_eq; done.
Qed.

End correctness.

(** ** Slugs *)

(** One pass over a slug: words of lower-case letters and digits, single dashes between. *)
Fixpoint slug_ok (after_dash : bool) (s : string) : bool :=
  match s with
  | EmptyString => negb after_dash
  | String a s' =>
      if slug_char a then slug_ok false s'
      else if is_byte 45 a then negb after_dash && slug_ok true s'
      else false
  end.

Lemma matches_Void s : matches Void s = false.
Proof. induction s; cbn; auto. Qed.

(** The expression once a word has begun. *)
Definition slug_rest : re :=
  Seq (Star (Cls slug_char)) (Star (Seq (chr "-"%char) (Plus (Cls slug_char)))).

Lemma slug_dash a : is_byte 45 a = Ascii.eqb "-"%char a.
Proof.
  destruct (Ascii.eqb_spec "-"%char a) as [<-|Hne]; [done|]. apply N.eqb_neq. intros He.
  apply Hne. rewrite <- (ascii_N_embedding a). unfold byte_of in He. by rewrite He.
Qed.

Lemma slug_matches s :
  matches slugRe s = slug_ok true s /\ matches slug_rest s = slug_ok false s.
Proof.
  induction s as [|a s [IH1 IH2]]; [done|].
  assert (Hd : slug_char a = true -> is_byte 45 a = false).
  { rewrite slug_dash. destruct (Ascii.eqb_spec "-"%char a) as [<-|]; done. }
  cbn [matches slug_ok]. rewrite slug_dash in *.
  unfold slugRe, slug_rest, Plus, chr in *. cbn [deriv nullable andb].
  destruct (slug_char a) eqn:Ea.
  - rewrite Hd by done. cbn. split; apply IH2.
  - destruct (Ascii.eqb "-"%char a); cbn; rewrite ?matches_Void; auto.
Qed.

(** C39: [slugRe] accepts exactly the non-empty texts of lower-case letters, digits and dashes
    that neither begin nor end with a dash and have no two dashes in a row. *)
Theorem slugRe_language s : matches slugRe s = slug_ok true s.
Proof. apply slug_matches. Qed.

(** Validation looks at the trimmed slug, the store gets the text as it came: a group can
    be created whose slug does not match [slugRe]. *)
Theorem Create_untrimmed :
  exists g, (run calm (Create (GroupInput.Mk "News" " news" "" None 0))
               (world_of sample)).1 = Ok g /\
    matches slugRe (Group.Slug g) = false.
Proof. eexists. split; [by vm_compute|by vm_compute]. Qed.

(** ** Deleting a group while a thread is created in it *)

(** The check for threads and the deletion are separate statements: a thread created
    between them is deleted with its first post, although its creation was acknowledged. *)
Theorem Delete_loses_thread :
  exists t, match run_sched calm [0; 0; 1; 0]
      ([ (r <- Delete 20%N ;; Ret (match r with Ok _ => None | Err er => Some er end));
         (r <- ThreadStore.Create (NewThread.Mk 20%N alice "t") (NewPost.Mk uuid_Nil alice "b") ;;
          Ret (match r with Ok th => Some (Plain (Thread.Title th)) | Err er => Some er end)) ],
       one_group) with
    | ([Ret None; Ret (Some (Plain title))], w) =>
        title = t /\ threads (w_db w) = ∅ /\ posts (w_db w) = ∅
    | _ => False
    end.
Proof. eexists. vm_compute. split; [reflexivity|split; reflexivity]. Qed.

(** ** Examples *)


Lemma Create_spec_witness :
  exists g, (run calm (Create (GroupInput.Mk "News" "news" "" None 0)) (world_of sample)).1
              = Ok g /\ Group.Slug g = "news".
Proof.
  pose (x := run calm (Create (GroupInput.Mk "News" "news" "" None 0)) (world_of sample)).
  destruct (Create_spec calm (world_of sample) (GroupInput.Mk "News" "news" "" None 0)
    x.1 x.2 calm_no_faults) as (_ & _ & H3); [by vm_compute|].
  exists (match x.1 with Ok g => g | Err _ => Group.Mk 0%N "" "" "" None 0 0 0 end).
  split; [by vm_compute|].
  destruct (H3 (match x.1 with Ok g => g | Err _ => Group.Mk 0%N "" "" "" None 0 0 0 end))
    as (_ & _ & _ & _ & Hs & _); [by vm_compute|]. exact Hs.
Defined.
