(* ===== verification/ThreadService.v ===== *)
(** * Thread service (internal/services/thread.go) *)
From S2P Require Import Prelude GoStrings GoErrors Models Db Prog Concrete Roles GroupStore ThreadStore.
Local Open Scope mc_scope.

Definition maxThreadTitleLen : Z := 200.
Definition maxBodyLen : Z := 50000.

Module CreateThreadInput.
Record t := Mk { GroupID : uuid; AuthorID : uuid; Title : string; Body : string }.
End CreateThreadInput.

Module UpdateThreadInput.
Record t := Mk { Title : option string; Pinned : option bool; Locked : option bool }.
End UpdateThreadInput.

Definition validateTitle (title : string) : option error :=
  let t := TrimSpace title in
  if String.eqb t "" || (maxThreadTitleLen <? RuneCountInString t)%Z
  then Some (New ErrInvalidInput) else None.

Definition validateBody (body : string) : option error :=
  let b := TrimSpace body in
  if String.eqb b "" || (maxBodyLen <? RuneCountInString b)%Z
  then Some (New ErrInvalidInput) else None.

(** ListByGroup returns threads of a group with pagination. *)
Definition ListByGroup (groupID : uuid) (limit offset : Z)
    : prog (result (list ThreadSummary.t * Z)) :=
  r <- GroupStore.GetByID groupID ;;
  match r with
  | Err err => if errors_Is err store_ErrNotFound then fail ErrGroupNotFound else fail err
  | Ok _ => ThreadStore.ListByGroup groupID limit offset
  end.

(** Get returns a thread by ID and bumps its view counter. *)
Definition Get (id : uuid) : prog (result ThreadSummary.t) :=
  r <- ThreadStore.SummaryByID id ;;
  match r with
  | Err err => if errors_Is err store_ErrNotFound then fail ErrThreadNotFound else fail err
  | Ok ts => _ <-? ThreadStore.IncrementViews id ;; ret ts
  end.

(** Create validates the input and starts a thread with its first post. *)
Definition Create (inp : CreateThreadInput.t) : prog (result ThreadSummary.t) :=
  r <- GroupStore.GetByID (CreateThreadInput.GroupID inp) ;;
  match r with
  | Err err => if errors_Is err store_ErrNotFound then fail ErrGroupNotFound else fail err
  | Ok _ =>
    match validateTitle (CreateThreadInput.Title inp) with
    | Some err => fail err
    | None =>
    match validateBody (CreateThreadInput.Body inp) with
    | Some err => fail err
    | None =>
      th <-? ThreadStore.Create
        (NewThread.Mk (CreateThreadInput.GroupID inp) (CreateThreadInput.AuthorID inp)
           (CreateThreadInput.Title inp))
        (NewPost.Mk uuid_Nil (CreateThreadInput.AuthorID inp) (CreateThreadInput.Body inp)) ;;
      ThreadStore.SummaryByID (Thread.ID th)
    end end
  end.

(** The mutations the caller may make: the new title, pin and lock, or the refusal. *)
Definition apply_update (t : Thread.t) (inp : UpdateThreadInput.t) (callerID : uuid)
    (roles : list string) : result (string * bool * bool) :=
  let moderator := hasRole roles moderators in
  if negb (N.eqb (Thread.AuthorID t) callerID) && negb moderator then Err ErrForbidden else
  let title :=
    match UpdateThreadInput.Title inp with
    | None => Ok (Thread.Title t)
    | Some title =>
        if negb (N.eqb (Thread.AuthorID t) callerID) then Err ErrForbidden else
        match validateTitle title with
        | Some err => Err err
        | None => Ok title
        end
    end in
  match title with
  | Err err => Err err
  | Ok title =>
    let pinned := match UpdateThreadInput.Pinned inp with
                  | Some b => if moderator then b else Thread.Pinned t
                  | None => Thread.Pinned t
                  end in
    let locked := match UpdateThreadInput.Locked inp with
                  | Some b => if moderator then b else Thread.Locked t
                  | None => Thread.Locked t
                  end in
    Ok (title, pinned, locked)
  end.

(** Update applies the requested mutations, honouring the caller's permissions. *)
Definition Update (id : uuid) (inp : UpdateThreadInput.t) (callerID : uuid)
    (roles : list string) : prog (result ThreadSummary.t) :=
  r <- ThreadStore.GetByID id ;;
  match r with
  | Err err => if errors_Is err store_ErrNotFound then fail ErrThreadNotFound else fail err
  | Ok t =>
    match apply_update t inp callerID roles with
    | Err err => fail err
    | Ok (title, pinned, locked) =>
      r <- ThreadStore.Update id title pinned locked ;;
      match r with
      | Err err => if errors_Is err store_ErrNotFound then fail ErrThreadNotFound else fail err
      | Ok updated => ThreadStore.SummaryByID (Thread.ID updated)
      end
    end
  end.

(** Delete removes a thread if the caller is its author or a moderator. *)
Definition Delete (id callerID : uuid) (roles : list string) : prog (result unit) :=
  r <- ThreadStore.GetByID id ;;
  match r with
  | Err err => if errors_Is err store_ErrNotFound then fail ErrThreadNotFound else fail err
  | Ok t =>
    if negb (N.eqb (Thread.AuthorID t) callerID) && negb (hasRole roles moderators)
    then fail ErrForbidden else
    r <- ThreadStore.Delete id ;;
    match r with
    | Err err => if errors_Is err store_ErrNotFound then fail ErrThreadNotFound else fail err
    | Ok _ => ret tt
    end
  end.

Section safety.
Context `{Postgres}.

#[export] Instance ListByGroup_safe J g l o : DbSafe J (ListByGroup g l o).
Proof. unfold ListByGroup. apply _. Qed.
#[export] Instance Get_safe id : DbSafe db_ok (Get id).
Proof. unfold Get. apply _. Qed.
#[export] Instance Create_safe inp : DbSafe db_ok (Create inp).
Proof. unfold Create. apply _. Qed.
#[export] Instance Update_safe id inp c r : DbSafe db_ok (Update id inp c r).
Proof. unfold Update. apply _. Qed.
#[export] Instance Delete_safe id c r : DbSafe db_ok (Delete id c r).
Proof. unfold Delete. apply _. Qed.

End safety.

(** ** Correctness *)

(** [Create] without its checks: nothing, or the store's transaction on valid input. *)
Lemma any_service_Create e inp w r w' :
  run e (Create inp) w = (r, w') ->
  (w_db w' = w_db w /\ forall t, r <> Ok t) \/
  (validateTitle (CreateThreadInput.Title inp) = None /\
   validateBody (CreateThreadInput.Body inp) = None /\
   exists w0 r1 w1, w_db w0 = w_db w /\ w_db w' = w_db w1 /\ (forall er, r1 = Err er -> r = Err er) /\
     run e (ThreadStore.Create
       (NewThread.Mk (CreateThreadInput.GroupID inp) (CreateThreadInput.AuthorID inp)
          (CreateThreadInput.Title inp))
       (NewPost.Mk uuid_Nil (CreateThreadInput.AuthorID inp) (CreateThreadInput.Body inp))) w0
     = (r1, w1)).
Proof.
  unfold Create. intros (g & w1 & Hg & Hr)%run_bind_inv.
  assert (Hw1 : w_db w1 = w_db w).
  { replace w1 with (run e (GroupStore.GetByID (CreateThreadInput.GroupID inp)) w).2
      by by rewrite Hg. apply db_safe_reads. apply _. }
  destruct g as [g|er].
  2: { left. destruct (errors_Is er store_ErrNotFound); cbn in Hr; injection Hr as <- <-; done. }
  destruct (validateTitle _) as [er|]; [left; cbn in Hr; by injection Hr as <- <-|].
  destruct (validateBody _) as [er|]; [left; cbn in Hr; by injection Hr as <- <-|].
  right. split_and!; [done|done|].
  apply run_bindr_inv in Hr as [(th & w2 & Hc & Hr)|(er & Hc & ->)].
  - exists w1, (Ok th), w2. split_and!; try done.
    replace w' with (run e (ThreadStore.SummaryByID (Thread.ID th)) w2).2 by by rewrite Hr.
    apply thread_any_SummaryByID.
  - exists w1, (Err er), w'. split_and!; try done. by intros ? [= <-].
Qed.

(** C21: starting a thread is all or nothing, whatever fails on the way (a lost connection, a
    lost commit acknowledgement, a constraint): either the tables are as before and no thread
    is answered, or exactly one thread and its first post were added, with the given group,
    author, title and body, the thread unpinned and unlocked, its counter at one and its
    activity time that of the post; nothing is added for input that fails validation. *)
Theorem Create_atomic e inp w r w' :
  run e (Create inp) w = (r, w') ->
  (w_db w' = w_db w /\ forall t, r <> Ok t) \/
  (validateTitle (CreateThreadInput.Title inp) = None /\
   validateBody (CreateThreadInput.Body inp) = None /\
   started (NewThread.Mk (CreateThreadInput.GroupID inp) (CreateThreadInput.AuthorID inp)
              (CreateThreadInput.Title inp))
     (NewPost.Mk uuid_Nil (CreateThreadInput.AuthorID inp) (CreateThreadInput.Body inp))
     (w_db w) (w_db w')).
Proof.
  intros [Hr|(Ht & Hb & w0 & r1 & w1 & Hw0 & Hw1 & Her & Hr)]%any_service_Create; [by left|].
  rewrite Hw1, <- Hw0. apply any_Create in Hr as [[Hd Hr]|Hs]; [left|by right].
  split; [done|]. destruct r1 as [th|er]; [by destruct (Hr th)|]. by rewrite (Her er eq_refl).
Qed.

(** What a caller may change in a thread. *)
Definition permitted (caller : uuid) (roles : list string) (t t' : Thread.t) : Prop :=
  (Thread.Title t' <> Thread.Title t -> caller = Thread.AuthorID t /\
     validateTitle (Thread.Title t') = None) /\
  (Thread.Pinned t' <> Thread.Pinned t \/ Thread.Locked t' <> Thread.Locked t ->
     hasRole roles moderators = true) /\
  (caller = Thread.AuthorID t \/ hasRole roles moderators = true) /\
  exists now, t' = with_fields (Thread.Title t') (Thread.Pinned t') (Thread.Locked t') now t.

Lemma apply_update_permitted t inp caller roles title p l now :
  apply_update t inp caller roles = Ok (title, p, l) ->
  permitted caller roles t (with_fields title p l now t).
Proof.
  unfold apply_update, permitted. cbn.
  destruct (N.eqb_spec (Thread.AuthorID t) caller) as [Ha|Ha];
    destruct (hasRole roles moderators) eqn:Hm; cbn; try done;
    destruct (UpdateThreadInput.Title inp) as [title0|]; try done;
    try destruct (validateTitle title0) eqn:Hv; try done; intros [= <- <- <-];
    (split_and!; [| | |by exists now]);
    destruct (UpdateThreadInput.Pinned inp), (UpdateThreadInput.Locked inp); naive_solver.
Qed.

(** Updating a thread, in any environment: only the row of that thread can change, only its
    author or a moderator changes anything, only the author the title (to a valid one) and only
    a moderator the pinned and locked flags; group, author, counters and activity time stay. *)
Theorem Update_permissions e id inp caller roles w r w' :
  run e (Update id inp caller roles) w = (r, w') ->
  w_db w' = w_db w \/
  exists t t', threads (w_db w) !! id = Some t /\ permitted caller roles t t' /\
    w_db w' = set_threads (<[id := t']> (threads (w_db w))) (w_db w).
Proof.
  unfold Update. intros (o & w1 & Ho & Hr)%run_bind_inv. apply thread_any_GetByID in Ho as [Hw1 Ho].
  destruct o as [t|er].
  2: { left. destruct (errors_Is er store_ErrNotFound); cbn in Hr; by injection Hr as <- <-. }
  specialize (Ho t eq_refl).
  destruct (apply_update t inp caller roles) as [[[title p] l]|er] eqn:Ha;
    [|left; cbn in Hr; by injection Hr as <- <-].
  apply run_bind_inv in Hr as (o & w2 & Hu & Hr).
  assert (Hw' : w_db w' = w_db w2).
  { destruct o as [t'|er].
    - replace w' with (run e (ThreadStore.SummaryByID (Thread.ID t')) w2).2 by by rewrite Hr.
      apply thread_any_SummaryByID.
    - destruct (errors_Is er store_ErrNotFound); cbn in Hr; by injection Hr as <- <-. }
  rewrite Hw'. apply any_Update in Hu as [Hu|(t0 & now & Ht0 & Hu)]; [left; congruence|].
  right. rewrite Hw1 in *. assert (t0 = t) as -> by congruence.
  exists t, (with_fields title p l now t). split; [done|]. split; [|done].
  by eapply apply_update_permitted.
Qed.

(** Deleting a thread, in any environment: either nothing changes, or the caller is the
    author or a moderator and exactly that thread goes, with its posts. *)
Theorem Delete_permissions e id caller roles w r w' :
  run e (Delete id caller roles) w = (r, w') ->
  w_db w' = w_db w \/
  exists t, threads (w_db w) !! id = Some t /\
    (Thread.AuthorID t = caller \/ hasRole roles moderators = true) /\
    threads (w_db w') = delete id (threads (w_db w)) /\
    (forall k p, posts (w_db w') !! k = Some p <->
       posts (w_db w) !! k = Some p /\ is_Some (delete id (threads (w_db w)) !! Post.ThreadID p)).
Proof.
  unfold Delete. intros (o & w1 & Ho & Hr)%run_bind_inv. apply thread_any_GetByID in Ho as [Hw1 Ho].
  destruct o as [t|er].
  2: { left. destruct (errors_Is er store_ErrNotFound); cbn in Hr; by injection Hr as <- <-. }
  specialize (Ho t eq_refl).
  destruct (negb (N.eqb (Thread.AuthorID t) caller) && negb (hasRole roles moderators)) eqn:Hp;
    [left; cbn in Hr; by injection Hr as <- <-|].
  apply run_bind_inv in Hr as (o & w2 & Hd & Hr).
  assert (w' = w2) as ->.
  { destruct o as [[]|er]; [cbn in Hr; congruence|].
    destruct (errors_Is er store_ErrNotFound); cbn in Hr; congruence. }
  apply thread_any_Delete in Hd as [Hd|[_ Hd]]; [left; congruence|right]. rewrite Hw1 in Hd.
  exists t. split; [done|]. rewrite Hd. cbn. split_and!; [|done|].
  - apply andb_false_iff in Hp as [Hp%negb_false_iff%N.eqb_eq|Hp%negb_false_iff]; auto.
  - intros k p. by rewrite lookup_keep, has_key_true.
Qed.

(** ** Examples *)

Definition hello : CreateThreadInput.t := CreateThreadInput.Mk 20%N bob "Hello" "first".

Lemma Create_atomic_witness :
  started (NewThread.Mk 20%N bob "Hello") (NewPost.Mk uuid_Nil bob "first")
    (w_db one_group) (w_db (run calm (Create hello) one_group).2).
Proof.
  destruct (Create_atomic calm hello one_group (run calm (Create hello) one_group).1
    (run calm (Create hello) one_group).2 (surjective_pairing _)) as [[_ Hn]|(_ & _ & Hs)];
    [|exact Hs].
  destruct (is_ok_true _ (eq_refl : is_ok (run calm (Create hello) one_group).1 = true) Hn).
Defined.

Definition pin : UpdateThreadInput.t := UpdateThreadInput.Mk None (Some true) None.

Lemma Update_permissions_witness :
  let w' := (run calm (Update 30%N pin bob [RoleModerator]) one_thread).2 in
  w_db w' <> w_db one_thread /\
  exists t t', threads (w_db one_thread) !! 30%N = Some t /\
    permitted bob [RoleModerator] t t' /\
    w_db w' = set_threads (<[30%N := t']> (threads (w_db one_thread))) (w_db one_thread).
Proof.
  intros w'. assert (Hne : w_db w' <> w_db one_thread) by by vm_compute.
  split; [exact Hne|].
  destruct (Update_permissions calm 30%N pin bob [RoleModerator] one_thread
    (run calm (Update 30%N pin bob [RoleModerator]) one_thread).1 w' (surjective_pairing _))
    as [Hs|Hs]; [by destruct Hne|exact Hs].
Defined.

Lemma Delete_permissions_witness :
  let w' := (run calm (Delete 30%N alice []) one_thread).2 in
  w_db w' <> w_db one_thread /\ threads (w_db w') = delete 30%N (threads (w_db one_thread)).
Proof.
  intros w'. assert (Hne : w_db w' <> w_db one_thread) by by vm_compute.
  split; [exact Hne|].
  destruct (Delete_permissions calm 30%N alice [] one_thread
    (run calm (Delete 30%N alice []) one_thread).1 w' (surjective_pairing _))
    as [Hs|(t & _ & _ & Hs & _)]; [by destruct Hne|exact Hs].
Defined.
