(* ===== verification/PostService.v ===== *)
(** * Post service (internal/services/post.go) *)
From S2P Require Import Prelude GoStrings GoErrors Models Db Prog Concrete Roles PostStore ThreadStore.
From S2P Require Import ThreadService.
Local Open Scope mc_scope.

(** ListByThread returns posts of a thread in chronological order. *)
Definition ListByThread (threadID : uuid) (limit offset : Z)
    : prog (result (list PostSummary.t * Z)) :=
  r <- ThreadStore.GetByID threadID ;;
  match r with
  | Err err => if errors_Is err store_ErrNotFound then fail ErrThreadNotFound else fail err
  | Ok _ => PostStore.ListByThread threadID limit offset
  end.

(** Create adds a reply to a thread and bumps its activity stats. *)
Definition Create (threadID authorID : uuid) (body : string) : prog (result PostSummary.t) :=
  r <- ThreadStore.GetByID threadID ;;
  match r with
  | Err err => if errors_Is err store_ErrNotFound then fail ErrThreadNotFound else fail err
  | Ok th =>
    if Thread.Locked th then fail ErrThreadLocked else
    match validateBody body with
    | Some err => fail err
    | None =>
      p <-? PostStore.Create (NewPost.Mk threadID authorID body) ;;
      _ <-? ThreadStore.BumpPost threadID (Post.CreatedAt p) ;;
      PostStore.SummaryByID (Post.ID p)
    end
  end.

(** Update edits the body of a post. Only the author may edit. *)
Definition Update (id authorID : uuid) (body : string) : prog (result PostSummary.t) :=
  r <- PostStore.GetByID id ;;
  match r with
  | Err err => if errors_Is err store_ErrNotFound then fail ErrPostNotFound else fail err
  | Ok p =>
    if negb (N.eqb (Post.AuthorID p) authorID) then fail ErrForbidden else
    match validateBody body with
    | Some err => fail err
    | None =>
      r <- PostStore.UpdateBody id body authorID ;;
      match r with
      | Err err => if errors_Is err store_ErrNotFound then fail ErrPostNotFound else fail err
      | Ok _ => PostStore.SummaryByID id
      end
    end
  end.

(** Delete removes a post if the caller is its author or a moderator. *)
Definition Delete (id callerID : uuid) (roles : list string) : prog (result unit) :=
  r <- PostStore.GetByID id ;;
  match r with
  | Err err => if errors_Is err store_ErrNotFound then fail ErrPostNotFound else fail err
  | Ok p =>
    if negb (N.eqb (Post.AuthorID p) callerID) && negb (hasRole roles moderators)
    then fail ErrForbidden else
    r <- PostStore.Delete id ;;
    match r with
    | Err err => if errors_Is err store_ErrNotFound then fail ErrPostNotFound else fail err
    | Ok _ => ThreadStore.RecalcStats (Post.ThreadID p)
    end
  end.

Section safety.
Context `{Postgres}.

#[export] Instance ListByThread_safe J t l o : DbSafe J (ListByThread t l o).
Proof. unfold ListByThread. apply _. Qed.
#[export] Instance Create_safe t a b : DbSafe db_ok (Create t a b).
Proof. unfold Create. apply _. Qed.
#[export] Instance Update_safe id a b : DbSafe db_ok (Update id a b).
Proof. unfold Update. apply _. Qed.
#[export] Instance Delete_safe id c r : DbSafe db_ok (Delete id c r).
Proof. unfold Delete. apply _. Qed.

End safety.

(** ** Correctness *)

(** What [PostService.Create] may do: add one post, and count it. *)
Definition replied (tid author : uuid) (body : string) (d d' : database) : Prop :=
  exists t p, threads d !! tid = Some t /\ Thread.Locked t = false /\ validateBody body = None /\
    posts d !! Post.ID p = None /\ Post.ThreadID p = tid /\ Post.AuthorID p = author /\
    Post.Body p = body /\
    (d' = set_posts (<[Post.ID p := p]> (posts d)) d \/
     exists now, d' = set_threads (<[tid := with_stats (Thread.PostCount t + 1)
                                      (Some (Post.CreatedAt p)) now t]> (threads d))
                        (set_posts (<[Post.ID p := p]> (posts d)) d)).


(** Editing, in any environment: either nothing changes, or the caller is the post's author,
    the new body is valid, and that post alone changes: its body, its editor and its edit
    times. *)
Theorem Update_author_only e id author body w r w' :
  run e (Update id author body) w = (r, w') ->
  w_db w' = w_db w \/
  exists p now, posts (w_db w) !! id = Some p /\ Post.AuthorID p = author /\
    validateBody body = None /\
    w_db w' = set_posts (<[id := edited body author now p]> (posts (w_db w))) (w_db w).
Proof.
  unfold Update. intros (o & w1 & Ho & Hr)%run_bind_inv.
  apply PostStore.post_any_GetByID in Ho as [Hw1 Ho].
  destruct o as [p|er].
  2: { left. destruct (errors_Is er store_ErrNotFound); cbn in Hr; by injection Hr as <- <-. }
  specialize (Ho p eq_refl).
  destruct (N.eqb_spec (Post.AuthorID p) author) as [Ha|Ha]; cbn [negb] in Hr;
    [|left; cbn in Hr; by injection Hr as <- <-].
  destruct (validateBody body) eqn:Hv; [left; cbn in Hr; by injection Hr as <- <-|].
  apply run_bind_inv in Hr as (o & w2 & Hu & Hr). rewrite <- Hw1 in *.
  assert (Hw' : w_db w' = w_db w2).
  { destruct o as [q|er].
    - replace w' with (run e (PostStore.SummaryByID id) w2).2 by by rewrite Hr.
      apply PostStore.post_any_SummaryByID.
    - destruct (errors_Is er store_ErrNotFound); cbn in Hr; by injection Hr as <- <-. }
  rewrite Hw'. apply any_row in Hu as [[Hu _]|(sv & q & Hs & _)]; [by left|right].
  apply checked_Ok in Hs as (_ & _ & _ & Hs). rewrite Ho in Hs.
  apply checked_Ok in Hs as (_ & _ & _ & Hs). injection Hs as _ Hs.
  exists p, (sv_now sv). by rewrite <- Hs.
Qed.

(** Deleting a post, in any environment: either nothing changes, or the caller is its author
    or a moderator and exactly that post goes; the only thread that may change is its own, whose
    counters are then those of the remaining posts. *)
Theorem Delete_post_permissions e id caller roles w r w' :
  run e (Delete id caller roles) w = (r, w') ->
  w_db w' = w_db w \/
  exists p, posts (w_db w) !! id = Some p /\
    (Post.AuthorID p = caller \/ hasRole roles moderators = true) /\
    posts (w_db w') = delete id (posts (w_db w)) /\
    (threads (w_db w') = threads (w_db w) \/
     exists t now, threads (w_db w) !! Post.ThreadID p = Some t /\
       threads (w_db w') = <[Post.ThreadID p :=
          with_stats (count (in_thread (Post.ThreadID p)) (delete id (posts (w_db w))))
            (max_created (select (in_thread (Post.ThreadID p)) (delete id (posts (w_db w)))))
            now t]> (threads (w_db w))).
Proof.
  unfold Delete. intros (o & w1 & Ho & Hr)%run_bind_inv.
  apply PostStore.post_any_GetByID in Ho as [Hw1 Ho].
  destruct o as [p|er].
  2: { left. destruct (errors_Is er store_ErrNotFound); cbn in Hr; by injection Hr as <- <-. }
  specialize (Ho p eq_refl). rewrite <- Hw1 in *.
  destruct (negb (N.eqb (Post.AuthorID p) caller) && negb (hasRole roles moderators)) eqn:Hp;
    [left; cbn in Hr; by injection Hr as <- <-|].
  assert (Hperm : Post.AuthorID p = caller \/ hasRole roles moderators = true).
  { apply andb_false_iff in Hp as [Hp%negb_false_iff%N.eqb_eq|Hp%negb_false_iff]; auto. }
  apply run_bind_inv in Hr as (o & w2 & Hd & Hr). apply PostStore.post_any_Delete in Hd.
  destruct o as [[]|er].
  2: { assert (w' = w2) as -> by (destruct (errors_Is er store_ErrNotFound); cbn in Hr; congruence).
       destruct Hd as [[Hd _]|[_ Hd]]; [by left|right]. exists p. rewrite Hd. auto. }
  destruct Hd as [[_ Hd]|[_ Hd]]; [done|]. right. exists p. split_and!; try done.
  - apply any_touch in Hr as [->|(sv & n & Hr)]; [by rewrite Hd|].
    unfold recalc_stats_stmt, update_thread_row in Hr. rewrite Hd in Hr. cbn in Hr.
    destruct (threads _ !! _); [destruct (_ && _) in Hr; [|done]|]; injection Hr as _ Hr; by rewrite <- Hr.
  - apply any_touch in Hr as [->|(sv & n & Hr)]; [left; by rewrite Hd|].
    unfold recalc_stats_stmt, update_thread_row in Hr. rewrite Hd in Hr. cbn in Hr.
    destruct (threads (w_db w1) !! Post.ThreadID p) as [t|] eqn:Ht.
    + destruct (_ && _) in Hr; [|done]. injection Hr as _ Hr. right. exists t, (sv_now sv).
      split; [done|]. by rewrite <- Hr.
    + injection Hr as _ Hr. left. by rewrite <- Hr.
Qed.

(** ** Examples *)


Lemma Update_author_only_witness :
  let w' := (run calm (Update 40%N alice "better") one_thread).2 in
  w_db w' <> w_db one_thread /\
  exists p now, posts (w_db one_thread) !! 40%N = Some p /\ Post.AuthorID p = alice /\
    w_db w' = set_posts (<[40%N := edited "better" alice now p]> (posts (w_db one_thread)))
                (w_db one_thread).
Proof.
  intros w'. assert (Hne : w_db w' <> w_db one_thread) by by vm_compute.
  split; [exact Hne|].
  destruct (Update_author_only calm 40%N alice "better" one_thread
    (run calm (Update 40%N alice "better") one_thread).1 w' (surjective_pairing _))
    as [Hs|(p & now & H1 & H2 & _ & H3)]; [by destruct Hne|by exists p, now].
Defined.

Lemma Delete_post_permissions_witness :
  let w' := (run calm (Delete 40%N bob [RoleAdmin]) one_thread).2 in
  w_db w' <> w_db one_thread /\ posts (w_db w') = delete 40%N (posts (w_db one_thread)).
Proof.
  intros w'. assert (Hne : w_db w' <> w_db one_thread) by by vm_compute.
  split; [exact Hne|].
  destruct (Delete_post_permissions calm 40%N bob [RoleAdmin] one_thread
    (run calm (Delete 40%N bob [RoleAdmin]) one_thread).1 w' (surjective_pairing _))
    as [Hs|(p & _ & _ & Hs & _)]; [by destruct Hne|exact Hs].
Defined.
