(* ===== verification/GoJson.v ===== *)
(** * JSON values (encoding/json and jsonb)

    [json.Marshal] replaces invalid UTF-8 by U+FFFD; a [jsonb] column refuses the NUL
    character.  The text between the two is JsonText.v's. *)
From S2P Require Import Prelude GoStrings GoErrors Models.

(** The bytes of U+FFFD. *)
Definition replacement : string := "�".

(** The coercion of [json.Marshal] on a string. *)
Definition coerce_utf8 (s : string) : string :=
  foldr (fun c t => (if c_valid c then c_bytes c else replacement) +:+ t) "" (chunks s).

Fixpoint Marshal (v : json) : json :=
  match v with
  | JBool b => JBool b
  | JString s => JString (coerce_utf8 s)
  | JObject fs => JObject ((fun p => (p.1, Marshal p.2)) <$> fs)
  end.

Definition no_nul (s : string) : bool := all_bytes (fun a => negb (is_byte 0 a)) s.

(** What a [jsonb] column accepts. *)
Fixpoint jsonb_ok (v : json) : bool :=
  match v with
  | JBool _ => true
  | JString s => no_nul s
  | JObject fs => forallb (fun p => no_nul p.1 && jsonb_ok p.2) fs
  end.

(** [json.Unmarshal] into a [bool] and into a [string]. *)
Definition Unmarshal_bool (v : json) : result bool :=
  match v with JBool b => Ok b | _ => Err (Plain "json: cannot unmarshal") end.
Definition Unmarshal_string (v : json) : result string :=
  match v with JString s => Ok s | _ => Err (Plain "json: cannot unmarshal") end.

(** A valid string is stored as it is. *)
Lemma coerce_utf8_valid s : ValidString s = true -> coerce_utf8 s = s.
Proof.
  unfold ValidString, coerce_utf8. intros H. rewrite <- (concat_chunks_chunks s) at 2.
  unfold concat_chunks. induction (chunks s) as [|c l IH]; [done|].
  cbn in *. apply andb_true_iff in H as [Hc Hl]. rewrite Hc. f_equal. by apply IH.
Qed.

(** Equality of JSON values is decidable. *)
Fixpoint json_dec (x y : json) {struct x} : Decision (x = y).
Proof.
  refine (match x, y return Decision (x = y) with
  | JBool a, JBool b => cast_if (decide (a = b))
  | JString s, JString t => cast_if (decide (s = t))
  | JObject l, JObject m =>
      cast_if (@list_eq_dec _ (fun p q => @prod_eq_dec string _ json json_dec p q) l m)
  | _, _ => right _
  end); congruence.
Defined.
#[export] Instance json_eq_dec : EqDecision json := json_dec.
