(* ===== verification/UserStore.v ===== *)
(** * Users and roles (internal/store/user.go) *)
From S2P Require Import Prelude GoStrings GoErrors Models Db Prog Concrete.
Local Open Scope mc_scope.

Section store.
Context `{Postgres}.

(** ** Statements *)

Definition insert_user (nu : NewUser.t) : stmt (option User.t) := fun sv d =>
  let id := sv_uuid sv in
  let r := User.Mk id (NewUser.Username nu) (NewUser.Email nu) (NewUser.PasswordHash nu)
             (NewUser.DisplayName nu) "" "active" (sv_now sv) (sv_now sv) None in
  checked
    (texts_ok [NewUser.Username nu; NewUser.Email nu; NewUser.PasswordHash nu;
               NewUser.DisplayName nu])
    (negb (has_key (users d) id) && unique_ok User.Email id r (users d)
     && unique_ok (fun u => lower (User.Username u)) id r (users d))
    true
    (Ok (Some r, set_users (<[id := r]> (users d)) d)).

Definition select_user_where (param : string) (f : User.t -> bool) : stmt (option User.t) :=
  fun sv d =>
  checked (text_ok param) true true (Ok (head (sv_scan sv _ (select f (users d))), d)).

Definition select_user (id : uuid) : stmt (option User.t) := fun sv d => Ok (users d !! id, d).

(** The keys of the roles assigned to a user, [ORDER BY r.key]. *)
Definition role_keys (userID : uuid) (sv : server) (d : database) : list string :=
  order_by text_leb (sv_scan sv _
    (Role.Key <$> select (fun r => bool_decide ((userID, Role.ID r) ∈ user_roles d)) (roles d))).

Definition select_role_keys (userID : uuid) : stmt (list string) := fun sv d =>
  Ok (role_keys userID sv d, d).

(** [INSERT INTO user_roles SELECT $1, id FROM roles WHERE f]: the rows affected. *)
Definition insert_user_roles (userID : uuid) (params : list string) (f : Role.t -> bool)
    : stmt Z := fun sv d =>
  let new := (fun r => (userID, Role.ID r)) <$> select f (roles d) in
  checked (texts_ok params)
    (negb (existsb (fun p => bool_decide (p ∈ user_roles d)) new))
    (match new with [] => true | _ => has_key (users d) userID end)
    (Ok (Z.of_nat (length new), set_user_roles (list_to_set new ∪ user_roles d) d)).

Definition delete_user_roles (userID : uuid) : stmt unit := fun sv d =>
  Ok (tt, set_user_roles (filter (fun p => p.1 <> userID) (user_roles d)) d).

Definition with_avatar (url : string) (now : time) (u : User.t) : User.t :=
  User.Mk (User.ID u) (User.Username u) (User.Email u) (User.PasswordHash u)
    (User.DisplayName u) url (User.Status u) (User.CreatedAt u) now (User.LastSeenAt u).
Definition with_status (status : string) (now : time) (u : User.t) : User.t :=
  User.Mk (User.ID u) (User.Username u) (User.Email u) (User.PasswordHash u)
    (User.DisplayName u) (User.AvatarURL u) status (User.CreatedAt u) now (User.LastSeenAt u).

Definition update_user_row (id : uuid) (param : string) (f : server -> User.t -> User.t)
    : stmt (option User.t) := fun sv d =>
  checked (text_ok param) true true
    match users d !! id with
    | None => Ok (None, d)
    | Some u => let r := f sv u in Ok (Some r, set_users (<[id := r]> (users d)) d)
    end.

Definition count_users : stmt Z := fun sv d => Ok (count (fun _ => true) (users d), d).

(** [ORDER BY u.created_at DESC, u.id] *)
Definition user_leb (x y : UserWithRoles.t) : bool :=
  let a := UserWithRoles.theUser x in
  let b := UserWithRoles.theUser y in
  (User.CreatedAt b <? User.CreatedAt a)%Z ||
  ((User.CreatedAt b =? User.CreatedAt a)%Z && (User.ID a <=? User.ID b)%N).

Definition select_users (limit offset : Z) : stmt (list UserWithRoles.t) := fun sv d =>
  let joined := (fun u => UserWithRoles.Mk u (role_keys (User.ID u) sv d)) <$> rows (users d) in
  match page limit offset (order_by user_leb (sv_scan sv _ joined)) with
  | Ok l => Ok (l, d)
  | Err e => Err e
  end.

(** ** Methods *)

Definition scanOne (row : result (option User.t)) : result User.t :=
  match Scan row with
  | Ok u => Ok u
  | Err err => if errors_Is err pgx_ErrNoRows then Err store_ErrNotFound
               else Err (Wrapf "scan user: " err "")
  end.

(** Create inserts a new user and returns it. *)
Definition Create (nu : NewUser.t) : prog (result User.t) :=
  row <- exec (insert_user nu) ;;
  match Scan row with
  | Ok u => ret u
  | Err err => if isUniqueViolation (Some err)
               then fail (Wrapf "" store_ErrConflict ": username or email already taken")
               else fail (Wrapf "create user: " err "")
  end.

(** GetByUsername finds a user by username (case-insensitive). *)
Definition GetByUsername (username : string) : prog (result User.t) :=
  row <- exec (select_user_where username
                 (fun u => String.eqb (lower (User.Username u)) (lower username))) ;;
  Ret (scanOne row).

(** GetByEmail finds a user by email (case-insensitive). *)
Definition GetByEmail (email : string) : prog (result User.t) :=
  row <- exec (select_user_where email
                 (fun u => String.eqb (lower (User.Email u)) (lower email))) ;;
  Ret (scanOne row).

(** GetByID finds a user by its primary key. *)
Definition GetByID (id : uuid) : prog (result User.t) :=
  row <- exec (select_user id) ;; Ret (scanOne row).

(** RolesForUser returns the role keys assigned to a user. *)
Definition RolesForUser (userID : uuid) : prog (result (list string)) :=
  r <- exec (select_role_keys userID) ;;
  Ret (rmap_err (fun err => Wrapf "query roles: " err "") r).

(** AssignRole assigns a role to a user by its key. *)
Definition AssignRole (userID : uuid) (roleKey : string) : prog (result unit) :=
  r <- exec (insert_user_roles userID [roleKey] (fun r => String.eqb (Role.Key r) roleKey)) ;;
  match r with
  | Err err => fail (Wrapf ("assign role " +:+ roleKey +:+ ": ") err "")
  | Ok _ => ret tt
  end.

(** AddMemberRole assigns the default member role to a user. *)
Definition AddMemberRole (userID : uuid) : prog (result unit) := AssignRole userID RoleMember.

(** UpdateAvatar sets the avatar URL of a user and returns the updated row. *)
Definition UpdateAvatar (userID : uuid) (avatarURL : string) : prog (result User.t) :=
  row <- exec (update_user_row userID avatarURL (fun sv => with_avatar avatarURL (sv_now sv))) ;;
  Ret (scanOne row).

(** UpdateStatus changes the status of a user and returns the updated row. *)
Definition UpdateStatus (userID : uuid) (status : string) : prog (result User.t) :=
  row <- exec (update_user_row userID status (fun sv => with_status status (sv_now sv))) ;;
  Ret (scanOne row).

(** List returns a page of users ordered by creation time together with their roles. *)
Definition List (limit offset : Z) : prog (result (list UserWithRoles.t * Z)) :=
  total <- exec count_users ;;
  match total with
  | Err err => fail (Wrapf "count users: " err "")
  | Ok total =>
    items <- exec (select_users limit offset) ;;
    match items with
    | Err err => fail (Wrapf "list users: " err "")
    | Ok items => ret (items, total)
    end
  end.

(** The body of the transaction of [UpdateRoles]. *)
Definition update_roles_body (userID : uuid) (roleKeys : list string) : prog (result unit) :=
  r <- exec (delete_user_roles userID) ;;
  match r with
  | Err err => fail (Wrapf "clear roles: " err "")
  | Ok _ =>
    if (0 <? length roleKeys)%nat then
      tag <- exec (insert_user_roles userID roleKeys
                     (fun r => existsb (String.eqb (Role.Key r)) roleKeys)) ;;
      match tag with
      | Err err => fail (Wrapf "assign roles: " err "")
      | Ok n => if negb (n =? Z.of_nat (length roleKeys))%Z
                then fail (Plain "some role keys were not found") else ret tt
      end
    else ret tt
  end.

(** UpdateRoles replaces the role set of a user. *)
Definition UpdateRoles (userID : uuid) (roleKeys : list string) : prog (result unit) :=
  transact (update_roles_body userID roleKeys).

End store.

(** ** Integrity *)

Section safety.
Context `{Postgres}.

(** An update that keeps the identity and the indexed columns of a user. *)
Lemma replace_user_ok d id u r :
  db_ok d -> users d !! id = Some u -> User.ID r = User.ID u ->
  User.Username r = User.Username u -> User.Email r = User.Email u ->
  db_ok (set_users (<[id := r]> (users d)) d).
Proof.
  intros Hd Hu Hid Hn He.
  assert (User.ID r = id) by (rewrite Hid; by apply (ok_users d Hd)).
  assert (Hlow : lower (User.Username r) = lower (User.Username u)) by congruence.
  pose proof (ok_user_roles d Hd) as Hur.
  destruct Hd. constructor; cbn; eauto 3 using unique_replace with mc.
  intros p Hp. destruct (Hur p Hp). eauto with mc.
Qed.

#[export] Instance insert_user_keeps nu : StmtKeeps db_ok (insert_user nu).
Proof.
  intros sv d a d'. unfold insert_user. rewrite checked_Ok.
  intros (_ & [[_ He]%andb_true_iff Hn]%andb_true_iff & _ & [= <- <-]) Hd.
  pose proof (ok_user_roles d Hd) as Hur.
  destruct Hd. constructor; cbn; eauto 3 using unique_insert with mc.
  intros p Hp. destruct (Hur p Hp). eauto with mc.
Qed.

#[export] Instance update_user_row_keeps id p f :
  (forall sv u, User.ID (f sv u) = User.ID u /\ User.Username (f sv u) = User.Username u /\
     User.Email (f sv u) = User.Email u) ->
  StmtKeeps db_ok (update_user_row id p f).
Proof.
  intros Hf sv d a d'. unfold update_user_row. rewrite checked_Ok. intros (_ & _ & _ & Hw).
  destruct (users d !! id) as [u|] eqn:Hu; simplify_eq; [|done]. intros Hd.
  destruct (Hf sv u) as (? & ? & ?). by eapply replace_user_ok.
Qed.

#[export] Instance insert_user_roles_keeps u ps f : StmtKeeps db_ok (insert_user_roles u ps f).
Proof.
  intros sv d a d'. unfold insert_user_roles. rewrite checked_Ok.
  intros (_ & _ & Hu & [= <- <-]) Hd.
  assert (Hnew : forall p, p ∈ (fun r => (u, Role.ID r)) <$> select f (roles d) ->
            is_Some (users d !! p.1) /\ is_Some (roles d !! p.2)).
  { intros p. rewrite list_elem_of_fmap. intros (r & -> & Hr). cbn.
    destruct (select f (roles d)) eqn:Es; [by apply not_elem_of_nil in Hr|].
    cbn in Hu. rewrite has_key_true in Hu. split; [done|]. rewrite <- Es in Hr.
    apply elem_select in Hr as (_ & k & Hk). by rewrite (ok_roles d Hd k r Hk), Hk. }
  destruct Hd. constructor; cbn; auto.
  intros p [Hp%elem_of_list_to_set|Hp]%elem_of_union; auto.
Qed.

#[export] Instance delete_user_roles_keeps u : StmtKeeps db_ok (delete_user_roles u).
Proof.
  intros sv d a d' [= <- <-] Hd. destruct Hd. constructor; cbn; auto.
  intros p [_ Hp]%elem_of_filter. auto.
Qed.

#[export] Instance select_user_where_reads p f : StmtReads (select_user_where p f).
Proof. by intros sv d a d' (_ & _ & _ & [= <- <-])%checked_Ok. Qed.
#[export] Instance select_user_reads id : StmtReads (select_user id).
Proof. by intros sv d a d' [= <- <-]. Qed.
#[export] Instance select_role_keys_reads id : StmtReads (select_role_keys id).
Proof. by intros sv d a d' [= <- <-]. Qed.
#[export] Instance count_users_reads : StmtReads count_users.
Proof. by intros sv d a d' [= <- <-]. Qed.
#[export] Instance select_users_reads l o : StmtReads (select_users l o).
Proof.
  intros sv d a d'. unfold select_users. destruct (page _ _ _); [|done]. by intros [= <- <-].
Qed.

#[export] Instance Create_safe nu : DbSafe db_ok (Create nu).
Proof. unfold Create. apply _. Qed.
#[export] Instance GetByUsername_safe J n : DbSafe J (GetByUsername n).
Proof. unfold GetByUsername. apply _. Qed.
#[export] Instance GetByEmail_safe J n : DbSafe J (GetByEmail n).
Proof. unfold GetByEmail. apply _. Qed.
#[export] Instance GetByID_safe J id : DbSafe J (GetByID id).
Proof. unfold GetByID. apply _. Qed.
#[export] Instance RolesForUser_safe J id : DbSafe J (RolesForUser id).
Proof. unfold RolesForUser. apply _. Qed.
#[export] Instance AssignRole_safe id k : DbSafe db_ok (AssignRole id k).
Proof. unfold AssignRole. apply _. Qed.
#[export] Instance AddMemberRole_safe id : DbSafe db_ok (AddMemberRole id).
Proof. unfold AddMemberRole. apply _. Qed.
#[export] Instance UpdateAvatar_safe id url : DbSafe db_ok (UpdateAvatar id url).
Proof.
  unfold UpdateAvatar. apply db_safe_bind; [|apply _].
  by apply db_safe_exec, update_user_row_keeps.
Qed.
#[export] Instance UpdateStatus_safe id s : DbSafe db_ok (UpdateStatus id s).
Proof.
  unfold UpdateStatus. apply db_safe_bind; [|apply _].
  by apply db_safe_exec, update_user_row_keeps.
Qed.
#[export] Instance List_safe J l o : DbSafe J (List l o).
Proof. unfold List. apply _. Qed.
#[export] Instance UpdateRoles_safe id ks : DbSafe db_ok (UpdateRoles id ks).
Proof. unfold UpdateRoles, update_roles_body. apply _. Qed.

End safety.

(** ** Behaviour in any environment *)

Section any.
Context `{Postgres}.

Lemma any_Create_user e nu w u w' :
  run e (Create nu) w = (Ok u, w') ->
  users (w_db w) !! User.ID u = None /\
  (exists now, u = User.Mk (User.ID u) (NewUser.Username nu) (NewUser.Email nu)
     (NewUser.PasswordHash nu) (NewUser.DisplayName nu) "" UserStatusActive now now None) /\
  w_db w' = set_users (<[User.ID u := u]> (users (w_db w))) (w_db w).
Proof.
  unfold Create. rewrite run_bind, run_exec. destruct (exec_op _ e w) as [o w1] eqn:Ho.
  destruct o as [[v|]|er]; cbn [Scan];
    [intros [= -> <-]|done|by destruct (isUniqueViolation (Some er))].
  apply exec_op_Ok in Ho as (d' & Hs & ->). unfold insert_user in Hs.
  apply checked_Ok in Hs as (_ & [[Hk%negb_true_iff%has_key_false _]%andb_true_iff _]%andb_true_iff & _ & [= <- <-]).
  split; [done|]. split; [by eexists|done].
Qed.

Lemma any_AssignRole e u key w w' :
  run e (AssignRole u key) w = (Ok tt, w') ->
  w_db w' = set_user_roles (user_roles (w_db w')) (w_db w) /\
  forall p, p ∈ user_roles (w_db w') <->
    (exists r, p = (u, Role.ID r) /\ (exists rid, roles (w_db w) !! rid = Some r) /\ Role.Key r = key)
    \/ p ∈ user_roles (w_db w).
Proof.
  unfold AssignRole. rewrite run_bind, run_exec. destruct (exec_op _ e w) as [[n|er] w1] eqn:Ho; [|done].
  intros [= <-]. apply exec_op_Ok in Ho as (d' & Hs & ->).
  apply checked_Ok in Hs as (_ & _ & _ & [= _ <-]). split; [done|]. intros p. cbn.
  rewrite elem_of_union, elem_of_list_to_set, list_elem_of_fmap. f_equiv.
  setoid_rewrite elem_select. setoid_rewrite String.eqb_eq. naive_solver.
Qed.

End any.

(** ** Replacing the roles of a user *)

Section roles_of_user.
Context `{Postgres}.

(** The roles with one of the given keys. *)
Definition with_keys (keys : list string) (r : Role.t) : bool :=
  existsb (String.eqb (Role.Key r)) keys.

Lemma with_keys_true keys r : with_keys keys r = true <-> Role.Key r ∈ keys.
Proof.
  unfold with_keys. rewrite existsb_true_iff. split.
  - by intros (k & Hk & ->%String.eqb_eq).
  - intros Hk. exists (Role.Key r). by rewrite String.eqb_refl.
Qed.

Lemma NoDup_role_keys d f : db_ok d -> NoDup (Role.Key <$> select f (roles d)).
Proof.
  intros Hd. apply NoDup_fmap_2_strong; [|by apply (NoDup_select Role.ID), ok_roles].
  intros x y [_ [i Hi]]%elem_select [_ [j Hj]]%elem_select Hxy.
  assert (i = j) as -> by by apply (ok_roles_key d Hd i j x y). congruence.
Qed.

(** As many roles as keys were found: the keys are exactly those of the roles found. *)
Lemma keys_found d keys :
  db_ok d -> length (select (with_keys keys) (roles d)) = length keys ->
  Role.Key <$> select (with_keys keys) (roles d) ≡ₚ keys.
Proof.
  intros Hd Hl. apply submseteq_length_Permutation; [|by rewrite length_fmap, Hl].
  apply NoDup_submseteq.
  - by apply NoDup_role_keys.
  - intros k (r & -> & [Hr _]%elem_select)%list_elem_of_fmap. by apply with_keys_true.
Qed.

(** The users' roles after the roles of [id] were replaced by those with the keys [keys]. *)
Definition replaced (id : uuid) (keys : list string) (d d' : database) : Prop :=
  d' = set_user_roles (user_roles d') d /\
  forall p, p ∈ user_roles d' <->
    (p.1 <> id /\ p ∈ user_roles d) \/
    (p.1 = id /\ exists role, roles d !! p.2 = Some role /\ Role.Key role ∈ keys).

(** The body of the transaction, when it answers. *)
Lemma run_update_roles_body e id keys w w' :
  db_ok (w_db w) -> run e (update_roles_body id keys) w = (Ok tt, w') ->
  replaced id keys (w_db w) (w_db w') /\ NoDup keys /\
  forall k, k ∈ keys -> exists rid role, roles (w_db w) !! rid = Some role /\ Role.Key role = k.
Proof.
  intros Hd. unfold update_roles_body. intros (o & w1 & Ho & Hr)%run_bind_inv.
  rewrite run_exec in Ho. destruct o as [[]|er]; [|done].
  apply exec_op_Ok in Ho as (d1 & [= <-] & ->).
  destruct (Nat.ltb_spec 0 (length keys)) as [Hk|Hk].
  2: { destruct keys; [|cbn in Hk; lia]. injection Hr as <-. cbn. split_and!.
       - split; [done|]. intros p. cbn. rewrite elem_of_filter. set_solver.
       - constructor.
       - set_solver. }
  apply run_bind_inv in Hr as (o & w2 & Ho & Hr). rewrite run_exec in Ho.
  destruct o as [n|er]; [|done]. apply exec_op_Ok in Ho as (d2 & Hs & ->).
  destruct (Z.eqb_spec n (Z.of_nat (length keys))) as [->|]; [|done]. injection Hr as <-.
  apply checked_Ok in Hs as (_ & _ & _ & [= Hn Hd2]). cbn in Hd2.
  assert (Hkeys : Role.Key <$> select (with_keys keys) (roles (w_db w)) ≡ₚ keys).
  { apply keys_found; [done|]. rewrite length_fmap in Hn. unfold with_keys. lia. }
  subst d2. cbn. split_and!.
  - split; [done|]. intros p. cbn. rewrite elem_of_union, elem_of_list_to_set, elem_of_filter.
    assert (Hp : p ∈ (fun r => (id, Role.ID r)) <$> select (with_keys keys) (roles (w_db w)) <->
      p.1 = id /\ exists role, roles (w_db w) !! p.2 = Some role /\ Role.Key role ∈ keys).
    { rewrite list_elem_of_fmap. destruct p as [u rid]. cbn. split.
      - intros (r & [= -> ->] & [Hr [k Hk']]%elem_select). split; [done|]. exists r.
        rewrite (ok_roles _ Hd k r Hk'). by rewrite with_keys_true in Hr.
      - intros [-> (role & Hrole & Hin)]. exists role. rewrite (ok_roles _ Hd rid role Hrole).
        split; [done|]. apply elem_select. rewrite with_keys_true. eauto. }
    unfold with_keys in Hp. rewrite Hp. tauto.
  - rewrite <- Hkeys. by apply NoDup_role_keys.
  - intros k Hin. rewrite <- Hkeys in Hin.
    apply list_elem_of_fmap in Hin as (r & -> & [_ [rid Hr]]%elem_select). eauto.
Qed.

(** Replacing the roles of a user is all or nothing, in any environment: either nothing
    changes and no success is answered, or the keys are distinct keys of existing roles and
    the user's roles are exactly those; the roles of other users stay. *)
Theorem UpdateRoles_atomic e id keys w r w' :
  db_ok (w_db w) -> run e (UpdateRoles id keys) w = (r, w') ->
  (w_db w' = w_db w /\ r <> Ok tt) \/
  (replaced id keys (w_db w) (w_db w') /\ NoDup keys /\
   forall k, k ∈ keys -> exists rid role, roles (w_db w) !! rid = Some role /\ Role.Key role = k).
Proof.
  unfold UpdateRoles. rewrite run_transact.
  intros Hd [[Hw Hr]|([] & w0 & w1 & Hw0 & Hrun & -> & _)]%tx_op_cases; [by left|right].
  rewrite <- Hw0 in *. by eapply run_update_roles_body.
Qed.

End roles_of_user.

(** ** Examples *)

Section examples.
#[local] Existing Instance ascii_server.

Lemma UpdateRoles_atomic_witness :
  let out := run calm (UpdateRoles alice [RoleAdmin; RoleMember]) (world_of sample) in
  out.1 = Ok tt /\ replaced alice [RoleAdmin; RoleMember] sample (w_db out.2).
Proof.
  intros out. assert (Ho : out.1 = Ok tt) by by vm_compute. split; [exact Ho|].
  assert (Hd : db_ok (w_db (world_of sample))) by by apply db_okb_true; vm_compute.
  destruct (UpdateRoles_atomic calm alice [RoleAdmin; RoleMember] (world_of sample) out.1 out.2 Hd
    (surjective_pairing _)) as [[_ Hn]|[Hr _]]; [by destruct Hn|exact Hr].
Defined.

End examples.
