(* ===== verification/SessionStore.v ===== *)
(** * Refresh sessions (internal/store/session.go) *)
From S2P Require Import Prelude GoStrings GoErrors Models Db Prog.
Local Open Scope mc_scope.

Section store.
Context `{Postgres}.

(** ** Statements *)

(** An address parameter: NULL, or a literal the server accepts. *)
Definition inet_param (ip : option string) : result (option string) :=
  match ip with
  | None => Ok None
  | Some s => match inet_text s with
              | Some t => Ok (Some t)
              | None => Err (PgErr bad_inet)
              end
  end.

Definition insert_session (ns : NewSession.t) (ip : option string) : stmt (option Session.t) :=
  fun sv d =>
  match inet_param ip with
  | Err e => Err e
  | Ok ip =>
    let id := sv_uuid sv in
    let r := Session.Mk id (NewSession.UserID ns) (NewSession.TokenHash ns)
               (NewSession.UserAgent ns) ip (sv_now sv) (NewSession.ExpiresAt ns) None in
    checked (texts_ok [NewSession.TokenHash ns; NewSession.UserAgent ns])
      (negb (has_key (user_sessions d) id)
       && unique_ok Session.TokenHash id r (user_sessions d))
      (has_key (users d) (Session.UserID r))
      (Ok (Some r, set_user_sessions (<[id := r]> (user_sessions d)) d))
  end.

(** [token_hash = $1 AND revoked_at IS NULL AND expires_at > now()] *)
Definition active (hash : string) (now : time) (s : Session.t) : bool :=
  String.eqb (Session.TokenHash s) hash &&
  match Session.RevokedAt s with None => true | Some _ => false end &&
  (now <? Session.ExpiresAt s)%Z.

Definition select_active (hash : string) : stmt (option Session.t) := fun sv d =>
  checked (text_ok hash) true true
    (Ok (head (sv_scan sv _ (select (active hash (sv_now sv)) (user_sessions d))), d)).

Definition with_revoked (at_ : time) (s : Session.t) : Session.t :=
  Session.Mk (Session.ID s) (Session.UserID s) (Session.TokenHash s) (Session.UserAgent s)
    (Session.IP s) (Session.CreatedAt s) (Session.ExpiresAt s) (Some at_).
Definition with_expiry (expiresAt : time) (s : Session.t) : Session.t :=
  Session.Mk (Session.ID s) (Session.UserID s) (Session.TokenHash s) (Session.UserAgent s)
    (Session.IP s) (Session.CreatedAt s) expiresAt (Session.RevokedAt s).

(** [UPDATE ... WHERE id = $1 AND revoked_at IS NULL]: the rows affected. *)
Definition update_unrevoked (id : uuid) (f : Session.t -> Session.t) : stmt Z := fun sv d =>
  match user_sessions d !! id with
  | Some s =>
    match Session.RevokedAt s with
    | None => Ok (1%Z, set_user_sessions (<[id := f s]> (user_sessions d)) d)
    | Some _ => Ok (0%Z, d)
    end
  | None => Ok (0%Z, d)
  end.

(** [expires_at < now() OR revoked_at IS NOT NULL] *)
Definition dead (now : time) (s : Session.t) : bool :=
  (Session.ExpiresAt s <? now)%Z ||
  match Session.RevokedAt s with Some _ => true | None => false end.

Definition delete_dead : stmt Z := fun sv d =>
  Ok (count (dead (sv_now sv)) (user_sessions d),
      set_user_sessions (keep (fun s => negb (dead (sv_now sv) s)) (user_sessions d)) d).

(** ** Methods *)

(** Create persists a new refresh session. *)
Definition Create (ns : NewSession.t) : prog (result Session.t) :=
  let ip := if String.eqb (NewSession.IP ns) "" then None else Some (NewSession.IP ns) in
  row <- exec (insert_session ns ip) ;;
  match Scan row with
  | Ok s => ret s
  | Err err => fail (Wrapf "create session: " err "")
  end.

(** GetByTokenHash finds an active (non-revoked, non-expired) session. *)
Definition GetByTokenHash (hash : string) : prog (result Session.t) :=
  row <- exec (select_active hash) ;;
  match Scan row with
  | Ok s => ret s
  | Err err => if errors_Is err pgx_ErrNoRows then fail store_ErrNotFound
               else fail (Wrapf "query session: " err "")
  end.

(** Revoke marks a session as revoked. *)
Definition Revoke (id : uuid) (at_ : time) : prog (result unit) :=
  tag <- exec (update_unrevoked id (with_revoked at_)) ;;
  match tag with
  | Err err => fail (Wrapf "revoke session: " err "")
  | Ok n => if (n =? 0)%Z then fail store_ErrNotFound else ret tt
  end.

(** DeleteExpired removes expired or revoked sessions. Returns rows deleted. *)
Definition DeleteExpired : prog (result Z) :=
  tag <- exec delete_dead ;;
  match tag with
  | Err err => fail (Wrapf "delete expired sessions: " err "")
  | Ok n => ret n
  end.

(** Touch updates a session's expiry (sliding expiration on refresh). *)
Definition Touch (id : uuid) (expiresAt : time) : prog (result unit) :=
  tag <- exec (update_unrevoked id (with_expiry expiresAt)) ;;
  match tag with
  | Err err => fail (Wrapf "touch session: " err "")
  | Ok n => if (n =? 0)%Z then fail store_ErrNotFound else ret tt
  end.

End store.

(** ** Integrity *)

Section safety.
Context `{Postgres}.

Lemma update_unrevoked_ok id f sv d n d' :
  (forall s, Session.ID (f s) = Session.ID s /\ Session.TokenHash (f s) = Session.TokenHash s
     /\ Session.UserID (f s) = Session.UserID s) ->
  update_unrevoked id f sv d = Ok (n, d') -> db_ok d -> db_ok d'.
Proof.
  intros Hf. unfold update_unrevoked. destruct (user_sessions d !! id) as [s|] eqn:Hs;
    [|by intros [= <- <-]].
  destruct (Session.RevokedAt s); intros [= <- <-]; [done|]. intros Hd.
  destruct (Hf s) as (Hid & Hh & Hu).
  assert (Session.ID (f s) = id) by (rewrite Hid; by apply (ok_sessions d Hd)).
  pose proof (ok_sessions_user d Hd id s Hs). rewrite <- Hu in *.
  destruct Hd. constructor; cbn; eauto 3 using unique_replace with mc.
Qed.

#[export] Instance insert_session_keeps ns ip : StmtKeeps db_ok (insert_session ns ip).
Proof.
  intros sv d a d'. unfold insert_session. destruct (inet_param ip) as [ip'|]; [|done].
  rewrite checked_Ok. intros (_ & [_ Hh]%andb_true_iff & Hu%has_key_true & [= <- <-]) Hd.
  destruct Hd. constructor; cbn; eauto 3 using unique_insert with mc.
Qed.

#[export] Instance revoke_keeps id t : StmtKeeps db_ok (update_unrevoked id (with_revoked t)).
Proof. intros sv d a d'. by apply update_unrevoked_ok. Qed.
#[export] Instance touch_keeps id t : StmtKeeps db_ok (update_unrevoked id (with_expiry t)).
Proof. intros sv d a d'. by apply update_unrevoked_ok. Qed.

#[export] Instance delete_dead_keeps : StmtKeeps db_ok delete_dead.
Proof.
  intros sv d a d' [= <- <-] Hd. destruct Hd.
  constructor; cbn; eauto using keyed_subset, unique_subset, fk_subset with mc.
Qed.

#[export] Instance select_active_reads h : StmtReads (select_active h).
Proof. by intros sv d a d' (_ & _ & _ & [= <- <-])%checked_Ok. Qed.

#[export] Instance Create_safe ns : DbSafe db_ok (Create ns).
Proof. unfold Create. apply _. Qed.
#[export] Instance GetByTokenHash_safe J h : DbSafe J (GetByTokenHash h).
Proof. unfold GetByTokenHash. apply _. Qed.
#[export] Instance Revoke_safe id t : DbSafe db_ok (Revoke id t).
Proof. unfold Revoke. apply _. Qed.
#[export] Instance DeleteExpired_safe : DbSafe db_ok DeleteExpired.
Proof. unfold DeleteExpired. apply _. Qed.
#[export] Instance Touch_safe id t : DbSafe db_ok (Touch id t).
Proof. unfold Touch. apply _. Qed.

End safety.
