(* ===== verification/SettingsStore.v ===== *)
(** * Settings (internal/store/settings.go): a key/value table of JSON values *)
From S2P Require Import Prelude GoStrings GoErrors Models GoJson Db Prog.
Local Open Scope mc_scope.

Definition select_setting (key : string) : stmt (option json) := fun sv d =>
  checked (text_ok key) true true (Ok (set_value <$> settings d !! key, d)).

(** [INSERT ... ON CONFLICT (key) DO UPDATE] *)
Definition upsert_setting (key : string) (value : json) : stmt unit := fun sv d =>
  if negb (jsonb_ok value) then Err (PgErr bad_jsonb) else
  checked (text_ok key) true true
    (Ok (tt, set_settings (<[key := SettingRow value (sv_now sv)]> (settings d)) d)).

(** Get returns the raw JSON value stored under key. *)
Definition Get (key : string) : prog (result json) :=
  row <- exec (select_setting key) ;;
  match Scan row with
  | Ok v => ret v
  | Err err => if errors_Is err pgx_ErrNoRows then fail store_ErrNotFound
               else fail (Wrapf "get setting: " err "")
  end.

(** Set upserts a JSON value under key. *)
Definition Set_ (key : string) (value : json) : prog (result unit) :=
  r <- exec (upsert_setting key (Marshal value)) ;;
  match r with
  | Err err => fail (Wrapf "set setting: " err "")
  | Ok _ => ret tt
  end.

Section safety.
Context `{Postgres}.

#[export] Instance upsert_setting_keeps k v : StmtKeeps db_ok (upsert_setting k v).
Proof.
  intros sv d a d'. unfold upsert_setting. destruct (negb _); [done|].
  rewrite checked_Ok. intros (_ & _ & _ & [= <- <-]) Hd. by destruct Hd.
Qed.
#[export] Instance select_setting_reads k : StmtReads (select_setting k).
Proof. by intros sv d a d' (_ & _ & _ & [= <- <-])%checked_Ok. Qed.

#[export] Instance Get_safe J k : DbSafe J (Get k).
Proof. unfold Get. apply _. Qed.
#[export] Instance Set_safe k v : DbSafe db_ok (Set_ k v).
Proof. unfold Set_. apply _. Qed.

End safety.

(** ** Behaviour in any environment *)

Lemma any_Get e key w r w' :
  run e (Get key) w = (r, w') ->
  w_db w' = w_db w /\
  (forall v, r = Ok v -> exists row, settings (w_db w) !! key = Some row /\ set_value row = v) /\
  (forall er, r = Err er -> errors_Is er store_ErrNotFound = true -> settings (w_db w) !! key = None).
Proof.
  unfold Get. rewrite run_bind, run_exec. destruct (exec_op (select_setting key) e w) as [o w1] eqn:Ho.
  intros Hr. assert (w' = w1) as ->.
  { destruct (Scan o) as [v|er]; [|destruct (errors_Is er pgx_ErrNoRows)]; cbn in Hr; congruence. }
  assert (Her : forall er, o = Err er -> errors_Is er pgx_ErrNoRows = false /\ errors_Is er store_ErrNotFound = false).
  { intros er ->. unfold exec_op, select_setting, checked in Ho. repeat case_match; simplify_eq; done. }
  apply exec_read in Ho as [Hw Ho]; [|apply _]. split; [done|].
  destruct o as [[v|]|er]; cbn in Hr.
  - injection Hr as <-. split; [|done]. intros v' [= <-].
    specialize (Ho _ eq_refl). apply checked_Ok in Ho as (_ & _ & _ & [= Hs]).
    apply fmap_Some in Hs as (row & Hrow & ->). eauto.
  - injection Hr as <-. split; [done|]. intros _ _ _.
    specialize (Ho _ eq_refl). apply checked_Ok in Ho as (_ & _ & _ & [= Hs]).
    by apply fmap_None in Hs.
  - destruct (Her er eq_refl) as [H1 H2]. rewrite H1 in Hr. injection Hr as <-. split; [done|].
    intros er' [= <-]. cbn. by rewrite H2.
Qed.

Lemma any_Set e key v w w' :
  run e (Set_ key v) w = (Ok tt, w') ->
  exists t, w_db w' = set_settings (<[key := SettingRow (Marshal v) t]> (settings (w_db w))) (w_db w).
Proof.
  unfold Set_. rewrite run_bind, run_exec. destruct (exec_op _ e w) as [[[]|er] w1] eqn:Ho; [|done].
  intros [= <-]. apply exec_op_Ok in Ho as (d' & Hs & ->). unfold upsert_setting in Hs.
  destruct (negb _); [done|]. apply checked_Ok in Hs as (_ & _ & _ & [= <-]). eauto.
Qed.
