(* ===== verification/MessageStore.v ===== *)
(** * Private messages (internal/store/message.go, [MessageStore])

    A column of a query may be qualified by a table name or alias; the server refuses a
    qualifier that names no table of the statement (SQLSTATE 42P01) before it runs anything.
    The statements that use the shared column list [pmColumns] go through that resolution. *)
From S2P Require Import Prelude GoStrings GoErrors Models Db Prog.
Local Open Scope mc_scope.

(** Qualified columns: (qualifier, column). *)
Definition pmColumns : list (string * string) :=
  [("pm", "id"); ("pm", "sender_id"); ("pm", "recipient_id"); ("pm", "body"); ("pm", "read_at");
   ("pm", "created_at")].

(** Every qualifier is a table name or alias of the statement. *)
Definition resolves (tables : list string) (cols : list (string * string)) : bool :=
  forallb (fun c => existsb (String.eqb c.1) tables) cols.

Definition resolved {A} (tables : list string) (cols : list (string * string)) (s : stmt A)
    : stmt A := fun sv d =>
  if resolves tables cols then s sv d else Err (PgErr undefined_table).

(** ** Statements *)

(** [INSERT INTO private_messages (...) VALUES (...) RETURNING cols]; [tables] are the names
    in scope of RETURNING. *)
Definition insert_message (tables : list string) (m : NewPrivateMessage.t)
    : stmt (option PrivateMessage.t) :=
  resolved tables pmColumns (fun sv d =>
  let id := sv_uuid sv in
  let r := PrivateMessage.Mk id (NewPrivateMessage.SenderID m) (NewPrivateMessage.RecipientID m)
             (NewPrivateMessage.Body m) None (sv_now sv) in
  checked (text_ok (NewPrivateMessage.Body m)) (negb (has_key (private_messages d) id))
    (has_key (users d) (PrivateMessage.SenderID r)
     && has_key (users d) (PrivateMessage.RecipientID r))
    (Ok (Some r, set_private_messages (<[id := r]> (private_messages d)) d))).

Definition between (a b : uuid) (m : PrivateMessage.t) : bool :=
  (N.eqb (PrivateMessage.SenderID m) a && N.eqb (PrivateMessage.RecipientID m) b)
  || (N.eqb (PrivateMessage.SenderID m) b && N.eqb (PrivateMessage.RecipientID m) a).

Definition conversation (m : PrivateMessage.t) (u : User.t) : PMConversation.t :=
  PMConversation.Mk m (User.Username u) (display_of u).

Definition created_leb (a b : PMConversation.t) : bool :=
  (PrivateMessage.CreatedAt (PMConversation.theMessage a)
   <=? PrivateMessage.CreatedAt (PMConversation.theMessage b))%Z.

Definition count_between (a b : uuid) : stmt Z := fun sv d =>
  Ok (count (between a b) (private_messages d), d).

Definition select_between (a b : uuid) (limit offset : Z) : stmt (list PMConversation.t) :=
  resolved ["pm"; "u"] pmColumns (fun sv d =>
  let joined := join_users PrivateMessage.SenderID conversation (users d)
                  (select (between a b) (private_messages d)) in
  match page limit offset (order_by created_leb (sv_scan sv _ joined)) with
  | Ok l => Ok (l, d)
  | Err e => Err e
  end).

Definition involves (u : uuid) (m : PrivateMessage.t) : bool :=
  N.eqb (PrivateMessage.SenderID m) u || N.eqb (PrivateMessage.RecipientID m) u.

(** [CASE WHEN sender_id = $1 THEN recipient_id ELSE sender_id END] *)
Definition partner (u : uuid) (m : PrivateMessage.t) : uuid :=
  if N.eqb (PrivateMessage.SenderID m) u then PrivateMessage.RecipientID m
  else PrivateMessage.SenderID m.

Definition count_partners (u : uuid) : stmt Z := fun sv d =>
  Ok (Z.of_nat (length (remove_dups (partner u <$> select (involves u) (private_messages d)))),
      d).

(** [ORDER BY pm.partner, pm.created_at DESC] *)
Definition inbox_leb (u : uuid) (x y : PMConversation.t) : bool :=
  let a := PMConversation.theMessage x in
  let b := PMConversation.theMessage y in
  (partner u a <? partner u b)%N ||
  ((partner u a =? partner u b)%N && (PrivateMessage.CreatedAt b <=? PrivateMessage.CreatedAt a)%Z).

(** [DISTINCT ON (key)]: the first row of each run of equal keys. *)
Fixpoint distinct_on {R} (key : R -> uuid) (prev : option uuid) (l : list R) : list R :=
  match l with
  | [] => []
  | r :: l' => if bool_decide (prev = Some (key r)) then distinct_on key prev l'
               else r :: distinct_on key (Some (key r)) l'
  end.

Definition select_inbox (u : uuid) (limit offset : Z) : stmt (list PMConversation.t) :=
  resolved ["pm"; "u"] pmColumns (fun sv d =>
  let joined := join_users (partner u) conversation (users d)
                  (select (involves u) (private_messages d)) in
  let sorted := order_by (inbox_leb u) (sv_scan sv _ joined) in
  match page limit offset
          (distinct_on (fun c => partner u (PMConversation.theMessage c)) None sorted) with
  | Ok l => Ok (l, d)
  | Err e => Err e
  end).

Definition with_read (now : time) (m : PrivateMessage.t) : PrivateMessage.t :=
  PrivateMessage.Mk (PrivateMessage.ID m) (PrivateMessage.SenderID m)
    (PrivateMessage.RecipientID m) (PrivateMessage.Body m) (Some now)
    (PrivateMessage.CreatedAt m).

Definition unread (u : uuid) (m : PrivateMessage.t) : bool :=
  N.eqb (PrivateMessage.RecipientID m) u &&
  match PrivateMessage.ReadAt m with None => true | Some _ => false end.

(** [WHERE id = $1 AND recipient_id = $2 AND read_at IS NULL]: the rows affected. *)
Definition mark_read_stmt (id recipientID : uuid) : stmt Z := fun sv d =>
  match private_messages d !! id with
  | Some m =>
    if unread recipientID m
    then Ok (1%Z, set_private_messages (<[id := with_read (sv_now sv) m]> (private_messages d)) d)
    else Ok (0%Z, d)
  | None => Ok (0%Z, d)
  end.

Definition count_unread_stmt (u : uuid) : stmt Z := fun sv d =>
  Ok (count (unread u) (private_messages d), d).

(** ** Methods *)

Definition scanPM (row : result (option PrivateMessage.t)) : result PrivateMessage.t :=
  match Scan row with
  | Ok m => Ok m
  | Err err => if errors_Is err pgx_ErrNoRows then Err store_ErrNotFound else Err err
  end.

(** Send inserts a private message and returns it.  The INSERT gives its table no alias. *)
Definition Send (m : NewPrivateMessage.t) : prog (result PrivateMessage.t) :=
  row <- exec (insert_message ["private_messages"] m) ;; Ret (scanPM row).

(** Conversation returns the private conversation between two users, oldest first. *)
Definition Conversation (a b : uuid) (limit offset : Z)
    : prog (result (list PMConversation.t * Z)) :=
  total <-? exec (count_between a b) ;;
  items <-? exec (select_between a b limit offset) ;;
  ret (items, total).

(** The loop of [Inbox] overwrites the recipient of every row. *)
Definition set_recipient (u : uuid) (c : PMConversation.t) : PMConversation.t :=
  let m := PMConversation.theMessage c in
  PMConversation.Mk
    (PrivateMessage.Mk (PrivateMessage.ID m) (PrivateMessage.SenderID m) u
       (PrivateMessage.Body m) (PrivateMessage.ReadAt m) (PrivateMessage.CreatedAt m))
    (PMConversation.SenderUsername c) (PMConversation.SenderDisplay c).

(** Inbox returns the latest message for each of the user's conversations. *)
Definition Inbox (userID : uuid) (limit offset : Z)
    : prog (result (list PMConversation.t * Z)) :=
  total <-? exec (count_partners userID) ;;
  items <-? exec (select_inbox userID limit offset) ;;
  ret (set_recipient userID <$> items, total).

(** MarkRead marks a message as read if the caller is its recipient. *)
Definition MarkRead (id recipientID : uuid) : prog (result unit) :=
  tag <-? exec (mark_read_stmt id recipientID) ;;
  if (tag =? 0)%Z then fail store_ErrNotFound else ret tt.

(** CountUnread counts unread messages addressed to the user. *)
Definition CountUnread (userID : uuid) : prog (result Z) := exec (count_unread_stmt userID).

(** ** Integrity *)

Section safety.
Context `{Postgres}.

#[export] Instance resolved_keeps {A} J ts cols (s : stmt A) :
  StmtKeeps J s -> StmtKeeps J (resolved ts cols s).
Proof. intros Hs sv d a d'. unfold resolved. destruct (resolves _ _); [apply Hs|done]. Qed.
#[export] Instance resolved_reads {A} ts cols (s : stmt A) :
  StmtReads s -> StmtReads (resolved ts cols s).
Proof. intros Hs sv d a d'. unfold resolved. destruct (resolves _ _); [apply Hs|done]. Qed.

#[export] Instance insert_message_keeps ts m : StmtKeeps db_ok (insert_message ts m).
Proof.
  apply resolved_keeps. intros sv d a d'. rewrite checked_Ok.
  intros (_ & _ & [Hs%has_key_true Hr%has_key_true]%andb_true_iff & [= <- <-]) Hd.
  destruct Hd. constructor; cbn; eauto with mc.
Qed.

#[export] Instance mark_read_keeps id u : StmtKeeps db_ok (mark_read_stmt id u).
Proof.
  intros sv d a d'. unfold mark_read_stmt.
  destruct (private_messages d !! id) as [m|] eqn:Hm; [|by intros [= <- <-]].
  destruct (unread u m); intros [= <- <-]; [|done]. intros Hd.
  pose proof (ok_messages d Hd id m Hm). pose proof (ok_messages_sender d Hd id m Hm).
  pose proof (ok_messages_recipient d Hd id m Hm).
  destruct Hd. constructor; cbn; eauto with mc.
Qed.

#[export] Instance count_between_reads a b : StmtReads (count_between a b).
Proof. by intros sv d x d' [= <- <-]. Qed.
#[export] Instance select_between_reads a b l o : StmtReads (select_between a b l o).
Proof.
  apply resolved_reads. intros sv d x d'. cbv beta zeta. destruct (page _ _ _); [|done]. by intros [= <- <-].
Qed.
#[export] Instance count_partners_reads u : StmtReads (count_partners u).
Proof. by intros sv d x d' [= <- <-]. Qed.
#[export] Instance select_inbox_reads u l o : StmtReads (select_inbox u l o).
Proof.
  apply resolved_reads. intros sv d x d'. cbv beta zeta. destruct (page _ _ _); [|done]. by intros [= <- <-].
Qed.
#[export] Instance count_unread_reads u : StmtReads (count_unread_stmt u).
Proof. by intros sv d x d' [= <- <-]. Qed.

#[export] Instance Send_safe m : DbSafe db_ok (Send m).
Proof. unfold Send. apply _. Qed.
#[export] Instance Conversation_safe J a b l o : DbSafe J (Conversation a b l o).
Proof. unfold Conversation. apply _. Qed.
#[export] Instance Inbox_safe J u l o : DbSafe J (Inbox u l o).
Proof. unfold Inbox. apply _. Qed.
#[export] Instance MarkRead_safe id u : DbSafe db_ok (MarkRead id u).
Proof. unfold MarkRead. apply _. Qed.
#[export] Instance CountUnread_safe J u : DbSafe J (CountUnread u).
Proof. unfold CountUnread. apply _. Qed.

End safety.
