(* ===== verification/NotificationStore.v ===== *)
(** * Notifications (internal/store/message.go, [NotificationStore]) *)
From S2P Require Import Prelude GoStrings GoErrors Models GoJson Db Prog.
Local Open Scope mc_scope.

Definition insert_notification (u : uuid) (typ : string) (payload : json)
    : stmt (option Notification.t) := fun sv d =>
  if negb (jsonb_ok payload) then Err (PgErr bad_jsonb) else
  let id := sv_uuid sv in
  let r := Notification.Mk id u typ payload None (sv_now sv) in
  checked (text_ok typ) (negb (has_key (notifications d) id)) (has_key (users d) u)
    (Ok (Some r, set_notifications (<[id := r]> (notifications d)) d)).

Definition of_user (u : uuid) (n : Notification.t) : bool := N.eqb (Notification.UserID n) u.

Definition unread (u : uuid) (n : Notification.t) : bool :=
  of_user u n && match Notification.ReadAt n with None => true | Some _ => false end.

Definition count_notifications (f : Notification.t -> bool) : stmt Z := fun sv d =>
  Ok (count f (notifications d), d).

(** [ORDER BY created_at DESC] *)
Definition newest_leb (a b : Notification.t) : bool :=
  (Notification.CreatedAt b <=? Notification.CreatedAt a)%Z.

Definition select_notifications (u : uuid) (limit offset : Z) : stmt (list Notification.t) :=
  fun sv d =>
  match page limit offset
          (order_by newest_leb (sv_scan sv _ (select (of_user u) (notifications d)))) with
  | Ok l => Ok (l, d)
  | Err e => Err e
  end.

Definition with_read (now : time) (n : Notification.t) : Notification.t :=
  Notification.Mk (Notification.ID n) (Notification.UserID n) (Notification.Type_ n)
    (Notification.Payload n) (Some now) (Notification.CreatedAt n).

Definition mark_read_stmt (id userID : uuid) : stmt Z := fun sv d =>
  match notifications d !! id with
  | Some n =>
    if unread userID n
    then Ok (1%Z, set_notifications (<[id := with_read (sv_now sv) n]> (notifications d)) d)
    else Ok (0%Z, d)
  | None => Ok (0%Z, d)
  end.

Definition mark_all_stmt (userID : uuid) : stmt Z := fun sv d =>
  Ok (count (unread userID) (notifications d),
      set_notifications ((fun n => if unread userID n then with_read (sv_now sv) n else n)
                         <$> notifications d) d).

(** Create inserts a notification and returns it; the payload defaults to {}. *)
Definition Create (n : NewNotification.t) : prog (result Notification.t) :=
  let payload := default (JObject []) (NewNotification.Payload n) in
  row <- exec (insert_notification (NewNotification.UserID n) (NewNotification.Type_ n)
                 payload) ;;
  Ret (Scan row).

(** List returns the user's notifications, newest first. *)
Definition List (userID : uuid) (limit offset : Z) : prog (result (list Notification.t * Z)) :=
  total <-? exec (count_notifications (of_user userID)) ;;
  items <-? exec (select_notifications userID limit offset) ;;
  ret (items, total).

(** MarkRead marks one notification as read for the user. *)
Definition MarkRead (id userID : uuid) : prog (result unit) :=
  tag <-? exec (mark_read_stmt id userID) ;;
  if (tag =? 0)%Z then fail store_ErrNotFound else ret tt.

(** MarkAllRead marks all notifications of a user as read. *)
Definition MarkAllRead (userID : uuid) : prog (result unit) :=
  _ <-? exec (mark_all_stmt userID) ;; ret tt.

(** CountUnread counts unread notifications for the user. *)
Definition CountUnread (userID : uuid) : prog (result Z) :=
  exec (count_notifications (unread userID)).

(** ** Integrity *)

Section safety.
Context `{Postgres}.

#[export] Instance insert_notification_keeps u t p : StmtKeeps db_ok (insert_notification u t p).
Proof.
  intros sv d a d'. unfold insert_notification. destruct (negb _); [done|]. rewrite checked_Ok.
  intros (_ & _ & Hu%has_key_true & [= <- <-]) Hd.
  destruct Hd. constructor; cbn; eauto with mc.
Qed.

#[export] Instance mark_read_keeps id u : StmtKeeps db_ok (mark_read_stmt id u).
Proof.
  intros sv d a d'. unfold mark_read_stmt.
  destruct (notifications d !! id) as [n|] eqn:Hn; [|by intros [= <- <-]].
  destruct (unread u n); intros [= <- <-]; [|done]. intros Hd.
  pose proof (ok_notifications d Hd id n Hn). pose proof (ok_notifications_user d Hd id n Hn).
  destruct Hd. constructor; cbn; eauto with mc.
Qed.

#[export] Instance mark_all_keeps u : StmtKeeps db_ok (mark_all_stmt u).
Proof.
  intros sv d a d' [= <- <-] Hd.
  destruct Hd. constructor; cbn; auto.
  - apply keyed_fmap; [done|]. intros n. by destruct (unread u n).
  - apply fk_fmap; [done|]. intros n. by destruct (unread u n).
Qed.

#[export] Instance count_notifications_reads f : StmtReads (count_notifications f).
Proof. by intros sv d a d' [= <- <-]. Qed.
#[export] Instance select_notifications_reads u l o : StmtReads (select_notifications u l o).
Proof.
  intros sv d a d'. unfold select_notifications. destruct (page _ _ _); [|done].
  by intros [= <- <-].
Qed.

#[export] Instance Create_safe n : DbSafe db_ok (Create n).
Proof. unfold Create. apply _. Qed.
#[export] Instance List_safe J u l o : DbSafe J (List u l o).
Proof. unfold List. apply _. Qed.
#[export] Instance MarkRead_safe id u : DbSafe db_ok (MarkRead id u).
Proof. unfold MarkRead. apply _. Qed.
#[export] Instance MarkAllRead_safe u : DbSafe db_ok (MarkAllRead u).
Proof. unfold MarkAllRead. apply _. Qed.
#[export] Instance CountUnread_safe J u : DbSafe J (CountUnread u).
Proof. unfold CountUnread. apply _. Qed.

End safety.
