(* ===== verification/AttachmentStore.v ===== *)
(** * Attachments (internal/store/attachment.go) *)
From S2P Require Import Prelude GoStrings GoErrors Models Db Prog.
Local Open Scope mc_scope.

Definition insert_attachment (a : NewAttachment.t) : stmt (option Attachment.t) := fun sv d =>
  let id := sv_uuid sv in
  let r := Attachment.Mk id (NewAttachment.OwnerID a) (NewAttachment.PostID a)
             (NewAttachment.Filename a) (NewAttachment.ContentType a)
             (NewAttachment.SizeBytes a) (NewAttachment.StorageKey a)
             (NewAttachment.PublicURL a) (sv_now sv) (sv_now sv) in
  checked
    (texts_ok [NewAttachment.Filename a; NewAttachment.ContentType a;
               NewAttachment.StorageKey a; NewAttachment.PublicURL a])
    (negb (has_key (attachments d) id) && unique_ok Attachment.StorageKey id r (attachments d))
    (has_key (users d) (Attachment.OwnerID r) && has_key_opt (posts d) (Attachment.PostID r))
    (Ok (Some r, set_attachments (<[id := r]> (attachments d)) d)).

Definition select_attachment (id : uuid) : stmt (option Attachment.t) := fun sv d =>
  Ok (attachments d !! id, d).

Definition with_owner (a : Attachment.t) (u : User.t) : AttachmentWithOwner.t :=
  AttachmentWithOwner.Mk a (User.Username u).

(** [ORDER BY a.created_at DESC, a.id] *)
Definition attachment_leb (x y : AttachmentWithOwner.t) : bool :=
  let a := AttachmentWithOwner.theAttachment x in
  let b := AttachmentWithOwner.theAttachment y in
  (Attachment.CreatedAt b <? Attachment.CreatedAt a)%Z ||
  ((Attachment.CreatedAt b =? Attachment.CreatedAt a)%Z
   && (Attachment.ID a <=? Attachment.ID b)%N).

Definition count_attachments : stmt Z := fun sv d =>
  Ok (count (fun _ => true) (attachments d), d).

Definition select_attachments (limit offset : Z) : stmt (list AttachmentWithOwner.t) :=
  fun sv d =>
  let joined := join_users Attachment.OwnerID with_owner (users d) (rows (attachments d)) in
  match page limit offset (order_by attachment_leb (sv_scan sv _ joined)) with
  | Ok l => Ok (l, d)
  | Err e => Err e
  end.

Definition delete_attachment_stmt (id : uuid) : stmt Z := fun sv d =>
  if has_key (attachments d) id
  then Ok (1%Z, set_attachments (delete id (attachments d)) d) else Ok (0%Z, d).

Definition scanAttachment (row : result (option Attachment.t)) : result Attachment.t :=
  match Scan row with
  | Ok a => Ok a
  | Err err => if errors_Is err pgx_ErrNoRows then Err store_ErrNotFound else Err err
  end.

(** Create inserts a new attachment and returns it. *)
Definition Create (a : NewAttachment.t) : prog (result Attachment.t) :=
  row <- exec (insert_attachment a) ;; Ret (scanAttachment row).

(** GetByID returns an attachment by its ID. *)
Definition GetByID (id : uuid) : prog (result Attachment.t) :=
  row <- exec (select_attachment id) ;; Ret (scanAttachment row).

(** List returns a page of attachments ordered by creation time with owner usernames. *)
Definition List (limit offset : Z) : prog (result (list AttachmentWithOwner.t * Z)) :=
  total <-? exec count_attachments ;;
  items <-? exec (select_attachments limit offset) ;;
  ret (items, total).

(** Delete removes an attachment row by its ID. *)
Definition Delete (id : uuid) : prog (result unit) :=
  tag <-? exec (delete_attachment_stmt id) ;;
  if (tag =? 0)%Z then fail store_ErrNotFound else ret tt.

(** ** Integrity *)

Section safety.
Context `{Postgres}.

#[export] Instance insert_attachment_keeps a : StmtKeeps db_ok (insert_attachment a).
Proof.
  intros sv d x d'. unfold insert_attachment. rewrite checked_Ok.
  intros (_ & [_ Hk]%andb_true_iff & [Hu%has_key_true Hp]%andb_true_iff & [= <- <-]) Hd.
  rewrite has_key_opt_true in Hp.
  destruct Hd. constructor; cbn; eauto 3 using unique_insert with mc.
Qed.

#[export] Instance delete_attachment_keeps id : StmtKeeps db_ok (delete_attachment_stmt id).
Proof.
  intros sv d x d'. unfold delete_attachment_stmt.
  destruct (has_key _ _); intros [= <- <-] Hd; [|done].
  pose proof (delete_subseteq (attachments d) id).
  destruct Hd. constructor; cbn; eauto using keyed_subset, unique_subset, fk_subset, fk_opt_subset with mc.
Qed.

#[export] Instance select_attachment_reads id : StmtReads (select_attachment id).
Proof. by intros sv d a d' [= <- <-]. Qed.
#[export] Instance count_attachments_reads : StmtReads count_attachments.
Proof. by intros sv d a d' [= <- <-]. Qed.
#[export] Instance select_attachments_reads l o : StmtReads (select_attachments l o).
Proof.
  intros sv d a d'. unfold select_attachments. destruct (page _ _ _); [|done].
  by intros [= <- <-].
Qed.

#[export] Instance Create_safe a : DbSafe db_ok (Create a).
Proof. unfold Create. apply _. Qed.
#[export] Instance GetByID_safe J id : DbSafe J (GetByID id).
Proof. unfold GetByID. apply _. Qed.
#[export] Instance List_safe J l o : DbSafe J (List l o).
Proof. unfold List. apply _. Qed.
#[export] Instance Delete_safe id : DbSafe db_ok (Delete id).
Proof. unfold Delete. apply _. Qed.

End safety.

(** ** Behaviour in any environment *)

Lemma any_Create_attachment e na w r w' :
  run e (Create na) w = (r, w') ->
  w_objects w' = w_objects w /\
  ((w_db w' = w_db w /\ forall a, r <> Ok a) \/
   exists a, attachments (w_db w) !! Attachment.ID a = None /\
     w_db w' = set_attachments (<[Attachment.ID a := a]> (attachments (w_db w))) (w_db w) /\
     (exists now, a = Attachment.Mk (Attachment.ID a) (NewAttachment.OwnerID na)
        (NewAttachment.PostID na) (NewAttachment.Filename na) (NewAttachment.ContentType na)
        (NewAttachment.SizeBytes na) (NewAttachment.StorageKey na) (NewAttachment.PublicURL na)
        now now) /\
     forall b, r = Ok b -> b = a).
Proof.
  unfold Create. rewrite run_bind, run_exec. destruct (exec_op _ e w) as [o w1] eqn:Ho.
  cbn. intros [= <- <-]. split.
  { pose proof (exec_op_objects e (insert_attachment na) w) as Hob. by rewrite Ho in Hob. }
  assert (Hins : forall sv d' x, insert_attachment na sv (w_db w) = Ok (x, d') ->
    exists a, x = Some a /\ attachments (w_db w) !! Attachment.ID a = None /\
     d' = set_attachments (<[Attachment.ID a := a]> (attachments (w_db w))) (w_db w) /\
     exists now, a = Attachment.Mk (Attachment.ID a) (NewAttachment.OwnerID na)
        (NewAttachment.PostID na) (NewAttachment.Filename na) (NewAttachment.ContentType na)
        (NewAttachment.SizeBytes na) (NewAttachment.StorageKey na) (NewAttachment.PublicURL na)
        now now).
  { intros sv d' x (_ & [Hk%negb_true_iff%has_key_false _]%andb_true_iff & _ & [= <- <-])%checked_Ok.
    eexists. split; [done|]. split; [done|]. split; [done|]. by eexists. }
  destruct o as [x|er].
  - apply exec_op_Ok in Ho as (d' & Hs & ->). apply Hins in Hs as (a & -> & Hk & -> & Hn).
    right. exists a. split_and!; try done. cbn. by intros b [= <-].
  - assert (Her : forall b, scanAttachment (Err er) <> Ok b).
    { intros b. unfold scanAttachment. cbn. by destruct (errors_Is er pgx_ErrNoRows). }
    destruct (exec_op_db e (insert_attachment na) w) as [Hd|(x & d' & Hs & Hd)];
      rewrite Ho in Hd; cbn in Hd; [by left|]. rewrite Hd.
    apply Hins in Hs as (a & -> & Hk & -> & Hn). right. exists a. split_and!; try done.
    intros b Hb. by destruct (Her b).
Qed.

Lemma any_Get_attachment e id w r w' :
  run e (GetByID id) w = (r, w') ->
  w_db w' = w_db w /\ w_objects w' = w_objects w /\
  forall a, r = Ok a -> attachments (w_db w) !! id = Some a.
Proof.
  unfold GetByID. rewrite run_bind, run_exec.
  destruct (exec_op (select_attachment id) e w) as [o w1] eqn:Ho. cbn. intros [= <- <-].
  pose proof (exec_op_objects e (select_attachment id) w) as Hob. rewrite Ho in Hob.
  apply exec_read in Ho as [Hw Ho]; [|apply _]. split; [done|]. split; [done|].
  destruct o as [[a|]|er]; cbn; [|done|by destruct (errors_Is er pgx_ErrNoRows)].
  intros b [= <-]. by injection (Ho _ eq_refl).
Qed.

Lemma any_Delete_attachment e id w r w' :
  run e (Delete id) w = (r, w') ->
  w_objects w' = w_objects w /\
  (w_db w' = w_db w \/ w_db w' = set_attachments (delete id (attachments (w_db w))) (w_db w)).
Proof.
  unfold Delete. rewrite run_bindr, run_exec.
  destruct (exec_op (delete_attachment_stmt id) e w) as [o w1] eqn:Ho. intros Hr.
  assert (w' = w1) as ->.
  { destruct o as [n|er]; [|congruence]. destruct (n =? 0)%Z; cbn in Hr; congruence. }
  pose proof (exec_op_objects e (delete_attachment_stmt id) w) as Hob. rewrite Ho in Hob.
  split; [done|].
  destruct (exec_op_db e (delete_attachment_stmt id) w) as [Hd|(x & d' & Hs & Hd)];
    rewrite Ho in Hd; cbn in Hd; [by left|]. rewrite Hd.
  unfold delete_attachment_stmt in Hs. destruct (has_key _ _); injection Hs as _ <-; auto.
Qed.
