(* ===== verification/Encoding.v ===== *)
(** * Text encodings: [strconv] decimals, [encoding/hex], [encoding/base64]

    [RawStdEncoding] and [RawURLEncoding] are base64 without padding over two alphabets.
    [DecodeString] skips CR and LF and ignores the unused low bits of a final partial group,
    as the standard library does without [Strict]. *)
From S2P Require Import Prelude GoStrings.
From Stdlib Require Import Ascii.

Local Open Scope N_scope.

#[local] Ltac Zify.zify_post_hook ::= Z.to_euclidean_division_equations.

Definition byte (n : N) : ascii := ascii_of_N n.

(** ** Decimal: [%d] of an unsigned integer *)

Fixpoint decimal_loop (fuel : nat) (n : N) (acc : string) : string :=
  match fuel with
  | O => acc
  | S f => let acc' := String (byte (48 + n mod 10)) acc in
           if n / 10 =? 0 then acc' else decimal_loop f (n / 10) acc'
  end.
Definition FormatUint (n : N) : string := decimal_loop (S (N.to_nat (N.size n))) n "".

(** ** Hexadecimal *)

Definition hex_digit (n : N) : ascii := byte (if n <? 10 then 48 + n else 87 + n).

Fixpoint hex_EncodeToString (s : string) : string :=
  match s with
  | EmptyString => ""
  | String a s' => String (hex_digit (byte_of a / 16))
                     (String (hex_digit (byte_of a mod 16)) (hex_EncodeToString s'))
  end.

(** ** Base64 *)

(** The alphabets: only the characters 62 and 63 differ. *)
Record alphabet := Alphabet { c62 : N; c63 : N }.
Definition StdEncoding : alphabet := Alphabet 43 47.
Definition URLEncoding : alphabet := Alphabet 45 95.

Definition enc_char (al : alphabet) (n : N) : ascii :=
  byte (if n <? 26 then 65 + n else if n <? 52 then 71 + n else if n <? 62 then n - 4
        else if n =? 62 then c62 al else c63 al).

Definition dec_char (al : alphabet) (a : ascii) : option N :=
  let b := byte_of a in
  if byte_in 65 90 a then Some (b - 65)
  else if byte_in 97 122 a then Some (b - 71)
  else if byte_in 48 57 a then Some (b + 4)
  else if b =? c62 al then Some 62
  else if b =? c63 al then Some 63
  else None.

Fixpoint b64_encode (al : alphabet) (l : list ascii) : list ascii :=
  match l with
  | a :: b :: c :: l' =>
      enc_char al (byte_of a / 4)
      :: enc_char al ((byte_of a mod 4) * 16 + byte_of b / 16)
      :: enc_char al ((byte_of b mod 16) * 4 + byte_of c / 64)
      :: enc_char al (byte_of c mod 64) :: b64_encode al l'
  | [a; b] => [enc_char al (byte_of a / 4);
               enc_char al ((byte_of a mod 4) * 16 + byte_of b / 16);
               enc_char al ((byte_of b mod 16) * 4)]
  | [a] => [enc_char al (byte_of a / 4); enc_char al ((byte_of a mod 4) * 16)]
  | [] => []
  end.

(** The six-bit groups of the input, [None] at a character outside the alphabet. *)
Fixpoint b64_digits (al : alphabet) (l : list ascii) : option (list N) :=
  match l with
  | [] => Some []
  | a :: l' =>
      if is_byte 10 a || is_byte 13 a then b64_digits al l' else
      match dec_char al a, b64_digits al l' with
      | Some n, Some ns => Some (n :: ns)
      | _, _ => None
      end
  end.

Definition byte1 (m n : N) : ascii := byte (m * 4 + n / 16).
Definition byte2 (n o : N) : ascii := byte ((n mod 16) * 16 + o / 4).
Definition byte3 (o p : N) : ascii := byte ((o mod 4) * 64 + p).

Fixpoint b64_groups (l : list N) : option (list ascii) :=
  match l with
  | m :: n :: o :: p :: l' =>
      (fun r => byte1 m n :: byte2 n o :: byte3 o p :: r) <$> b64_groups l'
  | [m; n; o] => Some [byte1 m n; byte2 n o]
  | [m; n] => Some [byte1 m n]
  | [_] => None
  | [] => Some []
  end.

Definition EncodeToString (al : alphabet) (s : string) : string :=
  string_of (b64_encode al (bytes_of s)).
Definition DecodeString (al : alphabet) (s : string) : option string :=
  match b64_digits al (bytes_of s) with
  | Some ns => string_of <$> b64_groups ns
  | None => None
  end.

(** ** [strings.Split] at one character *)

Fixpoint split_at (sep : N) (s : string) : list string :=
  match s with
  | EmptyString => [""]
  | String a s' =>
      if is_byte sep a then "" :: split_at sep s'
      else match split_at sep s' with
           | w :: ws => String a w :: ws
           | [] => [String a ""]
           end
  end.

(** ** [net.SplitHostPort], for the host *)

Fixpoint index_byte (n : N) (l : list ascii) : option nat :=
  match l with
  | [] => None
  | a :: l' => if is_byte n a then Some O else S <$> index_byte n l'
  end.
Definition last_index_byte (n : N) (l : list ascii) : option nat :=
  (fun i => (length l - 1 - i)%nat) <$> index_byte n (reverse l).

Definition has (n : N) (l : list ascii) : bool :=
  match index_byte n l with Some _ => true | None => false end.

Definition split_host (l : list ascii) : option (list ascii) :=
  match last_index_byte 58 l with
  | None => None
  | Some i =>
    if match l with a :: _ => is_byte 91 a | [] => false end then
      match index_byte 93 l with
      | None => None
      | Some e =>
        if (S e =? length l)%nat then None
        else if negb (S e =? i)%nat then None
        else if has 91 (drop 1 l) || has 93 (drop (S e) l) then None
        else Some (drop 1 (take e l))
      end
    else
      let host := take i l in
      if has 58 host || has 91 l || has 93 l then None else Some host
  end.

(** [None] stands for an error. *)
Definition SplitHostPort_host (s : string) : option string :=
  string_of <$> split_host (bytes_of s).

(** ** Lemmas *)

Lemma byte_of_lt a : byte_of a < 256.
Proof. apply N_ascii_bounded. Qed.

Lemma byte_of_byte n : n < 256 -> byte_of (byte n) = n.
Proof. intros H. unfold byte_of, byte. by rewrite N_ascii_embedding. Qed.

Lemma byte_byte_of a : byte (byte_of a) = a.
Proof. apply ascii_N_embedding. Qed.

Lemma digits_val_loop f n acc v :
  n < 2 ^ N.of_nat f -> (0 < f)%nat ->
  exists k, digits_val v (decimal_loop f n acc) = digits_val (v * 10 ^ k + Z.of_N n)%Z acc /\
            (0 <= k)%Z.
Proof.
  revert n acc v. induction f as [|f IH]; intros n acc v Hf Hpos; [lia|]. cbn [decimal_loop].
  rewrite Nat2N.inj_succ, N.pow_succ_r' in Hf.
  assert (Hd : forall w, digits_val w (String (byte (48 + n mod 10)) acc)
                 = digits_val (w * 10 + Z.of_N (n mod 10))%Z acc).
  { intros w. cbn. unfold digit_of, byte_in. rewrite byte_of_byte by lia.
    replace (48 <=? 48 + n mod 10) with true by (symmetry; apply N.leb_le; lia).
    replace (48 + n mod 10 <=? 57) with true by (symmetry; apply N.leb_le; lia).
    cbn [andb]. do 2 f_equal. lia. }
  destruct (N.eqb_spec (n / 10) 0) as [H0|H0].
  - exists 1%Z. rewrite Hd. split; [f_equal; lia|lia].
  - destruct (IH (n / 10) (String (byte (48 + n mod 10)) acc) v) as (k & -> & Hk); [lia| |].
    { destruct f; [|lia]. cbn in Hf. lia. }
    exists (k + 1)%Z. rewrite Hd. split; [|lia]. f_equal.
    rewrite Z.pow_add_r by lia. lia.
Qed.

(** Printing then reading a number. *)
Lemma digits_val_FormatUint n : digits_val 0 (FormatUint n) = Some (Z.of_N n).
Proof.
  destruct (digits_val_loop (S (N.to_nat (N.size n))) n "" 0) as (k & Hk & _); [|lia|].
  { rewrite Nat2N.inj_succ, N2Nat.id, N.pow_succ_r'. pose proof (N.size_gt n). lia. }
  unfold FormatUint. by rewrite Hk.
Qed.

Lemma all_bytes_app f s t : all_bytes f (s +:+ t) = all_bytes f s && all_bytes f t.
Proof.
  induction s as [|a s IH]; [done|]. rewrite str_app_cons. cbn. by rewrite IH, andb_assoc.
Qed.

Lemma all_bytes_impl (f g : ascii -> bool) s :
  (forall a, f a = true -> g a = true) -> all_bytes f s = true -> all_bytes g s = true.
Proof.
  intros H. induction s as [|a s IH]; cbn; [done|]. rewrite !andb_true_iff. naive_solver.
Qed.

Lemma all_bytes_Forall f l : all_bytes f (string_of l) = true <-> Forall (fun a => f a = true) l.
Proof.
  induction l as [|a l IH]; cbn; [done|]. by rewrite andb_true_iff, IH, Forall_cons.
Qed.

Definition is_digit (a : ascii) : bool := byte_in 48 57 a.

Lemma decimal_loop_digits f n acc :
  all_bytes is_digit acc = true -> all_bytes is_digit (decimal_loop f n acc) = true.
Proof.
  revert n acc. induction f as [|f IH]; intros n acc Ha; cbn; [done|].
  assert (Hd : is_digit (byte (48 + n mod 10)) = true).
  { unfold is_digit, byte_in. rewrite byte_of_byte by lia.
    apply andb_true_iff; split; apply N.leb_le; lia. }
  destruct (_ =? 0); [|apply IH]; cbn; by rewrite Hd, Ha.
Qed.

Lemma FormatUint_digits n : all_bytes is_digit (FormatUint n) = true.
Proof. by apply decimal_loop_digits. Qed.

Lemma decimal_loop_nonempty f n acc : (0 < f)%nat -> decimal_loop f n acc <> "".
Proof.
  revert n acc. induction f as [|f IH]; intros n acc Hf; [lia|]. cbn.
  destruct (_ =? 0); [done|]. destruct f; [done|]. apply IH. lia.
Qed.

Lemma FormatUint_nonempty n : FormatUint n <> "".
Proof. apply decimal_loop_nonempty. lia. Qed.

(** Three bytes at a time. *)
Lemma list_ind3 {A} (P : list A -> Prop) :
  P [] -> (forall a, P [a]) -> (forall a b, P [a; b]) ->
  (forall a b c l, P l -> P (a :: b :: c :: l)) -> forall l, P l.
Proof.
  intros H0 H1 H2 H3 l.
  assert (P l /\ (forall a, P (a :: l)) /\ forall a b, P (a :: b :: l)); [|tauto].
  induction l as [|x l (IH0 & IH1 & IH2)]; [tauto|]. split_and!; auto.
Qed.

Definition good_alphabet (al : alphabet) : Prop := al = StdEncoding \/ al = URLEncoding.

(** The 64 characters are decoded to their index and are no line breaks. *)
Lemma dec_enc_char al n :
  good_alphabet al -> n < 64 ->
  dec_char al (enc_char al n) = Some n /\
  is_byte 10 (enc_char al n) || is_byte 13 (enc_char al n) = false.
Proof.
  intros Hal Hn.
  assert (Hall : forallb (fun i => let n := N.of_nat i in
      match dec_char al (enc_char al n) with Some m => m =? n | None => false end
      && negb (is_byte 10 (enc_char al n) || is_byte 13 (enc_char al n))) (seq 0 64) = true)
    by (destruct Hal as [-> | ->]; vm_compute; reflexivity).
  rewrite forallb_forall in Hall. specialize (Hall (N.to_nat n)). cbn zeta in Hall.
  rewrite N2Nat.id in Hall.
  assert (Hin : In (N.to_nat n) (seq 0 64)) by (apply in_seq; lia).
  apply Hall in Hin as [H1 H2%negb_true_iff]%andb_true_iff.
  destruct (dec_char al (enc_char al n)) as [m|]; [|done].
  apply N.eqb_eq in H1 as ->. done.
Qed.

Lemma b64_digits_cons al n l :
  good_alphabet al -> n < 64 ->
  b64_digits al (enc_char al n :: l) = cons n <$> b64_digits al l.
Proof.
  intros Hal Hn. cbn. destruct (dec_enc_char al n Hal Hn) as [-> ->].
  by destruct (b64_digits al l).
Qed.

Lemma byte_eq a n : n = byte_of a -> byte n = a.
Proof. intros ->. apply byte_byte_of. Qed.

Lemma b64_decode_encode al l :
  good_alphabet al ->
  match b64_digits al (b64_encode al l) with
  | Some ns => b64_groups ns = Some l
  | None => False
  end.
Proof.
  intros Hal. induction l as [|a|a b|a b c l IH] using list_ind3; cbn [b64_encode].
  - done.
  - pose proof (byte_of_lt a). rewrite !b64_digits_cons by (done || lia). cbn.
    do 2 f_equal. apply byte_eq. lia.
  - pose proof (byte_of_lt a). pose proof (byte_of_lt b).
    rewrite !b64_digits_cons by (done || lia). cbn.
    do 2 f_equal; [|f_equal]; apply byte_eq; lia.
  - pose proof (byte_of_lt a). pose proof (byte_of_lt b). pose proof (byte_of_lt c).
    rewrite !b64_digits_cons by (done || lia).
    destruct (b64_digits al (b64_encode al l)) as [ns|]; [|done]. cbn in *. rewrite IH. cbn.
    do 2 f_equal; [|f_equal; [|f_equal]]; apply byte_eq; lia.
Qed.

(** Decoding an encoded string gives it back. *)
Lemma DecodeString_EncodeToString al s :
  good_alphabet al -> DecodeString al (EncodeToString al s) = Some s.
Proof.
  intros Hal. unfold DecodeString, EncodeToString. rewrite bytes_of_string_of.
  pose proof (b64_decode_encode al (bytes_of s) Hal) as H.
  destruct (b64_digits _ _) as [ns|]; [|done]. rewrite H. cbn. by rewrite string_of_bytes_of.
Qed.

(** The characters an encoding is made of: letters, digits and the alphabet's last two. *)
Definition b64_char (al : alphabet) (a : ascii) : bool :=
  match dec_char al a with Some _ => true | None => false end.

Lemma EncodeToString_chars al s :
  good_alphabet al -> all_bytes (b64_char al) (EncodeToString al s) = true.
Proof.
  intros Hal. unfold EncodeToString. apply all_bytes_Forall.
  assert (Hc : forall n, n < 64 -> b64_char al (enc_char al n) = true).
  { intros n Hn. unfold b64_char. by destruct (dec_enc_char al n Hal Hn) as [-> _]. }
  induction (bytes_of s) as [|a|a b|a b c l IH] using list_ind3; cbn [b64_encode];
    try pose proof (byte_of_lt a); try pose proof (byte_of_lt b); try pose proof (byte_of_lt c);
    repeat first [apply Forall_nil_2 | apply Forall_cons_2]; try apply Hc; try lia; done.
Qed.

(** Splitting a word without separators, and a word followed by one. *)
Lemma split_at_word n s :
  all_bytes (fun a => negb (is_byte n a)) s = true -> split_at n s = [s].
Proof.
  induction s as [|a s IH]; [done|]. cbn [split_at all_bytes]. intros [Ha%negb_true_iff Hs]%andb_true_iff.
  by rewrite Ha, IH.
Qed.

Lemma split_at_app n s a t :
  all_bytes (fun a => negb (is_byte n a)) s = true -> is_byte n a = true ->
  split_at n (s +:+ String a t) = s :: split_at n t.
Proof.
  intros Hs Ha. induction s as [|b s IH].
  - rewrite str_app_nil. cbn [split_at]. by rewrite Ha.
  - rewrite str_app_cons. cbn [split_at all_bytes] in *. apply andb_true_iff in Hs as [Hb%negb_true_iff Hs].
    by rewrite Hb, IH.
Qed.

Example base64_ex :
  EncodeToString StdEncoding "light work." = "bGlnaHQgd29yay4" /\
  DecodeString StdEncoding "bGlnaHQgd29yaw" = Some "light work" /\
  DecodeString StdEncoding "bGln=" = None.
Proof. by vm_compute. Qed.
Example SplitHostPort_ex :
  (SplitHostPort_host "127.0.0.1:80", SplitHostPort_host "[::1]:443", SplitHostPort_host "::1",
   SplitHostPort_host "10.0.0.1") = (Some "127.0.0.1", Some "::1", None, None).
Proof. by vm_compute. Qed.
