(* ===== verification/JsonText.v ===== *)
(** * JSON texts (encoding/json)

    What the program uses of encoding/json, on bytes: [json.Decoder.Decode] reads the first value
    of a text and ignores what follows it, [json.Encoder.Encode] writes a value and a newline.
    Strings follow Go: invalid UTF-8 and lone surrogates become U+FFFD, and the encoder escapes
    the HTML characters and the two line separators.  Numbers are kept as the text they are
    written with.  The nesting limit is Go's 10000. *)
From S2P Require Import Prelude GoStrings Encoding GoJson.
From Stdlib Require Import Ascii.
Local Open Scope N_scope.

Inductive value :=
| VNull
| VBool (b : bool)
| VNumber (lit : string)
| VString (s : string)
| VArray (l : list value)
| VObject (l : list (string * value)).

(** ** Characters *)

Definition dquote : ascii := byte 34.
Definition backslash : ascii := byte 92.
Definition text1 (n : N) : string := String (byte n) "".

Definition is_space (a : ascii) : bool := is_byte 32 a || is_byte 9 a || is_byte 13 a || is_byte 10 a.
Fixpoint skip (s : string) : string :=
  match s with
  | String a s' => if is_space a then skip s' else s
  | EmptyString => ""
  end.

(** [s] without the prefix [p]. *)
Fixpoint strip (p s : string) : option string :=
  match p, s with
  | EmptyString, _ => Some s
  | String a p', String b s' => if Ascii.eqb a b then strip p' s' else None
  | _, _ => None
  end.

(** The value of a hexadecimal digit. *)
Definition hex_val (a : ascii) : option N :=
  let n := byte_of a in
  if byte_in 48 57 a then Some (n - 48)
  else if byte_in 97 102 a then Some (n - 87)
  else if byte_in 65 70 a then Some (n - 55)
  else None.
Definition is_hex (a : ascii) : bool := match hex_val a with Some _ => true | None => false end.

(** ** Strings *)

(** The letters of the two-character escapes and what they stand for. *)
Definition escape_of (a : ascii) : option string :=
  let n := byte_of a in
  if n =? 34 then Some (text1 34)
  else if n =? 92 then Some (text1 92)
  else if n =? 47 then Some (text1 47)
  else if n =? 98 then Some (text1 8)
  else if n =? 102 then Some (text1 12)
  else if n =? 110 then Some (text1 10)
  else if n =? 114 then Some (text1 13)
  else if n =? 116 then Some (text1 9)
  else None.

(** The scanner after an opening quote: the raw literal and what follows its closing quote. *)
Fixpoint literal (s : string) : option (string * string) :=
  match s with
  | EmptyString => None
  | String a s1 =>
    if is_byte 34 a then Some ("", s1)
    else if is_byte 92 a then
      match s1 with
      | String e s2 =>
        if is_byte 117 e then
          match s2 with
          | String h1 (String h2 (String h3 (String h4 s3))) =>
            if is_hex h1 && is_hex h2 && is_hex h3 && is_hex h4
            then (fun p => (String a (String e (String h1 (String h2 (String h3 (String h4 p.1))))), p.2))
                 <$> literal s3
            else None
          | _ => None
          end
        else match escape_of e with
             | Some _ => (fun p => (String a (String e p.1), p.2)) <$> literal s2
             | None => None
             end
      | EmptyString => None
      end
    else if byte_of a <? 32 then None
    else (fun p => (String a p.1, p.2)) <$> literal s1
  end.

(** [utf8.AppendRune] *)
Definition utf8_encode (r : N) : string :=
  if r <? 128 then text1 r
  else if r <? 2048 then String (byte (192 + r / 64)) (text1 (128 + r mod 64))
  else if r <? 65536 then
    String (byte (224 + r / 4096)) (String (byte (128 + r / 64 mod 64)) (text1 (128 + r mod 64)))
  else
    String (byte (240 + r / 262144)) (String (byte (128 + r / 4096 mod 64))
      (String (byte (128 + r / 64 mod 64)) (text1 (128 + r mod 64)))).

(** [utf16.IsSurrogate] and [utf16.DecodeRune] on a pair. *)
Definition is_surrogate (r : N) : bool := (55296 <=? r) && (r <? 57344).
Definition decode_pair (r1 r2 : N) : option N :=
  if (55296 <=? r1) && (r1 <? 56320) && (56320 <=? r2) && (r2 <? 57344)
  then Some ((r1 - 55296) * 1024 + (r2 - 56320) + 65536) else None.

(** The rune of four hexadecimal digits. *)
Definition hex4 (a b c d : chunk) : N :=
  let h (x : chunk) := default 0 (hex_val (byte (c_rune x))) in
  h a * 4096 + h b * 256 + h c * 16 + h d.

Definition is_chunk (n : N) (c : chunk) : bool := c_valid c && (c_rune c =? n).

(** [unquote]: the string a raw literal stands for. *)
Fixpoint unquote (l : list chunk) : string :=
  match l with
  | [] => ""
  | c :: l1 =>
    if is_chunk 92 c then
      match l1 with
      | [] => ""
      | e :: l2 =>
        if is_chunk 117 e then
          match l2 with
          | h1 :: h2 :: h3 :: h4 :: l3 =>
            let r := hex4 h1 h2 h3 h4 in
            if is_surrogate r then
              match l3 with
              | b :: u :: g1 :: g2 :: g3 :: g4 :: l4 =>
                match (if is_chunk 92 b && is_chunk 117 u then decode_pair r (hex4 g1 g2 g3 g4)
                       else None) with
                | Some rr => utf8_encode rr +:+ unquote l4
                | None => replacement +:+ unquote l3
                end
              | _ => replacement +:+ unquote l3
              end
            else utf8_encode r +:+ unquote l3
          | _ => ""
          end
        else default "" (escape_of (byte (c_rune e))) +:+ unquote l2
      end
    else (if c_valid c then c_bytes c else replacement) +:+ unquote l1
  end.

(** ** Numbers *)

(** The longest prefix of digits, and the rest. *)
Fixpoint digits (s : string) : string * string :=
  match s with
  | String a s' => if is_digit a then let p := digits s' in (String a p.1, p.2) else ("", s)
  | EmptyString => ("", "")
  end.

(** At least one digit. *)
Definition digits1 (s : string) : option (string * string) :=
  match digits s with ("", _) => None | p => Some p end.

(** An optional part that starts with a character satisfying [f]. *)
Definition optional (f : ascii -> bool) (p : string -> option (string * string)) (s : string)
    : option (string * string) :=
  match s with
  | String a s' => if f a then (fun q => (String a q.1, q.2)) <$> p s' else Some ("", s)
  | EmptyString => Some ("", "")
  end.

(** A zero, or digits that do not start with one. *)
Definition int_part (s : string) : option (string * string) :=
  match s with
  | String a s' => if is_byte 48 a then Some (text1 48, s') else digits1 s
  | EmptyString => None
  end.

Definition then_ (p q : string -> option (string * string)) (s : string) : option (string * string) :=
  match p s with
  | Some (a, s1) => (fun r => (a +:+ r.1, r.2)) <$> q s1
  | None => None
  end.

Definition fraction : string -> option (string * string) := optional (is_byte 46) digits1.
Definition exponent : string -> option (string * string) :=
  optional (fun a => is_byte 101 a || is_byte 69 a)
    (fun s => match s with
              | String a s' =>
                  if is_byte 43 a || is_byte 45 a
                  then (fun q => (String a q.1, q.2)) <$> digits1 s' else digits1 s
              | EmptyString => None
              end).
Definition unsigned : string -> option (string * string) := then_ int_part (then_ fraction exponent).
Definition number (s : string) : option (string * string) :=
  match s with
  | String a s' => if is_byte 45 a then (fun q => (String a q.1, q.2)) <$> unsigned s' else unsigned s
  | EmptyString => None
  end.

(** ** Values *)

Definition read_string (s : string) : option (string * string) :=
  (fun p => (unquote (chunks p.1), p.2)) <$> literal s.

Definition word (w : string) (v : value) (s : string) : option (value * string) :=
  (fun r => (v, r)) <$> strip w s.

(** [read n d s]: the first value of [s] and the rest; [n] is fuel (at most two calls per
    character), [d] how deep arrays and objects may still nest.  [elems] reads from the next
    element of an array on, [members] from the next key of an object on. *)
Fixpoint read (n : nat) (d : nat) (s : string) : option (value * string) :=
  match n with
  | O => None
  | S n =>
    match skip s with
    | EmptyString => None
    | String a s' =>
      if is_byte 34 a then (fun p => (VString p.1, p.2)) <$> read_string s'
      else if is_byte 123 a then
        match d with
        | O => None
        | S d =>
          match strip "}" (skip s') with
          | Some r => Some (VObject [], r)
          | None => (fun p => (VObject p.1, p.2)) <$> members n d s'
          end
        end
      else if is_byte 91 a then
        match d with
        | O => None
        | S d =>
          match strip "]" (skip s') with
          | Some r => Some (VArray [], r)
          | None => (fun p => (VArray p.1, p.2)) <$> elems n d s'
          end
        end
      else if is_byte 110 a then word "ull" VNull s'
      else if is_byte 116 a then word "rue" (VBool true) s'
      else if is_byte 102 a then word "alse" (VBool false) s'
      else (fun p => (VNumber p.1, p.2)) <$> number (String a s')
    end
  end
with elems (n : nat) (d : nat) (s : string) : option (list value * string) :=
  match n with
  | O => None
  | S n =>
    match read n d s with
    | None => None
    | Some (v, s1) =>
      match skip s1 with
      | String a s2 =>
        if is_byte 93 a then Some ([v], s2)
        else if is_byte 44 a then (fun p => (v :: p.1, p.2)) <$> elems n d s2
        else None
      | EmptyString => None
      end
    end
  end
with members (n : nat) (d : nat) (s : string) : option (list (string * value) * string) :=
  match n with
  | O => None
  | S n =>
    match skip s with
    | String q s0 =>
      if is_byte 34 q then
        match read_string s0 with
        | None => None
        | Some (k, s1) =>
          match strip ":" (skip s1) with
          | None => None
          | Some s2 =>
            match read n d s2 with
            | None => None
            | Some (v, s3) =>
              match skip s3 with
              | String a s4 =>
                if is_byte 125 a then Some ([(k, v)], s4)
                else if is_byte 44 a then (fun p => ((k, v) :: p.1, p.2)) <$> members n d s4
                else None
              | EmptyString => None
              end
            end
          end
        end
      else None
    | EmptyString => None
    end
  end.

Definition maxNestingDepth : nat := Nat.mul 100 100.
Definition fuel_for (s : string) : nat := (2 * String.length s + 2)%nat.

(** [Decode] of a text, up to the assignment to Go data; [None] is an error. *)
Definition Decode (s : string) : option value := fst <$> read (fuel_for s) maxNestingDepth s.

(** ** Printing *)

Definition hex2 (n : N) : string := String (hex_digit (n / 16)) (String (hex_digit (n mod 16)) "").
Definition u00 (n : N) : string := String backslash ("u00" +:+ hex2 n).
Definition short (n : N) : string := String backslash (text1 n).

(** [appendString] with HTML escaping, one character. *)
Definition escape (c : chunk) : string :=
  if negb (c_valid c) then String backslash "ufffd"
  else let r := c_rune c in
  if r =? 34 then short 34
  else if r =? 92 then short 92
  else if r =? 8 then short 98
  else if r =? 12 then short 102
  else if r =? 10 then short 110
  else if r =? 13 then short 114
  else if r =? 9 then short 116
  else if (r <? 32) || (r =? 60) || (r =? 62) || (r =? 38) then u00 r
  else if r =? 8232 then String backslash "u2028"
  else if r =? 8233 then String backslash "u2029"
  else c_bytes c.

Definition escaped (s : string) : string := foldr (fun c t => escape c +:+ t) "" (chunks s).
Definition quoted (s : string) : string := String dquote (escaped s +:+ text1 34).

(** Texts joined by commas. *)
Fixpoint join (l : list string) : string :=
  match l with
  | [] => ""
  | [x] => x
  | x :: l' => x +:+ "," +:+ join l'
  end.

Fixpoint print (v : value) : string :=
  match v with
  | VNull => "null"
  | VBool b => if b then "true" else "false"
  | VNumber lit => lit
  | VString s => quoted s
  | VArray l => "[" +:+ join (print <$> l) +:+ "]"
  | VObject l => "{" +:+ join ((fun p => quoted p.1 +:+ ":" +:+ print p.2) <$> l) +:+ "}"
  end.

(** [Encode] *)
Definition Encode (v : value) : string := print v +:+ text1 10.

(** [strconv.FormatInt] *)
Definition FormatInt (z : Z) : string :=
  match z with
  | Zneg p => "-" +:+ FormatUint (Npos p)
  | _ => FormatUint (Z.to_N z)
  end.
Definition VInt (z : Z) : value := VNumber (FormatInt z).

(** ** What a reader consumes *)

(** A reader that splits its input. *)
Definition splits (p : string -> option (string * string)) : Prop :=
  forall s a r, p s = Some (a, r) -> s = a +:+ r.

Lemma skip_length s : (String.length (skip s) <= String.length s)%nat.
Proof. induction s as [|a s IH]; cbn; [lia|]. destruct (is_space a); cbn; lia. Qed.

Lemma strip_app p s r : strip p s = Some r <-> s = p +:+ r.
Proof.
  revert s. induction p as [|a p IH]; intros s; cbn; [by split; [intros [= ->]|intros ->]|].
  destruct s as [|b s]; [done|]. destruct (Ascii.eqb_spec a b) as [->|Hne].
  - rewrite IH. split; [by intros ->|by intros [= ->]].
  - split; [done|]. rewrite str_app_cons. by intros [= -> _].
Qed.

Lemma strip_length p s r :
  strip p s = Some r -> String.length s = (String.length p + String.length r)%nat.
Proof. intros ->%strip_app. apply length_append. Qed.

Lemma literal_length s l r :
  literal s = Some (l, r) -> (String.length r < String.length s)%nat.
Proof.
  revert l r. induction s as [s IH] using string_len_ind. intros l r.
  destruct s as [|a s1]; [done|]. cbn [literal].
  destruct (is_byte 34 a). { intros [= _ <-]. cbn. lia. }
  destruct (is_byte 92 a).
  - destruct s1 as [|e s2]; [done|]. destruct (is_byte 117 e).
    + destruct s2 as [|h1 [|h2 [|h3 [|h4 s3]]]]; try done. destruct (_ && _); [|done].
      intros ([l' r'] & H & [= _ <-])%fmap_Some. apply IH in H; cbn in *; lia.
    + destruct (escape_of e); [|done].
      intros ([l' r'] & H & [= _ <-])%fmap_Some. apply IH in H; cbn in *; lia.
  - destruct (byte_of a <? 32); [done|].
    intros ([l' r'] & H & [= _ <-])%fmap_Some. apply IH in H; cbn in *; lia.
Qed.

Lemma read_string_length s l r :
  read_string s = Some (l, r) -> (String.length r < String.length s)%nat.
Proof. intros ([l' r'] & H & [= _ <-])%fmap_Some. by eapply literal_length. Qed.

Lemma digits_split s : s = (digits s).1 +:+ (digits s).2.
Proof.
  induction s as [|a s IH]; [done|]. cbn. destruct (is_digit a); [|done].
  cbn [fst snd]. rewrite str_app_cons. by f_equal.
Qed.

Lemma digits1_split : splits digits1.
Proof.
  intros s a r. unfold digits1. rewrite (digits_split s) at 2.
  destruct (digits s) as [[|b l] q]; [done|]. by intros [= <- <-].
Qed.

Lemma optional_split f p : splits p -> splits (optional f p).
Proof.
  intros Hp [|b s] a r; cbn; [by intros [= <- <-]|]. destruct (f b); [|by intros [= <- <-]].
  intros ([a' r'] & H%Hp & [= -> ->])%fmap_Some. cbn. by rewrite str_app_cons, H.
Qed.

Lemma then_split p q : splits p -> splits q -> splits (then_ p q).
Proof.
  intros Hp Hq s a r. unfold then_. destruct (p s) as [[a1 s1]|] eqn:E; [|done].
  intros ([a2 r2] & H%Hq & [= -> ->])%fmap_Some. apply Hp in E as ->. cbn.
  by rewrite H, append_assoc.
Qed.

Lemma int_part_split : splits int_part.
Proof.
  intros [|b s] a r; cbn; [done|]. destruct (is_byte 48 b) eqn:E; [|apply digits1_split].
  intros [= <- <-]. apply N.eqb_eq in E. unfold text1. rewrite <- E, byte_byte_of. done.
Qed.

Lemma exponent_split : splits exponent.
Proof.
  apply optional_split. intros [|b s] a r; [done|].
  destruct (is_byte 43 b || is_byte 45 b); [|apply digits1_split].
  intros ([a' r'] & H%digits1_split & [= -> ->])%fmap_Some. cbn. by rewrite str_app_cons, H.
Qed.

Lemma unsigned_split : splits unsigned.
Proof.
  apply then_split; [apply int_part_split|]. apply then_split; [|apply exponent_split].
  apply optional_split, digits1_split.
Qed.

Lemma int_part_nonempty s a r : int_part s = Some (a, r) -> a <> "".
Proof.
  destruct s as [|b s]; cbn; [done|]. destruct (is_byte 48 b); [by intros [= <- _]|].
  unfold digits1. destruct (digits (String b s)) as [[|c l] q]; [done|]. by intros [= <- _].
Qed.

Lemma number_length s a r : number s = Some (a, r) -> (String.length r < String.length s)%nat.
Proof.
  assert (Hu : forall s a r, unsigned s = Some (a, r) -> (String.length r < String.length s)%nat).
  { clear. intros s a r H. pose proof (unsigned_split _ _ _ H) as ->. rewrite length_append.
    enough (a <> "") by (destruct a; [done|cbn; lia]). revert H. unfold unsigned, then_ at 1.
    destruct (int_part _) as [[a1 s1]|] eqn:E; [|done]. apply int_part_nonempty in E.
    intros ([a2 r2] & _ & [= -> ->])%fmap_Some. by destruct a1. }
  destruct s as [|b s]; cbn; [done|]. destruct (is_byte 45 b); [|apply (Hu (String b s))].
  intros ([a' r'] & H%Hu & [= _ ->])%fmap_Some. cbn. lia.
Qed.

(** ** The fuel is enough *)

Lemma fst_snd_Some {A B C} (f : A -> C) (o : option (A * B)) c r :
  (fun p => (f p.1, p.2)) <$> o = Some (c, r) -> exists a, o = Some (a, r) /\ c = f a.
Proof. intros ([a r'] & -> & [= -> ->])%fmap_Some. by exists a. Qed.

(** A reader leaves less than it found. *)
Lemma read_shorter n d :
  (forall s v r, read n d s = Some (v, r) -> String.length r < String.length s)%nat /\
  (forall s l r, elems n d s = Some (l, r) -> String.length r < String.length s)%nat /\
  (forall s l r, members n d s = Some (l, r) -> String.length r < String.length s)%nat.
Proof.
  revert d. induction n as [|n IH]; intros d; [done|]. cbn [read elems members]. split_and!.
  - intros s v r. pose proof (skip_length s). destruct (skip s) as [|a s']; [done|]. cbn in H.
    pose proof (skip_length s').
    destruct (is_byte 34 a).
    { intros (x & Hx%read_string_length & _)%fst_snd_Some. lia. }
    destruct (is_byte 123 a).
    { destruct d as [|d]; [done|]. destruct (strip "}" _) eqn:E.
      - intros [= _ <-]. apply strip_length in E. lia.
      - intros (x & Hx & _)%fst_snd_Some. apply IH in Hx. lia. }
    destruct (is_byte 91 a).
    { destruct d as [|d]; [done|]. destruct (strip "]" _) eqn:E.
      - intros [= _ <-]. apply strip_length in E. lia.
      - intros (x & Hx & _)%fst_snd_Some. apply IH in Hx. lia. }
    destruct (is_byte 110 a), (is_byte 116 a), (is_byte 102 a);
      try (intros (x & Hx%strip_length & [= _ ->])%fmap_Some; lia).
    intros (x & Hx%number_length & _)%fst_snd_Some. cbn in Hx. lia.
  - intros s l r. destruct (read n d s) as [[v s1]|] eqn:E; [|done].
    apply (proj1 (IH d)) in E. pose proof (skip_length s1). destruct (skip s1) as [|a s2]; [done|].
    cbn in H. destruct (is_byte 93 a); [intros [= _ <-]; lia|]. destruct (is_byte 44 a); [|done].
    intros (x & Hx & _)%fst_snd_Some. apply IH in Hx. lia.
  - intros s l r. pose proof (skip_length s). destruct (skip s) as [|q s0]; [done|]. cbn in H.
    destruct (is_byte 34 q); [|done]. destruct (read_string s0) as [[k s1]|] eqn:E; [|done].
    apply read_string_length in E. destruct (strip ":" _) as [s2|] eqn:E2; [|done].
    apply strip_length in E2. pose proof (skip_length s1).
    destruct (read n d s2) as [[v s3]|] eqn:E3; [|done]. apply (proj1 (IH d)) in E3.
    pose proof (skip_length s3). destruct (skip s3) as [|a s4]; [done|]. cbn in *.
    destruct (is_byte 125 a); [intros [= _ <-]; lia|]. destruct (is_byte 44 a); [|done].
    intros (x & Hx & _)%fst_snd_Some. apply IH in Hx. lia.
Qed.

(** More fuel changes nothing. *)
Lemma read_more n m d :
  (n <= m)%nat ->
  (forall s, 2 * String.length s + 1 <= n -> read m d s = read n d s)%nat /\
  (forall s, 2 * String.length s + 2 <= n -> elems m d s = elems n d s)%nat /\
  (forall s, 2 * String.length s + 2 <= n -> members m d s = members n d s)%nat.
Proof.
  revert m d. induction n as [|n IH]; intros m d Hm; [split_and!; intros; lia|].
  destruct m as [|m]; [lia|]. apply le_S_n in Hm. cbn [read elems members]. split_and!.
  - intros s Hn. pose proof (skip_length s). destruct (skip s) as [|a s']; [done|]. cbn in H.
    destruct (is_byte 34 a); [done|]. destruct (is_byte 123 a).
    { destruct d as [|d]; [done|]. destruct (strip _ _); [done|].
      by rewrite (proj2 (proj2 (IH m d Hm))) by lia. }
    destruct (is_byte 91 a); [|done]. destruct d as [|d]; [done|]. destruct (strip _ _); [done|].
    by rewrite (proj1 (proj2 (IH m d Hm))) by lia.
  - intros s Hn. rewrite (proj1 (IH m d Hm)) by lia.
    destruct (read n d s) as [[v s1]|] eqn:E; [|done]. apply read_shorter in E.
    pose proof (skip_length s1). destruct (skip s1) as [|a s2]; [done|]. cbn in H.
    destruct (is_byte 93 a), (is_byte 44 a); try done.
    by rewrite (proj1 (proj2 (IH m d Hm))) by lia.
  - intros s Hn. pose proof (skip_length s). destruct (skip s) as [|q s0]; [done|]. cbn in H.
    destruct (is_byte 34 q); [|done]. destruct (read_string s0) as [[k s1]|] eqn:E; [|done].
    apply read_string_length in E. destruct (strip ":" _) as [s2|] eqn:E2; [|done].
    apply strip_length in E2. pose proof (skip_length s1). cbn in E2.
    rewrite (proj1 (IH m d Hm)) by lia.
    destruct (read n d s2) as [[v s3]|] eqn:E3; [|done]. apply read_shorter in E3.
    pose proof (skip_length s3). destruct (skip s3) as [|a s4]; [done|]. cbn in *.
    destruct (is_byte 125 a), (is_byte 44 a); try done.
    by rewrite (proj2 (proj2 (IH m d Hm))) by lia.
Qed.

(** ** The characters of a string *)

(** A well-formed chunk stands for itself at the head of any text, is spelled by its rune, and
    is one ASCII byte or only bytes outside ASCII. *)
Record genuine (c : chunk) : Prop := {
  genuine_head : forall t, chunks (c_bytes c +:+ t) = c :: chunks t;
  genuine_rune : utf8_encode (c_rune c) = c_bytes c;
  genuine_high : 128 <= c_rune c -> all_bytes (fun a => 128 <=? byte_of a) (c_bytes c) = true }.

Lemma byte_in_range lo hi a : byte_in lo hi a = true <-> lo <= byte_of a <= hi.
Proof. unfold byte_in. rewrite andb_true_iff, !N.leb_le. done. Qed.

Lemma not_ascii a : 128 <= byte_of a -> (byte_of a <? 128) = false.
Proof. apply N.ltb_ge. Qed.

#[local] Ltac Zify.zify_post_hook ::= Z.to_euclidean_division_equations.

Lemma genuine1 a : byte_of a < 128 -> genuine (Chunk (byte_of a) (String a "") true).
Proof.
  intros Ha%N.ltb_lt. split.
  - intros t. cbn [c_bytes]. rewrite !str_app_cons, str_app_nil. cbn [chunks]. by rewrite Ha.
  - unfold utf8_encode, text1. cbn [c_rune c_bytes]. by rewrite Ha, byte_byte_of.
  - cbn. apply N.ltb_lt in Ha. lia.
Qed.

Lemma genuine2 a b : is2 a b = true -> genuine (Chunk (rune2 a b) (String a (String b "")) true).
Proof.
  intros H2. pose proof H2 as [Ha%byte_in_range Hb%byte_in_range]%andb_true_iff. split.
  - intros t. cbn [c_bytes]. rewrite !str_app_cons, str_app_nil. cbn [chunks]. by rewrite not_ascii, H2 by lia.
  - unfold utf8_encode, rune2, text1. cbn [c_rune c_bytes].
    replace (_ <? 128) with false by (symmetry; apply N.ltb_ge; lia).
    replace (_ <? 2048) with true by (symmetry; apply N.ltb_lt; lia).
    by rewrite (byte_eq a), (byte_eq b) by lia.
  - cbn. intros _. by rewrite !(proj2 (N.leb_le _ _)) by lia.
Qed.

Lemma is3_range a b c : is3 a b c = true ->
  224 <= byte_of a <= 239 /\ 128 <= byte_of b <= 191 /\ 128 <= byte_of c <= 191 /\
  (byte_of a = 224 -> 160 <= byte_of b).
Proof.
  unfold is3. intros [[Ha%byte_in_range Hc%byte_in_range]%andb_true_iff Hb]%andb_true_iff.
  destruct (N.eqb_spec (byte_of a) 224); [|destruct (N.eqb_spec (byte_of a) 237)];
    apply byte_in_range in Hb; lia.
Qed.

Lemma genuine3 a b c :
  is3 a b c = true -> genuine (Chunk (rune3 a b c) (String a (String b (String c ""))) true).
Proof.
  intros H3. pose proof (is3_range _ _ _ H3) as (Ha & Hb & Hc & Hab). split.
  - intros t. cbn [c_bytes]. rewrite !str_app_cons, str_app_nil. cbn [chunks]. rewrite not_ascii by lia.
    assert (is2 a b = false) as ->.
    { apply not_true_iff_false. intros [[? ?]%byte_in_range _]%andb_true_iff. lia. }
    by rewrite H3.
  - unfold utf8_encode, rune3, text1. cbn [c_rune c_bytes].
    replace (_ <? 128) with false by (symmetry; apply N.ltb_ge; lia).
    replace (_ <? 2048) with false by (symmetry; apply N.ltb_ge; lia).
    replace (_ <? 65536) with true by (symmetry; apply N.ltb_lt; lia).
    by rewrite (byte_eq a), (byte_eq b), (byte_eq c) by lia.
  - cbn. intros _. by rewrite !(proj2 (N.leb_le _ _)) by lia.
Qed.

Lemma is4_range a b c d : is4 a b c d = true ->
  240 <= byte_of a <= 244 /\ 128 <= byte_of b <= 191 /\ 128 <= byte_of c <= 191 /\
  128 <= byte_of d <= 191 /\ (byte_of a = 240 -> 144 <= byte_of b).
Proof.
  unfold is4. intros [[[Ha%byte_in_range Hc%byte_in_range]%andb_true_iff
                       Hd%byte_in_range]%andb_true_iff Hb]%andb_true_iff.
  destruct (N.eqb_spec (byte_of a) 240); [|destruct (N.eqb_spec (byte_of a) 244)];
    apply byte_in_range in Hb; lia.
Qed.

Lemma genuine4 a b c d : is4 a b c d = true ->
  genuine (Chunk (rune4 a b c d) (String a (String b (String c (String d "")))) true).
Proof.
  intros H4. pose proof (is4_range _ _ _ _ H4) as (Ha & Hb & Hc & Hd & Hab). split.
  - intros t. cbn [c_bytes]. rewrite !str_app_cons, str_app_nil. cbn [chunks]. rewrite not_ascii by lia.
    assert (is2 a b = false) as ->.
    { apply not_true_iff_false. intros [[? ?]%byte_in_range _]%andb_true_iff. lia. }
    assert (is3 a b c = false) as ->.
    { apply not_true_iff_false. intros (? & _)%is3_range. lia. }
    by rewrite H4.
  - unfold utf8_encode, rune4, text1. cbn [c_rune c_bytes].
    replace (_ <? 128) with false by (symmetry; apply N.ltb_ge; lia).
    replace (_ <? 2048) with false by (symmetry; apply N.ltb_ge; lia).
    replace (_ <? 65536) with false by (symmetry; apply N.ltb_ge; lia).
    by rewrite (byte_eq a), (byte_eq b), (byte_eq c), (byte_eq d) by lia.
  - cbn. intros _. by rewrite !(proj2 (N.leb_le _ _)) by lia.
Qed.

Lemma chunks_genuine s : Forall (fun c => c_valid c = true -> genuine c) (chunks s).
Proof.
  induction s as [s IH] using string_len_ind. destruct s as [|a s]; [constructor|]. cbn [chunks].
  destruct (N.ltb_spec (byte_of a) 128).
  { constructor; [by intros _; apply genuine1|]. apply IH. cbn. lia. }
  destruct s as [|b s]; [by repeat constructor|].
  destruct (is2 a b) eqn:H2.
  { constructor; [by intros _; apply genuine2|]. apply IH. cbn. lia. }
  destruct s as [|c s]; [constructor; [done|apply IH; cbn; lia]|].
  destruct (is3 a b c) eqn:H3.
  { constructor; [by intros _; apply genuine3|]. apply IH. cbn. lia. }
  destruct s as [|d s]; [constructor; [done|apply IH; cbn; lia]|].
  destruct (is4 a b c d) eqn:H4.
  - constructor; [by intros _; apply genuine4|]. apply IH. cbn. lia.
  - constructor; [done|]. apply IH. cbn. lia.
Qed.

(** ** Strings: writing and reading back *)

(** [p] in a literal is one piece of the raw text, and [p] stands for [x]. *)
Definition passes (p : string) : Prop := forall t,
  literal (p +:+ t) = (fun q => (p +:+ q.1, q.2)) <$> literal t.
Definition means (p x : string) : Prop := forall t,
  unquote (chunks (p +:+ t)) = x +:+ unquote (chunks t).

Lemma passes_nil : passes "".
Proof. intros t. rewrite str_app_nil. destruct (literal t) as [[l r]|]; [|done]. cbn. by rewrite str_app_nil. Qed.

Lemma passes_app p q : passes p -> passes q -> passes (p +:+ q).
Proof.
  intros Hp Hq t. rewrite append_assoc, Hp, Hq. destruct (literal t) as [[l r]|]; [|done].
  cbn. by rewrite append_assoc.
Qed.

(** A byte that is neither a quote, a backslash nor a control character. *)
Definition plain_byte (a : ascii) : bool :=
  negb (is_byte 34 a) && negb (is_byte 92 a) && negb (byte_of a <? 32).

Lemma passes_plain p : all_bytes plain_byte p = true -> passes p.
Proof.
  induction p as [|a p IH]; [intros _; apply passes_nil|]. cbn [all_bytes].
  intros [[[H1%negb_true_iff H2%negb_true_iff]%andb_true_iff H3%negb_true_iff]%andb_true_iff Hp]%andb_true_iff t.
  rewrite str_app_cons. cbn [literal]. rewrite H1, H2, H3, (IH Hp t).
  destruct (literal t) as [[l r]|]; [|done]. cbn. by rewrite str_app_cons.
Qed.

(** One step of [unquote] at a backslash. *)
Definition slash : chunk := Chunk 92 (text1 92) true.

Lemma chunks_ascii_cons a t :
  byte_of a < 128 -> chunks (String a t) = Chunk (byte_of a) (String a "") true :: chunks t.
Proof. intros Ha%N.ltb_lt. cbn [chunks]. by rewrite Ha. Qed.

Lemma unquote_short e l :
  is_chunk 117 e = false -> unquote (slash :: e :: l) = default "" (escape_of (byte (c_rune e))) +:+ unquote l.
Proof. intros He. cbn [unquote]. change (is_chunk 92 slash) with true. by rewrite He. Qed.

Lemma unquote_unicode u a b c d l :
  is_chunk 117 u = true -> is_surrogate (hex4 a b c d) = false ->
  unquote (slash :: u :: a :: b :: c :: d :: l) = utf8_encode (hex4 a b c d) +:+ unquote l.
Proof. intros Hu Hs. cbn [unquote]. change (is_chunk 92 slash) with true. by rewrite Hu, Hs. Qed.

(** The escapes of the encoder: two characters, or a [u] and four digits. *)
Lemma short_ok n x : n < 128 -> n <> 117 -> escape_of (byte n) = Some x ->
  passes (short n) /\ means (short n) x.
Proof.
  intros Hn Hu He. assert (Hu' : is_byte 117 (byte n) = false).
  { unfold is_byte. rewrite byte_of_byte by lia. by apply N.eqb_neq. }
  split; intros t; unfold short, text1; rewrite !str_app_cons, str_app_nil.
  - cbn [literal]. change (is_byte 34 backslash) with false. change (is_byte 92 backslash) with true.
    cbv iota. rewrite Hu', He. destruct (literal t) as [[l r]|]; [|done]. cbn.
    by rewrite !str_app_cons, str_app_nil.
  - rewrite !chunks_ascii_cons by (rewrite ?byte_of_byte; done || lia).
    rewrite byte_of_byte by lia. change (Chunk (byte_of backslash) _ _) with slash.
    rewrite unquote_short; [cbn [c_rune]; by rewrite He|]. by apply N.eqb_neq.
Qed.

Definition unicode_escape (a b c d : ascii) : string :=
  String backslash (String (byte 117) (String a (String b (String c (String d ""))))).

Lemma hex_ascii a : is_hex a = true -> byte_of a < 128.
Proof.
  unfold is_hex, hex_val. destruct (byte_in 48 57 a) eqn:H1; [apply byte_in_range in H1; lia|].
  destruct (byte_in 97 102 a) eqn:H2; [apply byte_in_range in H2; lia|].
  destruct (byte_in 65 70 a) eqn:H3; [apply byte_in_range in H3; lia|done].
Qed.

Lemma unicode_ok a b c d r :
  is_hex a = true -> is_hex b = true -> is_hex c = true -> is_hex d = true ->
  hex4 (Chunk (byte_of a) "" true) (Chunk (byte_of b) "" true) (Chunk (byte_of c) "" true)
    (Chunk (byte_of d) "" true) = r -> is_surrogate r = false ->
  passes (unicode_escape a b c d) /\ means (unicode_escape a b c d) (utf8_encode r).
Proof.
  intros Ha Hb Hc Hd Hr Hs.
  split; intros t; unfold unicode_escape; rewrite !str_app_cons, str_app_nil.
  - cbn [literal]. change (is_byte 34 backslash) with false. change (is_byte 92 backslash) with true.
    change (is_byte 117 (byte 117)) with true. cbv iota. rewrite Ha, Hb, Hc, Hd. cbn [andb].
    destruct (literal t) as [[l q]|]; [|done]. cbn. by rewrite !str_app_cons, str_app_nil.
  - pose proof (hex_ascii _ Ha) as La. pose proof (hex_ascii _ Hb) as Lb.
    pose proof (hex_ascii _ Hc) as Lc. pose proof (hex_ascii _ Hd) as Ld.
    rewrite !chunks_ascii_cons by done. change (Chunk (byte_of backslash) _ _) with slash.
    rewrite unquote_unicode; [|done|]; unfold hex4 in *; cbn [c_rune] in *; by rewrite Hr.
Qed.

Lemma means_bytes c : genuine c -> c_valid c = true -> c_rune c <> 92 -> means (c_bytes c) (c_bytes c).
Proof.
  intros Hg Hv Hr t. rewrite (genuine_head _ Hg). cbn [unquote]. unfold is_chunk. rewrite Hv.
  by rewrite (proj2 (N.eqb_neq _ _) Hr).
Qed.

Lemma u00_ok r : r < 64 -> passes (u00 r) /\ means (u00 r) (text1 r).
Proof.
  intros Hr. change (u00 r) with (unicode_escape (byte 48) (byte 48) (hex_digit (r / 16)) (hex_digit (r mod 16))).
  assert (Hd : forall n, n < 16 -> hex_val (hex_digit n) = Some n).
  { intros n Hn. unfold hex_digit, hex_val, byte_in. destruct (N.ltb_spec n 10).
    - rewrite byte_of_byte by lia. rewrite !(proj2 (N.leb_le _ _)) by lia. cbn. f_equal. lia.
    - rewrite byte_of_byte by lia. rewrite (proj2 (N.leb_gt (87 + n) 57)), andb_false_r by lia.
      rewrite !(proj2 (N.leb_le _ _)) by lia. cbn. f_equal. lia. }
  replace (text1 r) with (utf8_encode r)
    by (unfold utf8_encode; by rewrite (proj2 (N.ltb_lt r 128)) by lia).
  apply unicode_ok; try done; unfold is_hex; rewrite ?Hd by lia; try done.
  - unfold hex4. cbn [c_rune]. rewrite !byte_byte_of, !Hd by lia.
    change (hex_val (byte 48)) with (Some 0). cbn [default from_option id]. lia.
  - unfold is_surrogate. by rewrite (proj2 (N.leb_gt 55296 r)) by lia.
Qed.

(** What the encoder writes for one character. *)
Definition coerced (c : chunk) : string := if c_valid c then c_bytes c else replacement.

Lemma escape_ok c :
  (c_valid c = true -> genuine c) -> passes (escape c) /\ means (escape c) (coerced c).
Proof.
  intros Hg. unfold escape, coerced. destruct (c_valid c) eqn:Hv; cbn [negb].
  2: { change replacement with (utf8_encode 65533). apply (unicode_ok (byte 102) (byte 102) (byte 102) (byte 100)); by vm_compute. }
  specialize (Hg eq_refl). pose proof (genuine_rune _ Hg) as Hu.
  assert (Hasc : forall n, c_rune c = n -> n < 128 -> c_bytes c = text1 n).
  { intros n Hn Hlt. rewrite <- Hu, Hn. unfold utf8_encode. by rewrite (proj2 (N.ltb_lt _ _) Hlt). }
  repeat match goal with
  | |- context [if c_rune c =? ?n then short ?m else _] =>
      destruct (N.eqb_spec (c_rune c) n) as [E|?];
      [rewrite (Hasc n E) by lia; by apply short_ok|]
  end.
  destruct ((c_rune c <? 32) || (c_rune c =? 60) || (c_rune c =? 62) || (c_rune c =? 38)) eqn:Hh.
  { rewrite (Hasc _ eq_refl); [apply u00_ok|];
      rewrite !orb_true_iff, N.ltb_lt, !N.eqb_eq in Hh; lia. }
  rewrite !orb_false_iff, N.ltb_ge, !N.eqb_neq in Hh.
  destruct (N.eqb_spec (c_rune c) 8232) as [E|].
  { rewrite <- Hu, E. apply (unicode_ok (byte 50) (byte 48) (byte 50) (byte 56)); by vm_compute. }
  destruct (N.eqb_spec (c_rune c) 8233) as [E|].
  { rewrite <- Hu, E. apply (unicode_ok (byte 50) (byte 48) (byte 50) (byte 57)); by vm_compute. }
  split; [|by apply means_bytes]. apply passes_plain.
  destruct (N.lt_ge_cases (c_rune c) 128) as [Hlt|Hge].
  - rewrite (Hasc _ eq_refl Hlt). cbn. unfold plain_byte, is_byte. rewrite byte_of_byte by lia.
    rewrite !(proj2 (N.eqb_neq _ _)) by done. by rewrite (proj2 (N.ltb_ge _ _)) by lia.
  - eapply all_bytes_impl; [|by apply (genuine_high _ Hg)]. intros a Ha%N.leb_le.
    unfold plain_byte, is_byte. rewrite !(proj2 (N.eqb_neq _ _)) by lia.
    by rewrite (proj2 (N.ltb_ge _ _)) by lia.
Qed.

(** Reading what was quoted gives the string back, its invalid bytes replaced. *)
Lemma read_quoted s r :
  read_string (escaped s +:+ String dquote r) = Some (coerce_utf8 s, r).
Proof.
  assert (Hs : passes (escaped s) /\ means (escaped s) (coerce_utf8 s)).
  { unfold escaped, coerce_utf8. pose proof (chunks_genuine s) as Hg.
    induction Hg as [|c l Hc Hl [IHp IHm]]; cbn [foldr].
    - split; [apply passes_nil|intros t; by rewrite !str_app_nil].
    - destruct (escape_ok c Hc) as [Hp Hm]. split; [by apply passes_app|].
      intros t. rewrite append_assoc, Hm, IHm. by rewrite append_assoc. }
  destruct Hs as [Hp Hm]. unfold read_string. rewrite Hp. cbn [literal].
  change (is_byte 34 dquote) with true. cbn [fmap option_fmap option_map fst snd].
  rewrite append_empty_r. specialize (Hm ""). rewrite append_empty_r in Hm. rewrite Hm. cbn [chunks unquote].
  by rewrite append_empty_r.
Qed.

(** ** Numbers: a literal is read up to where it stops *)

(** The text does not go on with a number. *)
Definition stops (s : string) : Prop :=
  match s with
  | EmptyString => True
  | String a _ => is_digit a = false /\ is_byte 46 a = false /\ is_byte 101 a = false /\ is_byte 69 a = false
  end.

(** What follows changes nothing once the reader has stopped. *)
Definition extends (p : string -> option (string * string)) : Prop :=
  forall s a r t, p s = Some (a, r) -> r <> "" \/ stops t -> p (s +:+ t) = Some (a, r +:+ t).

Lemma app_nonempty (r t : string) : r <> "" -> r +:+ t <> "".
Proof. by destruct r. Qed.

Lemma digits_extend s t :
  (digits s).2 <> "" \/ stops t -> digits (s +:+ t) = ((digits s).1, (digits s).2 +:+ t).
Proof.
  induction s as [|a s IH]; cbn [digits].
  - intros [|Ht]; [done|]. rewrite !str_app_nil. destruct t as [|b t]; [done|].
    destruct Ht as [Hb _]. cbn. by rewrite Hb.
  - rewrite str_app_cons. cbn [digits]. destruct (is_digit a); cbn [fst snd]; [|done].
    intros Ht. by rewrite IH.
Qed.

Lemma digits1_extends : extends digits1.
Proof.
  intros s a r t. unfold digits1. intros H Ht.
  assert (Hr : (digits s).2 = r) by (destruct (digits s) as [[|b l] q]; by simplify_eq).
  rewrite digits_extend by by rewrite Hr. destruct (digits s) as [[|b l] q]; [done|]. by simplify_eq/=.
Qed.

Lemma optional_extends f p :
  (forall a, f a = true -> is_byte 46 a = true \/ is_byte 101 a = true \/ is_byte 69 a = true) ->
  extends p -> extends (optional f p).
Proof.
  intros Hf Hp [|b s] a r t; cbn [optional].
  - intros [= <- <-] [|Ht]; [done|]. rewrite !str_app_nil. destruct t as [|c t]; [done|]. cbn.
    destruct (f c) eqn:E; [|done]. destruct Ht as (_ & ? & ? & ?). apply Hf in E. intuition congruence.
  - rewrite str_app_cons. cbn [optional]. destruct (f b); [|by intros [= <- <-]].
    intros (x & Hx & ->)%fst_snd_Some Ht. by rewrite (Hp _ _ _ _ Hx Ht).
Qed.

Lemma then_extends p q : splits q -> extends p -> extends q -> extends (then_ p q).
Proof.
  intros Hs Hp Hq s a r t. unfold then_. destruct (p s) as [[a1 s1]|] eqn:E; [|done].
  intros (x & Hx & ->)%fst_snd_Some Ht. rewrite (Hp _ _ _ t E).
  - by rewrite (Hq _ _ _ _ Hx Ht).
  - destruct Ht as [Hr|]; [left|by right]. apply Hs in Hx as ->. by destruct x.
Qed.

Lemma int_part_extends : extends int_part.
Proof.
  intros [|b s] a r t; cbn [int_part]; [done|]. rewrite str_app_cons. cbn [int_part].
  destruct (is_byte 48 b); [by intros [= <- <-]|]. apply digits1_extends.
Qed.

Lemma exponent_extends : extends exponent.
Proof.
  apply optional_extends. { intros a [?|?]%orb_true_iff; auto. }
  intros [|b s] a r t; [done|]. rewrite str_app_cons.
  destruct (is_byte 43 b || is_byte 45 b); [|apply digits1_extends].
  intros (x & Hx & ->)%fst_snd_Some Ht. by rewrite (digits1_extends _ _ _ _ Hx Ht).
Qed.

Lemma number_extends : extends number.
Proof.
  assert (Hf : splits fraction /\ extends fraction).
  { split; [apply optional_split, digits1_split|]. apply optional_extends, digits1_extends. auto. }
  assert (Hu : extends unsigned).
  { apply then_extends; [apply then_split; [apply Hf|apply exponent_split]|apply int_part_extends|].
    apply then_extends; [apply exponent_split|apply Hf|apply exponent_extends]. }
  intros [|b s] a r t; cbn [number]; [done|]. rewrite str_app_cons. cbn [number].
  destruct (is_byte 45 b); [|apply (Hu (String b s))].
  intros (x & Hx & ->)%fst_snd_Some Ht. by rewrite (Hu _ _ _ _ Hx Ht).
Qed.

(** The decimal form of an integer is a JSON number. *)
Lemma decimal_loop_head f n acc :
  0 < n < 2 ^ N.of_nat f -> exists a t, decimal_loop f n acc = String a t /\ is_byte 48 a = false.
Proof.
  revert n acc. induction f as [|f IH]; intros n acc [Hn Hf]; [cbn in Hf; lia|]. cbn [decimal_loop].
  rewrite Nat2N.inj_succ, N.pow_succ_r' in Hf. destruct (N.eqb_spec (n / 10) 0) as [H0|H0].
  - eexists _, _. split; [done|]. unfold is_byte. rewrite byte_of_byte by lia. apply N.eqb_neq. lia.
  - apply IH. lia.
Qed.

Lemma unsigned_FormatUint n : unsigned (FormatUint n) = Some (FormatUint n, "").
Proof.
  assert (Hd : digits (FormatUint n) = (FormatUint n, "")).
  { pose proof (FormatUint_digits n) as H. induction (FormatUint n) as [|a s IH]; [done|]. cbn in *.
    apply andb_true_iff in H as [-> H]. by rewrite (IH H). }
  assert (Hi : int_part (FormatUint n) = Some (FormatUint n, "")).
  { destruct (N.eq_0_gt_0_cases n) as [->|Hn]; [done|].
    destruct (decimal_loop_head (S (N.to_nat (N.size n))) n "") as (a & t & Ht & Ha).
    { split; [done|]. rewrite Nat2N.inj_succ, N2Nat.id, N.pow_succ_r'. pose proof (N.size_gt n). lia. }
    unfold FormatUint in *. rewrite Ht in *. cbn [int_part]. rewrite Ha. unfold digits1. by rewrite Hd. }
  unfold unsigned, then_ at 1. rewrite Hi. cbn. by rewrite append_empty_r.
Qed.

Lemma number_FormatInt z : number (FormatInt z) = Some (FormatInt z, "").
Proof.
  assert (Hu : forall n, number (FormatUint n) = Some (FormatUint n, "")).
  { intros n. pose proof (unsigned_FormatUint n) as H. pose proof (FormatUint_digits n) as Hd.
    destruct (FormatUint n) as [|a s]; [done|]. cbn [number all_bytes] in *.
    destruct (is_byte 45 a) eqn:E; [|done]. apply N.eqb_eq in E. unfold is_digit, byte_in in Hd.
    by rewrite E in Hd. }
  destruct z as [|p|p]; [apply Hu|apply Hu|].
  unfold FormatInt. rewrite str_app_cons, str_app_nil. cbn [number].
  change (is_byte 45 "-"%char) with true. by rewrite unsigned_FormatUint.
Qed.

(** ** Values: writing and reading back *)

Definition number_ok (lit : string) : bool :=
  match number lit with Some (_, "") => true | _ => false end.

(** Every number of the value is one. *)
Fixpoint numbers_ok (v : value) : bool :=
  match v with
  | VNumber lit => number_ok lit
  | VArray l => forallb numbers_ok l
  | VObject l => forallb (fun p => numbers_ok p.2) l
  | _ => true
  end.

(** How deep arrays and objects nest. *)
Fixpoint depth (v : value) : nat :=
  match v with
  | VArray l => S (foldr Nat.max 0%nat (depth <$> l))
  | VObject l => S (foldr Nat.max 0%nat ((fun p => depth p.2) <$> l))
  | _ => 0
  end.

(** The value with the strings a reader sees. *)
Fixpoint coerce (v : value) : value :=
  match v with
  | VString s => VString (coerce_utf8 s)
  | VArray l => VArray (coerce <$> l)
  | VObject l => VObject ((fun p => (coerce_utf8 p.1, coerce p.2)) <$> l)
  | _ => v
  end.

Lemma value_nested_ind (P : value -> Prop) :
  P VNull -> (forall b, P (VBool b)) -> (forall l, P (VNumber l)) -> (forall s, P (VString s)) ->
  (forall l, Forall P l -> P (VArray l)) ->
  (forall l, Forall (fun p => P p.2) l -> P (VObject l)) -> forall v, P v.
Proof.
  intros Hn Hb Hi Hs Ha Ho. fix rec 1. intros [|b|lit|s|l|l]; [apply Hn|apply Hb|apply Hi|apply Hs| |].
  - apply Ha. induction l as [|v l IH]; constructor; [apply rec|exact IH].
  - apply Ho. induction l as [|[k v] l IH]; constructor; [apply rec|exact IH].
Qed.

(** The first character of a value. *)
Definition starts (a : ascii) : bool :=
  negb (is_space a) && negb (is_byte 93 a) && negb (is_byte 125 a).

Lemma number_head lit :
  number_ok lit = true -> exists a t, lit = String a t /\ (is_byte 45 a = true \/ is_digit a = true).
Proof.
  unfold number_ok. destruct lit as [|a t]; [done|]. cbn [number]. exists a, t. split; [done|].
  destruct (is_byte 45 a); [by left|right]. destruct (unsigned _) as [[x y]|] eqn:E; [|done].
  revert E. unfold unsigned, then_ at 1. cbn [int_part].
  destruct (is_byte 48 a) eqn:H0. { apply N.eqb_eq in H0. unfold is_digit, byte_in. by rewrite H0. }
  unfold digits1. cbn [digits]. by destruct (is_digit a).
Qed.

Lemma number_start a :
  is_byte 45 a = true \/ is_digit a = true ->
  starts a = true /\ is_byte 34 a = false /\ is_byte 123 a = false /\ is_byte 91 a = false /\
  is_byte 110 a = false /\ is_byte 116 a = false /\ is_byte 102 a = false.
Proof.
  intros Ha. assert (H : 45 <= byte_of a <= 57).
  { destruct Ha as [Ha%N.eqb_eq|Ha%byte_in_range]; lia. }
  unfold starts, is_space, is_byte. by rewrite !(proj2 (N.eqb_neq _ _)) by lia.
Qed.

Lemma print_head v :
  numbers_ok v = true -> exists a t, print v = String a t /\ starts a = true.
Proof.
  destruct v as [|[]|lit|s|l|l]; try (intros _; eexists _, _; split; reflexivity). cbn [numbers_ok print].
  intros (a & t & -> & Ha%number_start)%number_head. exists a, t. by destruct Ha.
Qed.

Lemma starts_space a : starts a = true -> is_space a = false.
Proof. unfold starts. by destruct (is_space a). Qed.

Lemma skip_start a t : starts a = true -> skip (String a t) = String a t.
Proof. intros Ha%starts_space. cbn. by rewrite Ha. Qed.

(** Two elements are read alike: the text of a value, then a comma or the end. *)
Definition reads (v : value) : Prop := numbers_ok v = true -> forall n d t,
  (depth v <= d)%nat -> (2 * String.length (print v +:+ t) + 1 <= n)%nat -> stops t ->
  read n d (print v +:+ t) = Some (coerce v, t).

Lemma join_cons x y l : join (x :: y :: l) = x +:+ "," +:+ join (y :: l).
Proof. done. Qed.

Lemma read_elems l n d t :
  Forall reads l -> l <> [] -> forallb numbers_ok l = true ->
  (foldr Nat.max 0 (depth <$> l) <= d)%nat ->
  (2 * String.length (join (print <$> l) +:+ "]" +:+ t) + 2 <= n)%nat ->
  elems n d (join (print <$> l) +:+ "]" +:+ t) = Some (coerce <$> l, t).
Proof.
  intros Hl. revert n. induction Hl as [|v l Hv Hl IH]; intros n Hne Hok Hd Hn; [done|]. clear Hne.
  cbn in Hok, Hd. apply andb_true_iff in Hok as [Hok Hoks]. destruct n as [|n]; [lia|].
  destruct l as [|w l].
  - cbn [fmap list_fmap join] in *. cbn [elems]. rewrite (Hv Hok n d) by (lia || done). done.
  - rewrite !fmap_cons, join_cons, !append_assoc in *. cbn [elems]. rewrite (Hv Hok n d) by (lia || done).
    rewrite <- !fmap_cons in *. rewrite str_app_cons, str_app_nil. cbn [skip].
    change (is_space ","%char) with false. cbv iota. change (is_byte 93 ","%char) with false.
    change (is_byte 44 ","%char) with true. cbv iota.
    rewrite IH; [done|done|done|lia|].
    rewrite length_append, str_app_cons, str_app_nil in Hn. cbn [String.length] in Hn. lia.
Qed.

Definition member (p : string * value) : string := quoted p.1 +:+ ":" +:+ print p.2.

Lemma read_members l n d t :
  Forall (fun p => reads p.2) l -> l <> [] -> forallb (fun p => numbers_ok p.2) l = true ->
  (foldr Nat.max 0 ((fun p => depth p.2) <$> l) <= d)%nat ->
  (2 * String.length (join (member <$> l) +:+ "}" +:+ t) + 2 <= n)%nat ->
  members n d (join (member <$> l) +:+ "}" +:+ t)
  = Some ((fun p => (coerce_utf8 p.1, coerce p.2)) <$> l, t).
Proof.
  intros Hl. revert n. induction Hl as [|[k v] l Hv Hl IH]; intros n Hne Hok Hd Hn; [done|]. clear Hne.
  cbn in Hok, Hd, Hv. apply andb_true_iff in Hok as [Hok Hoks]. destruct n as [|n]; [lia|].
  assert (Hk : forall u, member (k, v) +:+ u =
    String dquote (escaped k +:+ String dquote (String ":" (print v +:+ u)))).
  { intros u. unfold member, quoted, text1. cbn [fst snd]. change (byte 34) with dquote.
    by rewrite !append_assoc, !str_app_cons, !append_assoc, !str_app_cons, !str_app_nil. }
  destruct l as [|w l].
  - cbn [fmap list_fmap join] in *. rewrite Hk in *. cbn [members skip].
    change (is_space dquote) with false. cbv iota. change (is_byte 34 dquote) with true. cbv iota.
    rewrite read_quoted. cbn [skip strip]. change (is_space ":"%char) with false. cbv iota.
    change (Ascii.eqb ":" ":") with true. cbv iota. cbn [String.length] in Hn.
    rewrite length_append in Hn. cbn [String.length] in Hn. rewrite (Hv Hok n d) by (lia || done). done.
  - rewrite !fmap_cons, join_cons, !append_assoc in *. rewrite Hk in *. cbn [members skip].
    change (is_space dquote) with false. cbv iota. change (is_byte 34 dquote) with true. cbv iota.
    rewrite read_quoted. cbn [skip strip]. change (is_space ":"%char) with false. cbv iota.
    change (Ascii.eqb ":" ":") with true. cbv iota. cbn [String.length] in Hn.
    rewrite length_append in Hn. cbn [String.length] in Hn. rewrite (Hv Hok n d) by (lia || done).
    rewrite <- !fmap_cons in *. rewrite str_app_cons, str_app_nil. cbn [skip].
    change (is_space ","%char) with false. cbv iota. change (is_byte 125 ","%char) with false.
    change (is_byte 44 ","%char) with true. cbv iota.
    rewrite IH; [done|done|done|lia|].
    rewrite length_append, str_app_cons, str_app_nil in Hn. cbn [String.length] in Hn. lia.
Qed.

Lemma strip_starts p a t : starts a = true -> p = "]" \/ p = "}" -> strip p (String a t) = None.
Proof.
  unfold starts. intros [[_ H1%negb_true_iff]%andb_true_iff H2%negb_true_iff]%andb_true_iff [-> | ->];
    cbn [strip]; [destruct (Ascii.eqb_spec "]" a)|destruct (Ascii.eqb_spec "}" a)]; by subst.
Qed.

Lemma read_print v : reads v.
Proof.
  unfold reads. induction v as [|b|lit|s|l IH|l IH] using value_nested_ind; intros Hok n d t Hd Hn Ht;
    (destruct n as [|n]; [lia|]).
  - done.
  - by destruct b.
  - destruct (number_head lit Hok) as (a & u & Hlit & Ha).
    destruct (number_start a Ha) as (Hst & H34 & H123 & H91 & H110 & H116 & H102).
    cbn [numbers_ok print coerce read] in *. unfold number_ok in Hok.
    destruct (number lit) as [[x r]|] eqn:E; [|done]. destruct r; [|done].
    pose proof (number_extends _ _ _ t E (or_intror Ht)) as He.
    assert (Hx : x = lit).
    { pose proof (unsigned_split) as Hu. revert E. rewrite Hlit. cbn [number].
      destruct (is_byte 45 a); [|by intros ->%Hu; rewrite append_empty_r].
      by intros (y & ->%Hu & ->)%fst_snd_Some; rewrite append_empty_r. }
    subst x. rewrite Hlit in *. rewrite str_app_cons in *. rewrite skip_start by done.
    rewrite H34, H123, H91, H110, H116, H102, He. done.
  - cbn [print coerce read]. unfold quoted. rewrite str_app_cons, append_assoc. cbn [skip].
    change (is_space dquote) with false. cbv iota. change (is_byte 34 dquote) with true. cbv iota.
    unfold text1. rewrite str_app_cons, str_app_nil. change (byte 34) with dquote.
    by rewrite read_quoted.
  - cbn [print coerce numbers_ok depth] in *. rewrite !str_app_cons, !str_app_nil, !append_assoc in *.
    cbn [read skip]. change (is_space "["%char) with false. cbv iota.
    change (is_byte 34 "["%char) with false. change (is_byte 123 "["%char) with false.
    change (is_byte 91 "["%char) with true. cbv iota. destruct d as [|d]; [lia|].
    destruct l as [|v l].
    + cbn [fmap list_fmap join]. rewrite str_app_nil, str_app_cons, str_app_nil. done.
    + destruct (print_head v) as (a & u & Hp & Ha). { cbn in Hok. by apply andb_true_iff in Hok as [? _]. }
      assert (Hno : strip "]" (skip (join (print <$> v :: l) +:+ "]" +:+ t)) = None).
      { rewrite fmap_cons, Hp. destruct (print <$> l); cbn [join];
          rewrite ?append_assoc, !str_app_cons, skip_start by done; apply strip_starts; auto. }
      rewrite Hno, read_elems; [done|done|done|done|lia|]. cbn [String.length] in Hn. lia.
  - cbn [print coerce numbers_ok depth] in *. rewrite !str_app_cons, !str_app_nil, !append_assoc in *.
    cbn [read skip]. change (is_space "{"%char) with false. cbv iota.
    change (is_byte 34 "{"%char) with false. change (is_byte 123 "{"%char) with true. cbv iota.
    destruct d as [|d]; [lia|]. fold member in *. change (fun p => quoted p.1 +:+ ":" +:+ print p.2) with member in *.
    destruct l as [|[k v] l].
    + cbn [fmap list_fmap join]. rewrite str_app_nil, str_app_cons, str_app_nil. done.
    + assert (Hno : strip "}" (skip (join (member <$> (k, v) :: l) +:+ "}" +:+ t)) = None).
      { rewrite fmap_cons. unfold member at 1, quoted at 1. destruct (member <$> l); cbn [join];
          rewrite ?append_assoc, !str_app_cons, skip_start by done; apply strip_starts; auto. }
      rewrite Hno, read_members; [done|done|done|done|lia|]. cbn [String.length] in Hn. lia.
Qed.

Lemma print_decode v :
  numbers_ok v = true -> (depth v <= maxNestingDepth)%nat -> Decode (Encode v) = Some (coerce v).
Proof.
  intros Hok Hd. unfold Decode, Encode. rewrite (read_print v Hok _ maxNestingDepth (text1 10)); [done|done| |done].
  unfold fuel_for. lia.
Qed.

(** Encoding/json, writing then reading: the text [Encode] makes of a value that nests at most
    10000 deep is read back by [Decode] as the same value, in which invalid bytes of strings
    have become U+FFFD; the escapes, the numbers and the punctuation are all undone. *)
Theorem Decode_Encode v :
  numbers_ok v = true -> (depth v <= maxNestingDepth)%nat -> Decode (Encode v) = Some (coerce v).
Proof. apply print_decode. Qed.

(** Termination of the reader: its recursion is bounded by a fuel of two calls per character,
    and no text needs more: any larger fuel reads the same, at any nesting limit. *)
Theorem read_fuel_enough n d s : (fuel_for s <= n)%nat -> read n d s = read (fuel_for s) d s.
Proof. intros Hn. apply read_more; [done|]. unfold fuel_for. lia. Qed.
