(* ===== verification/Urls.v ===== *)
(** * Query strings (net/url)

    [URL.Query] splits the raw query at the ampersands and each part at its first equals sign,
    undoes the escapes of both sides and leaves out what is malformed; [Values.Get] is the first
    value of a name.  [encode] is [Values.Encode] on a list: what a client sends. *)
From S2P Require Import Prelude GoStrings Encoding JsonText.
From Stdlib Require Import Ascii.
Local Open Scope N_scope.

(** ** Escapes *)

Definition unreserved (a : ascii) : bool :=
  byte_in 97 122 a || byte_in 65 90 a || byte_in 48 57 a ||
  is_byte 45 a || is_byte 95 a || is_byte 46 a || is_byte 126 a.

Definition upper_hex (n : N) : ascii := byte (if n <? 10 then 48 + n else 55 + n).

(** [url.QueryEscape] *)
Fixpoint QueryEscape (s : string) : string :=
  match s with
  | EmptyString => ""
  | String a s' =>
      if unreserved a then String a (QueryEscape s')
      else if is_byte 32 a then String "+" (QueryEscape s')
      else String "%" (String (upper_hex (byte_of a / 16)) (String (upper_hex (byte_of a mod 16))
             (QueryEscape s')))
  end.

(** [url.QueryUnescape], [None] on a malformed escape. *)
Fixpoint QueryUnescape (s : string) : option string :=
  match s with
  | EmptyString => Some ""
  | String a s1 =>
      if is_byte 37 a then
        match s1 with
        | String h (String l s3) =>
            match hex_val h, hex_val l with
            | Some x, Some y => String (byte (x * 16 + y)) <$> QueryUnescape s3
            | _, _ => None
            end
        | _ => None
        end
      else String (if is_byte 43 a then " "%char else a) <$> QueryUnescape s1
  end.

(** ** Queries *)

(** [strings.Cut] at the first byte [n]; the text itself and nothing when it has none. *)
Fixpoint Cut (n : N) (s : string) : string * string :=
  match s with
  | EmptyString => ("", "")
  | String a s' => if is_byte n a then ("", s') else let p := Cut n s' in (String a p.1, p.2)
  end.

(** One part of a query. *)
Definition query_part (s : string) : option (string * string) :=
  if String.eqb s "" || has_byte (is_byte 59) s then None
  else let p := Cut 61 s in
       match QueryUnescape p.1, QueryUnescape p.2 with
       | Some k, Some v => Some (k, v)
       | _, _ => None
       end.

(** [URL.Query]: nothing when there are more parts than net/url accepts. *)
Definition maxParams : nat := Nat.mul 100 100.
Definition ParseQuery (raw : string) : list (string * string) :=
  let parts := split_at 38 raw in
  if (maxParams <? length parts)%nat then [] else omap query_part parts.

(** [Values.Get] *)
Definition Get (l : list (string * string)) (name : string) : string :=
  default "" (snd <$> head (filter (fun p => p.1 = name) l)).

(** What a client sends. *)
Fixpoint encode (l : list (string * string)) : string :=
  match l with
  | [] => ""
  | [(k, v)] => QueryEscape k +:+ "=" +:+ QueryEscape v
  | (k, v) :: l' => QueryEscape k +:+ "=" +:+ QueryEscape v +:+ "&" +:+ encode l'
  end.

(** ** What is sent is read *)

(** A property of bytes, checked on all of them. *)
Lemma all_ascii (f : ascii -> bool) :
  forallb f (List.map ascii_of_nat (seq 0 256)) = true -> forall a, f a = true.
Proof.
  intros Hall a. rewrite forallb_forall in Hall. apply Hall.
  apply in_map_iff. exists (nat_of_ascii a). split; [apply ascii_nat_embedding|].
  apply in_seq. pose proof (nat_ascii_bounded a). lia.
Qed.

(** The bytes of an escaped text are neither of the separators. *)
Definition query_char (a : ascii) : bool :=
  negb (is_byte 38 a) && negb (is_byte 59 a) && negb (is_byte 61 a).

Lemma unreserved_char a :
  implb (unreserved a) (query_char a && negb (is_byte 37 a) && negb (is_byte 43 a)) = true.
Proof. revert a. apply all_ascii. by vm_compute. Qed.

Lemma upper_hex_char a :
  query_char (upper_hex (byte_of a / 16)) && query_char (upper_hex (byte_of a mod 16)) = true.
Proof.
  revert a. apply (all_ascii (fun a =>
    query_char (upper_hex (byte_of a / 16)) && query_char (upper_hex (byte_of a mod 16)))).
  by vm_compute.
Qed.

Lemma upper_hex_val a :
  bool_decide (hex_val (upper_hex (byte_of a / 16)) = Some (byte_of a / 16) /\
               hex_val (upper_hex (byte_of a mod 16)) = Some (byte_of a mod 16)) = true.
Proof.
  revert a. apply (all_ascii (fun a =>
    bool_decide (hex_val (upper_hex (byte_of a / 16)) = Some (byte_of a / 16) /\
                 hex_val (upper_hex (byte_of a mod 16)) = Some (byte_of a mod 16)))).
  by vm_compute.
Qed.

Lemma QueryEscape_chars s : all_bytes query_char (QueryEscape s) = true.
Proof.
  induction s as [|a s IH]; [done|]. cbn [QueryEscape]. pose proof (unreserved_char a) as Hu.
  pose proof (upper_hex_char a) as [Hh Hl]%andb_true_iff.
  destruct (unreserved a).
  - cbn [implb] in Hu. apply andb_true_iff in Hu as [[Hu _]%andb_true_iff _].
    cbn [all_bytes]. by rewrite Hu, IH.
  - destruct (is_byte 32 a); cbn [all_bytes]; [by rewrite IH|]. by rewrite Hh, Hl, IH.
Qed.

Lemma QueryUnescape_Escape s : QueryUnescape (QueryEscape s) = Some s.
Proof.
  induction s as [|a s IH]; [done|]. cbn [QueryEscape]. pose proof (unreserved_char a) as Hu.
  destruct (unreserved a).
  - cbn [implb] in Hu. apply andb_true_iff in Hu as [[_ H1%negb_true_iff]%andb_true_iff H2%negb_true_iff].
    cbn [QueryUnescape]. by rewrite H1, H2, IH.
  - destruct (is_byte 32 a) eqn:H32.
    + cbn [QueryUnescape]. rewrite IH. cbn. do 2 f_equal. apply N.eqb_eq in H32. unfold byte_of in H32.
      by rewrite <- (ascii_N_embedding a), H32.
    + pose proof (upper_hex_val a) as [Hx Hy]%bool_decide_eq_true.
      cbn [QueryUnescape]. change (is_byte 37 "%"%char) with true. cbv iota.
      rewrite Hx, Hy, IH. cbn. do 2 f_equal.
      rewrite N.mul_comm, <- N.div_mod by done. apply ascii_N_embedding.
Qed.

Lemma Cut_app k v :
  all_bytes (fun a => negb (is_byte 61 a)) k = true -> Cut 61 (k +:+ String "=" v) = (k, v).
Proof.
  induction k as [|a k IH]; [done|]. rewrite str_app_cons. cbn [Cut all_bytes].
  intros [Ha%negb_true_iff Hk]%andb_true_iff. rewrite Ha, (IH Hk). done.
Qed.

Lemma no_byte n s : all_bytes (fun a => negb (is_byte n a)) s = true -> has_byte (is_byte n) s = false.
Proof.
  induction s as [|a s IH]; [done|]. cbn. intros [Ha%negb_true_iff Hs]%andb_true_iff. by rewrite Ha, (IH Hs).
Qed.

Lemma QueryEscape_no n s :
  n = 38 \/ n = 59 \/ n = 61 -> all_bytes (fun a => negb (is_byte n a)) (QueryEscape s) = true.
Proof.
  intros Hn. eapply all_bytes_impl; [|apply QueryEscape_chars]. unfold query_char.
  intros a [[H1 H2]%andb_true_iff H3]%andb_true_iff. by destruct Hn as [->|[->| ->]].
Qed.

Definition part (p : string * string) : string := QueryEscape p.1 +:+ "=" +:+ QueryEscape p.2.

Lemma part_no n p : n = 38 \/ n = 59 -> all_bytes (fun a => negb (is_byte n a)) (part p) = true.
Proof.
  intros Hn. unfold part. rewrite !all_bytes_app, !QueryEscape_no by naive_solver.
  by destruct Hn as [->| ->].
Qed.

Lemma query_part_part p : query_part (part p) = Some p.
Proof.
  unfold query_part. rewrite no_byte by (apply part_no; auto).
  assert (Hne : String.eqb (part p) "" = false).
  { unfold part. by destruct (QueryEscape p.1). }
  rewrite Hne. cbn [orb]. unfold part. rewrite str_app_cons, str_app_nil.
  rewrite Cut_app by (apply QueryEscape_no; auto). cbn [fst snd].
  rewrite !QueryUnescape_Escape. by destruct p.
Qed.

Lemma encode_parts l : l <> [] -> split_at 38 (encode l) = part <$> l.
Proof.
  induction l as [|[k v] l IH]; [done|]. intros _. destruct l as [|q l].
  - cbn [encode fmap list_fmap]. change (_ +:+ _) with (part (k, v)).
    apply split_at_word, part_no. auto.
  - change (encode ((k, v) :: q :: l)) with (QueryEscape k +:+ "=" +:+ QueryEscape v +:+ "&" +:+ encode (q :: l)).
    assert (He : QueryEscape k +:+ "=" +:+ QueryEscape v +:+ "&" +:+ encode (q :: l)
      = part (k, v) +:+ String "&" (encode (q :: l))).
    { unfold part. by rewrite !append_assoc, !str_app_cons, !str_app_nil. }
    rewrite He, split_at_app by (try done; apply part_no; auto). rewrite IH by done. done.
Qed.

(** Every value a client sends is the value the server reads. *)
Lemma ParseQuery_encode l : l <> [] -> (length l <= maxParams)%nat -> ParseQuery (encode l) = l.
Proof.
  intros Hl Hn. unfold ParseQuery. rewrite encode_parts, length_fmap by done.
  rewrite (proj2 (Nat.ltb_ge _ _)) by done. clear Hl Hn.
  induction l as [|p l IH]; [done|]. cbn. rewrite query_part_part. by f_equal.
Qed.

Example query_ex :
  Get (ParseQuery "a=1;b&limit=%31%30&limit=20&=x&bad=%zz&q=a+b%2Bc") "limit" = "10" /\
  Get (ParseQuery "a=1;b&limit=%31%30&limit=20&=x&bad=%zz&q=a+b%2Bc") "q" = "a b+c" /\
  Get (ParseQuery "a=1;b&limit=%31%30&limit=20&=x&bad=%zz&q=a+b%2Bc") "bad" = "".
Proof. by vm_compute. Qed.
