(* ===== verification/GoTime.v ===== *)
(** * Times as text ([time.Time.MarshalJSON])

    encoding/json writes a time as RFC 3339 with the fraction of a second its value needs, in the
    zone of the process.  An instant is a number of microseconds since 1970 in UTC; the zone's
    offset at an instant, in seconds, comes from the system's database and is a parameter. *)
From S2P Require Import Prelude GoStrings Encoding JsonText.
Local Open Scope Z_scope.

Class Zone := zone_offset : time -> Z.

(** ** The civil calendar *)

Record date := Date { year : Z; month : Z; day : Z }.

(** The date of a day counted from 1970-01-01, by eras of 400 years that start on March 1. *)
Definition civil (z : Z) : date :=
  let z := z + 719468 in
  let era := z / 146097 in
  let doe := z mod 146097 in
  let yoe := (doe - doe / 1460 + doe / 36524 - doe / 146096) / 365 in
  let doy := doe - (365 * yoe + yoe / 4 - yoe / 100) in
  let mp := (5 * doy + 2) / 153 in
  let m := if mp <? 10 then mp + 3 else mp - 9 in
  Date (yoe + era * 400 + (if m <=? 2 then 1 else 0)) m (doy - (153 * mp + 2) / 5 + 1).

(** The Gregorian calendar, as its rules are usually stated. *)
Definition leap (y : Z) : bool :=
  (y mod 4 =? 0) && (negb (y mod 100 =? 0) || (y mod 400 =? 0)).
(** The days of a month of a leap year, or of another year. *)
Definition month_days (lp : bool) (m : Z) : Z :=
  if m =? 2 then (if lp then 29 else 28)
  else if (m =? 4) || (m =? 6) || (m =? 9) || (m =? 11) then 30 else 31.
Definition valid_date (d : date) : bool :=
  (1 <=? month d) && (month d <=? 12) && (1 <=? day d) && (day d <=? month_days (leap (year d)) (month d)).

(** Days before a year, counted from year 1: 365 each, and one for each leap year. *)
Definition before_year (y : Z) : Z := 365 * (y - 1) + (y - 1) / 4 - (y - 1) / 100 + (y - 1) / 400.
Definition before_month (lp : bool) (m : Z) : Z :=
  foldr Z.add 0 ((fun k => month_days lp (Z.of_nat k)) <$> seq 1 (Z.to_nat (m - 1))).
(** The day of a date, counted from 1970-01-01. *)
Definition day_number (d : date) : Z :=
  before_year (year d) + before_month (leap (year d)) (month d) + (day d - 1) - before_year 1970.

(** ** RFC 3339 *)

(** [n] with [w] digits. *)
Fixpoint pad (w : nat) (n : Z) : string :=
  match w with
  | O => ""
  | S w => pad w (n / 10) +:+ String (byte (48 + Z.to_N (n mod 10))) ""
  end.

(** The fraction of a second, without trailing zeros. *)
Fixpoint fraction_digits (w : nat) (n : Z) : string :=
  match w with
  | O => ""
  | S w' => if n mod 10 =? 0 then fraction_digits w' (n / 10) else pad w n
  end.
Definition fraction_text (micros : Z) : string :=
  if micros =? 0 then "" else "." +:+ fraction_digits 6 micros.

Definition offset_text (off : Z) : string :=
  if off =? 0 then "Z"
  else (if off <? 0 then "-" else "+") +:+ pad 2 (Z.abs off / 3600) +:+ ":"
       +:+ pad 2 (Z.abs off / 60 mod 60).

(** The text of an instant, [None] when its year is not 0 to 9999. *)
Definition time_text `{Zone0 : Zone} (t : time) : option string :=
  let off := zone_offset t in
  let local := t + off * 1000000 in
  let secs := local / 1000000 in
  let d := civil (secs / 86400) in
  let s := secs mod 86400 in
  if (0 <=? year d) && (year d <=? 9999)
  then Some (pad 4 (year d) +:+ "-" +:+ pad 2 (month d) +:+ "-" +:+ pad 2 (day d) +:+ "T"
             +:+ pad 2 (s / 3600) +:+ ":" +:+ pad 2 (s / 60 mod 60) +:+ ":" +:+ pad 2 (s mod 60)
             +:+ fraction_text (local mod 1000000) +:+ offset_text off)
  else None.

(** ** The calendar is right *)

#[local] Ltac Zify.zify_post_hook ::= Z.to_euclidean_division_equations.

(** The year of an era by its day: the days of the years before it do not exceed the day, and
    the 366th day exists only before the end of February of a leap year. *)
Lemma era_year doe yoe :
  0 <= doe < 146097 -> yoe = (doe - doe / 1460 + doe / 36524 - doe / 146096) / 365 ->
  let doy := doe - (365 * yoe + yoe / 4 - yoe / 100) in
  0 <= yoe < 400 /\ 0 <= doy <= 365 /\
  (doy = 365 -> (yoe + 1) mod 4 = 0 /\ ((yoe + 1) mod 100 <> 0 \/ yoe + 1 = 400)).
Proof.
  intros H Hy doy. subst doy.
  destruct (Z.eq_dec doe 146096) as [->|Hne].
  { vm_compute in Hy. subst. vm_compute. intuition congruence. }
  assert (H0 : doe / 146096 = 0) by (apply Z.div_small; lia). rewrite H0 in Hy. clear H0.
  assert (Hc : exists c, c = doe / 36524 /\ 0 <= c < 4) by (eexists; split; [reflexivity|lia]).
  destruct Hc as (c & Hc & Hc4). rewrite <- Hc in Hy.
  assert (Hq : exists q, q = doe / 1460) by eauto. destruct Hq as (q & Hq). rewrite <- Hq in *.
  assert (Hcent : 100 * c <= yoe < 100 * c + 100) by lia.
  assert (Hyc : yoe / 100 = c) by lia. rewrite Hyc.
  assert (Hk : exists k, k = yoe / 4) by eauto. destruct Hk as (k & Hk). rewrite <- Hk.
  assert (Hb : 0 <= doe - (365 * yoe + k - c) <= 365) by lia.
  split; [lia|]. split; [exact Hb|]. intros He. lia.
Qed.

Lemma leap_shift y e : leap (y + 400 * e) = leap y.
Proof.
  unfold leap.
  assert ((y + 400 * e) mod 4 = y mod 4) as -> by lia.
  assert ((y + 400 * e) mod 100 = y mod 100) as -> by lia.
  by assert ((y + 400 * e) mod 400 = y mod 400) as -> by lia.
Qed.

(** Leap years are the years that are one day longer. *)
Lemma before_year_next y : before_year (y + 1) = before_year y + 365 + (if leap y then 1 else 0).
Proof.
  unfold before_year, leap. replace (y + 1 - 1) with y by lia.
  destruct (Z.eqb_spec (y mod 4) 0), (Z.eqb_spec (y mod 100) 0), (Z.eqb_spec (y mod 400) 0);
    cbn [andb orb negb]; lia.
Qed.

Lemma before_year_era y e : before_year (y + 400 * e) = before_year y + 146097 * e.
Proof. unfold before_year. lia. Qed.

Lemma civil_era z :
  exists e yoe doy, let mp := (5 * doy + 2) / 153 in let early := mp <? 10 in
  civil z = Date (yoe + e * 400 + (if early then 0 else 1)) (if early then mp + 3 else mp - 9)
                 (doy - (153 * mp + 2) / 5 + 1) /\
  z = e * 146097 + 365 * yoe + yoe / 4 - yoe / 100 + doy - 719468 /\
  0 <= yoe < 400 /\ 0 <= doy <= 365 /\ (doy = 365 -> leap (yoe + 1) = true).
Proof.
  destruct (era_year ((z + 719468) mod 146097) _ ltac:(lia) eq_refl) as (Hy & Hd & Hl).
  unfold civil. cbv zeta. remember ((z + 719468) mod 146097) as doe eqn:Hdoe.
  remember ((doe - doe / 1460 + doe / 36524 - doe / 146096) / 365) as yoe eqn:Hyoe. clear Hyoe.
  remember (doe - (365 * yoe + yoe / 4 - yoe / 100)) as doy eqn:Hdoy.
  exists ((z + 719468) / 146097), yoe, doy.
  split; [|split; [|split; [exact Hy|split; [exact Hd|]]]].
  - f_equal. destruct (Z.ltb_spec ((5 * doy + 2) / 153) 10) as [H|H], (Z.leb_spec 3 0); try lia;
      match goal with |- context [?m <=? 2] => destruct (Z.leb_spec m 2) end; lia.
  - lia.
  - intros [H4 H]%Hl. unfold leap. rewrite H4. cbn [Z.eqb andb].
    destruct H as [H| ->]; [by apply Z.eqb_neq in H as ->|done].
Qed.

(** The parts of a goal that mention no variable, computed. *)
#[local] Ltac literal_bool b := match b with true => b | false => b end.
#[local] Ltac closed :=
  repeat match goal with
  | |- context [?a <? 10] => let v := eval vm_compute in (a <? 10) in change (a <? 10) with v; cbv iota
  | |- context [(153 * ?a + 2) / 5] =>
      let t := constr:((153 * a + 2) / 5) in let v := eval vm_compute in t in change t with v
  | |- context [month_days ?b ?m] =>
      let t := constr:(month_days b m) in let _ := literal_bool b in let v := eval vm_compute in t in change t with v
  | |- context [before_month ?b ?m] =>
      let t := constr:(before_month b m) in let _ := literal_bool b in let v := eval vm_compute in t in change t with v
  end.

(** The months of a year that starts on March 1. *)
Lemma month_table Y doy :
  0 <= doy <= 365 -> (doy = 365 -> leap (Y + 1) = true) ->
  let mp := (5 * doy + 2) / 153 in let early := mp <? 10 in
  let d := Date (Y + (if early then 0 else 1)) (if early then mp + 3 else mp - 9)
                (doy - (153 * mp + 2) / 5 + 1) in
  valid_date d = true /\ day_number d = before_year (Y + 1) + doy - 306 - before_year 1970.
Proof.
  intros Hd Hl mp.
  assert (Hmp : exists k, mp = Z.of_nat k /\ (k < 12)%nat) by (exists (Z.to_nat mp); subst mp; lia).
  assert (Hlo : (153 * mp + 2) / 5 <= doy < (153 * (mp + 1) + 2) / 5) by (subst mp; lia).
  clearbody mp. destruct Hmp as (k & -> & Hk12). cbv zeta.
  destruct k as [|[|[|[|[|[|[|[|[|[|[|[|k]]]]]]]]]]]]; [..|lia].
  all: unfold valid_date, day_number; cbn [year month day]; closed; rewrite ?Z.add_0_r.
  all: rewrite ?(before_year_next Y).
  1-10: clear Hl; destruct (leap Y); closed; rewrite !andb_true_iff, !Z.leb_le; lia.
  all: destruct (leap (Y + 1)); closed; rewrite !andb_true_iff, !Z.leb_le; try lia.
Qed.

(** The dates the program writes are right: the date of the n-th day since 1970-01-01, before or
    after, is a date of the Gregorian calendar, and it lies n days from 1970-01-01 when the days
    of the years and months before it are counted, leap years included. *)
Theorem civil_correct z : valid_date (civil z) = true /\ day_number (civil z) = z.
Proof.
  destruct (civil_era z) as (e & y & doy & -> & Hz & Hy & Hd & Hl).
  destruct (month_table (y + 400 * e) doy Hd) as [Hv Hn].
  { intros ->. replace (y + 400 * e + 1) with (y + 1 + 400 * e) by lia. rewrite leap_shift. auto. }
  replace (y + e * 400) with (y + 400 * e) by lia. split; [exact Hv|]. rewrite Hn.
  replace (y + 400 * e + 1) with (y + 1 + 400 * e) by lia. rewrite before_year_era, Hz.
  unfold before_year. change (365 * (1970 - 1)) with 718685. change ((1970 - 1) / 4) with 492.
  change ((1970 - 1) / 100) with 19. change ((1970 - 1) / 400) with 4. lia.
Qed.

Example time_text_utc :
  time_text (Zone0 := fun _ => 0) 1709210096120000 = Some "2024-02-29T12:34:56.12Z".
Proof. reflexivity. Qed.
Example time_text_offset :
  time_text (Zone0 := fun _ => -12600) 0 = Some "1969-12-31T20:30:00-03:30".
Proof. reflexivity. Qed.
