(* ===== verification/Sha256.v ===== *)
(** * [crypto/sha256]: [Sum256] (FIPS 180-4), on 32-bit words kept as [N] *)
From S2P Require Import Prelude GoStrings Encoding.
From Stdlib Require Import Ascii.

Local Open Scope N_scope.

Definition wadd (a b : N) : N := (a + b) mod 2 ^ 32.
Definition rotr (k a : N) : N := N.lor (N.shiftr a k) (N.shiftl a (32 - k) mod 2 ^ 32).

Definition Sigma0 a := N.lxor (rotr 2 a) (N.lxor (rotr 13 a) (rotr 22 a)).
Definition Sigma1 a := N.lxor (rotr 6 a) (N.lxor (rotr 11 a) (rotr 25 a)).
Definition sigma0 a := N.lxor (rotr 7 a) (N.lxor (rotr 18 a) (N.shiftr a 3)).
Definition sigma1 a := N.lxor (rotr 17 a) (N.lxor (rotr 19 a) (N.shiftr a 10)).
Definition Ch x y z := N.lxor (N.land x y) (N.land (N.lxor x (2 ^ 32 - 1)) z).
Definition Maj x y z := N.lxor (N.land x y) (N.lxor (N.land x z) (N.land y z)).

(** The constants are the first 32 bits of the fractional parts of roots of primes: cube roots
    of the first 64 for the rounds, square roots of the first 8 for the initial state. *)
Definition is_prime (n : nat) : bool :=
  forallb (fun d => negb (Nat.modulo n d =? 0)%nat) (seq 2 (n - 2)).
Definition primes : list N := N.of_nat <$> List.filter is_prime (seq 2 310).

(** The integer cube root, bit by bit from [2 ^ k] down. *)
Fixpoint cbrt (k : nat) (r n : N) : N :=
  let r' := r + 2 ^ N.of_nat k in
  let r := if r' ^ 3 <=? n then r' else r in
  match k with O => r | S k' => cbrt k' r n end.

Definition K : list N := Eval vm_compute in
  (fun p => cbrt 35 0 (p * 2 ^ 96) mod 2 ^ 32) <$> primes.

Record state := State { ha : N; hb : N; hc : N; hd : N; he : N; hf : N; hg : N; hh : N }.
Definition root_word (i : nat) : N := N.sqrt (nth i primes 0 * 2 ^ 64) mod 2 ^ 32.
Definition H0 : state := Eval vm_compute in
  State (root_word 0) (root_word 1) (root_word 2) (root_word 3)
    (root_word 4) (root_word 5) (root_word 6) (root_word 7).

(** The last sixteen words of the message schedule, newest first, extended by one. *)
Definition next_word (w : list N) : N :=
  wadd (wadd (sigma1 (nth 1 w 0)) (nth 6 w 0)) (wadd (sigma0 (nth 14 w 0)) (nth 15 w 0)).

Definition round (s : state) (k w : N) : state :=
  let t1 := wadd (wadd (wadd (hh s) (Sigma1 (he s))) (Ch (he s) (hf s) (hg s))) (wadd k w) in
  let t2 := wadd (Sigma0 (ha s)) (Maj (ha s) (hb s) (hc s)) in
  State (wadd t1 t2) (ha s) (hb s) (hc s) (wadd (hd s) t1) (he s) (hf s) (hg s).

(** [block] holds the words still to come, [w] those already used. *)
Fixpoint rounds (ks block w : list N) (s : state) : state :=
  match ks with
  | [] => s
  | k :: ks' =>
      match block with
      | x :: block' => rounds ks' block' (x :: w) (round s k x)
      | [] => let x := next_word w in rounds ks' [] (x :: take 15 w) (round s k x)
      end
  end.

Definition compress (s : state) (block : list N) : state :=
  let r := rounds K block [] s in
  State (wadd (ha s) (ha r)) (wadd (hb s) (hb r)) (wadd (hc s) (hc r)) (wadd (hd s) (hd r))
    (wadd (he s) (he r)) (wadd (hf s) (hf r)) (wadd (hg s) (hg r)) (wadd (hh s) (hh r)).

Fixpoint be_words (l : list N) : list N :=
  match l with
  | a :: b :: c :: d :: l' => ((a * 256 + b) * 256 + c) * 256 + d :: be_words l'
  | _ => []
  end.

(** The big-endian bytes of a number, [n] of them. *)
Fixpoint be_bytes (n : nat) (x : N) : list N :=
  match n with O => [] | S n' => N.shiftr x (8 * N.of_nat n') mod 256 :: be_bytes n' x end.

(** The padded message: 0x80, zeroes, the bit length. *)
Definition pad (l : list N) : list N :=
  let n := length l in
  l ++ 128 :: replicate ((119 - n mod 64) mod 64) 0 ++ be_bytes 8 (8 * N.of_nat n).

Fixpoint blocks (fuel : nat) (ws : list N) (s : state) : state :=
  match fuel with
  | O => s
  | S f => match ws with
           | [] => s
           | _ => blocks f (drop 16 ws) (compress s (take 16 ws))
           end
  end.

Definition Sum256 (msg : string) : string :=
  let ws := be_words (pad (byte_of <$> bytes_of msg)) in
  let s := blocks (S (length ws)) ws H0 in
  string_of (byte <$> concat (be_bytes 4 <$>
    [ha s; hb s; hc s; hd s; he s; hf s; hg s; hh s])).

Example K_rounds : length K = 64%nat /\ nth 63 K 0 = 0xc67178f2.
Proof. by vm_compute. Qed.
Example Sum256_abc :
  hex_EncodeToString (Sum256 "abc")
  = "ba7816bf8f01cfea414140de5dae2223b00361a396177a9cb410ff61f20015ad".
Proof. by vm_compute. Qed.
Example Sum256_empty :
  hex_EncodeToString (Sum256 "")
  = "e3b0c44298fc1c149afbf4c8996fb92427ae41e4649b934ca495991b7852b855".
Proof. by vm_compute. Qed.
Example Sum256_two_blocks :
  hex_EncodeToString (Sum256 "abcdbcdecdefdefgefghfghighijhijkijkljklmklmnlmnomnopnopq")
  = "248d6a61d20638b8e5c026930c3e6039a33ce45964ff2167f6ecedd419db06c1".
Proof. by vm_compute. Qed.
