(* ===== verification/Password.v ===== *)
(** * Password hashing (internal/auth/password.go)

    The key derivation [argon2.IDKey] is a parameter, with its documented contract as a class
    of laws; the encoded form, its parser and the comparison are the program's own and are
    modelled, [fmt.Sscanf] included. *)
From S2P Require Import Prelude GoStrings GoErrors Prog Concrete Encoding.
From Stdlib Require Import Ascii.
Local Open Scope mc_scope.
Local Open Scope N_scope.

(** [IDKey password salt time memory threads keyLen]; [None] is a panic. *)
Class Argon2 := {
  argon2_Version : N;
  IDKey : string -> string -> N -> N -> N -> N -> option string }.

(** Documented: with at least one pass and one thread a key of the requested length. *)
Class Argon2Laws `{Argon2} : Prop := {
  argon2_Version_range : argon2_Version < 2 ^ 63;
  IDKey_length pw salt t m p n : 1 <= t -> 1 <= p ->
    exists key, IDKey pw salt t m p n = Some key /\ String.length key = N.to_nat n }.

Module Params.
Record t := Mk { Memory : N; Iterations : N; Parallelism : N; SaltLength : N; KeyLength : N }.
End Params.

(** DefaultParams are OWASP-recommended settings for argon2id. *)
Definition DefaultParams : Params.t := Params.Mk (64 * 1024) 3 2 16 32.

(** ** [fmt.Sscanf] with literals and [%d] *)

(** [SkipSpace]: [None] at a newline, which the format does not have. *)
Fixpoint skip_chunks (l : list chunk) : option (list chunk) :=
  match l with
  | [] => Some []
  | c :: l' => if c_rune c =? 10 then None
               else if IsSpace (c_rune c) then skip_chunks l' else Some l
  end.
Definition SkipSpace (s : string) : option string := concat_chunks <$> skip_chunks (chunks s).

Fixpoint span_digits (s : string) : string * string :=
  match s with
  | String a s' => if is_digit a then let (ds, r) := span_digits s' in (String a ds, r)
                   else ("", s)
  | EmptyString => ("", "")
  end.

(** [%d] into an unsigned variable of [bits] bits: the value and the unread input. *)
Definition scan_uint (bits : N) (s : string) : option (N * string) :=
  match SkipSpace s with
  | None => None
  | Some s =>
    let (ds, r) := span_digits s in
    if String.eqb ds "" then None else
    match digits_val 0 ds with
    | Some z => if (z <? 2 ^ Z.of_N bits)%Z then Some (Z.to_N z, r) else None
    | None => None
    end
  end.

(** [%d] into an [int]: a sign is accepted. *)
Definition scan_int (s : string) : option (Z * string) :=
  match SkipSpace s with
  | None => None
  | Some s =>
    let '(neg, s) := match s with
                     | String a s' => if is_byte 45 a then (true, s')
                                      else if is_byte 43 a then (false, s') else (false, s)
                     | EmptyString => (false, s)
                     end in
    let (ds, r) := span_digits s in
    if String.eqb ds "" then None else
    match digits_val 0 ds with
    | Some z => let z := if neg then Z.opp z else z in
                if int64_ok z then Some (z, r) else None
    | None => None
    end
  end.

(** A literal of the format. *)
Fixpoint scan_lit (lit s : string) : option string :=
  match lit, s with
  | EmptyString, _ => Some s
  | String a lit', String b s' => if Ascii.eqb a b then scan_lit lit' s' else None
  | String _ _, EmptyString => None
  end.

(** [fmt.Sscanf(s, "v=%d", &version)] *)
Definition scan_version (s : string) : option Z :=
  s ← scan_lit "v=" s; fst <$> scan_int s.

(** [fmt.Sscanf(s, "m=%d,t=%d,p=%d", &memory, &iterations, &parallelism)] *)
Definition scan_params (s : string) : option (N * N * N) :=
  s ← scan_lit "m=" s; '(m, s) ← scan_uint 32 s;
  s ← scan_lit ",t=" s; '(t, s) ← scan_uint 32 s;
  s ← scan_lit ",p=" s; '(p, _) ← scan_uint 8 s;
  Some (m, t, p).

(** ** Hash and Verify *)

Section hasher.
Context `{Argon2}.

(** A panic of the key derivation; the router's recoverer answers 500. *)
Definition ErrPanic : error := Plain "panic".

Definition params_part (h : Params.t) : string :=
  "m=" +:+ FormatUint (Params.Memory h) +:+ ",t=" +:+ FormatUint (Params.Iterations h)
  +:+ ",p=" +:+ FormatUint (Params.Parallelism h).

Definition encode_hash (h : Params.t) (salt key : string) : string :=
  "$argon2id$v=" +:+ FormatUint argon2_Version +:+ "$" +:+ params_part h +:+ "$" +:+
  EncodeToString StdEncoding salt +:+ "$" +:+ EncodeToString StdEncoding key.

(** Hash derives an argon2id encoded hash from password. *)
Definition Hash (h : Params.t) (password : string) : prog (result string) :=
  salt <- rand_Read (N.to_nat (Params.SaltLength h)) ;;
  match salt with
  | None => fail (Wrapf "generate salt: " (Plain "rand") "")
  | Some salt =>
    match IDKey password salt (Params.Iterations h) (Params.Memory h) (Params.Parallelism h)
            (Params.KeyLength h) with
    | None => fail ErrPanic
    | Some key => ret (encode_hash h salt key)
    end
  end.

(** Verify checks whether password matches the stored argon2id hash; [None] is a panic. *)
Definition Verify (password encoded : string) : option (result bool) :=
  match split_at 36 encoded with
  | [_; p1; p2; p3; p4; p5] =>
    if negb (String.eqb p1 "argon2id") then Some (Ok false) else
    match scan_version p2 with
    | None => Some (Err (Wrapf "parse version: " (Plain "scan") ""))
    | Some version =>
    if negb (version =? Z.of_N argon2_Version)%Z
    then Some (Err (Plain "unsupported argon2 version")) else
    match scan_params p3 with
    | None => Some (Err (Wrapf "parse parameters: " (Plain "scan") ""))
    | Some (memory, iterations, parallelism) =>
    match DecodeString StdEncoding p4 with
    | None => Some (Err (Wrapf "decode salt: " (Plain "base64") ""))
    | Some salt =>
    match DecodeString StdEncoding p5 with
    | None => Some (Err (Wrapf "decode hash: " (Plain "base64") ""))
    | Some expected =>
    match IDKey password salt iterations memory parallelism
            (N.of_nat (String.length expected) mod 2 ^ 32) with
    | None => None
    | Some key => Some (Ok (String.eqb key expected))
    end end end end end
  | _ => Some (Ok false)
  end.

#[export] Instance Hash_safe J h pw : DbSafe J (Hash h pw).
Proof. unfold Hash. apply _. Qed.

End hasher.

(** ** Lemmas: scanning what was printed *)

(** A string starts with a byte that no digit scan reads. *)
Definition stops (s : string) : bool :=
  match s with EmptyString => true | String a _ => negb (is_digit a) end.

Lemma span_digits_app ds r :
  all_bytes is_digit ds = true -> stops r = true -> span_digits (ds +:+ r) = (ds, r).
Proof.
  intros Hd Hr. induction ds as [|a ds IH].
  - rewrite str_app_nil. destruct r as [|a r]; [done|]. cbn [span_digits].
    apply negb_true_iff in Hr. by rewrite Hr.
  - rewrite str_app_cons. cbn [all_bytes] in Hd. apply andb_true_iff in Hd as [Ha Hd].
    cbn [span_digits]. by rewrite Ha, IH.
Qed.

Lemma SkipSpace_digit a s : is_digit a = true -> SkipSpace (String a s) = Some (String a s).
Proof.
  unfold is_digit, byte_in. intros [H1%N.leb_le H2%N.leb_le]%andb_true_iff.
  unfold SkipSpace. cbn [chunks].
  replace (byte_of a <? 128) with true by (symmetry; apply N.ltb_lt; lia).
  cbn [skip_chunks c_rune].
  replace (byte_of a =? 10) with false by (symmetry; apply N.eqb_neq; lia).
  replace (IsSpace (byte_of a)) with false.
  2: { symmetry. unfold IsSpace. repeat (apply orb_false_iff; split);
       try apply andb_false_iff; rewrite ?N.leb_gt, ?N.eqb_neq; lia. }
  cbn. by rewrite concat_chunks_chunks.
Qed.

Lemma SkipSpace_FormatUint n r :
  SkipSpace (FormatUint n +:+ r) = Some (FormatUint n +:+ r).
Proof.
  pose proof (FormatUint_digits n) as Hd. pose proof (FormatUint_nonempty n) as Hne.
  destruct (FormatUint n) as [|a s]; [done|]. cbn [all_bytes] in Hd.
  apply andb_true_iff in Hd as [Ha _]. rewrite str_app_cons. by apply SkipSpace_digit.
Qed.

Lemma scan_uint_FormatUint bits n r :
  n < 2 ^ bits -> stops r = true -> scan_uint bits (FormatUint n +:+ r) = Some (n, r).
Proof.
  intros Hn Hr. unfold scan_uint. rewrite SkipSpace_FormatUint.
  rewrite span_digits_app by (done || apply FormatUint_digits).
  destruct (String.eqb_spec (FormatUint n) "") as [He|_]; [by apply FormatUint_nonempty in He|].
  rewrite digits_val_FormatUint.
  destruct (Z.ltb_spec (Z.of_N n) (2 ^ Z.of_N bits)) as [_|Hge].
  - by rewrite N2Z.id.
  - assert (Z.of_N n < Z.of_N (2 ^ bits))%Z as Hlt by lia.
    rewrite N2Z.inj_pow in Hlt. exfalso. change (Z.of_N 2) with 2%Z in Hlt. lia.
Qed.

Lemma scan_int_FormatUint n r :
  n < 2 ^ 63 -> stops r = true -> scan_int (FormatUint n +:+ r) = Some (Z.of_N n, r).
Proof.
  intros Hn Hr. unfold scan_int. rewrite SkipSpace_FormatUint.
  pose proof (FormatUint_digits n) as Hd. pose proof (FormatUint_nonempty n) as Hne.
  assert (Hs : match FormatUint n +:+ r with
     | String a s' => if is_byte 45 a then (true, s')
                      else if is_byte 43 a then (false, s') else (false, FormatUint n +:+ r)
     | EmptyString => (false, FormatUint n +:+ r) end = (false, FormatUint n +:+ r)).
  { destruct (FormatUint n) as [|a s]; [done|]. rewrite str_app_cons.
    cbn [all_bytes] in Hd. apply andb_true_iff in Hd as [Ha _]. revert Ha.
    unfold is_digit, byte_in, is_byte. intros [H1%N.leb_le H2%N.leb_le]%andb_true_iff.
    replace (byte_of a =? 45) with false by (symmetry; apply N.eqb_neq; lia).
    by replace (byte_of a =? 43) with false by (symmetry; apply N.eqb_neq; lia). }
  rewrite Hs, span_digits_app by done.
  destruct (String.eqb_spec (FormatUint n) "") as [He|_]; [done|].
  rewrite digits_val_FormatUint. unfold int64_ok.
  replace ((- 2 ^ 63 <=? Z.of_N n) && (Z.of_N n <? 2 ^ 63))%Z with true; [done|].
  symmetry. apply andb_true_iff. split; [apply Z.leb_le|apply Z.ltb_lt]; lia.
Qed.

Lemma scan_lit_app lit s : scan_lit lit (lit +:+ s) = Some s.
Proof.
  induction lit as [|a l IH]; [by destruct s|]. rewrite str_app_cons. cbn.
  by rewrite Ascii.eqb_refl.
Qed.

Lemma scan_params_part h :
  Params.Memory h < 2 ^ 32 -> Params.Iterations h < 2 ^ 32 -> Params.Parallelism h < 2 ^ 8 ->
  scan_params (params_part h)
  = Some (Params.Memory h, Params.Iterations h, Params.Parallelism h).
Proof.
  intros Hm Ht Hp. unfold scan_params, params_part. rewrite scan_lit_app. cbn [mbind option_bind].
  rewrite scan_uint_FormatUint by done. cbn [mbind option_bind]. rewrite scan_lit_app.
  cbn [mbind option_bind]. rewrite scan_uint_FormatUint by done. cbn [mbind option_bind].
  rewrite scan_lit_app. cbn [mbind option_bind].
  rewrite <- (append_empty_r (FormatUint (Params.Parallelism h))).
  by rewrite scan_uint_FormatUint by done.
Qed.

(** No part of an encoded hash holds the separator. *)
Definition no_dollar (s : string) : bool := all_bytes (fun a => negb (is_byte 36 a)) s.

Lemma digits_no_dollar s : all_bytes is_digit s = true -> no_dollar s = true.
Proof.
  apply all_bytes_impl. intros a. unfold is_digit, byte_in, is_byte.
  intros [H1%N.leb_le _]%andb_true_iff. apply negb_true_iff, N.eqb_neq. lia.
Qed.

Lemma base64_no_dollar s : no_dollar (EncodeToString StdEncoding s) = true.
Proof.
  eapply all_bytes_impl; [|apply EncodeToString_chars; by left].
  intros a Ha. apply negb_true_iff, N.eqb_neq. intros He. revert Ha.
  unfold b64_char, dec_char, byte_in. by rewrite He.
Qed.

Lemma no_dollar_app s t : no_dollar (s +:+ t) = no_dollar s && no_dollar t.
Proof. apply all_bytes_app. Qed.

Lemma FormatUint_no_dollar n : no_dollar (FormatUint n) = true.
Proof. apply digits_no_dollar, FormatUint_digits. Qed.

Lemma params_no_dollar h : no_dollar (params_part h) = true.
Proof. unfold params_part. by rewrite !no_dollar_app, !FormatUint_no_dollar. Qed.

(** The encoded form splits into its six parts. *)
Lemma split_encode_hash `{Argon2} h salt key :
  split_at 36 (encode_hash h salt key)
  = [""; "argon2id"; "v=" +:+ FormatUint argon2_Version; params_part h;
     EncodeToString StdEncoding salt; EncodeToString StdEncoding key].
Proof.
  unfold encode_hash.
  change ("$argon2id$v=" +:+ ?x)
    with ("" +:+ String "$" ("argon2id" +:+ String "$" ("v=" +:+ x))).
  rewrite (split_at_app 36 "") by done.
  rewrite !(str_app_cons "$" ""), !str_app_nil, <- (append_assoc "v=").
  rewrite (split_at_app 36 "argon2id") by done.
  rewrite (split_at_app 36 ("v=" +:+ _)) by (apply FormatUint_no_dollar || done).
  rewrite (split_at_app 36 (params_part h)) by (apply params_no_dollar || done).
  rewrite (split_at_app 36 (EncodeToString StdEncoding salt)) by (apply base64_no_dollar || done).
  by rewrite split_at_word by apply base64_no_dollar.
Qed.

(** Verify on an encoded hash whose parameters are in range compares the derived keys. *)
Lemma Verify_encode_hash `{Argon2Laws} h salt key pw :
  Params.Memory h < 2 ^ 32 -> Params.Iterations h < 2 ^ 32 -> Params.Parallelism h < 2 ^ 8 ->
  N.of_nat (String.length key) < 2 ^ 32 ->
  Verify pw (encode_hash h salt key) =
  match IDKey pw salt (Params.Iterations h) (Params.Memory h) (Params.Parallelism h)
          (N.of_nat (String.length key)) with
  | Some k => Some (Ok (String.eqb k key))
  | None => None
  end.
Proof.
  intros Hm Ht Hp Hk. unfold Verify. rewrite split_encode_hash.
  change (negb (String.eqb "argon2id" "argon2id")) with false. cbv iota.
  unfold scan_version. rewrite scan_lit_app. cbn [mbind option_bind].
  rewrite <- (append_empty_r (FormatUint argon2_Version)).
  rewrite scan_int_FormatUint by (done || apply argon2_Version_range). cbn [fmap option_fmap option_map fst].
  rewrite Z.eqb_refl. cbn [negb]. rewrite scan_params_part by done.
  rewrite !DecodeString_EncodeToString by (by left). by rewrite N.mod_small.
Qed.

(** ** Correctness *)

(** The program's parameters fit the variables they are scanned into. *)
Definition params_ok (h : Params.t) : Prop :=
  Params.Memory h < 2 ^ 32 /\ 1 <= Params.Iterations h < 2 ^ 32 /\
  1 <= Params.Parallelism h < 2 ^ 8 /\ Params.KeyLength h < 2 ^ 32.

(** What [Hash] returns, and how [Verify] reads it. *)
Lemma Hash_Ok `{Argon2Laws} h pw e w enc w' :
  params_ok h -> run e (Hash h pw) w = (Ok enc, w') ->
  exists salt key, env_rand e (w_tick w) (N.to_nat (Params.SaltLength h)) = Some salt /\
    IDKey pw salt (Params.Iterations h) (Params.Memory h) (Params.Parallelism h)
      (Params.KeyLength h) = Some key /\
    forall pw', Verify pw' enc =
      match IDKey pw' salt (Params.Iterations h) (Params.Memory h) (Params.Parallelism h)
              (Params.KeyLength h) with
      | Some k => Some (Ok (String.eqb k key))
      | None => None
      end.
Proof.
  intros (Hm & [Ht1 Ht2] & [Hp1 Hp2] & Hk). unfold Hash. autorewrite with mc_rw. cbn.
  destruct (env_rand _ _ _) as [salt|]; [|by autorewrite with mc_rw].
  destruct (IDKey_length pw salt _ (Params.Memory h) _ (Params.KeyLength h) Ht1 Hp1)
    as (key & Hkey & Hlen).
  rewrite Hkey. autorewrite with mc_rw. intros [= <- <-]. exists salt, key.
  split; [done|]. split; [done|]. intros pw'.
  assert (Hl : N.of_nat (String.length key) = Params.KeyLength h) by lia.
  rewrite Verify_encode_hash by (done || lia). by rewrite Hl.
Qed.

Lemma Hash_verifies `{Argon2Laws} h pw e w enc w' :
  params_ok h -> run e (Hash h pw) w = (Ok enc, w') -> Verify pw enc = Some (Ok true).
Proof.
  intros Hok (salt & key & _ & Hkey & Hv)%Hash_Ok; [|done].
  by rewrite Hv, Hkey, String.eqb_refl.
Qed.

(** C30: a password verifies against its own hash; any other password is accepted exactly when
    the key derivation cannot tell the two apart under the stored salt, and is otherwise
    answered [false] without an error. *)
Theorem Verify_Hash `{Argon2Laws} h pw pw' e w enc w' :
  params_ok h -> run e (Hash h pw) w = (Ok enc, w') ->
  exists salt, env_rand e (w_tick w) (N.to_nat (Params.SaltLength h)) = Some salt /\
    Verify pw enc = Some (Ok true) /\
    Verify pw' enc = Some (Ok (bool_decide
      (IDKey pw' salt (Params.Iterations h) (Params.Memory h) (Params.Parallelism h)
         (Params.KeyLength h) =
       IDKey pw salt (Params.Iterations h) (Params.Memory h) (Params.Parallelism h)
         (Params.KeyLength h)))).
Proof.
  intros Hok (salt & key & Hs & Hkey & Hv)%Hash_Ok; [|done]. exists salt.
  destruct Hok as (_ & [Ht _] & [Hp _] & _).
  destruct (IDKey_length pw' salt _ (Params.Memory h) _ (Params.KeyLength h) Ht Hp)
    as (key' & Hkey' & _).
  rewrite !Hv, Hkey, Hkey', String.eqb_refl. split_and!; [done..|]. do 2 f_equal.
  destruct (String.eqb_spec key' key) as [->|Hne].
  - by rewrite bool_decide_true.
  - rewrite bool_decide_false; congruence.
Qed.

(** A derivation that keeps the password, cut or padded to the length asked for. *)
Definition plain_argon2 : Argon2 :=
  {| argon2_Version := 19;
     IDKey := fun pw salt t m p n =>
       if (1 <=? t) && (1 <=? p)
       then Some (str_take (N.to_nat n) (pw +:+ letters (N.to_nat n) ""))
       else None |}.

Lemma plain_argon2_laws : @Argon2Laws plain_argon2.
Proof.
  assert (Hlet : forall n s, String.length (letters n s) = (n + String.length s)%nat).
  { induction n as [|n IH]; intros s; cbn; [done|]. rewrite IH. cbn. lia. }
  assert (Htake : forall n s, (n <= String.length s)%nat -> String.length (str_take n s) = n).
  { induction n as [|n IH]; intros [|a s] Hs; cbn in *; try lia. rewrite IH; lia. }
  constructor; [by vm_compute|]. intros pw salt t m p n Ht Hp. cbn.
  rewrite (proj2 (N.leb_le _ _) Ht), (proj2 (N.leb_le _ _) Hp). eexists. split; [done|].
  rewrite Htake; [done|]. rewrite length_append, Hlet. lia.
Qed.

Lemma Verify_Hash_witness :
  exists salt enc w', some_bytes 0 16 = salt /\
    run calm (@Hash plain_argon2 DefaultParams "correct horse") (world_of sample)
      = (Ok enc, w') /\
    @Verify plain_argon2 "correct horse" enc = Some (Ok true) /\
    @Verify plain_argon2 "wrong" enc = Some (Ok false).
Proof.
  pose (r := run calm (@Hash plain_argon2 DefaultParams "correct horse")
               (world_of sample)).
  destruct (@Verify_Hash plain_argon2 plain_argon2_laws DefaultParams "correct horse" "wrong"
    calm (world_of sample)
    (match r.1 with Ok s => s | Err _ => "" end) r.2) as (salt & Hs & H1 & H2).
  - vm_compute. repeat split; try discriminate.
  - by vm_compute.
  - exists salt, (match r.1 with Ok s => s | Err _ => "" end), r.2.
    split; [|split; [by vm_compute|split; [exact H1|exact H2]]].
    injection Hs as <-. reflexivity.
Defined.
