(* ===== verification/Config.v ===== *)
(** * Configuration (internal/config/config.go)

    The process environment is a function from variable names to values, empty when unset,
    as [os.Getenv] returns them.  Durations are [int64] nanoseconds; Go's [int] has 64 bits. *)
From S2P Require Import Prelude GoStrings GoErrors.

Local Open Scope Z_scope.

(** Two's complement wrap-around of a 64-bit product. *)
Definition wrap64 (z : Z) : Z := (z + 2 ^ 63) mod 2 ^ 64 - 2 ^ 63.

Definition Minute : Z := 60 * 1000000000.
Definition Hour : Z := 60 * Minute.

Module Config.
Record t := Mk {
  AppEnv : string; HTTPAddr : string; DatabaseURL : string;
  JWTSecret : string; JWTIssuer : string; AccessTTL : Z; RefreshTTL : Z;
  RefreshCookieName : string; RefreshCookieSecure : bool;
  S3Endpoint : string; S3AccessKey : string; S3SecretKey : string; S3Bucket : string;
  S3Region : string; S3UseSSL : bool; S3ForcePathStyle : bool;
  MediaBaseURL : string }.
End Config.

(** [strconv.ParseBool]; [None] stands for a syntax error. *)
Definition ParseBool (s : string) : option bool :=
  if existsb (String.eqb s) ["1"; "t"; "T"; "TRUE"; "true"; "True"] then Some true
  else if existsb (String.eqb s) ["0"; "f"; "F"; "FALSE"; "false"; "False"] then Some false
  else None.

Section load.
Context (Getenv : string -> string).

Definition getenv (key fallback : string) : string :=
  let v := Getenv key in if negb (String.eqb v "") then v else fallback.

Definition getInt (key : string) (fallback : Z) : Z :=
  match Atoi (Getenv key) with None => fallback | Some v => v end.

Definition getBool (key : string) (fallback : bool) : bool :=
  match ParseBool (Getenv key) with None => fallback | Some v => v end.

(** Load reads configuration from environment variables, applying defaults. *)
Definition Load : Config.t :=
  Config.Mk
    (getenv "APP_ENV" "development")
    (getenv "HTTP_ADDR" ":8080")
    (getenv "DATABASE_URL" "")
    (getenv "JWT_SECRET" "")
    (getenv "JWT_ISSUER" "masoniccore")
    (wrap64 (getInt "ACCESS_TTL_MINUTES" 15 * Minute))
    (wrap64 (wrap64 (getInt "REFRESH_TTL_DAYS" 30 * 24) * Hour))
    (getenv "REFRESH_COOKIE_NAME" "masonic_refresh")
    (getBool "REFRESH_COOKIE_SECURE" false)
    (getenv "S3_ENDPOINT" "")
    (getenv "S3_ACCESS_KEY" "")
    (getenv "S3_SECRET_KEY" "")
    (getenv "S3_BUCKET" "masonic")
    (getenv "S3_REGION" "us-east-1")
    (getBool "S3_USE_SSL" false)
    (getBool "S3_FORCE_PATH_STYLE" true)
    (getenv "MEDIA_BASE_URL" "/media").

End load.

(** Validate rejects configurations that would be insecure at runtime. *)
Definition Validate (c : Config.t) : option error :=
  if String.eqb (Config.DatabaseURL c) "" then Some (Plain "DATABASE_URL is required")
  else if len (Config.JWTSecret c) <? 32
  then Some (Plain "JWT_SECRET is required and must be at least 32 characters")
  else if String.eqb (Config.S3Endpoint c) "" || String.eqb (Config.S3AccessKey c) ""
          || String.eqb (Config.S3SecretKey c) ""
  then Some (Plain "S3_ENDPOINT, S3_ACCESS_KEY and S3_SECRET_KEY are required")
  else None.

(** SecureCookies reports whether cookies should carry the Secure flag. *)
Definition SecureCookies (c : Config.t) : bool :=
  Config.RefreshCookieSecure c || String.eqb (Config.AppEnv c) "production".

(** [t.Add(d)] on instants kept in microseconds. *)
Definition Add (t : time) (d : Z) : time := t + d / 1000.

(** ** Lemmas *)

Lemma wrap64_range z : - 2 ^ 63 <= wrap64 z < 2 ^ 63.
Proof.
  unfold wrap64. pose proof (Z.mod_pos_bound (z + 2 ^ 63) (2 ^ 64) ltac:(lia)). lia.
Qed.

Lemma wrap64_int64 z : int64_ok (wrap64 z) = true.
Proof.
  unfold int64_ok. pose proof (wrap64_range z).
  apply andb_true_iff. split; [apply Z.leb_le|apply Z.ltb_lt]; lia.
Qed.

Lemma wrap64_id z : - 2 ^ 63 <= z < 2 ^ 63 -> wrap64 z = z.
Proof. intros H. unfold wrap64. rewrite Z.mod_small; lia. Qed.

Lemma wrap64_shift z k : wrap64 (z + k * 2 ^ 64) = wrap64 z.
Proof.
  unfold wrap64. f_equal. replace (z + k * 2 ^ 64 + 2 ^ 63) with (z + 2 ^ 63 + k * 2 ^ 64) by lia.
  by rewrite Z_mod_plus_full.
Qed.

(** Wrapping an intermediate product does not change the wrapped result. *)
Lemma wrap64_mul a b : wrap64 (wrap64 a * b) = wrap64 (a * b).
Proof.
  assert (H : wrap64 a = a + (- ((a + 2 ^ 63) / 2 ^ 64)) * 2 ^ 64).
  { unfold wrap64. pose proof (Z.div_mod (a + 2 ^ 63) (2 ^ 64) ltac:(lia)). lia. }
  rewrite H, Z.mul_add_distr_r, <- Z.mul_assoc, (Z.mul_comm (2 ^ 64)), Z.mul_assoc.
  apply wrap64_shift.
Qed.

(** ** Correctness *)

(** What [Validate] accepts: a database URL, a signing secret of at least 32 bytes and
    the three object-store settings; the loaded defaults for the rest never make it fail, so
    a process whose five variables are set starts.  *)
Theorem Validate_Load Getenv :
  Validate (Load Getenv) = None <->
  Getenv "DATABASE_URL" <> "" /\ 32 <= len (Getenv "JWT_SECRET") /\
  Getenv "S3_ENDPOINT" <> "" /\ Getenv "S3_ACCESS_KEY" <> "" /\ Getenv "S3_SECRET_KEY" <> "".
Proof.
  assert (Hd : forall k, getenv Getenv k "" = Getenv k).
  { intros k. unfold getenv. by destruct (String.eqb_spec (Getenv k) "") as [->|]. }
  unfold Validate, Load. cbn. rewrite !Hd.
  destruct (String.eqb_spec (Getenv "DATABASE_URL") ""); [naive_solver|].
  destruct (Z.ltb_spec (len (Getenv "JWT_SECRET")) 32); [naive_solver lia|].
  destruct (String.eqb_spec (Getenv "S3_ENDPOINT") ""); [naive_solver|].
  destruct (String.eqb_spec (Getenv "S3_ACCESS_KEY") ""); [naive_solver|].
  destruct (String.eqb_spec (Getenv "S3_SECRET_KEY") ""); naive_solver.
Qed.


(** An environment that sets the five required variables. *)
Definition sample_env (k : string) : string :=
  if String.eqb k "JWT_SECRET" then "0123456789abcdef0123456789abcdef"
  else if existsb (String.eqb k) ["DATABASE_URL"; "S3_ENDPOINT"; "S3_ACCESS_KEY"; "S3_SECRET_KEY"]
  then "x" else "".

Definition sample_config : Config.t := Load sample_env.

Example sample_config_valid : Validate sample_config = None.
Proof. by vm_compute. Qed.
