(* ===== verification/Jwt.v ===== *)
(** * Access and refresh tokens (internal/auth/jwt.go)

    The JWT library and the UUID text form are parameters; what the program relies on is the
    class of laws [JwtLaws].  Claims carry their dates as the library's numeric dates. *)
From S2P Require Import Prelude GoStrings GoErrors Models Db Prog Concrete Encoding Sha256 Config.
From Stdlib Require Import Ascii.
Local Open Scope mc_scope.
Local Open Scope Z_scope.

Definition RefreshTokenBytes : nat := 32.

Module Claims.
Record t := Mk { Username : string; Roles : list string; Subject : string; Issuer : string;
  IssuedAt : option time; NotBefore : option time; ExpiresAt : option time }.
End Claims.

Module UserInfo.
Record t := Mk { ID : uuid; Username : string; Roles : list string }.
End UserInfo.

Module Manager.
Record t := Mk { secret : string; issuer : string; ttl : Z }.
End Manager.

(** A signing method: its name and whether it is an HMAC method. *)
Record method := Method { Alg : string; is_HMAC : bool }.
Definition HS256 : method := Method "HS256" true.

(** [google/uuid] *)
Class Uuid := {
  uuid_String : uuid -> string;
  uuid_Parse : string -> option uuid }.
Class UuidLaws `{Uuid} : Prop := uuid_Parse_String u : uuid_Parse (uuid_String u) = Some u.

(** [golang-jwt/jwt/v5]: [ParseWithClaims raw keyfunc issuer methods now]. *)
Class Jwt := {
  NewNumericDate : time -> time;
  SignedString : method -> Claims.t -> string -> result string;
  ParseWithClaims : string -> (method -> result string) -> string -> list string -> time ->
    result (Claims.t * bool);
  (** The signature of a token verifies under a method and a key. *)
  signature_ok : method -> string -> string -> Prop }.

(** Whole seconds, between 1970 and 9999. *)
Definition whole_second (t : time) : Prop := t mod 1000000 = 0 /\ 0 <= t < 253402300800000000.

(** Claims whose text survives JSON. *)
Definition plain_claims (c : Claims.t) : Prop :=
  ValidString (Claims.Username c) = true /\ Forall (fun r => ValidString r = true) (Claims.Roles c)
  /\ ValidString (Claims.Subject c) = true /\ ValidString (Claims.Issuer c) = true /\
  Forall whole_second (option_list (Claims.IssuedAt c) ++ option_list (Claims.NotBefore c)
                       ++ option_list (Claims.ExpiresAt c)).

(** The two time checks, for the dates that are present. *)
Definition valid_at (c : Claims.t) (now : time) : Prop :=
  (forall t, Claims.NotBefore c = Some t -> t <= now) /\
  (forall t, Claims.ExpiresAt c = Some t -> now < t).

Class JwtLaws `{Jwt} : Prop := {
  (** Dates are cut to whole seconds. *)
  NewNumericDate_trunc t : NewNumericDate t = t - t mod 1000000;
  (** A token signed with the key the parser is given, inside its validity and from the
      expected issuer, is accepted and carries the signed claims. *)
  Parse_signed c k raw keyfunc iss ms now :
    plain_claims c -> SignedString HS256 c k = Ok raw -> keyfunc HS256 = Ok k ->
    In (Alg HS256) ms -> Claims.Issuer c = iss -> valid_at c now ->
    ParseWithClaims raw keyfunc iss ms now = Ok (c, true);
  (** What is accepted carries a signature of an allowed method under the caller's key, comes
      from the expected issuer and is inside its validity. *)
  Parse_accepts raw keyfunc iss ms now c b :
    ParseWithClaims raw keyfunc iss ms now = Ok (c, b) ->
    (exists m k, keyfunc m = Ok k /\ In (Alg m) ms /\ signature_ok m k raw) /\
    (iss <> "" -> Claims.Issuer c = iss) /\ valid_at c now }.

Section manager.
Context `{Jwt, Uuid}.

(** issue is the shared signing path for access tokens. *)
Definition issue (m : Manager.t) (userID : uuid) (username : string) (roles : list string)
    (ttl : Z) : prog (result string) :=
  now <- clock_Now ;;
  let claims := Claims.Mk username roles (uuid_String userID) (Manager.issuer m)
                  (Some (NewNumericDate now)) (Some (NewNumericDate now))
                  (Some (NewNumericDate (Add now ttl))) in
  Ret (SignedString HS256 claims (Manager.secret m)).

(** NewAccessToken mints a short-lived access token for a user. *)
Definition NewAccessToken (m : Manager.t) (userID : uuid) (username : string)
    (roles : list string) : prog (result string) :=
  issue m userID username roles (Manager.ttl m).

(** The key callback of [Parse]. *)
Definition keyfunc (m : Manager.t) (t : method) : result string :=
  if negb (is_HMAC t) then Err (Plain "unexpected signing method") else Ok (Manager.secret m).

(** Parse verifies an access token and returns its claims. *)
Definition Parse (m : Manager.t) (raw : string) : prog (result Claims.t) :=
  now <- clock_Now ;;
  match ParseWithClaims raw (keyfunc m) (Manager.issuer m) ["HS256"] now with
  | Err err => fail (Wrapf "parse token: " err "")
  | Ok (claims, valid) => if negb valid then fail (Plain "invalid token") else ret claims
  end.

#[export] Instance NewAccessToken_safe J m u n r : DbSafe J (NewAccessToken m u n r).
Proof. unfold NewAccessToken, issue. apply _. Qed.
#[export] Instance Parse_safe J m raw : DbSafe J (Parse m raw).
Proof. unfold Parse. apply _. Qed.

End manager.

(** HashRefreshToken computes the storage digest for a refresh token. *)
Definition HashRefreshToken (token : string) : result string :=
  Ok (hex_EncodeToString (Sum256 token)).

(** NewRefreshToken generates an opaque refresh token and returns it with its SHA-256 hex
    digest (the only form that should be persisted). *)
Definition NewRefreshToken : prog (result (string * string)) :=
  buf <- rand_Read RefreshTokenBytes ;;
  match buf with
  | None => fail (Wrapf "generate refresh token: " (Plain "rand") "")
  | Some buf =>
    let token := EncodeToString URLEncoding buf in
    ret (token, hex_EncodeToString (Sum256 token))
  end.

#[export] Instance NewRefreshToken_safe J : DbSafe J NewRefreshToken.
Proof. unfold NewRefreshToken. apply _. Qed.

(** ** Correctness *)

Section correctness.
Context `{JwtLaws, UuidLaws}.

Definition instant (t : time) : Prop := 0 <= t < 253402300800000000.

Lemma whole_second_trunc t : instant t -> whole_second (NewNumericDate t).
Proof.
  intros Ht. rewrite NewNumericDate_trunc. unfold whole_second, instant in *.
  pose proof (Z.mod_pos_bound t 1000000 ltac:(lia)).
  pose proof (Z.div_mod t 1000000 ltac:(lia)).
  replace (t - t mod 1000000) with (t / 1000000 * 1000000) by lia.
  rewrite Z.mod_mul by lia. split; [done|]. nia.
Qed.

(** C31: an access token minted for a user is accepted from its issue (to the second) until the
    second in which its lifetime ends, by a manager with the same secret and issuer, and
    yields the user it was minted for; the claims' subject parses back to the user's id. *)
Theorem Parse_NewAccessToken m e w u name roles raw w1 w2 :
  ValidString name = true -> Forall (fun r => ValidString r = true) roles ->
  ValidString (uuid_String u) = true -> ValidString (Manager.issuer m) = true ->
  let t0 := env_clock e (w_tick w) in
  let t1 := env_clock e (w_tick w2) in
  instant t0 -> instant (Add t0 (Manager.ttl m)) ->
  run e (NewAccessToken m u name roles) w = (Ok raw, w1) ->
  t0 - t0 mod 1000000 <= t1 ->
  t1 < Add t0 (Manager.ttl m) - Add t0 (Manager.ttl m) mod 1000000 ->
  exists c, (run e (Parse m raw) w2).1 = Ok c /\ uuid_Parse (Claims.Subject c) = Some u /\
    Claims.Username c = name /\ Claims.Roles c = roles.
Proof.
  intros Hn Hr Hu Hi t0 t1 Ht0 Ht1 Hrun Hnb Hexp.
  unfold NewAccessToken, issue in Hrun. autorewrite with mc_rw in Hrun. cbn in Hrun.
  injection Hrun as Hs _. unfold Parse. autorewrite with mc_rw. cbn.
  erewrite Parse_signed; [|split_and!|exact Hs|..];
    rewrite ?run_ret; try done; cbn; try (by auto using whole_second_trunc).
  - eexists. split; [done|]. split; [apply uuid_Parse_String|done].
  - split; cbn; intros ? [= <-]; by rewrite NewNumericDate_trunc.
Qed.

(** What a token must be for the manager to believe its claims at a given time. *)
Definition genuine (m : Manager.t) (raw : string) (now : time) (c : Claims.t) : Prop :=
  signature_ok HS256 (Manager.secret m) raw /\
  (Manager.issuer m <> "" -> Claims.Issuer c = Manager.issuer m) /\
  valid_at c now.

Lemma Parse_genuine m e w raw c w' :
  run e (Parse m raw) w = (Ok c, w') ->
  genuine m raw (env_clock e (w_tick w)) c /\ w_db w' = w_db w.
Proof.
  unfold Parse. autorewrite with mc_rw. cbn.
  destruct (ParseWithClaims _ _ _ _ _) as [[c' b]|er] eqn:Hp; [|by autorewrite with mc_rw].
  destruct b; cbn; [|by autorewrite with mc_rw]. intros [= -> <-].
  apply Parse_accepts in Hp as ((s & k & Hk & Halg & Hs) & Hiss & Hexp).
  split; [split|done]; [|done]. destruct s as [alg h]. unfold keyfunc in Hk. cbn in Hk, Halg.
  destruct h; [|done]. injection Hk as <-. by destruct Halg as [<-|[]].
Qed.

(** C32: [Parse] never accepts a token outside its validity, one of another issuer, or one that
    is not signed with the manager's secret under HS256. *)
Theorem Parse_sound m e w raw c w' :
  run e (Parse m raw) w = (Ok c, w') ->
  signature_ok HS256 (Manager.secret m) raw /\
  (Manager.issuer m <> "" -> Claims.Issuer c = Manager.issuer m) /\
  valid_at c (env_clock e (w_tick w)).
Proof. by intros [Hg _]%Parse_genuine. Qed.

End correctness.

(** ** Concrete tokens

    A token that spells out, in binary, its method, its key and its claims. *)

Fixpoint bits (p : positive) : string :=
  match p with
  | xH => ""
  | xO q => String "0" (bits q)
  | xI q => String "1" (bits q)
  end.
Fixpoint pos_of_bits (s : string) : positive :=
  match s with
  | EmptyString => xH
  | String a s' => if Ascii.eqb a "0" then xO (pos_of_bits s') else xI (pos_of_bits s')
  end.

Lemma pos_of_bits_bits p : pos_of_bits (bits p) = p.
Proof. induction p; cbn; congruence. Qed.

Definition date_string (o : option Z) : string := bits (encode o).
Definition string_date (s : string) : option Z := default None (decode (pos_of_bits s)).

Definition token_fields (m : method) (c : Claims.t) (k : string) : list (list string) :=
  [[Alg m; if is_HMAC m then "h" else ""; k; Claims.Username c; Claims.Subject c;
    Claims.Issuer c; date_string (Claims.IssuedAt c); date_string (Claims.NotBefore c);
    date_string (Claims.ExpiresAt c)]; Claims.Roles c].

Definition open_token (m : method) (c : Claims.t) (k : string) : string :=
  bits (encode (token_fields m c k)).
Definition read_token (raw : string) : option (method * string * Claims.t) :=
  match decode (pos_of_bits raw) with
  | Some [[alg; h; k; name; sub; iss; iat; nbf; exp]; roles] =>
      Some (Method alg (String.eqb h "h"), k,
            Claims.Mk name roles sub iss (string_date iat) (string_date nbf) (string_date exp))
  | _ => None
  end.

Lemma string_date_string o : string_date (date_string o) = o.
Proof. unfold string_date, date_string. by rewrite pos_of_bits_bits, decode_encode. Qed.

Lemma read_open_token m c k :
  read_token (open_token m c k) = Some (m, k, c).
Proof.
  unfold read_token, open_token. rewrite pos_of_bits_bits, decode_encode. cbn.
  rewrite !string_date_string. by destruct m as [alg []], c.
Qed.

Definition open_parse (raw : string) (kf : method -> result string) (iss : string)
    (ms : list string) (now : time) : result (Claims.t * bool) :=
  match read_token raw with
  | Some (m, k, c) =>
    match kf m with
    | Err e => Err e
    | Ok k' =>
      if existsb (String.eqb (Alg m)) ms && String.eqb k k'
         && (String.eqb iss "" || String.eqb (Claims.Issuer c) iss)
         && match Claims.NotBefore c with Some t => t <=? now | None => true end
         && match Claims.ExpiresAt c with Some t => now <? t | None => true end
      then Ok (c, true) else Err (Plain "token is invalid")
    end
  | None => Err (Plain "token is malformed")
  end.

Definition open_jwt : Jwt :=
  {| NewNumericDate := fun t => t - t mod 1000000;
     SignedString := fun m c k => Ok (open_token m c k);
     ParseWithClaims := open_parse;
     signature_ok := fun m k raw => exists c, read_token raw = Some (m, k, c) |}.

Lemma open_jwt_laws : @JwtLaws open_jwt.
Proof.
  constructor; cbn; [done|..].
  - intros c k raw kf iss ms now _ [= <-] Hk Hin Hiss [Hnb Hexp]. unfold open_parse.
    rewrite read_open_token, Hk.
    rewrite (proj2 (existsb_exists _ _)) by (exists (Alg HS256); by rewrite String.eqb_refl).
    rewrite Hiss, !String.eqb_refl, orb_true_r. cbn [andb].
    destruct (Claims.NotBefore c) as [t|]; [rewrite (proj2 (Z.leb_le _ _)) by auto|];
      (destruct (Claims.ExpiresAt c) as [u|]; [rewrite (proj2 (Z.ltb_lt _ _)) by auto|]); done.
  - intros raw kf iss ms now c b. unfold open_parse.
    destruct (read_token raw) as [[[m k] c']|] eqn:Er; [|done].
    destruct (kf m) as [k'|] eqn:Ek; [|done].
    destruct (_ && _) eqn:E; [|done]. intros [= <- <-].
    rewrite !andb_true_iff in E. destruct E as [[[[H1 H2%String.eqb_eq] H3] H4] H5].
    apply existsb_exists in H1 as (a & Ha & <-%String.eqb_eq). subst k'.
    split; [|split].
    + exists m, k. eauto.
    + intros Hne. apply orb_true_iff in H3 as [?%String.eqb_eq|?%String.eqb_eq]; done.
    + split; intros t Ht; rewrite Ht in *; [by apply Z.leb_le|by apply Z.ltb_lt].
Qed.

Definition decimal_uuid : Uuid :=
  {| uuid_String := FormatUint; uuid_Parse := fun s => Z.to_N <$> digits_val 0 s |}.

Lemma decimal_uuid_laws : @UuidLaws decimal_uuid.
Proof.
  intros u. change (Z.to_N <$> digits_val 0 (FormatUint u) = Some u).
  rewrite digits_val_FormatUint. cbn. by rewrite N2Z.id.
Qed.

Definition sample_manager : Manager.t := Manager.Mk "secret" "masoniccore" (15 * Minute).

Lemma Parse_NewAccessToken_witness :
  exists raw c,
    (run calm (@NewAccessToken open_jwt decimal_uuid sample_manager alice "alice" ["admin"])
       (world_of sample)).1 = Ok raw /\
    (run calm (@Parse open_jwt sample_manager raw) (world_of sample)).1 = Ok c /\
    Claims.Username c = "alice" /\ Claims.Roles c = ["admin"].
Proof.
  pose (r := run calm (@NewAccessToken open_jwt decimal_uuid sample_manager alice "alice" ["admin"])
               (world_of sample)).
  pose (raw := match r.1 with Ok s => s | Err _ => "" end).
  destruct (@Parse_NewAccessToken open_jwt open_jwt_laws decimal_uuid decimal_uuid_laws
    sample_manager calm (world_of sample) alice "alice" ["admin"] raw r.2 (world_of sample))
    as (c & H1 & _ & H2 & H3);
    [by vm_compute|by repeat constructor|by vm_compute|by vm_compute|by vm_compute; split
    |by vm_compute; split|by vm_compute|by vm_compute|by vm_compute|].
  exists raw, c. split; [by vm_compute|]. auto.
Defined.

Lemma Parse_sound_witness :
  exists raw c,
    (run calm (@Parse open_jwt sample_manager raw) (world_of sample)).1 = Ok c /\
    @signature_ok open_jwt HS256 "secret" raw.
Proof.
  pose (claims := Claims.Mk "alice" [] "1" "masoniccore" None None (Some 2000000)).
  pose (raw := open_token HS256 claims "secret").
  pose (r := run calm (@Parse open_jwt sample_manager raw) (world_of sample)).
  exists raw, claims. split; [by vm_compute|].
  destruct (@Parse_sound open_jwt open_jwt_laws sample_manager calm (world_of sample)
    raw claims r.2) as (H1 & _); [by vm_compute|]. exact H1.
Defined.
