(* ===== verification/JsonStruct.v ===== *)
(** * JSON objects into Go structs (encoding/json)

    How [json.Unmarshal] fills the fields of a struct from the members of an object: a member is
    for the field whose name in the tag is its key, or else for the first field whose name
    equals the key up to case; other members are ignored, of several members for a field each
    is stored in turn, null leaves a value as it is and makes a pointer nil, and a member of the
    wrong kind is an error.  A [Body] is a struct that requests carry; its laws say that what a
    client writes for it is read back. *)
From S2P Require Import Prelude GoStrings Encoding GoJson JsonText Jwt.
From Stdlib Require Import Ascii.
Local Open Scope N_scope.

(** ** Keys *)

Definition upper_byte (a : ascii) : ascii := if byte_in 97 122 a then byte (byte_of a - 32) else a.

(** The least character that differs by case only, for characters that differ by case only from
    one of ASCII; other characters never equal one of a field's name. *)
Definition foldRune (c : chunk) : string :=
  if c_valid c && (c_rune c =? 383) then "S"
  else if c_valid c && (c_rune c =? 8490) then "K"
  else map_bytes upper_byte (c_bytes c).
Definition foldName (s : string) : string := foldr (fun c t => foldRune c +:+ t) "" (chunks s).

(** The field a key is for. *)
Definition designate (names : list string) (key : string) : option string :=
  if bool_decide (key ∈ names) then Some key
  else head (filter (fun n => foldName n = foldName key) names).
Definition for_field (names : list string) (name key : string) : bool :=
  bool_decide (designate names key = Some name).

(** ** Values *)

(** The zero value of a Go type, and what storing a JSON value over an old value gives. *)
Record codec (T : Type) := Codec { zero : T; store : value -> T -> option T }.
Arguments Codec {T} _ _.
Arguments zero {T} _.
Arguments store {T} _ _ _.

Definition into_string : codec string :=
  Codec "" (fun v s => match v with VNull => Some s | VString s' => Some s' | _ => None end).
Definition into_bool : codec bool :=
  Codec false (fun v b => match v with VNull => Some b | VBool b' => Some b' | _ => None end).
(** An [int], by [strconv.ParseInt] of the literal. *)
Definition into_int : codec Z :=
  Codec 0%Z (fun v n => match v with VNull => Some n | VNumber lit => Atoi lit | _ => None end).
(** A pointer: null makes it nil, a value is stored in what it points to. *)
Definition into_ptr {T} (c : codec T) : codec (option T) :=
  Codec None (fun v p => match v with
                         | VNull => Some None
                         | _ => Some <$> store c v (default (zero c) p)
                         end).
(** A [uuid.UUID], by [UnmarshalText] (third party: [uuid.Parse] of the text). *)
Definition into_uuid `{Uuid} : codec uuid :=
  Codec uuid_Nil (fun v u => match v with VNull => Some u | VString s => uuid_Parse s | _ => None end).

(** The elements of an array over the old ones, zero values after those. *)
Fixpoint store_elems {T} (c : codec T) (old : list T) (l : list value) : option (list T) :=
  match l with
  | [] => Some []
  | v :: l' =>
    match store c v (default (zero c) (head old)), store_elems c (tail old) l' with
    | Some t, Some ts => Some (t :: ts)
    | _, _ => None
    end
  end.
(** A slice: its elements, and what is left of old ones in its capacity. *)
Definition into_slice {T} (c : codec T) : codec (list T * list T) :=
  Codec ([], []) (fun v p =>
    match v with
    | VNull | VArray [] => Some ([], [])
    | VArray l => (fun ts => (ts, drop (length l) (p.1 ++ p.2))) <$> store_elems c (p.1 ++ p.2) l
    | _ => None
    end).

(** ** Structs *)

(** The members of an object stored in one field, in their order. *)
Fixpoint field_from {T} (names : list string) (name : string) (c : codec T)
    (ms : list (string * value)) (t : T) : option T :=
  match ms with
  | [] => Some t
  | (k, v) :: ms' =>
      if for_field names name k
      then match store c v t with Some t' => field_from names name c ms' t' | None => None end
      else field_from names name c ms' t
  end.
Definition field {T} (names : list string) (name : string) (c : codec T)
    (ms : list (string * value)) : option T := field_from names name c ms (zero c).

(** The struct of a request body: what its members make of it, the members [json.Marshal] writes
    for it, and the values that survive both. *)
Class Body (T : Type) := {
  of_members : list (string * value) -> option T;
  to_members : T -> list (string * value);
  sendable : T -> Prop }.

(** [decodeJSON] *)
Definition decodeJSON {T} `{Body T} (text : string) : option T :=
  match Decode text with
  | Some VNull => of_members []
  | Some (VObject ms) => of_members ms
  | _ => None
  end.

Definition body_value {T} `{Body T} (x : T) : value := VObject (to_members x).

(** What a struct promises: an object that is well formed, shallow, and read back. *)
Class BodyLaws (T : Type) `{Body T} : Prop := {
  body_numbers x : sendable x -> numbers_ok (body_value x) = true;
  body_depth x : (depth (body_value x) <= 2)%nat;
  body_back x : sendable x ->
    of_members ((fun p => (coerce_utf8 p.1, coerce p.2)) <$> to_members x) = Some x }.

(** What a client writes is decoded, whatever follows on later lines. *)
Lemma decodeJSON_Encode {T} `{BodyLaws T} (x : T) rest :
  sendable x -> decodeJSON (Encode (body_value x) +:+ rest) = Some x.
Proof.
  intros Hx. unfold decodeJSON, Decode, Encode. rewrite append_assoc. unfold text1.
  rewrite str_app_cons, str_app_nil.
  pose proof (body_depth x) as Hd. rewrite read_print.
  - cbn [fst fmap option_fmap option_map]. unfold body_value. cbn [coerce]. by apply body_back.
  - by apply body_numbers.
  - unfold maxNestingDepth. lia.
  - unfold fuel_for. lia.
  - done.
Qed.

(** ** Integers *)

Lemma Atoi_FormatInt z : int64_ok z = true -> Atoi (FormatInt z) = Some z.
Proof.
  intros Hz. assert (Hu : forall n, Atoi (FormatUint n)
    = if int64_ok (Z.of_N n) then Some (Z.of_N n) else None).
  { intros n. unfold Atoi. pose proof (FormatUint_digits n) as Hd.
    pose proof (digits_val_FormatUint n) as Hv. pose proof (FormatUint_nonempty n) as Hne.
    destruct (FormatUint n) as [|a s]; [done|]. cbn [all_bytes] in Hd.
    apply andb_true_iff in Hd as [Ha _]. unfold is_digit in Ha. apply byte_in_range in Ha.
    unfold is_byte. rewrite !(proj2 (N.eqb_neq _ _)) by lia. by rewrite Hv. }
  destruct z as [|p|p].
  - by vm_compute.
  - unfold FormatInt. rewrite Hu. cbn [Z.to_N Z.of_N]. by rewrite Hz.
  - unfold FormatInt, Atoi. rewrite str_app_cons, str_app_nil.
    change (is_byte 43 "-"%char) with false. change (is_byte 45 "-"%char) with true. cbv iota.
    pose proof (FormatUint_nonempty (N.pos p)) as Hne.
    destruct (FormatUint (N.pos p)) as [|a s] eqn:E; [done|]. rewrite <- E, digits_val_FormatUint.
    change (Z.opp <$> Some (Z.of_N (N.pos p))) with (Some (Z.neg p)). cbv iota. by rewrite Hz.
Qed.
