(* ===== verification/AuthService.v ===== *)
(** * Authentication service (internal/services/auth.go) *)
From S2P Require Import Prelude GoStrings Regexp GoErrors Models Db Prog Concrete Encoding Sha256.
From S2P Require Import Password Config Jwt UserStore SessionStore.
From Stdlib Require Import Ascii.
Local Open Scope mc_scope.

Module Tokens.
Record t := Mk { AccessToken : string; RefreshToken : string; theUser : User.t;
  Roles : list string }.
End Tokens.

(** [^[a-zA-Z0-9_]{3,32}$] *)
Definition username_char (a : ascii) : bool :=
  byte_in 97 122 a || byte_in 65 90 a || byte_in 48 57 a || is_byte 95 a.
Definition usernameRe : re := Repeat 3 32 (Cls username_char).

(** [^[^@\s]+@[^@\s]+\.[^@\s]+$]; [\s] is tab, newline, form feed, return and space. *)
Definition email_char (a : ascii) : bool :=
  negb (is_byte 64 a || is_byte 9 a || is_byte 10 a || is_byte 12 a || is_byte 13 a
        || is_byte 32 a).
Definition emailRe : re :=
  Seq (Plus (Cls email_char)) (Seq (chr "@") (Seq (Plus (Cls email_char))
    (Seq (chr ".") (Plus (Cls email_char))))).

(** [normalizeIP]: the host of "host:port", anything else as it is. *)
Definition normalizeIP (ip : string) : string :=
  match SplitHostPort_host ip with Some host => host | None => ip end.

Module AuthService.
Record t := Mk { hasher : Params.t; jwt : Manager.t; cfg : Config.t }.
End AuthService.

Section service.
Context `{Postgres, Argon2, Uuid, Jwt}.

Implicit Types (s : AuthService.t).

(** Register creates a new member account. *)
Definition Register s (username email password : string) : prog (result User.t) :=
  let username := TrimSpace username in
  let email := TrimSpace email in
  let password := TrimSpace password in
  if negb (matches usernameRe username)
  then fail (Wrapf "" ErrValidation ": username must be 3-32 chars [a-zA-Z0-9_]")
  else if negb (matches emailRe email) then fail (Wrapf "" ErrValidation ": invalid email")
  else if (len password <? 8)%Z
  then fail (Wrapf "" ErrValidation ": password must be at least 8 chars")
  else
  hash <- Hash (AuthService.hasher s) password ;;
  match hash with
  | Err err => fail (Wrapf "hash password: " err "")
  | Ok hash =>
    user <- UserStore.Create (NewUser.Mk username email hash username) ;;
    match user with
    | Err err => if errors_Is err store_ErrConflict then fail ErrUsernameTaken else fail err
    | Ok user =>
      _ <-? UserStore.AddMemberRole (User.ID user) ;;
      ret user
    end
  end.

Definition issueTokens s (user : User.t) (userAgent ip : string) : prog (result Tokens.t) :=
  roles <-? UserStore.RolesForUser (User.ID user) ;;
  access <- NewAccessToken (AuthService.jwt s) (User.ID user) (User.Username user) roles ;;
  match access with
  | Err err => fail (Wrapf "sign access token: " err "")
  | Ok access =>
    refresh <-? NewRefreshToken ;;
    now <- clock_Now ;;
    _ <-? SessionStore.Create
      (NewSession.Mk (User.ID user) refresh.2 userAgent (normalizeIP ip)
         (Add now (Config.RefreshTTL (AuthService.cfg s)))) ;;
    ret (Tokens.Mk access refresh.1 user roles)
  end.

(** The checks of [Login] on the user found; stores never return a nil user without error. *)
Definition login_user s (user : User.t) (password userAgent ip : string)
    : prog (result Tokens.t) :=
  if negb (String.eqb (User.Status user) UserStatusActive) then fail ErrUserNotActive else
  match Verify password (User.PasswordHash user) with
  | None => fail ErrPanic
  | Some (Err err) => fail (Wrapf "verify password: " err "")
  | Some (Ok false) => fail ErrInvalidCredentials
  | Some (Ok true) => issueTokens s user userAgent ip
  end.

(** Login verifies credentials and issues an access token plus a refresh session. *)
Definition Login s (identifier password userAgent ip : string) : prog (result Tokens.t) :=
  let identifier := TrimSpace identifier in
  user <- UserStore.GetByUsername identifier ;;
  match user with
  | Ok user => login_user s user password userAgent ip
  | Err err =>
    if errors_Is err store_ErrNotFound then
      user <- UserStore.GetByEmail identifier ;;
      match user with
      | Err _ => fail ErrInvalidCredentials
      | Ok user => login_user s user password userAgent ip
      end
    else fail err
  end.

(** Refresh rotates a refresh session and mints a fresh access token. *)
Definition Refresh s (refreshToken userAgent ip : string) : prog (result Tokens.t) :=
  match HashRefreshToken refreshToken with
  | Err _ => fail ErrInvalidRefresh
  | Ok hash =>
    session <- SessionStore.GetByTokenHash hash ;;
    match session with
    | Err err => if errors_Is err store_ErrNotFound then fail ErrInvalidRefresh else fail err
    | Ok session =>
      user <- UserStore.GetByID (Session.UserID session) ;;
      match user with
      | Err err =>
        if errors_Is err store_ErrNotFound then
          now <- clock_Now ;;
          _ <- SessionStore.Revoke (Session.ID session) now ;;
          fail ErrInvalidRefresh
        else fail err
      | Ok user =>
        if negb (String.eqb (User.Status user) UserStatusActive) then fail ErrUserNotActive else
        now <- clock_Now ;;
        _ <-? SessionStore.Revoke (Session.ID session) now ;;
        issueTokens s user userAgent ip
      end
    end
  end.

(** Logout revokes a refresh session. *)
Definition Logout (refreshToken : string) : prog (result unit) :=
  match HashRefreshToken refreshToken with
  | Err _ => ret tt
  | Ok hash =>
    session <- SessionStore.GetByTokenHash hash ;;
    match session with
    | Err _ => ret tt
    | Ok session =>
      now <- clock_Now ;;
      _ <- SessionStore.Revoke (Session.ID session) now ;;
      ret tt
    end
  end.

(** Profile returns a user and its roles for API consumption. *)
Definition Profile (id : uuid) : prog (result (User.t * list string)) :=
  user <- UserStore.GetByID id ;;
  match user with
  | Err err => if errors_Is err store_ErrNotFound then fail ErrUserNotFound else fail err
  | Ok user =>
    roles <-? UserStore.RolesForUser (User.ID user) ;;
    ret (user, roles)
  end.

#[export] Instance Register_safe s u m p : DbSafe db_ok (Register s u m p).
Proof. unfold Register. apply _. Qed.
#[export] Instance issueTokens_safe s u a ip : DbSafe db_ok (issueTokens s u a ip).
Proof. unfold issueTokens. apply _. Qed.
#[export] Instance login_user_safe s u p a ip : DbSafe db_ok (login_user s u p a ip).
Proof. unfold login_user. apply _. Qed.
#[export] Instance Login_safe s i p a ip : DbSafe db_ok (Login s i p a ip).
Proof. unfold Login. apply _. Qed.
#[export] Instance Refresh_safe s t a ip : DbSafe db_ok (Refresh s t a ip).
Proof. unfold Refresh. apply _. Qed.
#[export] Instance Logout_safe t : DbSafe db_ok (Logout t).
Proof. unfold Logout. apply _. Qed.
#[export] Instance Profile_safe J id : DbSafe J (Profile id).
Proof. unfold Profile. apply _. Qed.

End service.

(** ** Digests as parameters *)

#[local] Opaque Sum256 hex_EncodeToString.

Lemma hex_all f s :
  (forall n, (n < 16)%N -> f (hex_digit n) = true) -> all_bytes f (hex_EncodeToString s) = true.
Proof.
  intros Hf. induction s as [|a s IH]; [done|].
  change (f (hex_digit (byte_of a / 16)) && (f (hex_digit (byte_of a mod 16)) &&
    all_bytes f (hex_EncodeToString s)) = true).
  rewrite IH, andb_true_r. apply andb_true_iff. split; apply Hf.
  - apply N.Div0.div_lt_upper_bound. pose proof (N_ascii_bounded a). unfold byte_of. lia.
  - by apply N.mod_lt.
Qed.

Lemma hex_text_ok s : text_ok (hex_EncodeToString s) = true.
Proof.
  assert (Hd : forall f, forallb (fun n => f (hex_digit n)) (N.of_nat <$> seq 0 16) = true ->
                 forall n, (n < 16)%N -> f (hex_digit n) = true).
  { intros f Hf n Hn. rewrite forallb_forall in Hf. apply (Hf n), list_elem_of_In, list_elem_of_fmap.
    exists (N.to_nat n). split; [by rewrite N2Nat.id|]. apply elem_of_seq. lia. }
  unfold text_ok. rewrite ValidString_ascii; [|by apply hex_all, (Hd (fun a => byte_of a <? 128)%N)].
  by apply hex_all, (Hd (fun a => negb (is_byte 0 a))).
Qed.

(** ** Behaviour in any environment *)

Section correctness.
Context `{Postgres, Argon2, Uuid, Jwt}.
Implicit Types (s : AuthService.t).

(** A user found by a condition. *)
Lemma any_user_where e param f w u w' :
  honest_scans e ->
  run e (row <- exec (select_user_where param f) ;; Ret (scanOne row)) w = (Ok u, w') ->
  w_db w' = w_db w /\ f u = true /\ exists id, users (w_db w) !! id = Some u.
Proof.
  intros Hs. rewrite run_bind, run_exec. destruct (exec_op _ e w) as [o w1] eqn:Ho. cbn.
  intros [= Hu <-]. apply exec_read in Ho as [Hw Ho]; [|apply _]. split; [done|].
  destruct o as [[v|]|er]; cbn in Hu; [injection Hu as ->|done|].
  2: { by destruct (errors_Is er pgx_ErrNoRows). }
  specialize (Ho _ eq_refl). apply checked_Ok in Ho as (_ & _ & _ & [= Hh]).
  apply head_Some_elem_of in Hh.
  pose proof (Hs (w_tick w) _ (select f (users (w_db w)))) as Hp.
  apply elem_select. rewrite <- Hp. exact Hh.
Qed.

(** The user holds the role in the tables. *)
Definition holds (u : User.t) (key : string) (d : database) : Prop :=
  exists rid r, roles d !! rid = Some r /\ Role.Key r = key /\ (User.ID u, Role.ID r) ∈ user_roles d.

(** An access token for the user: signed with the manager's secret, for its lifetime. *)
Definition minted (m : Manager.t) (u : User.t) (keys : list string) (raw : string) : Prop :=
  exists now, SignedString HS256
    (Claims.Mk (User.Username u) keys (uuid_String (User.ID u)) (Manager.issuer m)
       (Some (NewNumericDate now)) (Some (NewNumericDate now))
       (Some (NewNumericDate (Add now (Manager.ttl m))))) (Manager.secret m) = Ok raw.

(** The tokens of a user, for the roles that user holds: the only change is the session of the
    refresh token. *)
Definition opened (s : AuthService.t) (u : User.t) (tok : Tokens.t) (d d' : database) : Prop :=
  Tokens.theUser tok = u /\
  (forall key, key ∈ Tokens.Roles tok <-> holds u key d) /\
  minted (AuthService.jwt s) u (Tokens.Roles tok) (Tokens.AccessToken tok) /\
  exists sess now, user_sessions d !! Session.ID sess = None /\
    Session.UserID sess = User.ID u /\
    Session.TokenHash sess = hex_EncodeToString (Sum256 (Tokens.RefreshToken tok)) /\
    Session.ExpiresAt sess = Add now (Config.RefreshTTL (AuthService.cfg s)) /\
    Session.RevokedAt sess = None /\
    d' = set_user_sessions (<[Session.ID sess := sess]> (user_sessions d)) d.

Lemma any_RolesForUser e u w keys w' :
  honest_scans e -> run e (UserStore.RolesForUser (User.ID u)) w = (Ok keys, w') ->
  w_db w' = w_db w /\ forall key, key ∈ keys <-> holds u key (w_db w).
Proof.
  intros Hs. unfold RolesForUser. rewrite run_bind, run_exec.
  destruct (exec_op _ e w) as [o w1] eqn:Ho. cbn. intros [= Hk <-].
  apply exec_read in Ho as [Hw Ho]; [|apply _]. split; [done|].
  destruct o as [l|er]; [injection Hk as ->|done]. specialize (Ho _ eq_refl). injection Ho as Hl.
  intros key. rewrite <- Hl. unfold role_keys. rewrite order_by_Permutation.
  change (sv_scan (server_at e w)) with (env_scan e (w_tick w)).
  rewrite (Hs (w_tick w) _ _), list_elem_of_fmap. unfold holds. split.
  - intros (r & -> & [Hr [rid Hid]]%elem_select). exists rid, r. by rewrite bool_decide_eq_true in Hr.
  - intros (rid & r & Hid & <- & Hr). exists r. split; [done|]. apply elem_select.
    rewrite bool_decide_eq_true. eauto.
Qed.

Lemma any_NewAccessToken e m u keys w raw w' :
  run e (NewAccessToken m (User.ID u) (User.Username u) keys) w = (Ok raw, w') ->
  w_db w' = w_db w /\ minted m u keys raw.
Proof.
  unfold NewAccessToken, issue. intros (now & w1 & Hn & Hr)%run_bind_inv.
  rewrite run_Ret in Hr. injection Hr as Hr <-. split; [|by exists now].
  replace w1 with (run e clock_Now w).2 by by rewrite Hn. apply (db_safe_reads _ _).
Qed.

Lemma any_NewRefreshToken e w raw hash w' :
  run e NewRefreshToken w = (Ok (raw, hash), w') ->
  w_db w' = w_db w /\ hash = hex_EncodeToString (Sum256 raw).
Proof.
  intros Hn. split.
  - replace w' with (run e NewRefreshToken w).2 by by rewrite Hn. apply (db_safe_reads _ _).
  - unfold NewRefreshToken in Hn. apply run_bind_inv in Hn as (buf & w6 & _ & Hn).
    destruct buf; [|done]. by injection Hn as <- <- _.
Qed.

Lemma any_Create_session e ns w sess w' :
  run e (SessionStore.Create ns) w = (Ok sess, w') ->
  user_sessions (w_db w) !! Session.ID sess = None /\
  Session.UserID sess = NewSession.UserID ns /\ Session.TokenHash sess = NewSession.TokenHash ns /\
  Session.ExpiresAt sess = NewSession.ExpiresAt ns /\ Session.RevokedAt sess = None /\
  w_db w' = set_user_sessions (<[Session.ID sess := sess]> (user_sessions (w_db w))) (w_db w).
Proof.
  unfold SessionStore.Create. intros (row & w1 & Hi & Hs)%run_bind_inv. rewrite run_exec in Hi.
  destruct row as [[x|]|er]; [injection Hs as -> <-|done|done].
  apply exec_op_Ok in Hi as (d' & Hi & ->). unfold insert_session in Hi.
  destruct (inet_param _) as [ip'|]; [|done].
  by apply checked_Ok in Hi as (_ & [Hk%negb_true_iff%has_key_false _]%andb_true_iff & _ & [= <- <-]).
Qed.

Lemma any_issueTokens e s u ua ip w tok w' :
  honest_scans e ->
  run e (issueTokens s u ua ip) w = (Ok tok, w') -> opened s u tok (w_db w) (w_db w').
Proof.
  intros Hs. unfold issueTokens. intros (keys & w1 & Hr & Hrun)%run_bindr_Ok.
  apply any_RolesForUser in Hr as [Hw1 Hkeys]; [|done].
  apply run_bind_inv in Hrun as (acc & w2 & Ha & Hrun). destruct acc as [acc|er]; [|done].
  apply any_NewAccessToken in Ha as [Hw2 Hacc].
  apply run_bindr_Ok in Hrun as ([raw hash] & w3 & Hn & Hrun).
  apply any_NewRefreshToken in Hn as [Hw3 Hhash].
  apply run_bind_inv in Hrun as (now & w4 & Hnow & Hrun).
  assert (Hw4 : w_db w4 = w_db w3).
  { replace w4 with (run e clock_Now w3).2 by by rewrite Hnow. apply (db_safe_reads _ _). }
  apply run_bindr_Ok in Hrun as (sess & w5 & Hc & Hrun). injection Hrun as <- <-.
  apply any_Create_session in Hc as (Hk & Hu & Hh & Hx & Hv & Hd).
  rewrite Hw4, Hw3, Hw2, Hw1 in *. split_and!; try done.
  exists sess, now. cbn in *. subst hash. by split_and!.
Qed.

Lemma any_login_user e s u pw ua ip w tok w' :
  honest_scans e -> run e (login_user s u pw ua ip) w = (Ok tok, w') ->
  User.Status u = UserStatusActive /\ Verify pw (User.PasswordHash u) = Some (Ok true) /\
  opened s u tok (w_db w) (w_db w').
Proof.
  intros Hs. unfold login_user. destruct (String.eqb_spec (User.Status u) UserStatusActive); [|done].
  destruct (Verify _ _) as [[[]|er]|] eqn:Hv; [|done..]. intros Hr.
  split_and!; [done|done|]. exact (any_issueTokens _ _ _ _ _ _ _ _ Hs Hr).
Qed.

(** C26: tokens are only issued to who knows the password: in any environment, a [Login] that
    succeeds found an active user whose name or e-mail address is the given identifier up to
    case and whose stored hash verifies the given password; and it changed nothing but to
    open one session for that user, keyed by the digest of the refresh token it hands out, with
    an access token signed for the roles that user holds. *)
Theorem Login_sound e s ident pw ua ip w tok w' :
  honest_scans e -> run e (Login s ident pw ua ip) w = (Ok tok, w') ->
  exists id u, users (w_db w) !! id = Some u /\
    (lower (User.Username u) = lower (TrimSpace ident) \/
     lower (User.Email u) = lower (TrimSpace ident)) /\
    User.Status u = UserStatusActive /\ Verify pw (User.PasswordHash u) = Some (Ok true) /\
    opened s u tok (w_db w) (w_db w').
Proof.
  intros Hs. unfold Login. intros (o & w1 & Ho & Hr)%run_bind_inv. destruct o as [u|er].
  - apply any_user_where in Ho as (Hw1 & Hn%String.eqb_eq & id & Hid); [|done].
    apply any_login_user in Hr as (Ha & Hv & Hop); [|done]. rewrite Hw1 in Hop. exists id, u. auto.
  - assert (Hw1 : w_db w1 = w_db w).
    { replace w1 with (run e (UserStore.GetByUsername (TrimSpace ident)) w).2 by by rewrite Ho.
      apply (db_safe_reads _ _). }
    destruct (errors_Is er store_ErrNotFound); [|done].
    apply run_bind_inv in Hr as (o & w2 & Ho2 & Hr). destruct o as [u|er2]; [|done].
    apply any_user_where in Ho2 as (Hw2 & Hn%String.eqb_eq & id & Hid); [|done].
    apply any_login_user in Hr as (Ha & Hv & Hop); [|done]. rewrite Hw2, Hw1 in *. exists id, u. auto.
Qed.

(** What a registration may add: the account, and its member role. *)
Definition registered (name mail : string) (u : User.t) (d d' : database) : Prop :=
  users d !! User.ID u = None /\
  User.Username u = name /\ User.Email u = mail /\ User.DisplayName u = name /\
  User.Status u = UserStatusActive /\
  d' = set_user_roles (user_roles d') (set_users (<[User.ID u := u]> (users d)) d) /\
  forall p, p ∈ user_roles d' <->
    (exists r, p = (User.ID u, Role.ID r) /\ (exists rid, roles d !! rid = Some r) /\
       Role.Key r = RoleMember) \/ p ∈ user_roles d.

(** A registration that succeeds, in any environment, was given a name of 3 to 32 letters,
    digits and underscores, an address with one @ and a later dot, and a password of at least
    eight bytes, each after trimming; it added exactly one active account under a fresh id,
    with the member role, and the stored hash verifies the trimmed password. *)
Theorem Register_sound `{!Argon2Laws} e s name mail pw w u w' :
  params_ok (AuthService.hasher s) -> run e (Register s name mail pw) w = (Ok u, w') ->
  matches usernameRe (TrimSpace name) = true /\ matches emailRe (TrimSpace mail) = true /\
  (8 <= len (TrimSpace pw))%Z /\
  registered (TrimSpace name) (TrimSpace mail) u (w_db w) (w_db w') /\
  Verify (TrimSpace pw) (User.PasswordHash u) = Some (Ok true).
Proof.
  intros Hp. unfold Register. cbv zeta.
  destruct (matches usernameRe _) eqn:Hn; cbn [negb]; [|done].
  destruct (matches emailRe _) eqn:Hm; cbn [negb]; [|done].
  destruct (Z.ltb_spec (len (TrimSpace pw)) 8) as [|Hl]; [done|].
  intros (o & w1 & Hh & Hr)%run_bind_inv. destruct o as [hash|er]; [|done].
  assert (Hw1 : w_db w1 = w_db w).
  { replace w1 with (run e (Hash (AuthService.hasher s) (TrimSpace pw)) w).2 by by rewrite Hh.
    apply (db_safe_reads _ _). }
  apply Hash_verifies in Hh; [|done].
  apply run_bind_inv in Hr as (o & w2 & Hc & Hr).
  destruct o as [u'|er]; [|by destruct (errors_Is er store_ErrConflict)].
  apply any_Create_user in Hc as (Hk & (now & Hu) & Hd2).
  apply run_bindr_Ok in Hr as ([] & w3 & Ha & Hr). injection Hr as -> <-.
  apply any_AssignRole in Ha as [Hd3 Ha]. rewrite Hw1 in *. rewrite Hd2 in Hd3, Ha.
  split_and!; try done; [|by rewrite Hu].
  unfold registered. rewrite Hu at 2 3 4 5. by split_and!.
Qed.

(** Time does not run backwards. *)
Definition monotone (e : env) : Prop :=
  forall i j, (i <= j)%nat -> (env_now e i <= env_now e j)%Z.

(** No session with the digest [h] is active from the instant [t] on. *)
Definition ended (h : string) (t : time) (d : database) : Prop :=
  forall k x, user_sessions d !! k = Some x -> forall t', (t <= t')%Z -> active h t' x = false.

Lemma refresh_ended e s tok ua ip w :
  no_faults e -> honest_scans e ->
  ended (hex_EncodeToString (Sum256 tok)) (sv_now (server_at e w)) (w_db w) ->
  (run e (Refresh s tok ua ip) w).1 = Err ErrInvalidRefresh.
Proof.
  intros Hf Hs He. unfold Refresh, HashRefreshToken, GetByTokenHash.
  rewrite !run_bind, run_exec, exec_op_no_fault by apply Hf. unfold select_active, checked.
  rewrite hex_text_ok. cbn [negb].
  destruct (sv_scan _ _ _) as [|x l] eqn:Ex; [done|]. exfalso.
  assert (Hx : x ∈ select (active (hex_EncodeToString (Sum256 tok)) (sv_now (server_at e w)))
                     (user_sessions (w_db w))).
  { pose proof (Hs (w_tick w) _ (select (active (hex_EncodeToString (Sum256 tok))
      (sv_now (server_at e w))) (user_sessions (w_db w)))) as Hp.
    rewrite <- Hp. change (env_scan e (w_tick w)) with (sv_scan (server_at e w)).
    rewrite Ex. by left. }
  apply elem_select in Hx as [Ha [k Hk]]. by rewrite (He k x Hk) in Ha by lia.
Qed.

Lemma any_GetByTokenHash e h w ses w' :
  honest_scans e -> run e (GetByTokenHash h) w = (Ok ses, w') ->
  w_db w' = w_db w /\ active h (sv_now (server_at e w)) ses = true /\
  exists sid, user_sessions (w_db w) !! sid = Some ses.
Proof.
  intros Hs. unfold GetByTokenHash. intros (o & w1 & Ho & Hr)%run_bind_inv. rewrite run_exec in Ho.
  apply exec_read in Ho as [Hw Ho]; [|apply _].
  destruct o as [[x|]|er]; cbn in Hr; [injection Hr as -> <-|done|by destruct (errors_Is er _)].
  split; [done|]. specialize (Ho _ eq_refl). apply checked_Ok in Ho as (_ & _ & _ & [= Hh]).
  apply head_Some_elem_of in Hh. apply elem_select.
  rewrite <- (Hs (w_tick w) _ (select _ _)). exact Hh.
Qed.

Lemma any_GetByID_user e id w u w' :
  run e (UserStore.GetByID id) w = (Ok u, w') -> w_db w' = w_db w /\ users (w_db w) !! id = Some u.
Proof.
  unfold UserStore.GetByID. intros (o & w1 & Ho & Hr)%run_bind_inv. rewrite run_exec in Ho.
  apply exec_read in Ho as [Hw Ho]; [|apply _]. rewrite run_Ret in Hr. injection Hr as Hr <-.
  split; [done|]. destruct o as [[x|]|er]; cbn in Hr; [injection Hr as ->|done|].
  - specialize (Ho _ eq_refl). by injection Ho.
  - by destruct (errors_Is er _).
Qed.

Lemma any_Revoke e id t w w' :
  run e (Revoke id t) w = (Ok tt, w') ->
  exists ses, user_sessions (w_db w) !! id = Some ses /\ Session.RevokedAt ses = None /\
    w_db w' = set_user_sessions (<[id := with_revoked t ses]> (user_sessions (w_db w))) (w_db w).
Proof.
  unfold Revoke. intros (o & w1 & Ho & Hr)%run_bind_inv. rewrite run_exec in Ho.
  destruct o as [n|er]; [|done]. apply exec_op_Ok in Ho as (d' & Ho & ->). unfold update_unrevoked in Ho.
  destruct (user_sessions (w_db w) !! id) as [ses|]; [|by injection Ho as <- <-].
  destruct (Session.RevokedAt ses) eqn:Hrev; injection Ho as <- <-; [done|].
  injection Hr as <-. by exists ses.
Qed.

(** C29: rotation: in any environment, a [Refresh] that succeeds was given a token whose digest is
    that of an unrevoked session that has not expired, of a user who is still active; it
    revoked that session, and otherwise only opened one new session for the same user, with an
    access token for the roles the user holds now. *)
Theorem Refresh_sound e s raw ua ip w tok w' :
  honest_scans e -> db_ok (w_db w) -> run e (Refresh s raw ua ip) w = (Ok tok, w') ->
  exists ses over u,
    user_sessions (w_db w) !! Session.ID ses = Some ses /\
    active (hex_EncodeToString (Sum256 raw)) (sv_now (server_at e w)) ses = true /\
    users (w_db w) !! Session.UserID ses = Some u /\ User.Status u = UserStatusActive /\
    is_Some (Session.RevokedAt over) /\ Session.TokenHash over = Session.TokenHash ses /\
    opened s u tok
      (set_user_sessions (<[Session.ID ses := over]> (user_sessions (w_db w))) (w_db w)) (w_db w').
Proof.
  intros Hs Hd. unfold Refresh, HashRefreshToken. intros (o & w1 & Ho & Hr)%run_bind_inv.
  destruct o as [ses|er]; [|by destruct (errors_Is er _)].
  apply any_GetByTokenHash in Ho as (Hw1 & Hact & sid & Hses); [|done].
  assert (Hid : Session.ID ses = sid) by by apply (ok_sessions _ Hd). subst sid.
  apply run_bind_inv in Hr as (o & w2 & Ho & Hr). destruct o as [u|er].
  2: { destruct (errors_Is er _); [|done].
       apply run_bind_inv in Hr as (now & w3 & _ & Hr). by apply run_bind_inv in Hr as (? & ? & _ & ?). }
  apply any_GetByID_user in Ho as [Hw2 Hu].
  destruct (String.eqb_spec (User.Status u) UserStatusActive) as [Hst|]; [|done]. cbn [negb] in Hr.
  apply run_bind_inv in Hr as (now & w3 & Hnow & Hr).
  assert (Hw3 : w_db w3 = w_db w2).
  { replace w3 with (run e clock_Now w2).2 by by rewrite Hnow. apply (db_safe_reads _ _). }
  apply run_bindr_Ok in Hr as ([] & w4 & Hv & Hr). apply any_Revoke in Hv as (ses' & Hses' & _ & Hw4).
  apply any_issueTokens in Hr; [|done]. rewrite Hw3, Hw2, Hw1 in *.
  rewrite Hses in Hses'. injection Hses' as <-. exists ses, (with_revoked now ses), u.
  rewrite <- Hw4. by split_and!.
Qed.

(** After a logout the refresh token is dead: any later refresh with it is answered
    [ErrInvalidRefresh]. *)
Theorem Logout_ends_session e s tok ua ip w r w1 w2 :
  no_faults e -> honest_scans e -> monotone e -> db_ok (w_db w) -> w_tx w = None ->
  run e (Logout tok) w = (r, w1) ->
  w_db w2 = w_db w1 -> (w_tick w1 <= w_tick w2)%nat -> w_tx w2 = None ->
  r = Ok tt /\ (run e (Refresh s tok ua ip) w2).1 = Err ErrInvalidRefresh.
Proof.
  intros Hf Hs Hmon Hd Htx Hr Hw2 Htick Htx2.
  set (h := hex_EncodeToString (Sum256 tok)) in *.
  assert (Hall : r = Ok tt /\ w_tick w <= w_tick w1 /\ ended h (sv_now (server_at e w)) (w_db w1)).
  { revert Hr. unfold Logout, HashRefreshToken, GetByTokenHash. fold h.
    rewrite !run_bind, run_exec, exec_op_no_fault by apply Hf. unfold select_active, checked.
    unfold h at 1. rewrite hex_text_ok. fold h. cbn [negb].
    pose proof (Hs (w_tick w) _ (select (active h (sv_now (server_at e w))) (user_sessions (w_db w)))) as Hp.
    change (env_scan e (w_tick w)) with (sv_scan (server_at e w)) in Hp.
    destruct (sv_scan _ _ _) as [|x l] eqn:Ex.
    - intros [= <- <-]. split; [done|]. split; [cbn; lia|]. intros k x Hk t' Ht'.
      cbn in Hk. unfold active. destruct (String.eqb_spec (Session.TokenHash x) h) as [Hh|]; [|done].
      destruct (Session.RevokedAt x) eqn:Hrev; [done|]. apply Z.ltb_ge. cbn.
      assert (Hn : active h (sv_now (server_at e w)) x = false).
      { apply not_true_iff_false. intros Ha.
        assert (Hin : x ∈ select (active h (sv_now (server_at e w))) (user_sessions (w_db w)))
          by (apply elem_select; eauto).
        rewrite <- Hp in Hin. by apply not_elem_of_nil in Hin. }
      unfold active in Hn. rewrite Hh, String.eqb_refl, Hrev in Hn. cbn in Hn.
      apply Z.ltb_ge in Hn. cbn in Ht'. lia.
    - assert (Hx : x ∈ select (active h (sv_now (server_at e w))) (user_sessions (w_db w)))
        by (rewrite <- Hp; by left).
      apply elem_select in Hx as [Ha [k Hk]].
      assert (Hid : Session.ID x = k) by by apply (ok_sessions _ Hd).
      cbn [head Scan]. rewrite run_ret, run_bind. cbn [clock_Now run]. unfold Revoke.
      rewrite !run_bind, run_exec, exec_op_no_fault by apply Hf. unfold update_unrevoked.
      cbn. rewrite Hid, Hk. unfold active in Ha.
      destruct (Session.RevokedAt x) eqn:Hrev; [by rewrite andb_false_r in Ha|].
      cbn. intros [= <- <-]. split; [done|]. split; [cbn; lia|]. intros j y. cbn.
      rewrite lookup_insert_Some. intros [[<- <-]|[Hne Hj]] t' _; unfold active; [by rewrite andb_false_r|].
      destruct (String.eqb_spec (Session.TokenHash y) h) as [Hy|]; [|done]. exfalso. apply Hne.
      apply (ok_sessions_hash _ Hd k j x y); [done|done|].
      apply andb_true_iff in Ha as [[Hx%String.eqb_eq _]%andb_true_iff _]. congruence. }
  destruct Hall as (Hok & Ht1 & He). split; [done|].
  apply refresh_ended; [done|done|]. fold h. rewrite Hw2. intros k x Hk t' Ht'. apply (He k x Hk).
  cbn in *. rewrite Htx, Htx2 in *. pose proof (Hmon (w_tick w) (w_tick w2) ltac:(lia)). lia.
Qed.

End correctness.

(** ** Examples *)

(** Cheap parameters: 16 KiB, one pass, one lane. *)
Definition sample_params : Params.t := Params.Mk 16 1 1 4 16.
Definition sample_auth : AuthService.t := AuthService.Mk sample_params sample_manager sample_config.

Lemma sample_params_ok : params_ok sample_params.
Proof. vm_compute. repeat split; discriminate. Qed.

Section examples.
#[local] Existing Instances ascii_server plain_argon2 plain_argon2_laws decimal_uuid open_jwt.

(** Carol has registered with the given password. *)
Definition carol (pw : string) : result User.t * world :=
  run calm (Register sample_auth "carol" "carol@example.org" pw) (world_of sample).

(** The password is trimmed when an account is made but not when it is used: whoever registers
    with blanks around the password cannot log in with the password they chose. *)
Theorem Register_trims_password :
  is_ok (carol " password1 ").1 = true /\
  (run calm (Login sample_auth "carol" " password1 " "" "10.0.0.1:5000") (carol " password1 ").2).1
    = Err ErrInvalidCredentials /\
  is_ok (run calm (Login sample_auth "carol" "password1" "" "10.0.0.1:5000")
           (carol " password1 ").2).1 = true.
Proof. vm_compute. split_and!; reflexivity. Qed.

Lemma Register_sound_witness :
  exists u, (carol "password1").1 = Ok u /\
    Verify "password1" (User.PasswordHash u) = Some (Ok true).
Proof.
  pose (u := match (carol "password1").1 with
             | Ok u => u | Err _ => User.Mk 0%N "" "" "" "" "" "" 0 0 None end).
  exists u. split; [by vm_compute|].
  destruct (Register_sound calm sample_auth "carol" "carol@example.org"
    "password1" (world_of sample) u (carol "password1").2 sample_params_ok)
    as (_ & _ & _ & _ & H); [by vm_compute|exact H].
Defined.

Definition carol_in : result Tokens.t * world :=
  run calm (Login sample_auth "CAROL" "password1" "" "10.0.0.1:5000") (carol "password1").2.
Definition carol_tokens : Tokens.t :=
  match carol_in.1 with
  | Ok t => t | Err _ => Tokens.Mk "" "" (User.Mk 0%N "" "" "" "" "" "" 0 0 None) [] end.

Lemma carol_in_Ok : carol_in = (Ok carol_tokens, carol_in.2).
Proof. by vm_compute. Qed.

Lemma Login_sound_witness :
  exists id u, users (w_db (carol "password1").2) !! id = Some u /\
    Verify "password1" (User.PasswordHash u) = Some (Ok true) /\
    opened sample_auth u carol_tokens (w_db (carol "password1").2) (w_db carol_in.2).
Proof.
  destruct (Login_sound calm sample_auth "CAROL" "password1" "" "10.0.0.1:5000" (carol "password1").2
    carol_tokens carol_in.2 calm_honest_scans carol_in_Ok) as (id & u & Hu & _ & _ & Hv & Ho).
  exists id, u. split; [exact Hu|]. split; [exact Hv|exact Ho].
Defined.

(** Carol refreshes. *)
Definition carol_again : result Tokens.t * world :=
  run calm (Refresh sample_auth (Tokens.RefreshToken carol_tokens) "" "10.0.0.1:5000") carol_in.2.

Definition fresh_tokens : Tokens.t :=
  match carol_again.1 with Ok t => t | Err _ => carol_tokens end.

Lemma carol_again_Ok :
  run calm (Refresh sample_auth (Tokens.RefreshToken carol_tokens) "" "10.0.0.1:5000") carol_in.2
  = (Ok fresh_tokens, carol_again.2).
Proof. by vm_compute. Qed.

Lemma carol_in_db_ok : db_ok (w_db carol_in.2).
Proof. by apply db_okb_true; vm_compute. Qed.

Lemma Refresh_sound_witness :
  exists ses over u, is_ok carol_again.1 = true /\ is_Some (Session.RevokedAt over) /\
    Session.TokenHash ses = hex_EncodeToString (Sum256 (Tokens.RefreshToken carol_tokens)) /\
    opened sample_auth u fresh_tokens
      (set_user_sessions (<[Session.ID ses := over]> (user_sessions (w_db carol_in.2)))
         (w_db carol_in.2)) (w_db carol_again.2).
Proof.
  destruct (Refresh_sound calm sample_auth (Tokens.RefreshToken carol_tokens) "" "10.0.0.1:5000"
    carol_in.2 fresh_tokens carol_again.2 calm_honest_scans carol_in_db_ok carol_again_Ok)
    as (ses & over & u & _ & Ha & _ & _ & Hover & _ & Ho).
  exists ses, over, u. split; [by vm_compute|]. split; [exact Hover|]. split; [|exact Ho].
  unfold active in Ha. apply andb_true_iff in Ha as [[Hh%String.eqb_eq _]%andb_true_iff _]. exact Hh.
Defined.

Lemma calm_monotone : monotone calm.
Proof. intros i j Hij. cbn. lia. Qed.

Lemma Logout_ends_session_witness :
  let out := run calm (Logout (Tokens.RefreshToken carol_tokens)) carol_in.2 in
  is_ok (run calm (Refresh sample_auth (Tokens.RefreshToken carol_tokens) "" "") carol_in.2).1 = true /\
  (run calm (Refresh sample_auth (Tokens.RefreshToken carol_tokens) "" "") out.2).1
    = Err ErrInvalidRefresh.
Proof.
  intros out. split; [by vm_compute|].
  apply (Logout_ends_session calm sample_auth (Tokens.RefreshToken carol_tokens) "" ""
    carol_in.2 out.1 out.2 out.2 calm_no_faults calm_honest_scans calm_monotone carol_in_db_ok);
    [reflexivity|apply surjective_pairing|reflexivity|reflexivity|by vm_compute].
Defined.

End examples.
