(* ===== verification/AdminService.v ===== *)
(** * Administration service (internal/services/admin.go) *)
From S2P Require Import Prelude GoStrings GoErrors Models GoJson Db Prog Concrete Roles UserStore.
From S2P Require Import SettingsStore AttachmentStore.
Local Open Scope mc_scope.

Definition allowedRoles : list string := [RoleAdmin; RoleModerator; RoleMember].
Definition allowedStatus : list string := [UserStatusActive; UserStatusBanned; UserStatusPending].
Definition maxForumName : Z := 100.

(** The keys of internal/services/install.go *)
Definition keyInstalled : string := "system.installed".
Definition keyForumName : string := "forum.name".

Definition mapUserErr (err : error) : error :=
  if errors_Is err store_ErrNotFound then ErrUserNotFound
  else if errors_Is err store_ErrConflict then ErrConflict
  else err.

Section service.
Context `{Postgres, Unicode}.

(** ListUsers returns a page of users with their roles. *)
Definition ListUsers (limit offset : Z) : prog (result (list UserWithRoles.t * Z)) :=
  UserStore.List limit offset.

(** The status change of [UpdateUser] (lines 42-49). *)
Definition apply_status (id : uuid) (status : option string) : prog (result unit) :=
  match status with
  | None => ret tt
  | Some status =>
    if negb (existsb (String.eqb status) allowedStatus) then fail ErrInvalidInput else
    r <- UserStore.UpdateStatus id status ;;
    match r with
    | Err err => fail (mapUserErr err)
    | Ok _ => ret tt
    end
  end.

(** The role change of [UpdateUser] (lines 50-66). *)
Definition apply_roles (id : uuid) (roles : option (list string)) : prog (result unit) :=
  match roles with
  | None => ret tt
  | Some roles =>
    if (length roles =? 0)%nat then fail ErrInvalidInput
    else if existsb (fun r => negb (existsb (String.eqb (ToLower unicode_lower r)) allowedRoles))
              roles
    then fail ErrInvalidInput
    else
    r <- UserStore.UpdateRoles id (ToLower unicode_lower <$> roles) ;;
    match r with
    | Err err => fail (mapUserErr err)
    | Ok _ => ret tt
    end
  end.

(** UpdateUser applies role and/or status changes. Returns the updated user. *)
Definition UpdateUser (id : uuid) (roles : option (list string)) (status : option string)
    : prog (result UserWithRoles.t) :=
  _ <-? apply_status id status ;;
  _ <-? apply_roles id roles ;;
  u <- UserStore.GetByID id ;;
  match u with
  | Err err => fail (mapUserErr err)
  | Ok u =>
    rolesList <-? UserStore.RolesForUser id ;;
    ret (UserWithRoles.Mk u rolesList)
  end.

(** ListMedia returns a page of attachments with owner usernames. *)
Definition ListMedia (limit offset : Z) : prog (result (list AttachmentWithOwner.t * Z)) :=
  AttachmentStore.List limit offset.

(** GetSettings returns the current forum settings: the forum name, empty when it cannot be
    read. *)
Definition GetSettings : prog (result string) :=
  raw <- SettingsStore.Get keyForumName ;;
  match raw with
  | Err _ => ret ""
  | Ok raw => match Unmarshal_string raw with Ok name => ret name | Err _ => ret "" end
  end.

(** UpdateSettings validates and persists forum settings. *)
Definition UpdateSettings (forumName : string) : prog (result string) :=
  let name := TrimSpace forumName in
  if String.eqb name "" || (maxForumName <? RuneCountInString name)%Z then fail ErrInvalidInput
  else
  _ <-? SettingsStore.Set_ keyForumName (JString name) ;;
  ret name.

#[export] Instance ListUsers_safe J l o : DbSafe J (ListUsers l o).
Proof. unfold ListUsers. apply _. Qed.
#[export] Instance apply_status_safe id st : DbSafe db_ok (apply_status id st).
Proof. unfold apply_status. apply _. Qed.
#[export] Instance apply_roles_safe id rs : DbSafe db_ok (apply_roles id rs).
Proof. unfold apply_roles. apply _. Qed.
#[export] Instance UpdateUser_safe id rs st : DbSafe db_ok (UpdateUser id rs st).
Proof. unfold UpdateUser. apply _. Qed.
#[export] Instance ListMedia_safe J l o : DbSafe J (ListMedia l o).
Proof. unfold ListMedia. apply _. Qed.
#[export] Instance GetSettings_safe J : DbSafe J GetSettings.
Proof. unfold GetSettings. apply _. Qed.
#[export] Instance UpdateSettings_safe n : DbSafe db_ok (UpdateSettings n).
Proof. unfold UpdateSettings. apply _. Qed.

End service.

(** ** Correctness *)

Section correctness.
Context `{Postgres}.

(** Forum settings: a name that is stored is what is read back afterwards, trimmed; bytes that
    are not valid UTF-8 come back as U+FFFD although the update answered them unchanged. *)
Theorem settings_roundtrip e name w n w1 :
  no_faults e -> run e (UpdateSettings name) w = (Ok n, w1) ->
  n = TrimSpace name /\ n <> "" /\ (RuneCountInString n <= maxForumName)%Z /\
  (run e GetSettings w1).1 = Ok (coerce_utf8 n) /\
  (ValidString n = true -> (run e GetSettings w1).1 = Ok n).
Proof.
  intros Hf Hr. unfold UpdateSettings in Hr.
  destruct (String.eqb_spec (TrimSpace name) "") as [|Hne]; [done|].
  destruct (Z.ltb_spec maxForumName (RuneCountInString (TrimSpace name))) as [|Hl]; [done|].
  apply run_bindr_Ok in Hr as ([] & w2 & Hs & Hr). injection Hr as <- <-.
  apply any_Set in Hs as (t & Hd).
  assert (Hget : (run e GetSettings w2).1 = Ok (coerce_utf8 (TrimSpace name))).
  { unfold GetSettings, Get. rewrite !run_bind, run_exec, exec_op_no_fault by apply Hf.
    unfold select_setting. rewrite Hd. cbn. by rewrite lookup_insert_eq. }
  split_and!; try done. intros Hv. by rewrite Hget, coerce_utf8_valid.
Qed.

End correctness.

Section half.
#[local] Existing Instances ascii_server ascii_unicode.

(** An update of a user is not atomic: the status is stored before the roles are looked at, so
    a request with an unknown role is answered [ErrInvalidInput] and yet bans the user. *)
Theorem UpdateUser_half :
  let out := run calm (UpdateUser bob (Some ["owner"]) (Some UserStatusBanned)) (world_of sample) in
  out.1 = Err ErrInvalidInput /\
  User.Status <$> users sample !! bob = Some UserStatusActive /\
  User.Status <$> users (w_db out.2) !! bob = Some UserStatusBanned.
Proof. vm_compute. split_and!; reflexivity. Qed.

Lemma settings_roundtrip_witness :
  (run calm GetSettings (run calm (UpdateSettings " The Lodge ") (world_of sample)).2).1
  = Ok "The Lodge".
Proof.
  destruct (settings_roundtrip calm " The Lodge " (world_of sample) "The Lodge"
    (run calm (UpdateSettings " The Lodge ") (world_of sample)).2 calm_no_faults)
    as (_ & _ & _ & _ & H); [by vm_compute|]. apply H. by vm_compute.
Defined.

End half.
