(* ===== verification/InstallService.v ===== *)
(** * First-run setup (internal/services/install.go) *)
From S2P Require Import Prelude GoStrings Regexp GoErrors Models GoJson Db Prog Concrete Password.
From S2P Require Import UserStore SettingsStore AuthService AdminService.
Local Open Scope mc_scope.

Module InstallStatus.
Record t := Mk { Installed : bool; ForumName : option string }.
End InstallStatus.

Module InstallInput.
Record t := Mk { ForumName : string; AdminUsername : string; AdminEmail : string;
  AdminPassword : string }.
End InstallInput.

(** The tail of [Status]: the forum name, when one is stored. *)
Definition status_name (installed : bool) : prog (result InstallStatus.t) :=
  name <- SettingsStore.Get keyForumName ;;
  match name with
  | Ok raw =>
    match Unmarshal_string raw with
    | Err err => fail err
    | Ok forumName => ret (InstallStatus.Mk installed (Some forumName))
    end
  | Err err => if negb (errors_Is err store_ErrNotFound) then fail err
               else ret (InstallStatus.Mk installed None)
  end.

(** Status reports the current installation state. *)
Definition Status : prog (result InstallStatus.t) :=
  raw <- SettingsStore.Get keyInstalled ;;
  match raw with
  | Ok raw =>
    match Unmarshal_bool raw with
    | Err err => fail err
    | Ok installed => status_name installed
    end
  | Err err => if negb (errors_Is err store_ErrNotFound) then fail err else status_name false
  end.

(** The checks of [Setup] on the trimmed input. *)
Definition setup_invalid (forum username email password : string) : bool :=
  (String.eqb forum "" || (100 <? RuneCountInString forum)%Z)
  || (len password <? 8)%Z
  || ((RuneCountInString username <? 3)%Z || (32 <? RuneCountInString username)%Z
      || negb (matches usernameRe username))
  || negb (matches emailRe email).

Section service.
Context `{Postgres, Argon2}.

(** Setup creates the first admin and marks the forum installed. *)
Definition Setup (hasher : Params.t) (inp : InstallInput.t) : prog (result User.t) :=
  st <-? Status ;;
  if InstallStatus.Installed st then fail ErrAlreadyInstalled else
  let forum := TrimSpace (InstallInput.ForumName inp) in
  let username := TrimSpace (InstallInput.AdminUsername inp) in
  let email := TrimSpace (InstallInput.AdminEmail inp) in
  if setup_invalid forum username email (InstallInput.AdminPassword inp)
  then fail ErrInvalidInput else
  hash <-? Hash hasher (InstallInput.AdminPassword inp) ;;
  user <- UserStore.Create (NewUser.Mk username email hash username) ;;
  match user with
  | Err err => if errors_Is err store_ErrConflict then fail ErrConflict else fail err
  | Ok user =>
    _ <-? UserStore.AddMemberRole (User.ID user) ;;
    _ <-? UserStore.AssignRole (User.ID user) RoleAdmin ;;
    _ <-? SettingsStore.Set_ keyInstalled (JBool true) ;;
    _ <-? SettingsStore.Set_ keyForumName (JString forum) ;;
    ret user
  end.

#[export] Instance Status_safe J : DbSafe J Status.
Proof. unfold Status, status_name. apply _. Qed.
#[export] Instance Setup_safe h i : DbSafe db_ok (Setup h i).
Proof. unfold Setup. apply _. Qed.

End service.

(** ** Correctness *)

Section correctness.
Context `{Postgres, Argon2}.

Definition installed (d : database) : Prop :=
  exists row, settings d !! keyInstalled = Some row /\ set_value row = JBool true.

(** [Status] in any environment tells the truth or fails. *)
Lemma any_Status e w st w' :
  run e Status w = (Ok st, w') -> w_db w' = w_db w /\ (InstallStatus.Installed st = true <-> installed (w_db w)).
Proof.
  intros Hr. split.
  { replace w' with (run e Status w).2 by by rewrite Hr. apply db_safe_reads, _. }
  revert Hr. unfold Status. intros (o & w1 & Ho & Hr)%run_bind_inv.
  apply any_Get in Ho as (Hw1 & Hok & Hnone). unfold installed.
  assert (Hst : forall b, run e (status_name b) w1 = (Ok st, w') -> InstallStatus.Installed st = b).
  { intros b. unfold status_name. intros (o' & w2 & _ & Hr')%run_bind_inv.
    destruct o' as [raw|er].
    - destruct (Unmarshal_string raw); injection Hr'; intros; by subst.
    - destruct (negb _); [done|]. injection Hr'; intros; by subst. }
  destruct o as [raw|er].
  - destruct (Hok raw eq_refl) as (row & Hrow & Hv). rewrite Hrow.
    destruct raw as [b| |]; [|done|done]. cbn in Hr. rewrite (Hst b Hr).
    split; [intros ->; by exists row|]. intros (row' & [= <-] & Hv'). congruence.
  - destruct (errors_Is er store_ErrNotFound) eqn:En; [|done]. cbn in Hr.
    rewrite (Hst false Hr), (Hnone er eq_refl En). split; [done|]. by intros (? & ? & _).
Qed.

(** Setup on an installed forum refuses, whatever happens. *)
Lemma Setup_refused e h inp w :
  installed (w_db w) ->
  (forall u, (run e (Setup h inp) w).1 <> Ok u) /\ w_db (run e (Setup h inp) w).2 = w_db w.
Proof.
  intros Hi. unfold Setup. rewrite run_bindr. destruct (run e Status w) as [[st|er] w1] eqn:Hs.
  - apply any_Status in Hs as [Hw1 Hst]. by rewrite (proj2 Hst Hi).
  - split; [done|]. change w1 with (snd (@Err InstallStatus.t er, w1)). rewrite <- Hs.
    apply db_safe_reads, _.
Qed.

(** C36: installation happens once: a successful [Setup], in any environment, ran on a forum that
    was not installed, validated its input, added exactly its administrator (with the admin and
    member roles) and marked the forum installed under the given name; and every later [Setup],
    by whatever process, on a forum so marked fails without effect. *)
Theorem Setup_once e h inp w u w' :
  run e (Setup h inp) w = (Ok u, w') ->
  ~ installed (w_db w) /\ installed (w_db w') /\
  setup_invalid (TrimSpace (InstallInput.ForumName inp)) (TrimSpace (InstallInput.AdminUsername inp))
    (TrimSpace (InstallInput.AdminEmail inp)) (InstallInput.AdminPassword inp) = false /\
  users (w_db w) !! User.ID u = None /\
  users (w_db w') = <[User.ID u := u]> (users (w_db w)) /\
  User.Username u = TrimSpace (InstallInput.AdminUsername inp) /\
  (forall rid r, roles (w_db w) !! rid = Some r -> Role.Key r = RoleAdmin \/ Role.Key r = RoleMember ->
     (User.ID u, Role.ID r) ∈ user_roles (w_db w')) /\
  (forall e' h' inp' w2, installed (w_db w2) ->
     (forall v, (run e' (Setup h' inp') w2).1 <> Ok v) /\
     w_db (run e' (Setup h' inp') w2).2 = w_db w2).
Proof.
  intros (st & w1 & Hs & Hr)%run_bindr_Ok. apply any_Status in Hs as [Hw1 Hst].
  destruct (InstallStatus.Installed st) eqn:Hi; [done|].
  cbv zeta in Hr. destruct (setup_invalid _ _ _ _) eqn:Hv; [discriminate Hr|].
  apply run_bindr_Ok in Hr as (hash & w2 & Hh & Hr).
  assert (Hw2 : w_db w2 = w_db w1).
  { replace w2 with (run e (Hash h (InstallInput.AdminPassword inp)) w1).2 by by rewrite Hh.
    apply db_safe_reads, _. }
  apply run_bind_inv in Hr as (o & w3 & Hc & Hr).
  destruct o as [u'|er]; [|by destruct (errors_Is er store_ErrConflict)].
  apply any_Create_user in Hc as (Hk & (now & Hu) & Hd3).
  apply run_bindr_Ok in Hr as ([] & w4 & Hm & Hr). apply any_AssignRole in Hm as [Hd4 Hm].
  apply run_bindr_Ok in Hr as ([] & w5 & Ha & Hr). apply any_AssignRole in Ha as [Hd5 Ha].
  apply run_bindr_Ok in Hr as ([] & w6 & Hs1 & Hr). apply any_Set in Hs1 as (t1 & Hd6).
  apply run_bindr_Ok in Hr as ([] & w7 & Hs2 & Hr). apply any_Set in Hs2 as (t2 & Hd7).
  injection Hr as -> <-. rewrite Hw2, Hw1 in *.
  split; [intros Hin; by apply Hst in Hin|]. split.
  { exists (SettingRow (JBool true) t1). rewrite Hd7, Hd6. cbn. by rewrite lookup_insert_ne, lookup_insert_eq. }
  split; [done|]. split; [done|]. split; [rewrite Hd7, Hd6; cbn; by rewrite Hd5, Hd4, Hd3|].
  split; [by rewrite Hu|]. split; [|intros; by apply Setup_refused].
  intros rid r Hrid Hkey. rewrite Hd7, Hd6. cbn.
  assert (Hr4 : roles (w_db w3) = roles (w_db w)) by by rewrite Hd3.
  assert (Hr5 : roles (w_db w4) = roles (w_db w)) by by rewrite Hd4.
  destruct Hkey as [Hkey|Hkey].
  - apply Ha. left. exists r. rewrite Hr5. eauto.
  - apply Ha. right. apply Hm. left. exists r. rewrite Hr4. eauto.
Qed.

End correctness.

(** ** Installing twice at once *)

Section race.
#[local] Existing Instances ascii_server plain_argon2.

Definition fresh : world := world_of (migrated 11%N 12%N 13%N).
Definition setup_as (name mail : string) : InstallInput.t :=
  InstallInput.Mk "Forum" name mail "hunter2hunter2".

(** The check and the mark are separate statements: two setups that run at once on a new
    forum can both succeed, and leave two administrators. *)
Theorem Setup_race :
  match run_sched calm [0; 0; 1; 1; 0; 0; 0; 0; 0; 0; 1; 1; 1; 1; 1; 1]
      ([Setup DefaultParams (setup_as "root" "root@example.org");
        Setup DefaultParams (setup_as "mallory" "mallory@example.org")], fresh) with
  | ([Ret (Ok u); Ret (Ok v)], w) =>
      User.Username u = "root" /\ User.Username v = "mallory" /\
      (User.ID u, 11%N) ∈ user_roles (w_db w) /\ (User.ID v, 11%N) ∈ user_roles (w_db w) /\
      Role.Key <$> roles (w_db w) !! 11%N = Some RoleAdmin
  | _ => False
  end.
Proof. vm_compute. split_and!; done. Qed.

Lemma Setup_once_witness :
  let out := run calm (Setup DefaultParams (setup_as "root" "root@example.org")) fresh in
  is_ok out.1 = true /\ installed (w_db out.2) /\
  w_db (run calm (Setup DefaultParams (setup_as "eve" "eve@example.org")) out.2).2 = w_db out.2.
Proof.
  intros out. split; [by vm_compute|].
  pose (u := match out.1 with Ok u => u | Err _ => User.Mk 0%N "" "" "" "" "" "" 0 0 None end).
  assert (Ho : run calm (Setup DefaultParams (setup_as "root" "root@example.org")) fresh
               = (Ok u, out.2)) by by vm_compute.
  destruct (Setup_once calm DefaultParams (setup_as "root" "root@example.org") fresh u out.2 Ho)
    as (_ & Hi & _ & _ & _ & _ & _ & Hlater).
  split; [exact Hi|]. by apply Hlater.
Defined.

End race.
