(* ===== verification/MessageService.v ===== *)
(** * Messages and notifications (internal/services/message.go) *)
From S2P Require Import Prelude GoStrings GoErrors Models GoJson Db Prog Concrete UserStore Jwt.
From S2P Require Import MessageStore NotificationStore.
Local Open Scope mc_scope.

Definition maxPMBodyLength : Z := 10000.
Definition notifTypePM : string := "pm".

Definition maxPreview : nat := 80.
(** [preview] cuts after 80 bytes. *)
Definition preview (s : string) : string :=
  if (len s <=? Z.of_nat maxPreview)%Z then s else str_take maxPreview s +:+ "…".

Section service.
Context `{Postgres, Uuid}.

(** Send delivers a private message. *)
Definition Send (sender recipient : uuid) (body : string) : prog (result PrivateMessage.t) :=
  if N.eqb sender recipient then fail ErrInvalidInput else
  let body := TrimSpace body in
  if String.eqb body "" || (maxPMBodyLength <? RuneCountInString body)%Z
  then fail ErrInvalidInput else
  r <- UserStore.GetByID recipient ;;
  match r with
  | Err err => if errors_Is err store_ErrNotFound then fail ErrUserNotFound else fail err
  | Ok _ => MessageStore.Send (NewPrivateMessage.Mk sender recipient body)
  end.

(** Conversation returns the thread between two users, oldest first. *)
Definition Conversation (a b : uuid) (limit offset : Z)
    : prog (result (list PMConversation.t * Z)) := MessageStore.Conversation a b limit offset.

(** Inbox returns the latest message per conversation, newest first. *)
Definition Inbox (userID : uuid) (limit offset : Z)
    : prog (result (list PMConversation.t * Z)) := MessageStore.Inbox userID limit offset.

(** [store.ErrNotFound] becomes [ErrNotFound]. *)
Definition map_not_found (p : prog (result unit)) : prog (result unit) :=
  r <- p ;;
  match r with
  | Err err => if errors_Is err store_ErrNotFound then fail ErrNotFound else fail err
  | Ok _ => ret tt
  end.

(** MarkRead marks a message read for its recipient. *)
Definition MarkRead (id recipient : uuid) : prog (result unit) :=
  map_not_found (MessageStore.MarkRead id recipient).

(** UnreadCount returns the number of unread messages for the user. *)
Definition UnreadCount (userID : uuid) : prog (result Z) := MessageStore.CountUnread userID.

#[export] Instance map_not_found_safe J p : DbSafe J p -> DbSafe J (map_not_found p).
Proof. intros ?. unfold map_not_found. apply _. Qed.
#[export] Instance Send_safe a b t : DbSafe db_ok (Send a b t).
Proof. unfold Send. apply _. Qed.
#[export] Instance Conversation_safe J a b l o : DbSafe J (Conversation a b l o).
Proof. unfold Conversation. apply _. Qed.
#[export] Instance Inbox_safe J u l o : DbSafe J (Inbox u l o).
Proof. unfold Inbox. apply _. Qed.
#[export] Instance MarkRead_safe id u : DbSafe db_ok (MarkRead id u).
Proof. unfold MarkRead. apply _. Qed.
#[export] Instance UnreadCount_safe J u : DbSafe J (UnreadCount u).
Proof. unfold UnreadCount. apply _. Qed.

End service.

Module Notifications.
Section service.
Context `{Postgres, Uuid}.

(** The JSON object of a received message; [json.Marshal] writes a map's keys in order. *)
Definition pm_payload (msg : PrivateMessage.t) : json :=
  Marshal (JObject
    [("message_id", JString (uuid_String (PrivateMessage.ID msg)));
     ("preview", JString (preview (PrivateMessage.Body msg)));
     ("sender_id", JString (uuid_String (PrivateMessage.SenderID msg)))]).

(** OnPrivateMessage records a notification for a received PM and returns it. *)
Definition OnPrivateMessage (msg : PrivateMessage.t) : prog (result Notification.t) :=
  NotificationStore.Create
    (NewNotification.Mk (PrivateMessage.RecipientID msg) notifTypePM (Some (pm_payload msg))).

(** List returns the user's notifications, newest first. *)
Definition List (userID : uuid) (limit offset : Z) : prog (result (list Notification.t * Z)) :=
  NotificationStore.List userID limit offset.

(** MarkRead marks one notification as read. *)
Definition MarkRead (id userID : uuid) : prog (result unit) :=
  map_not_found (NotificationStore.MarkRead id userID).

(** MarkAllRead marks every notification of the user as read. *)
Definition MarkAllRead (userID : uuid) : prog (result unit) := NotificationStore.MarkAllRead userID.

(** UnreadCount returns the number of unread notifications for the user. *)
Definition UnreadCount (userID : uuid) : prog (result Z) := NotificationStore.CountUnread userID.

#[export] Instance OnPrivateMessage_safe m : DbSafe db_ok (OnPrivateMessage m).
Proof. unfold OnPrivateMessage. apply _. Qed.
#[export] Instance List_safe J u l o : DbSafe J (List u l o).
Proof. unfold List. apply _. Qed.
#[export] Instance MarkRead_safe id u : DbSafe db_ok (MarkRead id u).
Proof. unfold MarkRead. apply _. Qed.
#[export] Instance MarkAllRead_safe u : DbSafe db_ok (MarkAllRead u).
Proof. unfold MarkAllRead. apply _. Qed.
#[export] Instance UnreadCount_safe J u : DbSafe J (UnreadCount u).
Proof. unfold UnreadCount. apply _. Qed.

End service.
End Notifications.

(** ** Correctness *)

Section correctness.
Context `{Postgres, Uuid}.

(** C40: a private message can never be sent: whatever the caller, the recipient and the body, in
    every environment, [Send] answers an error and changes nothing, because the column list of
    its RETURNING clause names the alias [pm], which the INSERT does not introduce. *)
Theorem Send_never_succeeds e a b body w :
  (forall m, (run e (Send a b body) w).1 <> Ok m) /\ w_db (run e (Send a b body) w).2 = w_db w.
Proof.
  assert (Hs : forall msg w0, (forall m, (run e (MessageStore.Send msg) w0).1 <> Ok m) /\
    w_db (run e (MessageStore.Send msg) w0).2 = w_db w0).
  { intros msg w0. unfold MessageStore.Send. rewrite run_bind, run_exec. unfold exec_op.
    by destruct (env_fault e (w_tick w0)) as [[]|]. }
  unfold Send. destruct (N.eqb a b); [done|]. destruct (_ || _); [done|]. rewrite run_bind.
  pose proof (db_safe_reads (UserStore.GetByID b) _ e w) as Hw.
  destruct (run e (UserStore.GetByID b) w) as [[u|er] w1]; cbn in Hw.
  - rewrite <- Hw. apply Hs.
  - by destruct (errors_Is er store_ErrNotFound).
Qed.

(** What reading a message may change: the mark of one unread message of its recipient. *)
Definition read_by (id u : uuid) (d d' : database) : Prop :=
  exists m now, private_messages d !! id = Some m /\ PrivateMessage.RecipientID m = u /\
    PrivateMessage.ReadAt m = None /\
    d' = set_private_messages (<[id := MessageStore.with_read now m]> (private_messages d)) d.

(** Marking a message read, in any environment: only its recipient can, only while it is
    unread, and nothing but the mark changes; an acknowledged request made the mark, and a
    second one for the same message is answered [ErrNotFound] without effect. *)
Theorem MarkRead_spec e id u w r w' :
  run e (MarkRead id u) w = (r, w') ->
  (w_db w' = w_db w \/ read_by id u (w_db w) (w_db w')) /\
  (r = Ok tt -> read_by id u (w_db w) (w_db w')) /\
  (r = Ok tt -> no_faults e -> run e (MarkRead id u) w' = (Err ErrNotFound, tick w')).
Proof.
  assert (Hstmt : forall sv d n d', MessageStore.mark_read_stmt id u sv d = Ok (n, d') ->
    (n = 0%Z /\ d' = d) \/ (n = 1%Z /\ read_by id u d d')).
  { intros sv d n d'. unfold MessageStore.mark_read_stmt.
    destruct (private_messages d !! id) as [m|] eqn:Hm; [|intros [= <- <-]; by left].
    destruct (MessageStore.unread u m) eqn:Hu; intros [= <- <-]; [right|by left].
    apply andb_true_iff in Hu as [Hu%N.eqb_eq Hr]. split; [done|]. exists m, (sv_now sv).
    by destruct (PrivateMessage.ReadAt m). }
  assert (Hagain : forall d w1, no_faults e -> read_by id u d (w_db w1) ->
    run e (MarkRead id u) w1 = (Err ErrNotFound, tick w1)).
  { intros d w1 Hf (m & now & _ & _ & _ & Hd1). unfold MarkRead, map_not_found, MessageStore.MarkRead.
    rewrite run_bind, run_bindr, run_exec, exec_op_no_fault by apply Hf.
    unfold MessageStore.mark_read_stmt. rewrite Hd1. cbn. rewrite lookup_insert_eq.
    unfold MessageStore.unread. cbn. rewrite andb_false_r. cbn. by rewrite <- Hd1, set_db_tick. }
  unfold MarkRead at 1, map_not_found, MessageStore.MarkRead. rewrite run_bind, run_bindr, run_exec.
  destruct (exec_op _ e w) as [o w1] eqn:Ho.
  assert (Hw1 : w_db w1 = w_db w \/ read_by id u (w_db w) (w_db w1)).
  { pose proof (exec_op_db e (MessageStore.mark_read_stmt id u) w) as Hd. rewrite Ho in Hd.
    destruct Hd as [Hd|(n & d' & Hs & Hd)]; cbn in Hd; [by left|]. rewrite Hd.
    destruct (Hstmt _ _ _ _ Hs) as [[_ ->]|[_ ?]]; auto. }
  destruct o as [n|er].
  2: { destruct (errors_Is er store_ErrNotFound); cbn; intros [= <- <-]; by split. }
  apply exec_op_Ok in Ho as (d' & Hs & Hw). destruct (Hstmt _ _ _ _ Hs) as [[-> Hd]|[-> Hd]];
    cbn; intros [= <- <-]; (split; [done|]); [done|].
  assert (Hd1 : read_by id u (w_db w) (w_db w1)) by by rewrite Hw.
  split; [done|]. intros _ Hf. by eapply Hagain.
Qed.

End correctness.

Section notifications.
Context `{Postgres}.

(** Marking all notifications read: the user's unread count is then zero, every other user's
    count is what it was, and no notification is added or removed. *)
Theorem MarkAllRead_spec e u w :
  no_faults e ->
  let w' := (run e (Notifications.MarkAllRead u) w).2 in
  (run e (Notifications.MarkAllRead u) w).1 = Ok tt /\
  (run e (Notifications.UnreadCount u) w').1 = Ok 0%Z /\
  (forall v, v <> u ->
     (run e (Notifications.UnreadCount v) w').1 = (run e (Notifications.UnreadCount v) w).1) /\
  dom (notifications (w_db w')) = dom (notifications (w_db w)).
Proof.
  intros Hf w'. assert (Hw' : run e (Notifications.MarkAllRead u) w = (Ok tt,
    set_db (set_notifications
      ((fun n => if NotificationStore.unread u n
                 then NotificationStore.with_read (sv_now (server_at e w)) n else n)
       <$> notifications (w_db w)) (w_db w)) (tick w))).
  { unfold Notifications.MarkAllRead, NotificationStore.MarkAllRead.
    rewrite run_bindr, run_exec, exec_op_no_fault by apply Hf. done. }
  assert (Hc : forall v x, (run e (Notifications.UnreadCount v) x).1
                           = Ok (count (NotificationStore.unread v) (notifications (w_db x)))).
  { intros v x. unfold Notifications.UnreadCount, NotificationStore.CountUnread.
    by rewrite run_exec, exec_op_no_fault by apply Hf. }
  subst w'. rewrite Hw'. cbn [fst snd]. rewrite (Hc u). cbn [w_db set_db notifications set_notifications].
  split_and!; [done| | |apply dom_fmap_L].
  - f_equal. apply count_zero. intros k n. rewrite lookup_fmap_Some. intros (n0 & <- & _).
    destruct (NotificationStore.unread u n0) eqn:E; [apply andb_false_r|done].
  - intros v Hv. rewrite !Hc. f_equal. cbn [w_db set_db notifications set_notifications].
    apply count_fmap. intros n.
    unfold NotificationStore.unread, NotificationStore.of_user.
    destruct (N.eqb_spec (Notification.UserID n) u) as [Hn|]; [|done]. cbn [andb].
    destruct (Notification.ReadAt n) eqn:E; cbn; rewrite Hn; [by rewrite E|].
    by rewrite (proj2 (N.eqb_neq u v)) by congruence.
Qed.

End notifications.

(** ** Examples *)

(** A preview is cut at byte 80, in the middle of a character or not. *)
Lemma preview_cuts_rune :
  exists s, ValidString s = true /\ ValidString (preview s) = false.
Proof. exists ("a" +:+ "€€€€€€€€€€€€€€€€€€€€€€€€€€€€€€"). by vm_compute. Qed.

Definition one_message : world :=
  world_of (set_private_messages {[60%N := PrivateMessage.Mk 60%N alice bob "hi" None 5]} sample).

Lemma MarkRead_spec_witness :
  (run calm (MarkRead 60%N bob) one_message).1 = Ok tt /\
  read_by 60%N bob (w_db one_message) (w_db (run calm (MarkRead 60%N bob) one_message).2).
Proof.
  split; [by vm_compute|].
  destruct (MarkRead_spec calm 60%N bob one_message (run calm (MarkRead 60%N bob) one_message).1
    (run calm (MarkRead 60%N bob) one_message).2 (surjective_pairing _)) as (_ & H & _).
  apply H. by vm_compute.
Defined.

Definition two_notifications : world :=
  world_of (set_notifications
    {[70%N := Notification.Mk 70%N bob "pm" (JObject []) None 5;
      71%N := Notification.Mk 71%N alice "pm" (JObject []) None 5]} sample).

Lemma MarkAllRead_spec_witness :
  (run calm (Notifications.UnreadCount bob) two_notifications).1 = Ok 1%Z /\
  (run calm (Notifications.UnreadCount bob)
     (run calm (Notifications.MarkAllRead bob) two_notifications).2).1 = Ok 0%Z.
Proof.
  split; [by vm_compute|].
  destruct (MarkAllRead_spec calm bob two_notifications calm_no_faults) as (_ & H & _). exact H.
Defined.
