(* ===== verification/Storage.v ===== *)
(** * Object keys and the object store (internal/storage)

    The MinIO client's two calls are the environment's [env_PutObject] and
    [env_RemoveObject]; this file adds the program's key construction and error wrapping. *)
From S2P Require Import Prelude GoStrings GoErrors Models Db Prog Jwt.
Local Open Scope mc_scope.

Definition avatarDir : string := "avatars".
Definition attachDir : string := "attachments".
Definition extMaxLen : nat := 8.

Section storage.
Context `{Unicode, Uuid}.

(** sanitizeExt extracts a lowercase extension from a filename and caps its length. *)
Definition sanitizeExt (filename : string) : string :=
  let ext := ToLower unicode_lower (path_Ext filename) in
  if (Z.of_nat extMaxLen <? len ext)%Z then str_take extMaxLen ext else ext.

(** AvatarKey builds the storage key for a user avatar. *)
Definition AvatarKey (userID : uuid) (filename : string) : prog string :=
  id <- uuid_New ;;
  Ret (avatarDir +:+ "/" +:+ uuid_String userID +:+ "/" +:+ uuid_String id
       +:+ sanitizeExt filename).

(** AttachmentKey builds the storage key for a post attachment. *)
Definition AttachmentKey (filename : string) : prog string :=
  id <- uuid_New ;;
  Ret (attachDir +:+ "/" +:+ uuid_String id +:+ sanitizeExt filename).

#[export] Instance AvatarKey_safe J u f : DbSafe J (AvatarKey u f).
Proof. unfold AvatarKey. apply _. Qed.
#[export] Instance AttachmentKey_safe J f : DbSafe J (AttachmentKey f).
Proof. unfold AttachmentKey. apply _. Qed.

End storage.

(** Upload stores an object under key in the default bucket. *)
Definition Upload (key data : string) (size : Z) (contentType : string) : prog (result unit) :=
  r <- object_op (fun e t m => env_PutObject e t key (Object contentType size data) m) ;;
  match r with
  | Err err => fail (Wrapf ("upload object " +:+ key +:+ ": ") err "")
  | Ok _ => ret tt
  end.

(** Remove deletes an object from the default bucket. Missing objects are ignored. *)
Definition Remove (key : string) : prog (result unit) :=
  r <- object_op (fun e t m => env_RemoveObject e t key m) ;;
  match r with
  | Err err => fail (Wrapf ("remove object " +:+ key +:+ ": ") err "")
  | Ok _ => ret tt
  end.

#[export] Instance Upload_safe J k d n c : DbSafe J (Upload k d n c).
Proof. unfold Upload. apply _. Qed.
#[export] Instance Remove_safe J k : DbSafe J (Remove k).
Proof. unfold Remove. apply _. Qed.
