(* ===== verification/MediaService.v ===== *)
(** * Media service (internal/services/media.go) *)
From S2P Require Import Prelude GoStrings GoErrors Models Db Prog Concrete Roles Config Jwt.
From S2P Require Import UserStore PostStore AttachmentStore Storage.
Local Open Scope mc_scope.

Definition maxAvatarSize : Z := Z.shiftl 2 20.
Definition maxAttachmentSize : Z := Z.shiftl 20 20.
Definition maxFilenameLength : nat := 160.

Definition sanitizeFilename (name : string) : string :=
  let name := path_Base (TrimSpace name) in
  if String.eqb name "" || String.eqb name "." || String.eqb name "/" then "file"
  else if (Z.of_nat maxFilenameLength <? len name)%Z then str_take maxFilenameLength name
  else name.

Module MediaService.
Record t := Mk { cfg : Config.t; bucket : string }.
End MediaService.

Definition mediaURL (s : MediaService.t) (key : string) : string :=
  TrimRightSlash (Config.MediaBaseURL (MediaService.cfg s)) +:+ "/" +:+ MediaService.bucket s
  +:+ "/" +:+ key.

Section service.
Context `{Postgres, Unicode, Uuid}.
Implicit Types (s : MediaService.t).

(** UploadAvatar stores an image as the user's avatar and updates the profile. *)
Definition UploadAvatar s (userID : uuid) (filename contentType : string) (size : Z)
    (data : string) : prog (result User.t) :=
  if (size <=? 0)%Z then fail ErrInvalidInput
  else if (maxAvatarSize <? size)%Z then fail ErrFileTooLarge
  else
  let contentType := TrimSpace contentType in
  if negb (HasPrefix contentType "image/") then fail ErrUnsupportedType else
  key <- AvatarKey userID filename ;;
  _ <-? Upload key data size contentType ;;
  UserStore.UpdateAvatar userID (mediaURL s key).

(** The existence check of the post an attachment is for. *)
Definition check_post (postID : option uuid) : prog (result unit) :=
  match postID with
  | None => ret tt
  | Some p =>
    r <- PostStore.GetByID p ;;
    match r with
    | Err err => if errors_Is err store_ErrNotFound then fail ErrPostNotFound else fail err
    | Ok _ => ret tt
    end
  end.

(** UploadAttachment stores a file attached to a post (if postID is given). *)
Definition UploadAttachment s (userID : uuid) (postID : option uuid)
    (filename contentType : string) (size : Z) (data : string) : prog (result Attachment.t) :=
  if (size <=? 0)%Z then fail ErrInvalidInput
  else if (maxAttachmentSize <? size)%Z then fail ErrFileTooLarge
  else
  _ <-? check_post postID ;;
  let contentType := if String.eqb contentType "" then "application/octet-stream"
                     else contentType in
  key <- AttachmentKey filename ;;
  _ <-? Upload key data size contentType ;;
  AttachmentStore.Create
    (NewAttachment.Mk userID postID (sanitizeFilename filename) contentType size key
       (mediaURL s key)).

(** DeleteAttachment removes an attachment if the caller is its owner or a moderator. *)
Definition DeleteAttachment (id callerID : uuid) (roles : list string) : prog (result unit) :=
  a <- AttachmentStore.GetByID id ;;
  match a with
  | Err err => if errors_Is err store_ErrNotFound then fail ErrAttachmentNotFound else fail err
  | Ok a =>
    if negb (N.eqb (Attachment.OwnerID a) callerID) && negb (hasRole roles moderators)
    then fail ErrForbidden else
    _ <-? Remove (Attachment.StorageKey a) ;;
    AttachmentStore.Delete id
  end.

#[export] Instance UploadAvatar_safe s u f c n d : DbSafe db_ok (UploadAvatar s u f c n d).
Proof. unfold UploadAvatar. apply _. Qed.
#[export] Instance check_post_safe J p : DbSafe J (check_post p).
Proof. unfold check_post. apply _. Qed.
#[export] Instance UploadAttachment_safe s u p f c n d :
  DbSafe db_ok (UploadAttachment s u p f c n d).
Proof. unfold UploadAttachment. apply _. Qed.
#[export] Instance DeleteAttachment_safe id c r : DbSafe db_ok (DeleteAttachment id c r).
Proof. unfold DeleteAttachment. apply _. Qed.

End service.

(** ** Correctness *)

Section correctness.
Context `{Postgres, Unicode, Uuid}.

Lemma any_check_post e p w r w' :
  run e (check_post p) w = (r, w') ->
  w_db w' = w_db w /\ w_objects w' = w_objects w /\
  (r = Ok tt -> forall id, p = Some id -> is_Some (posts (w_db w) !! id)).
Proof.
  unfold check_post. destruct p as [id|]; [|by intros [= <- <-]].
  intros (o & w1 & Ho & Hr)%run_bind_inv.
  assert (Hob : w_objects w1 = w_objects w).
  { replace w1 with (run e (PostStore.GetByID id) w).2 by by rewrite Ho.
    unfold PostStore.GetByID. rewrite run_bind, run_exec.
    pose proof (exec_op_objects e (select_post id) w) as Hx. by destruct (exec_op _ e w). }
  apply PostStore.post_any_GetByID in Ho as [Hw1 Ho].
  assert (w' = w1) as ->.
  { destruct o as [p|er]; [|destruct (errors_Is er store_ErrNotFound)]; cbn in Hr; congruence. }
  split_and!; [done|done|]. intros -> id' [= <-]. destruct o as [p|er]; [by rewrite (Ho p eq_refl)|].
  by destruct (errors_Is er store_ErrNotFound).
Qed.

(** The object of an attachment, as the store is asked to keep it. *)
Definition put_object (e : env) (key : string) (o : object) (w w' : world) : Prop :=
  exists t, env_PutObject e t key o (w_objects w) = (None, w_objects w').

(** What an upload did: a row for an object that was stored first. *)
Definition uploaded (e : env) s (u : uuid) (p : option uuid) (name : string) (size : Z)
    (data : string) (w w' : world) (a : Attachment.t) : Prop :=
  attachments (w_db w) !! Attachment.ID a = None /\
  w_db w' = set_attachments (<[Attachment.ID a := a]> (attachments (w_db w))) (w_db w) /\
  Attachment.OwnerID a = u /\ Attachment.PostID a = p /\
  Attachment.Filename a = sanitizeFilename name /\ Attachment.SizeBytes a = size /\
  Attachment.PublicURL a = mediaURL s (Attachment.StorageKey a) /\
  put_object e (Attachment.StorageKey a) (Object (Attachment.ContentType a) size data) w w'.

Lemma any_UploadAttachment e s u p name ctype size data w r w' :
  run e (UploadAttachment s u p name ctype size data) w = (r, w') ->
  (w_db w' = w_db w /\ forall a, r <> Ok a) \/
  ((0 < size <= 20 * 2 ^ 20)%Z /\ (forall id, p = Some id -> is_Some (posts (w_db w) !! id)) /\
   exists a, uploaded e s u p name size data w w' a /\
     (exists id, Attachment.StorageKey a =
        attachDir +:+ "/" +:+ uuid_String id +:+ sanitizeExt name) /\
     forall b, r = Ok b -> b = a).
Proof.
  unfold UploadAttachment. destruct (Z.leb_spec size 0); [intros [= <- <-]; by left|].
  destruct (Z.ltb_spec maxAttachmentSize size) as [|Hmax]; [intros [= <- <-]; by left|].
  change maxAttachmentSize with (20 * 2 ^ 20)%Z in Hmax. cbv zeta.
  set (ct := if String.eqb ctype "" then _ else ctype).
  intros [([] & w1 & Hc & Hr)|(er & Hc & ->)]%run_bindr_inv.
  2: { apply any_check_post in Hc as (Hw & _ & _). by left. }
  apply any_check_post in Hc as (Hw1 & Hob1 & Hpost). specialize (Hpost eq_refl).
  apply run_bind_inv in Hr as (key & w2 & Hk & Hr). injection Hk as <- <-. set (key := _ +:+ _) in *.
  apply run_bindr_inv in Hr as [([] & w3 & Hu & Hr)|(er & Hu & ->)].
  2: { left. split; [|done]. replace w' with (run e (Upload key data size ct) (tick w1)).2
         by by rewrite Hu. by rewrite (db_safe_reads _ _). }
  assert (Hput : w_db w3 = w_db w /\ exists t, env_PutObject e t key (Object ct size data) (w_objects w)
                                               = (None, w_objects w3)).
  { revert Hu. unfold Upload. rewrite run_bind. cbn.
    destruct (env_PutObject _ _ _ _ _) as [[er|] o] eqn:Hp; cbn; [done|]. intros [= <-]. cbn.
    split; [done|]. rewrite <- Hob1. eauto. }
  destruct Hput as [Hw3 [t Hput]].
  apply any_Create_attachment in Hr as [Hob [[Hw Hr]|(a & Hid & Hw & [now Ha] & Hr)]];
    rewrite Hw3 in *; [by left|right]. split; [lia|]. split; [done|]. exists a.
  assert (Hkey : exists id, Attachment.StorageKey a = attachDir +:+ "/" +:+ uuid_String id +:+ sanitizeExt name).
  { rewrite Ha. cbn. by eexists. }
  split; [|by split]. unfold uploaded, put_object. rewrite Hob.
  split_and!; [done|done|by rewrite Ha..|]. exists t. by rewrite Ha.
Qed.

(** Uploading an attachment, in any environment: the row is written only for a size between
    1 byte and 20 MiB, only for a post that exists (when one is named) and only after the
    object store has accepted the bytes under the row's key; it is the only change of the
    tables, it records the uploader, the cleaned file name, the size and the address of the
    key, and without it no success is answered. *)
Theorem UploadAttachment_sound e s u p name ctype size data w r w' :
  run e (UploadAttachment s u p name ctype size data) w = (r, w') ->
  (w_db w' = w_db w /\ forall a, r <> Ok a) \/
  ((0 < size <= 20 * 2 ^ 20)%Z /\ (forall id, p = Some id -> is_Some (posts (w_db w) !! id)) /\
   exists a, uploaded e s u p name size data w w' a /\ forall b, r = Ok b -> b = a).
Proof.
  intros [Hr|(Hs & Hp & a & Ha & _ & Hb)]%any_UploadAttachment; [by left|right].
  split_and!; [lia..|done|by exists a].
Qed.

(** Deleting an attachment, in any environment: nothing is touched unless the caller is its
    owner or a moderator; the object store is asked to remove exactly the attachment's key, and
    the row, the only one that can go, goes only if the object store reported no error. *)
Theorem DeleteAttachment_permissions e id caller roles w r w' :
  run e (DeleteAttachment id caller roles) w = (r, w') ->
  (w_db w' = w_db w /\ w_objects w' = w_objects w) \/
  exists a t err, attachments (w_db w) !! id = Some a /\
    (Attachment.OwnerID a = caller \/ hasRole roles moderators = true) /\
    env_RemoveObject e t (Attachment.StorageKey a) (w_objects w) = (err, w_objects w') /\
    (w_db w' = w_db w \/
     (err = None /\ w_db w' = set_attachments (delete id (attachments (w_db w))) (w_db w))).
Proof.
  unfold DeleteAttachment. intros (o & w1 & Ho & Hr)%run_bind_inv.
  apply any_Get_attachment in Ho as (Hw1 & Hob1 & Ha).
  destruct o as [a|er].
  2: { left. destruct (errors_Is er store_ErrNotFound); injection Hr as <- <-; by split. }
  specialize (Ha a eq_refl).
  destruct (negb (N.eqb (Attachment.OwnerID a) caller) && negb (hasRole roles moderators)) eqn:Hp;
    [left; injection Hr as <- <-; by split|].
  assert (Hperm : Attachment.OwnerID a = caller \/ hasRole roles moderators = true).
  { apply andb_false_iff in Hp as [Hp%negb_false_iff%N.eqb_eq|Hp%negb_false_iff]; auto. }
  right. destruct (env_RemoveObject e (w_tick w1) (Attachment.StorageKey a) (w_objects w1))
    as [err objs] eqn:Hrem.
  exists a, (w_tick w1), err. split; [done|]. split; [done|]. rewrite <- Hob1, <- Hw1, Hrem.
  revert Hr. rewrite run_bindr. unfold Remove. rewrite run_bind. cbn. rewrite Hrem.
  destruct err as [er|]; cbn; [intros [= <- <-]; by split; [|left]|]. intros Hr.
  apply any_Delete_attachment in Hr as [Hob Hd]. cbn in *. rewrite Hob. split; [done|].
  destruct Hd as [Hd|Hd]; [by left|by right].
Qed.

End correctness.

(** ** Examples *)

(** A file name cut at byte 160 in the middle of a character is not valid UTF-8: the INSERT that
    follows the upload is refused, and the object is left behind. *)
Fixpoint repeat_str (n : nat) (s : string) : string :=
  match n with O => "" | S n' => s +:+ repeat_str n' s end.

Lemma sanitizeFilename_cuts_rune :
  ValidString (repeat_str 54 "€") = true /\
  ValidString (sanitizeFilename (repeat_str 54 "€")) = false.
Proof. by vm_compute. Qed.

Section examples.
#[local] Existing Instances ascii_server ascii_unicode decimal_uuid.

Definition sample_media : MediaService.t := MediaService.Mk sample_config "media".

Lemma long_name_orphans_object :
  let out := run calm (UploadAttachment sample_media alice None (repeat_str 54 "€") "text/plain" 3 "abc")
               (world_of sample) in
  out.1 = Err (PgErr bad_text) /\ w_db out.2 = sample /\ size (w_objects out.2) = 1.
Proof. vm_compute. by split_and!. Qed.

Definition upload_note : result Attachment.t * world :=
  run calm (UploadAttachment sample_media alice (Some 40%N) "notes.TXT" "" 3 "abc") one_thread.

Lemma UploadAttachment_sound_witness :
  exists a, upload_note.1 = Ok a /\ Attachment.Filename a = "notes.TXT" /\
    put_object calm (Attachment.StorageKey a) (Object (Attachment.ContentType a) 3 "abc")
      one_thread upload_note.2.
Proof.
  pose (a := match upload_note.1 with
             | Ok a => a | Err _ => Attachment.Mk 0%N 0%N None "" "" 0 "" "" 0 0 end).
  destruct (UploadAttachment_sound calm sample_media alice (Some 40%N) "notes.TXT" "" 3 "abc"
    one_thread upload_note.1 upload_note.2 (surjective_pairing _))
    as [[_ Hn]|(_ & _ & b & (_ & _ & _ & _ & Hf & _ & _ & Hp) & Hb)].
  - destruct (is_ok_true _ (eq_refl : is_ok upload_note.1 = true) Hn).
  - assert (Ha : upload_note.1 = Ok a) by by vm_compute.
    exists b. rewrite Ha in Hb. rewrite (Hb a eq_refl) in Ha. split; [exact Ha|].
    split; [exact Hf|exact Hp].
Defined.

Lemma DeleteAttachment_permissions_witness :
  let id := 1003%N in
  let out := run calm (DeleteAttachment id alice []) upload_note.2 in
  w_db out.2 <> w_db upload_note.2 /\
  w_db out.2 = set_attachments (delete id (attachments (w_db upload_note.2))) (w_db upload_note.2).
Proof.
  intros id out. assert (Hne : w_db out.2 <> w_db upload_note.2) by by vm_compute.
  split; [exact Hne|].
  destruct (DeleteAttachment_permissions calm id alice [] upload_note.2 out.1 out.2
    (surjective_pairing _)) as [[Hd _]|(a & t & err & _ & _ & _ & [Hd|[_ Hd]])];
    [by destruct Hne|by destruct Hne|exact Hd].
Defined.

End examples.
