(* ===== verification/Hub.v ===== *)
(** * The realtime hub (internal/ws/hub.go, internal/ws/client.go)

    The state shared by the goroutines of the hub and of its connections, and their steps.
    A critical section of [h.mu] is one step; a send on [notifyCh] is a step that is enabled
    only while the channel has room; the dispatcher's receive and its delivery are two steps.
    A send on a closed channel would panic: [queue] returns [None] there.

    A connection is a number; [pc] is the position of the goroutine that serves it, from
    [NewClient] through [ReadPump] to [Close]. *)
From S2P Require Import Prelude Models.

Local Open Scope nat_scope.

(** ** Data *)

Inductive payload :=
| presence_data (user_id : uuid) (online : bool)
| pm_data (m : PrivateMessage.t)
| notification_data (n : Notification.t)
| any_data (v : json).

Record Event := MkEvent { Type_ : string; Data : payload }.
Record notify := MkNotify { userID : uuid; event : Event }.

Definition sendBuffer : nat := 64.
Definition notifyBuffer : nat := 256.

Inductive pc :=
| Fresh            (* NewClient, before the lock of register *)
| Announcing       (* register, before broadcastPresence(true) *)
| Live             (* in ReadPump *)
| Departing        (* unregister, before broadcastPresence(false) *)
| Unregistered     (* Close, before close(c.send) *)
| Done.

#[export] Instance pc_eq_dec : EqDecision pc.
Proof. solve_decision. Defined.

Record conn := MkConn { user : uuid; at_ : pc; send : list Event; closed : bool }.

Record hub := MkHub {
  clients : gmap uuid (gset nat);
  online : gset uuid;
  notifyCh : list notify;
  busy : option notify;              (* received by Run, not yet delivered *)
  conns : gmap nat conn;
  running : bool }.

Definition set_pc (p : pc) (x : conn) : conn := MkConn (user x) p (send x) (closed x).
Definition set_send (q : list Event) (x : conn) : conn := MkConn (user x) (at_ x) q (closed x).

Definition NewHub : hub := MkHub ∅ ∅ [] None ∅ true.

(** ** Operations *)

Definition presence (u : uuid) (b : bool) : Event := MkEvent "presence" (presence_data u b).

Definition with_conns (m : gmap nat conn) (h : hub) : hub :=
  MkHub (clients h) (online h) (notifyCh h) (busy h) m (running h).

(** The sends of [Notify] and [Broadcast]. *)
Definition push (n : notify) (h : hub) : hub :=
  MkHub (clients h) (online h) (notifyCh h ++ [n]) (busy h) (conns h) (running h).

Definition has_room (h : hub) : bool := length (notifyCh h) <? notifyBuffer.

(** The critical section of [register]: the new state, and whether presence is announced. *)
Definition register_locked (c : nat) (u : uuid) (h : hub) : hub * bool :=
  let conns_u := default ∅ (clients h !! u) in
  let already := bool_decide (u ∈ online h) in
  (MkHub (<[u := {[c]} ∪ conns_u]> (clients h)) ({[u]} ∪ online h) (notifyCh h) (busy h)
     (conns h) (running h), negb already).

(** The critical section of [unregister]. *)
Definition unregister_locked (c : nat) (u : uuid) (h : hub) : hub * bool :=
  let clients' :=
    match clients h !! u with
    | Some conns_u =>
        let rest := conns_u ∖ {[c]} in
        if bool_decide (rest = ∅) then delete u (clients h) else <[u := rest]> (clients h)
    | None => clients h
    end in
  let gone := match clients' !! u with Some conns_u => bool_decide (conns_u = ∅) | None => true end in
  if bool_decide (u ∈ online h) && gone
  then (MkHub clients' (online h ∖ {[u]}) (notifyCh h) (busy h) (conns h) (running h), true)
  else (MkHub clients' (online h) (notifyCh h) (busy h) (conns h) (running h), false).

(** [queue]: a non-blocking send; [None] is the panic of a send on a closed channel. *)
Definition queue (x : conn) (ev : Event) : option conn :=
  if closed x then None
  else Some (if length (send x) <? sendBuffer then set_send (send x ++ [ev]) x else x).

(** The connections [deliver] walks over. *)
Definition targets (n : notify) (h : hub) : gset nat :=
  if N.eqb (userID n) uuid_Nil
  then union_list ((map_to_list (clients h)).*2)
  else default ∅ (clients h !! userID n).

Fixpoint queue_all (ev : Event) (l : list nat) (m : gmap nat conn) : option (gmap nat conn) :=
  match l with
  | [] => Some m
  | c :: l' =>
      match m !! c with
      | None => queue_all ev l' m
      | Some x => match queue x ev with
                  | Some x' => queue_all ev l' (<[c := x']> m)
                  | None => None
                  end
      end
  end.

Definition deliver (n : notify) (h : hub) : option hub :=
  match queue_all (event n) (elements (targets n h)) (conns h) with
  | Some m => Some (with_conns m h)
  | None => None
  end.

(** IsOnline reports whether the user has any active connection. *)
Definition IsOnline (u : uuid) (h : hub) : bool := bool_decide (u ∈ online h).

(** OnlineUsers returns the currently present user IDs. *)
Definition OnlineUsers (h : hub) : list uuid := elements (online h).

(** ** Steps *)

Inductive label :=
| LAccept (c : nat) (u : uuid)
| LRegister (c : nat)
| LAnnounce (c : nat)
| LNotify (n : notify)
| LUnregister (c : nat)
| LClose (c : nat)
| LWrite (c : nat)
| LReceive
| LDeliver
| LStop.

Inductive outcome := Running (h : hub) | Panicked.

Definition move (c : nat) (p : pc) (h : hub) : hub :=
  with_conns (alter (set_pc p) c (conns h)) h.

(** One step, [None] when it is not enabled. *)
Definition step (l : label) (h : hub) : option outcome :=
  match l with
  | LAccept c u =>
      match conns h !! c with
      | None => Some (Running (with_conns (<[c := MkConn u Fresh [] false]> (conns h)) h))
      | Some _ => None
      end
  | LRegister c =>
      match conns h !! c with
      | Some (MkConn u Fresh _ _) =>
          let (h', announce) := register_locked c u h in
          Some (Running (move c (if announce then Announcing else Live) h'))
      | _ => None
      end
  | LAnnounce c =>
      match conns h !! c with
      | Some (MkConn u Announcing _ _) =>
          if has_room h
          then Some (Running (move c Live (push (MkNotify uuid_Nil (presence u true)) h)))
          else None
      | Some (MkConn u Departing _ _) =>
          if has_room h
          then Some (Running (move c Unregistered (push (MkNotify uuid_Nil (presence u false)) h)))
          else None
      | _ => None
      end
  | LNotify n => if has_room h then Some (Running (push n h)) else None
  | LUnregister c =>
      match conns h !! c with
      | Some (MkConn u Live _ _) =>
          let (h', announce) := unregister_locked c u h in
          Some (Running (move c (if announce then Departing else Unregistered) h'))
      | _ => None
      end
  | LClose c =>
      match conns h !! c with
      | Some (MkConn u Unregistered q cl) =>
          if cl then Some Panicked
          else Some (Running (with_conns (<[c := MkConn u Done q true]> (conns h)) h))
      | _ => None
      end
  | LWrite c =>
      match conns h !! c with
      | Some x => match send x with
                  | [] => None
                  | _ :: q => Some (Running (with_conns (<[c := set_send q x]> (conns h)) h))
                  end
      | None => None
      end
  | LReceive =>
      match running h, busy h, notifyCh h with
      | true, None, n :: q =>
          Some (Running (MkHub (clients h) (online h) q (Some n) (conns h) (running h)))
      | _, _, _ => None
      end
  | LDeliver =>
      match busy h with
      | Some n =>
          match deliver n h with
          | Some h' => Some (Running (MkHub (clients h') (online h') (notifyCh h') None
                                        (conns h') (running h')))
          | None => Some Panicked
          end
      | None => None
      end
  | LStop => match busy h with
             | None => Some (Running (MkHub (clients h) (online h) (notifyCh h) None (conns h) false))
             | Some _ => None
             end
  end.

Inductive reachable : outcome -> Prop :=
| reach_init : reachable (Running NewHub)
| reach_step h l o : reachable (Running h) -> step l h = Some o -> reachable o.

Fixpoint run_labels (ls : list label) (h : hub) : option outcome :=
  match ls with
  | [] => Some (Running h)
  | l :: ls' => match step l h with
                | Some (Running h') => run_labels ls' h'
                | o => o
                end
  end.

(** ** Delivery *)

Definition enqueue (ev : Event) (x : conn) : conn :=
  if length (send x) <? sendBuffer then set_send (send x ++ [ev]) x else x.

(** Every connection of the list gets the event, or drops it when its buffer is full. *)
Lemma queue_all_spec ev l m :
  NoDup l -> (forall c x, c ∈ l -> m !! c = Some x -> closed x = false) ->
  exists m', queue_all ev l m = Some m' /\
    forall c, m' !! c = (if decide (c ∈ l) then enqueue ev else id) <$> m !! c.
Proof.
  intros Hnd. revert m. induction Hnd as [|c l Hc Hnd IH]; intros m Hcl.
  - exists m. split; [done|]. intros c. rewrite decide_False by apply not_elem_of_nil.
    by destruct (m !! c).
  - cbn. destruct (m !! c) as [x|] eqn:Hx.
    + unfold queue. rewrite (Hcl c x) by (done || by left).
      fold (enqueue ev x).
      destruct (IH (<[c := enqueue ev x]> m)) as (m' & Hq & Hm').
      { intros d y Hd. rewrite lookup_insert_ne by congruence. apply Hcl. by right. }
      exists m'. split; [done|]. intros d. rewrite Hm'.
      destruct (decide (d = c)) as [->|Hne].
      * rewrite lookup_insert_eq, Hx, decide_False by done.
        by rewrite decide_True by by left.
      * rewrite lookup_insert_ne by done.
        destruct (decide (d ∈ l)); [by rewrite decide_True by by right|].
        rewrite decide_False; [done|]. by intros [->|?]%elem_of_cons.
    + destruct (IH m) as (m' & Hq & Hm').
      { intros d y Hd. apply Hcl. by right. }
      exists m'. split; [done|]. intros d. rewrite Hm'.
      destruct (decide (d = c)) as [->|Hne]; [by rewrite Hx|].
      destruct (decide (d ∈ l)); [by rewrite decide_True by by right|].
      rewrite decide_False; [done|]. by intros [->|?]%elem_of_cons.
Qed.

(** ** The invariant *)

Definition registered (x : conn) : bool :=
  match at_ x with Announcing | Live => true | _ => false end.

Record inv (h : hub) : Prop := {
  inv_members : forall u c, c ∈ default ∅ (clients h !! u) <->
    exists x, conns h !! c = Some x /\ user x = u /\ registered x = true;
  inv_nonempty : forall u, clients h !! u <> Some ∅;
  inv_online : forall u, u ∈ online h <-> is_Some (clients h !! u);
  inv_closed : forall c x, conns h !! c = Some x -> closed x = bool_decide (at_ x = Done);
  inv_ch : length (notifyCh h) <= notifyBuffer;
  inv_send : forall c x, conns h !! c = Some x -> length (send x) <= sendBuffer }.

Lemma inv_NewHub : inv NewHub.
Proof.
  constructor; cbn; [|set_solver| |by intros c x ?%lookup_empty_Some| |
    by intros c x ?%lookup_empty_Some].
  - intros u c. split; [set_solver|]. by intros (x & ?%lookup_empty_Some & _).
  - intros u. split; [set_solver|]. by intros [? ?%lookup_empty_Some].
  - lia.
Qed.

(** The targets of a notification are registered. *)
Lemma targets_registered n h c :
  inv h -> c ∈ targets n h ->
  exists x, conns h !! c = Some x /\ registered x = true /\
    (userID n <> uuid_Nil -> user x = userID n).
Proof.
  intros Hi. unfold targets. destruct (N.eqb_spec (userID n) uuid_Nil) as [He|Hne].
  - rewrite elem_of_union_list. intros (cs & Hcs & Hc).
    apply list_elem_of_fmap in Hcs as ([u cs'] & -> & Hcs%elem_of_map_to_list). cbn in Hc.
    destruct (proj1 (inv_members h Hi u c)) as (x & Hx & Hu & Hr); [by rewrite Hcs|].
    by exists x.
  - intros Hc. apply (inv_members h Hi) in Hc as (x & Hx & Hu & Hr). by exists x.
Qed.

Lemma targets_complete n h c x :
  inv h -> conns h !! c = Some x -> registered x = true ->
  (userID n = uuid_Nil \/ user x = userID n) -> c ∈ targets n h.
Proof.
  intros Hi Hx Hr Hu.
  assert (Hc : c ∈ default ∅ (clients h !! user x)) by (apply (inv_members h Hi); eauto).
  unfold targets. destruct (N.eqb_spec (userID n) uuid_Nil) as [He|Hne].
  - rewrite elem_of_union_list. destruct (clients h !! user x) as [cs|] eqn:Ecs; [|done].
    exists cs. split; [|done]. apply list_elem_of_fmap. exists (user x, cs). split; [done|].
    by apply elem_of_map_to_list.
  - destruct Hu as [?|<-]; done.
Qed.

(** Delivery never panics in a state that satisfies the invariant, and touches only the
    targets' buffers. *)
Lemma deliver_inv n h :
  inv h -> exists m, deliver n h = Some (with_conns m h) /\
    forall c, m !! c = (if decide (c ∈ targets n h) then enqueue (event n) else id) <$> conns h !! c.
Proof.
  intros Hi. unfold deliver.
  destruct (queue_all_spec (event n) (elements (targets n h)) (conns h)) as (m & -> & Hm).
  - apply NoDup_elements.
  - intros c x Hc Hx. apply elem_of_elements in Hc.
    destruct (targets_registered n h c Hi Hc) as (y & Hy & Hr & _).
    assert (y = x) as -> by congruence. rewrite (inv_closed h Hi c x Hx). apply bool_decide_eq_false. intros E.
    unfold registered in Hr. by rewrite E in Hr.
  - exists m. split; [done|]. intros c. rewrite Hm.
    by rewrite (decide_ext (c ∈ elements (targets n h)) (c ∈ targets n h)) by apply elem_of_elements.
Qed.

(** ** Every step keeps the invariant *)

(** Changing one connection without changing its user or whether it is registered. *)
Lemma inv_alter h c x y :
  inv h -> conns h !! c = Some x -> user y = user x -> registered y = registered x ->
  closed y = bool_decide (at_ y = Done) -> length (send y) <= sendBuffer ->
  inv (with_conns (<[c := y]> (conns h)) h).
Proof.
  intros [] Hx Hu Hr Hc Hs. constructor; cbn; try done.
  - intros u d. rewrite inv_members0. destruct (decide (d = c)) as [->|Hne].
    + rewrite lookup_insert_eq. split; intros (z & ? & ? & ?); simplify_eq; eauto.
    + by rewrite lookup_insert_ne.
  - intros d z. rewrite lookup_insert_Some. intros [[<- <-]|[_ ?]]; eauto.
  - intros d z. rewrite lookup_insert_Some. intros [[<- <-]|[_ ?]]; eauto.
Qed.

Lemma inv_push n h : inv h -> has_room h = true -> inv (push n h).
Proof.
  intros [] Hr. unfold has_room in Hr. apply Nat.ltb_lt in Hr.
  constructor; cbn; try done. rewrite length_app. cbn. lia.
Qed.

Lemma move_insert c p h x :
  conns h !! c = Some x -> move c p h = with_conns (<[c := set_pc p x]> (conns h)) h.
Proof.
  intros Hx. unfold move. f_equal. apply map_eq. intros d. destruct (decide (d = c)) as [->|].
  - by rewrite lookup_alter_eq, Hx, lookup_insert_eq.
  - by rewrite lookup_alter_ne, lookup_insert_ne.
Qed.

Lemma inv_register h c x p :
  inv h -> conns h !! c = Some x -> at_ x = Fresh -> registered (set_pc p x) = true ->
  inv (move c p (register_locked c (user x) h).1).
Proof.
  intros Hi Hx Hf Hp. rewrite (move_insert c p _ x) by done.
  pose proof (inv_closed h Hi c x Hx) as Hcl. rewrite Hf in Hcl.
  destruct Hi. constructor; cbn; try done.
  - intros u d. destruct (decide (u = user x)) as [->|Hu].
    + rewrite lookup_insert_eq. cbn. rewrite elem_of_union, elem_of_singleton, inv_members0.
      destruct (decide (d = c)) as [->|Hd].
      * rewrite lookup_insert_eq. split; [intros _; by eexists|by left].
      * rewrite lookup_insert_ne by done. naive_solver.
    + rewrite lookup_insert_ne by done. rewrite inv_members0.
      destruct (decide (d = c)) as [->|Hd]; [|by rewrite lookup_insert_ne].
      rewrite lookup_insert_eq. split; intros (z & ? & ? & ?); simplify_eq.
  - intros u. rewrite lookup_insert_Some. intros [[_ E]|[_ E]]; [set_solver|by eapply inv_nonempty0].
  - intros u. rewrite elem_of_union, elem_of_singleton, lookup_insert_is_Some', inv_online0.
    split; (intros [->|?]; [by left|by right]).
  - intros d z. rewrite lookup_insert_Some. intros [[<- <-]|[_ ?]]; [|eauto]. cbn.
    rewrite Hcl. symmetry. apply bool_decide_eq_false. intros E. cbn in *.
    unfold registered in Hp. cbn in Hp. by rewrite E in Hp.
  - intros d z. rewrite lookup_insert_Some. intros [[<- <-]|[_ ?]]; [|eauto]. cbn. eauto.
Qed.

(** The clients left after a removal. *)
Definition remaining (c : nat) (u : uuid) (h : hub) : gset nat := default ∅ (clients h !! u) ∖ {[c]}.

Lemma unregister_locked_spec c u h :
  inv h -> c ∈ default ∅ (clients h !! u) ->
  let r := unregister_locked c u h in
  r.2 = bool_decide (remaining c u h = ∅) /\
  (forall v, clients r.1 !! v =
     if decide (v = u) then (if decide (remaining c u h = ∅) then None else Some (remaining c u h))
     else clients h !! v) /\
  (forall v, v ∈ online r.1 <-> is_Some (clients r.1 !! v)) /\
  notifyCh r.1 = notifyCh h /\ busy r.1 = busy h /\ conns r.1 = conns h /\
  running r.1 = running h.
Proof.
  intros Hi Hc. unfold unregister_locked, remaining.
  destruct (clients h !! u) as [cs|] eqn:Hcs; [|set_solver]. cbn [default] in *.
  assert (Hon : u ∈ online h) by (apply (inv_online h Hi); by rewrite Hcs).
  rewrite (bool_decide_true (u ∈ online h)) by done. cbn [from_option id].
  destruct (decide (cs ∖ {[c]} = ∅)) as [He|Hne].
  - rewrite (bool_decide_true (cs ∖ {[c]} = ∅)) by done. rewrite lookup_delete_eq. cbn.
    split_and!; try done.
    + intros v. destruct (decide (v = u)) as [->|]; [by rewrite lookup_delete_eq|].
      by rewrite lookup_delete_ne.
    + intros v. rewrite elem_of_difference, not_elem_of_singleton, lookup_delete_is_Some.
      rewrite (inv_online h Hi). split; intros [? ?]; split; done || congruence.
  - rewrite (bool_decide_false (cs ∖ {[c]} = ∅)) by done. rewrite lookup_insert_eq.
    rewrite bool_decide_false by done. cbn. split_and!; try done.
    + intros v. destruct (decide (v = u)) as [->|]; [by rewrite lookup_insert_eq|].
      by rewrite lookup_insert_ne.
    + intros v. rewrite lookup_insert_is_Some', (inv_online h Hi).
      split; [by right|]. intros [<-|?]; [by rewrite Hcs|done].
Qed.

Lemma inv_unregister h c x p :
  inv h -> conns h !! c = Some x -> at_ x = Live -> p = Departing \/ p = Unregistered ->
  inv (move c p (unregister_locked c (user x) h).1).
Proof.
  intros Hi Hx Hl Hp.
  assert (Hreg : registered x = true) by (unfold registered; by rewrite Hl).
  assert (Hc : c ∈ default ∅ (clients h !! user x)) by (apply (inv_members h Hi); eauto).
  assert (Hpr : registered (set_pc p x) = false) by by destruct Hp as [->| ->].
  pose proof (inv_closed h Hi c x Hx) as Hcl. rewrite Hl in Hcl.
  destruct (unregister_locked_spec c (user x) h Hi Hc) as (_ & Hcs & Hon & Hch & Hb & Hcn & Hr).
  destruct (unregister_locked c (user x) h) as [h' ann]. cbn [fst] in *.
  rewrite (move_insert c p _ x) by by rewrite Hcn.
  destruct Hi. constructor; cbn; rewrite ?Hcn, ?Hch; try done.
  - intros u d. rewrite Hcs. unfold remaining. destruct (decide (u = user x)) as [->|Hu].
    + transitivity (d ∈ default ∅ (clients h !! user x) ∖ {[c]}).
      { destruct (decide (default ∅ (clients h !! user x) ∖ {[c]} = ∅)) as [E|E]; cbn; [|done].
        by rewrite E. }
      rewrite elem_of_difference, not_elem_of_singleton, inv_members0.
      destruct (decide (d = c)) as [->|Hd].
      * rewrite lookup_insert_eq. split; [naive_solver|]. intros (z & [= <-] & ? & ?). congruence.
      * rewrite lookup_insert_ne by done. naive_solver.
    + rewrite inv_members0. destruct (decide (d = c)) as [->|Hd]; [|by rewrite lookup_insert_ne].
      rewrite lookup_insert_eq. split; intros (z & ? & ? & ?); simplify_eq.
  - intros u. rewrite Hcs. destruct (decide (u = user x)); [|apply inv_nonempty0].
    destruct (decide _); [done|congruence].
  - intros d z. rewrite lookup_insert_Some. intros [[<- <-]|[_ ?]]; [|eauto]. cbn.
    rewrite Hcl. by destruct Hp as [->| ->].
  - intros d z. rewrite lookup_insert_Some. intros [[<- <-]|[_ ?]]; [|eauto]. cbn. eauto.
Qed.

Lemma inv_new_conn h c u :
  inv h -> conns h !! c = None -> inv (with_conns (<[c := MkConn u Fresh [] false]> (conns h)) h).
Proof.
  intros [] Hc. constructor; cbn; try done.
  - intros v d. rewrite inv_members0. destruct (decide (d = c)) as [->|Hd].
    + rewrite lookup_insert_eq. split; intros (z & ? & ? & ?); simplify_eq.
    + by rewrite lookup_insert_ne.
  - intros d z. rewrite lookup_insert_Some. intros [[<- <-]|[_ ?]]; [done|eauto].
  - intros d z. rewrite lookup_insert_Some. intros [[<- <-]|[_ ?]]; [cbn; lia|eauto].
Qed.

Lemma enqueue_ok ev x :
  user (enqueue ev x) = user x /\ at_ (enqueue ev x) = at_ x /\
  closed (enqueue ev x) = closed x /\
  (length (send x) <= sendBuffer -> length (send (enqueue ev x)) <= sendBuffer).
Proof.
  unfold enqueue. destruct (Nat.ltb_spec (length (send x)) sendBuffer); cbn; [|done].
  split_and!; try done. rewrite length_app. cbn. lia.
Qed.

Lemma inv_deliver h m (f : nat -> conn -> conn) :
  inv h -> (forall c, m !! c = f c <$> conns h !! c) ->
  (forall c x, user (f c x) = user x /\ at_ (f c x) = at_ x /\ closed (f c x) = closed x /\
     (length (send x) <= sendBuffer -> length (send (f c x)) <= sendBuffer)) ->
  inv (with_conns m h).
Proof.
  intros [] Hm Hf. constructor; cbn; try done.
  - intros u c. rewrite inv_members0, Hm. destruct (conns h !! c) as [x|]; cbn; [|naive_solver].
    destruct (Hf c x) as (H1 & H2 & _). unfold registered.
    split; intros (y & [= <-] & H3 & H4); eexists; (split; [done|]); rewrite ?H1, ?H2 in *; done.
  - intros c y. rewrite Hm, fmap_Some. intros (x & Hx & ->).
    destruct (Hf c x) as (_ & -> & -> & _). eauto.
  - intros c y. rewrite Hm, fmap_Some. intros (x & Hx & ->).
    destruct (Hf c x) as (_ & _ & _ & Hl). eauto.
Qed.

Lemma inv_dispatch h ch b r :
  inv h -> length ch <= notifyBuffer ->
  inv (MkHub (clients h) (online h) ch b (conns h) r).
Proof. intros [] Hl. by constructor. Qed.

(** Every step from a state of the invariant runs without panic to another. *)
Lemma step_inv l h o : inv h -> step l h = Some o -> exists h', o = Running h' /\ inv h'.
Proof.
  intros Hi Hs. destruct l as [c u|c|c|n|c|c|c| | |]; cbn [step] in Hs.
  - destruct (conns h !! c) eqn:Hc; [done|]. injection Hs as <-. eauto using inv_new_conn.
  - destruct (conns h !! c) as [[u [] q cl]|] eqn:Hc; try done.
    pose proof (inv_register h c _ (if (register_locked c u h).2 then Announcing else Live)
      Hi Hc eq_refl) as Hr. cbn [user] in Hr.
    destruct (register_locked c u h) as [h' a]. injection Hs as <-. eexists. split; [done|].
    apply Hr. by destruct a.
  - destruct (conns h !! c) as [[u [] q cl]|] eqn:Hc; try done;
      (destruct (has_room h) eqn:Hroom; [|done]); injection Hs as <-; eexists; (split; [done|]);
      (rewrite (move_insert c _ _ (MkConn u _ q cl)) by done);
      (eapply inv_alter; [by apply inv_push|exact Hc|done|done| |by apply (inv_send h Hi c _ Hc)]);
      cbn; exact (inv_closed h Hi c _ Hc).
  - destruct (has_room h) eqn:Hroom; [|done]. injection Hs as <-. eauto using inv_push.
  - destruct (conns h !! c) as [[u [] q cl]|] eqn:Hc; try done.
    pose proof (inv_unregister h c _ (if (unregister_locked c u h).2 then Departing
      else Unregistered) Hi Hc eq_refl) as Hr. cbn [user] in Hr.
    destruct (unregister_locked c u h) as [h' a]. injection Hs as <-. eexists. split; [done|].
    apply Hr. destruct a; auto.
  - destruct (conns h !! c) as [[u [] q cl]|] eqn:Hc; try done.
    pose proof (inv_closed h Hi c _ Hc) as Hcl. cbn in Hcl. subst cl. injection Hs as <-.
    eexists. split; [done|]. eapply inv_alter; [done|exact Hc|done|done|done|].
    by apply (inv_send h Hi c _ Hc).
  - destruct (conns h !! c) as [x|] eqn:Hc; [|done]. destruct (send x) as [|ev q] eqn:Hq; [done|].
    injection Hs as <-. eexists. split; [done|].
    eapply inv_alter; [done|exact Hc|done|done|by apply (inv_closed h Hi c x Hc)|].
    pose proof (inv_send h Hi c x Hc) as Hl. rewrite Hq in Hl. cbn in *. lia.
  - destruct (running h); [|done]. destruct (busy h); [done|].
    destruct (notifyCh h) as [|n q] eqn:Hq; [done|]. injection Hs as <-. eexists. split; [done|].
    apply inv_dispatch; [done|]. pose proof (inv_ch h Hi) as Hl. rewrite Hq in Hl. cbn in Hl. lia.
  - destruct (busy h) as [n|]; [|done]. destruct (deliver_inv n h Hi) as (m & Hd & Hm). rewrite Hd in Hs.
    injection Hs as <-. eexists. split; [done|]. apply (inv_dispatch (with_conns m h)).
    + eapply inv_deliver; [done|exact Hm|]. intros c x. cbv beta.
      destruct (decide (c ∈ targets n h)); [apply enqueue_ok|done].
    + cbn. apply Hi.
  - destruct (busy h); [done|]. injection Hs as <-. eexists. split; [done|].
    apply inv_dispatch; [done|apply Hi].
Qed.

Lemma reachable_inv o : reachable o -> exists h, o = Running h /\ inv h.
Proof.
  induction 1 as [|h l o _ (h' & [= <-] & Hi) Hs]; [eauto using inv_NewHub|by eapply step_inv].
Qed.

Lemma reachable_labels ls h o : reachable (Running h) -> run_labels ls h = Some o -> reachable o.
Proof.
  revert h. induction ls as [|l ls IH]; intros h Hr; cbn; [by intros [= <-]|].
  destruct (step l h) as [[h'|]|] eqn:Hs; [|intros [= <-]|done].
  - apply IH. by eapply reach_step.
  - by eapply reach_step.
Qed.

(** ** Correctness *)

(** Who is online. *)
Lemma online_registered h u :
  reachable (Running h) ->
  u ∈ online h <-> exists c x, conns h !! c = Some x /\ user x = u /\ registered x = true.
Proof.
  intros (h0 & [= <-] & Hi)%reachable_inv. rewrite (inv_online h Hi). split.
  - intros [cs Hcs]. destruct (set_choose_or_empty cs) as [[c Hc]|He].
    + destruct (proj1 (inv_members h Hi u c)) as (x & Hx); [by rewrite Hcs|]. by exists c, x.
    + exfalso. apply (inv_nonempty h Hi u). rewrite Hcs. f_equal. by apply leibniz_equiv.
  - intros (c & x & Hx). assert (Hc : c ∈ default ∅ (clients h !! u)).
    { apply (inv_members h Hi). by exists x. }
    destruct (clients h !! u); [done|]. by apply not_elem_of_empty in Hc.
Qed.

(** C22: in every reachable state of the hub, whatever the interleaving of connections,
    handlers, the dispatcher and shutdown: nothing has panicked (no event was sent on a closed
    channel, no channel closed twice), and a user is reported online exactly when one of the
    user's connections is registered; the dispatch queue holds at most 256 notifications and
    every connection's buffer at most 64 events. *)
Theorem hub_safe o :
  reachable o ->
  exists h, o = Running h /\
    (forall u, IsOnline u h = true <->
       exists c x, conns h !! c = Some x /\ user x = u /\ registered x = true) /\
    length (notifyCh h) <= 256 /\
    (forall c x, conns h !! c = Some x -> length (send x) <= 64).
Proof.
  intros Hr. destruct (reachable_inv o Hr) as (h & -> & Hi). exists h. split; [done|].
  split; [|split; [apply Hi|intros c x Hx; by apply (inv_send h Hi c x)]].
  intros u. unfold IsOnline. rewrite bool_decide_eq_true. by apply online_registered.
Qed.

(** What a notification does to a connection: registered and addressed, it gets the event unless
    its buffer is full. *)
Definition receive (n : notify) (x : conn) : conn :=
  if registered x && (N.eqb (userID n) uuid_Nil || N.eqb (user x) (userID n))
       && (length (send x) <? sendBuffer)
  then MkConn (user x) (at_ x) (send x ++ [event n]) (closed x) else x.

Lemma deliver_exact h n :
  inv h ->
  exists m, deliver n h = Some (with_conns m h) /\
    forall c, m !! c = receive n <$> conns h !! c.
Proof.
  intros Hi. destruct (deliver_inv n h Hi) as (m & Hd & Hm).
  exists m. split; [done|]. intros c. rewrite Hm. destruct (conns h !! c) as [x|] eqn:Hx; [|done].
  cbn [fmap option_fmap option_map]. f_equal. destruct (decide (c ∈ targets n h)) as [Ht|Ht].
  - destruct (targets_registered n h c Hi Ht) as (y & Hy & Hr & Hu).
    assert (y = x) as -> by congruence. unfold receive. rewrite Hr. unfold enqueue.
    destruct (N.eqb_spec (userID n) uuid_Nil) as [|Hne]; [done|].
    by rewrite (proj2 (N.eqb_eq _ _) (Hu Hne)).
  - unfold receive. destruct (registered x) eqn:Hr; [|done]. cbn.
    destruct (N.eqb_spec (userID n) uuid_Nil) as [|Hne].
    { destruct Ht. eapply targets_complete; eauto. }
    destruct (N.eqb_spec (user x) (userID n)); [|done].
    destruct Ht. eapply targets_complete; eauto.
Qed.

(** Delivering a notification in a reachable state never blocks and never panics: the event
    is appended to the buffer of exactly the registered connections of its user (of all users
    for a broadcast), dropped only where 64 events are already waiting, and nothing else
    changes. *)
Theorem deliver_spec h n :
  reachable (Running h) ->
  exists m, deliver n h = Some (with_conns m h) /\
    forall c, m !! c =
      (fun x => if registered x && (N.eqb (userID n) uuid_Nil || N.eqb (user x) (userID n))
                   && (length (send x) <? 64)
                then MkConn (user x) (at_ x) (send x ++ [event n]) (closed x)
                else x) <$> conns h !! c.
Proof.
  intros (h0 & [= <-] & Hi)%reachable_inv. apply (deliver_exact h n Hi).
Qed.

(** The blocking send of [Notify], [Broadcast] and the presence announcements always gets
    its turn while the dispatcher runs: from any reachable state at most two steps of the
    dispatcher alone make room in the queue, so no cycle of goroutines waits on one another. *)
Theorem dispatcher_makes_room h :
  reachable (Running h) -> running h = true ->
  exists ls h', (length ls <= 2)%nat /\ Forall (fun l => l = LReceive \/ l = LDeliver) ls /\
    run_labels ls h = Some (Running h') /\ has_room h' = true.
Proof.
  intros (h0 & [= <-] & Hi)%reachable_inv Hrun.
  destruct (has_room h) eqn:Hroom.
  { exists [], h. split_and!; try done; cbn; lia. }
  assert (Hrec : forall g, inv g -> running g = true -> busy g = None -> has_room g = false ->
    exists g', step LReceive g = Some (Running g') /\ has_room g' = true).
  { intros g Hg Hr Hb Hf. cbn. rewrite Hr, Hb. unfold has_room in *. apply Nat.ltb_ge in Hf.
    pose proof (inv_ch g Hg). unfold notifyBuffer in *.
    destruct (notifyCh g) as [|n q]; [cbn in Hf; lia|].
    eexists. split; [done|]. cbn [length notifyCh] in *. apply Nat.leb_le. lia. }
  destruct (busy h) as [n|] eqn:Hb.
  - destruct (deliver_inv n h Hi) as (m & Hd & Hm).
    assert (Hs : step LDeliver h = Some (Running (MkHub (clients h) (online h) (notifyCh h) None
                   m (running h)))) by (cbn; by rewrite Hb, Hd).
    destruct (step_inv _ _ _ Hi Hs) as (h1 & [= <-] & Hi1).
    destruct (Hrec _ Hi1) as (h2 & Hs2 & Hr2); try done.
    exists [LDeliver; LReceive], h2. cbn [run_labels]. rewrite Hs, Hs2.
    split_and!; [cbn; lia|rewrite !Forall_cons; auto|done|done].
  - destruct (Hrec h) as (h1 & Hs & Hr1); try done.
    exists [LReceive], h1. cbn [run_labels]. rewrite Hs.
    split_and!; [cbn; lia|rewrite !Forall_cons; auto|done|done].
Qed.

(** A user who reconnects while the old connection closes. *)
Definition reconnect : list label :=
  [LAccept 1 5%N; LRegister 1; LAnnounce 1; LUnregister 1;
   LAccept 2 5%N; LRegister 2; LAnnounce 2; LAnnounce 1].

(** Presence events are queued outside the lock, so their order need not be the order of
    the changes: a user who reconnects can be online while the last presence event queued for
    that user says offline. *)
Theorem presence_out_of_order :
  exists h, reachable (Running h) /\ IsOnline 5%N h = true /\
    last (notifyCh h) = Some (MkNotify uuid_Nil (presence 5%N false)).
Proof.
  pose (h := match run_labels reconnect NewHub with Some (Running h) => h | _ => NewHub end).
  exists h. split; [|by vm_compute].
  apply (reachable_labels reconnect NewHub); [apply reach_init|by vm_compute].
Qed.

(** A connected user with one waiting event. *)
Definition one_user : hub :=
  match run_labels [LAccept 1 5%N; LRegister 1; LAnnounce 1; LReceive; LDeliver] NewHub with
  | Some (Running h) => h | _ => NewHub end.

Lemma one_user_reachable : reachable (Running one_user).
Proof.
  apply (reachable_labels [LAccept 1 5%N; LRegister 1; LAnnounce 1; LReceive; LDeliver] NewHub);
    [apply reach_init|by vm_compute].
Qed.

Lemma hub_safe_witness :
  exists h, Running one_user = Running h /\ IsOnline 5%N h = true /\ length (notifyCh h) <= 256.
Proof.
  destruct (hub_safe (Running one_user) one_user_reachable) as (h & Hh & Hon & Hlen & _).
  exists h. split; [exact Hh|]. split; [|exact Hlen].
  injection Hh as <-. by vm_compute.
Defined.

Lemma deliver_spec_witness :
  exists m, deliver (MkNotify 5%N (MkEvent "hi" (any_data (JBool true)))) one_user
            = Some (with_conns m one_user).
Proof.
  destruct (deliver_spec one_user (MkNotify 5%N (MkEvent "hi" (any_data (JBool true))))
              one_user_reachable) as (m & Hm & _).
  exists m. exact Hm.
Defined.

Lemma dispatcher_makes_room_witness :
  exists ls h', run_labels ls one_user = Some (Running h') /\ has_room h' = true.
Proof.
  destruct (dispatcher_makes_room one_user one_user_reachable) as (ls & h' & _ & _ & H1 & H2);
    [by vm_compute|]. exists ls, h'. split; [exact H1|exact H2].
Defined.
