(* ===== verification/Handlers.v ===== *)
(** * HTTP handlers (internal/handlers) and routes (internal/http/router.go)

    A request is what the router and net/http hand to a handler: the headers it reads, the raw
    text of its path and query parameters, the decoded JSON body ([None] when [decodeJSON]
    fails), the uploaded file.  A response is a status, the machine-readable error code (empty
    on success), the refresh cookie it sets (empty to clear it), the payload, whose JSON
    text Responses.v writes, and the events handed to the hub.

    [endpoint] enumerates the routes; [handle] puts each handler behind the middleware the
    router mounts it under. *)
From S2P Require Import Prelude GoStrings GoErrors Models Db Prog Concrete Roles Encoding Config.
From S2P Require Import Password Jwt Hub.
From S2P Require Import AuthService AdminService InstallService GroupService ThreadService.
From S2P Require Import PostService MessageService MediaService.
Import MessageService.Notifications.
Local Open Scope mc_scope.

(** ** Requests and responses *)

Record context := Context_ {
  Authorization : string;      (* the header *)
  refresh_cookie : option string;
  RemoteAddr : string;
  UserAgent : string;
  q_limit : string;            (* query parameters, empty when absent *)
  q_offset : string }.

Inductive payload :=
| PNone
| PError (message : string)
| PUser (u : User.t)
| PRegistered (u : User.t)
| PLogin (access : string) (u : User.t) (roles : list string)
| PAccess (access : string)
| PProfile (u : User.t) (roles : list string)
| PGroup (g : Group.t)
| PGroups (l : list Group.t)
| PThread (t : ThreadSummary.t)
| PPost (p : PostSummary.t)
| PMessage (m : PrivateMessage.t)
| PAttachment (a : Attachment.t)
| PUserWithRoles (u : UserWithRoles.t)
| PSettings (forum_name : string)
| PInstallStatus (s : InstallService.InstallStatus.t)
| PInstalled (forum_name : string) (u : User.t)
| PUnread (messages notifications : Z)
| PThreads (l : list ThreadSummary.t) (total limit offset : Z)
| PPosts (l : list PostSummary.t) (total limit offset : Z)
| PConversations (l : list PMConversation.t) (total limit offset : Z)
| PNotifications (l : list Notification.t) (total limit offset : Z)
| PUsers (l : list UserWithRoles.t) (total limit offset : Z)
| PMedia (l : list AttachmentWithOwner.t) (total limit offset : Z)
| PStatus (st : string)
| PVersion (backend : string) (db : Z)
| POnline (l : list uuid)
| PPresence (user_id : uuid) (online : bool)
| PConnected (user_id : uuid)
| PObject (ctype : string) (size : Z) (data : string).

Record response := Response {
  status : Z; code : string; set_cookie : option string; body : payload; events : list notify }.

Definition writeJSON (st : Z) (v : payload) : prog response := Ret (Response st "" None v []).
Definition writeError (st : Z) (c message : string) : prog response :=
  Ret (Response st c None (PError message) []).
Definition writeServerError : prog response :=
  writeError 500 "internal_error" "an unexpected error occurred".
Definition noContent : prog response := writeJSON 204 PNone.

Definition with_cookie (value : string) (r : response) : response :=
  Response (status r) (code r) (Some value) (body r) (events r).
(** [setRefreshCookie] and [clearRefreshCookie] before the rest of the response. *)
Definition setting (value : string) (p : prog response) : prog response :=
  r <- p ;; Ret (with_cookie value r).

(** pagination parses limit/offset query parameters with sensible bounds. *)
Definition pagination (c : context) : Z * Z :=
  let limit :=
    if negb (String.eqb (q_limit c) "") then
      match Atoi (q_limit c) with
      | Some n => if (1 <=? n)%Z && (n <=? 100)%Z then n else 20%Z
      | None => 20%Z
      end
    else 20%Z in
  let offset :=
    if negb (String.eqb (q_offset c) "") then
      match Atoi (q_offset c) with
      | Some n => if (0 <=? n)%Z then n else 0%Z
      | None => 0%Z
      end
    else 0%Z in
  (limit, offset).

Definition core_errors : list (sentinel * (Z * string * string)) :=
  [(ErrInvalidInput, (400, "validation_error", "Invalid request"));
   (ErrForbidden, (403, "forbidden", "Forbidden"));
   (ErrGroupNotFound, (404, "group_not_found", "Group not found"));
   (ErrThreadNotFound, (404, "thread_not_found", "Thread not found"));
   (ErrPostNotFound, (404, "post_not_found", "Post not found"));
   (ErrNotFound, (404, "not_found", "Resource not found"));
   (ErrUserNotFound, (404, "user_not_found", "User not found"));
   (ErrAttachmentNotFound, (404, "attachment_not_found", "Attachment not found"));
   (ErrFileTooLarge, (413, "payload_too_large", "File is too large"));
   (ErrUnsupportedType, (415, "unsupported_content_type", "File type is not supported"));
   (ErrThreadLocked, (409, "thread_locked", "Thread is locked"));
   (ErrNotEmpty, (409, "not_empty", "Resource is not empty"));
   (ErrConflict, (409, "conflict", "Resource already exists"))]%Z.

Fixpoint first_match {A} (err : error) (l : list (sentinel * A)) : option A :=
  match l with
  | [] => None
  | (s, r) :: l' => if errors_Is err s then Some r else first_match err l'
  end.

(** writeCoreError maps core service errors to stable HTTP responses. *)
Definition writeCoreError (err : error) : prog response :=
  match first_match err core_errors with
  | Some (st, c, message) => writeError st c message
  | None => writeServerError
  end.

(** The common tail of the handlers: an error goes through [writeCoreError]. *)
Definition answer {A} (p : prog (result A)) (k : A -> prog response) : prog response :=
  r <- p ;; match r with Err err => writeCoreError err | Ok a => k a end.

(** [clientIP]: the host of the peer's address, or the address as it is. *)
Definition clientIP (c : context) : string :=
  match SplitHostPort_host (RemoteAddr c) with Some ip => ip | None => RemoteAddr c end.

(** [bearerToken] *)
Definition bearerToken (header : string) : string :=
  if (7 <? len header)%Z && String.eqb (map_bytes lower_byte (str_take 7 header)) "bearer "
  then TrimSpace (str_drop 7 header) else "".

(** RequireRole restricts a route to users holding any of the given roles. *)
Definition RequireRole (roles : list string) (ui : UserInfo.t) (next : prog response)
    : prog response :=
  if hasRole (UserInfo.Roles ui) roles then next else writeError 403 "forbidden" "insufficient permissions".

Record deps := Deps {
  auth_svc : AuthService.AuthService.t;
  media_svc : MediaService.MediaService.t }.

Definition jwtm (d : deps) : Manager.t := AuthService.AuthService.jwt (auth_svc d).
Definition hasher (d : deps) : Params.t := AuthService.AuthService.hasher (auth_svc d).

Section middleware.
Context `{Uuid, Jwt}.

(** RequireAuth validates the Bearer access token and attaches the user identity. *)
Definition RequireAuth (m : Manager.t) (c : context) (next : UserInfo.t -> prog response)
    : prog response :=
  let raw := bearerToken (Authorization c) in
  if String.eqb raw "" then writeError 401 "unauthorized" "authentication required" else
  claims <- Parse m raw ;;
  match claims with
  | Err _ => writeError 401 "invalid_token" "access token is invalid or expired"
  | Ok claims =>
    match uuid_Parse (Claims.Subject claims) with
    | None => writeError 401 "invalid_token" "access token is invalid or expired"
    | Some userID =>
        next (UserInfo.Mk userID (Claims.Username claims) (Claims.Roles claims))
    end
  end.

(** [pathID] followed by the handler's 400. *)
Definition pathID (raw message : string) (k : uuid -> prog response) : prog response :=
  match uuid_Parse raw with
  | None => writeError 400 "invalid_id" message
  | Some id => k id
  end.

End middleware.

(** [decodeJSON] followed by the handler's 400. *)
Definition decoded {A} (body : option A) (c message : string) (k : A -> prog response) : prog response :=
  match body with
  | None => writeError 400 c message
  | Some req => k req
  end.

(** ** Handlers *)

Module registerRequest.
Record t := Mk { username : string; email : string; password : string }.
End registerRequest.
Module loginRequest.
Record t := Mk { identifier : string; password : string }.
End loginRequest.
Module createThreadRequest.
Record t := Mk { title : string; body : string }.
End createThreadRequest.
Module updateUserRequest.
Record t := Mk { roles : option (list string); status : option string }.
End updateUserRequest.
Module sendMessageRequest.
Record t := Mk { recipient_id : uuid; body : string }.
End sendMessageRequest.
(** [r.FormFile("file")]: name, content type, size and bytes. *)
Module upload.
Record t := Mk { Filename : string; ContentType : string; Size : Z; data : string }.
End upload.

Section handlers.
Context `{Postgres, Argon2, Uuid, Jwt, Unicode}.
Implicit Types (d : deps) (c : context) (ui : UserInfo.t).

(** auth.go *)
Definition auth_Register d (body : option registerRequest.t) : prog response :=
  decoded body "malformed_request" "request body is invalid" (fun req =>
  user <- AuthService.Register (auth_svc d) (registerRequest.username req)
            (registerRequest.email req) (registerRequest.password req) ;;
  match user with
  | Err err =>
      if errors_Is err ErrValidation then writeError 400 "validation_error" (default "" (Error err))
      else if errors_Is err ErrUsernameTaken || errors_Is err ErrEmailTaken
      then writeError 409 "user_exists" "username or email is already registered"
      else writeServerError
  | Ok user => writeJSON 201 (PRegistered user)
  end).

Definition auth_Login d c (body : option loginRequest.t) : prog response :=
  decoded body "malformed_request" "request body is invalid" (fun req =>
  tokens <- AuthService.Login (auth_svc d) (loginRequest.identifier req)
              (loginRequest.password req) (UserAgent c) (clientIP c) ;;
  match tokens with
  | Err err =>
      if errors_Is err ErrInvalidCredentials then writeError 401 "invalid_credentials" "username or password is incorrect"
      else if errors_Is err ErrUserNotActive then writeError 403 "account_disabled" "account is not active"
      else writeServerError
  | Ok t =>
      setting (AuthService.Tokens.RefreshToken t)
        (writeJSON 200 (PLogin (AuthService.Tokens.AccessToken t) (AuthService.Tokens.theUser t)
                          (AuthService.Tokens.Roles t)))
  end).

Definition auth_Refresh d c : prog response :=
  match refresh_cookie c with
  | None | Some "" => writeError 401 "invalid_refresh_token" "refresh token is missing"
  | Some value =>
    tokens <- AuthService.Refresh (auth_svc d) value (UserAgent c) (clientIP c) ;;
    match tokens with
    | Err err =>
        if errors_Is err ErrInvalidRefresh
        then setting "" (writeError 401 "invalid_refresh_token" "refresh token is invalid or expired")
        else if errors_Is err ErrUserNotActive
        then setting "" (writeError 403 "account_disabled" "account is not active")
        else writeServerError
    | Ok t => setting (AuthService.Tokens.RefreshToken t)
                (writeJSON 200 (PAccess (AuthService.Tokens.AccessToken t)))
    end
  end.

Definition auth_Logout c : prog response :=
  match refresh_cookie c with
  | None | Some "" => setting "" noContent
  | Some value => _ <- AuthService.Logout value ;; setting "" noContent
  end.

Definition auth_Me ui : prog response :=
  r <- AuthService.Profile (UserInfo.ID ui) ;;
  match r with
  | Err err => if errors_Is err ErrUserNotFound then writeError 404 "user_not_found" "user does not exist"
               else writeServerError
  | Ok (user, roles) => writeJSON 200 (PProfile user roles)
  end.

(** groups.go *)
Definition groups_List : prog response :=
  answer GroupService.List (fun l => writeJSON 200 (PGroups l)).
Definition groups_Create (body : option GroupService.GroupInput.t) : prog response :=
  decoded body "invalid_json" "Invalid request body" (fun req =>
  answer (GroupService.Create req) (fun g => writeJSON 201 (PGroup g))).
Definition groups_Get (groupID : string) : prog response :=
  pathID groupID "Invalid group id" (fun id =>
  answer (GroupService.Get id) (fun g => writeJSON 200 (PGroup g))).
Definition groups_Update (groupID : string) (body : option GroupService.GroupInput.t)
    : prog response :=
  pathID groupID "Invalid group id" (fun id =>
  decoded body "invalid_json" "Invalid request body" (fun req =>
  answer (GroupService.Update id req) (fun g => writeJSON 200 (PGroup g)))).
Definition groups_Delete (groupID : string) : prog response :=
  pathID groupID "Invalid group id" (fun id =>
  answer (GroupService.Delete id) (fun _ => noContent)).

(** threads.go *)
Definition threads_ListByGroup c (groupID : string) : prog response :=
  pathID groupID "Invalid group id" (fun id =>
  let (limit, offset) := pagination c in
  answer (ThreadService.ListByGroup id limit offset)
    (fun r => writeJSON 200 (PThreads r.1 r.2 limit offset))).
Definition threads_Create ui (groupID : string) (body : option createThreadRequest.t)
    : prog response :=
  pathID groupID "Invalid group id" (fun id =>
  decoded body "invalid_json" "Invalid request body" (fun req =>
  answer (ThreadService.Create (ThreadService.CreateThreadInput.Mk id (UserInfo.ID ui)
            (createThreadRequest.title req) (createThreadRequest.body req)))
    (fun th => writeJSON 201 (PThread th)))).
Definition threads_Get (threadID : string) : prog response :=
  pathID threadID "Invalid thread id" (fun id =>
  answer (ThreadService.Get id) (fun th => writeJSON 200 (PThread th))).
Definition threads_Update ui (threadID : string)
    (body : option ThreadService.UpdateThreadInput.t) : prog response :=
  pathID threadID "Invalid thread id" (fun id =>
  decoded body "invalid_json" "Invalid request body" (fun req =>
  answer (ThreadService.Update id req (UserInfo.ID ui) (UserInfo.Roles ui))
    (fun th => writeJSON 200 (PThread th)))).
Definition threads_Delete ui (threadID : string) : prog response :=
  pathID threadID "Invalid thread id" (fun id =>
  answer (ThreadService.Delete id (UserInfo.ID ui) (UserInfo.Roles ui)) (fun _ => noContent)).

(** posts.go *)
Definition posts_ListByThread c (threadID : string) : prog response :=
  pathID threadID "Invalid thread id" (fun id =>
  let (limit, offset) := pagination c in
  answer (PostService.ListByThread id limit offset)
    (fun r => writeJSON 200 (PPosts r.1 r.2 limit offset))).
Definition posts_Create ui (threadID : string) (body : option string) : prog response :=
  pathID threadID "Invalid thread id" (fun id =>
  decoded body "invalid_json" "Invalid request body" (fun req =>
  answer (PostService.Create id (UserInfo.ID ui) req) (fun p => writeJSON 201 (PPost p)))).
Definition posts_Update ui (postID : string) (body : option string) : prog response :=
  pathID postID "Invalid post id" (fun id =>
  decoded body "invalid_json" "Invalid request body" (fun req =>
  answer (PostService.Update id (UserInfo.ID ui) req) (fun p => writeJSON 200 (PPost p)))).
Definition posts_Delete ui (postID : string) : prog response :=
  pathID postID "Invalid post id" (fun id =>
  answer (PostService.Delete id (UserInfo.ID ui) (UserInfo.Roles ui)) (fun _ => noContent)).

(** media.go *)
Definition media_UploadAvatar d ui (file : option upload.t) : prog response :=
  decoded file "missing_file" "a multipart file field 'file' is required" (fun f =>
  answer (MediaService.UploadAvatar (media_svc d) (UserInfo.ID ui) (upload.Filename f)
            (upload.ContentType f) (upload.Size f) (upload.data f))
    (fun u => writeJSON 200 (PUser u))).
Definition media_UploadAttachment d ui (file : option upload.t) (post_id : string)
    : prog response :=
  decoded file "missing_file" "a multipart file field 'file' is required" (fun f =>
  let upload_for (postID : option uuid) :=
    answer (MediaService.UploadAttachment (media_svc d) (UserInfo.ID ui) postID
              (upload.Filename f) (upload.ContentType f) (upload.Size f) (upload.data f))
      (fun a => writeJSON 201 (PAttachment a)) in
  if negb (String.eqb post_id "")
  then pathID post_id "Invalid post id" (fun id => upload_for (Some id)) else upload_for None).
Definition media_DeleteAttachment ui (attachmentID : string) : prog response :=
  pathID attachmentID "Invalid attachment id" (fun id =>
  answer (MediaService.DeleteAttachment id (UserInfo.ID ui) (UserInfo.Roles ui))
    (fun _ => noContent)).

(** admin.go *)
Definition admin_ListUsers c : prog response :=
  let (limit, offset) := pagination c in
  answer (AdminService.ListUsers limit offset)
    (fun r => writeJSON 200 (PUsers r.1 r.2 limit offset)).
Definition admin_UpdateUser (userID : string) (body : option updateUserRequest.t)
    : prog response :=
  pathID userID "Invalid user id" (fun id =>
  decoded body "malformed_request" "Malformed request body" (fun req =>
  match updateUserRequest.roles req, updateUserRequest.status req with
  | None, None => writeError 400 "validation_error" "Provide roles or status"
  | roles, st => answer (AdminService.UpdateUser id roles st)
                   (fun u => writeJSON 200 (PUserWithRoles u))
  end)).
Definition admin_GetSettings : prog response :=
  answer AdminService.GetSettings (fun s => writeJSON 200 (PSettings s)).
Definition admin_UpdateSettings (body : option string) : prog response :=
  decoded body "malformed_request" "Malformed request body" (fun forum_name =>
  answer (AdminService.UpdateSettings forum_name) (fun s => writeJSON 200 (PSettings s))).
Definition admin_ListMedia c : prog response :=
  let (limit, offset) := pagination c in
  answer (AdminService.ListMedia limit offset)
    (fun r => writeJSON 200 (PMedia r.1 r.2 limit offset)).

(** install.go *)
Definition install_GetStatus : prog response :=
  st <- InstallService.Status ;;
  match st with Err _ => writeServerError | Ok st => writeJSON 200 (PInstallStatus st) end.
Definition install_Create d (body : option InstallService.InstallInput.t) : prog response :=
  decoded body "malformed_request" "Invalid JSON body" (fun req =>
  user <- InstallService.Setup (hasher d) req ;;
  match user with
  | Err err =>
      if errors_Is err ErrAlreadyInstalled then writeError 409 "already_installed" "The forum is already installed"
      else if errors_Is err ErrInvalidInput then writeError 400 "validation_error" "Check the submitted fields"
      else if errors_Is err ErrConflict then writeError 409 "user_exists" "That username or email already exists"
      else writeServerError
  | Ok user => writeJSON 201 (PInstalled (InstallService.InstallInput.ForumName req) user)
  end).

(** message.go; the hub is always present *)
Definition messages_Send ui (body : option sendMessageRequest.t) : prog response :=
  decoded body "malformed_request" "Invalid request body" (fun req =>
  let recipient := sendMessageRequest.recipient_id req in
  if N.eqb recipient uuid_Nil then writeError 400 "invalid_id" "Invalid recipient id" else
  answer (MessageService.Send (UserInfo.ID ui) recipient (sendMessageRequest.body req))
    (fun msg =>
     n <- MessageService.Notifications.OnPrivateMessage msg ;;
     match n with
     | Err _ => writeServerError
     | Ok n => Ret (Response 201 "" None (PMessage msg)
                      [MkNotify recipient (MkEvent "pm" (pm_data msg));
                       MkNotify recipient (MkEvent "notification" (notification_data n))])
     end)).
Definition messages_Conversation c ui (with_ : string) : prog response :=
  pathID with_ "Invalid 'with' query parameter" (fun other =>
  if N.eqb other uuid_Nil then writeError 400 "invalid_id" "Invalid 'with' query parameter" else
  let (limit, offset) := pagination c in
  answer (MessageService.Conversation (UserInfo.ID ui) other limit offset)
    (fun r => writeJSON 200 (PConversations r.1 r.2 limit offset))).
Definition messages_Inbox c ui : prog response :=
  let (limit, offset) := pagination c in
  answer (MessageService.Inbox (UserInfo.ID ui) limit offset)
    (fun r => writeJSON 200 (PConversations r.1 r.2 limit offset)).
Definition messages_MarkRead ui (messageID : string) : prog response :=
  pathID messageID "Invalid message id" (fun id =>
  answer (MessageService.MarkRead id (UserInfo.ID ui)) (fun _ => noContent)).
Definition messages_UnreadCount ui : prog response :=
  answer (MessageService.UnreadCount (UserInfo.ID ui)) (fun pm =>
  answer (MessageService.Notifications.UnreadCount (UserInfo.ID ui)) (fun notif =>
  writeJSON 200 (PUnread pm notif))).
Definition messages_Notifications c ui : prog response :=
  let (limit, offset) := pagination c in
  answer (MessageService.Notifications.List (UserInfo.ID ui) limit offset)
    (fun r => writeJSON 200 (PNotifications r.1 r.2 limit offset)).
Definition messages_MarkNotificationRead ui (notificationID : string) : prog response :=
  pathID notificationID "Invalid notification id" (fun id =>
  answer (MessageService.Notifications.MarkRead id (UserInfo.ID ui)) (fun _ => noContent)).
Definition messages_MarkAllNotificationsRead ui : prog response :=
  r <- MessageService.Notifications.MarkAllRead (UserInfo.ID ui) ;;
  match r with Err _ => writeServerError | Ok _ => noContent end.

End handlers.

(** ** Routes *)

Inductive endpoint :=
| GetInstall
| PostInstall (body : option InstallService.InstallInput.t)
| PostRegister (body : option registerRequest.t)
| PostLogin (body : option loginRequest.t)
| PostRefresh
| PostLogout
| GetMe
| GetGroups
| PostGroup (body : option GroupService.GroupInput.t)
| PatchGroup (groupID : string) (body : option GroupService.GroupInput.t)
| DeleteGroup (groupID : string)
| GetGroup (groupID : string)
| GetThreads (groupID : string)
| PostThread (groupID : string) (body : option createThreadRequest.t)
| GetThread (threadID : string)
| PatchThread (threadID : string) (body : option ThreadService.UpdateThreadInput.t)
| DeleteThread (threadID : string)
| GetPosts (threadID : string)
| PostPost (threadID : string) (body : option string)
| PatchPost (postID : string) (body : option string)
| DeletePost (postID : string)
| PostAvatar (file : option upload.t)
| PostAttachment (file : option upload.t) (post_id : string)
| DeleteAttachment (attachmentID : string)
| GetUsers
| PatchUser (userID : string) (body : option updateUserRequest.t)
| GetSettings
| PutSettings (body : option string)
| GetMedia
| GetInbox
| GetConversation (with_ : string)
| PostMessage (body : option sendMessageRequest.t)
| GetUnreadCount
| PatchMessageRead (messageID : string)
| GetNotifications
| PatchNotificationRead (notificationID : string)
| PatchAllNotificationsRead.

(** The middleware a route is mounted under. *)
Inductive guard := Public | Authenticated | AdminOnly.

Definition guard_of (ep : endpoint) : guard :=
  match ep with
  | GetInstall | PostInstall _ | PostRegister _ | PostLogin _ | PostRefresh | PostLogout
  | GetGroups | GetGroup _ | GetThreads _ | GetThread _ | GetPosts _ => Public
  | PostGroup _ | PatchGroup _ _ | DeleteGroup _
  | GetUsers | PatchUser _ _ | GetSettings | PutSettings _ | GetMedia => AdminOnly
  | _ => Authenticated
  end.

Section routes.
Context `{Postgres, Argon2, Uuid, Jwt, Unicode}.

(** The handler of a route; [ui] is the identity the middleware attached. *)
Definition serve_as (d : deps) (c : context) (ep : endpoint) (ui : UserInfo.t) : prog response :=
  match ep with
  | GetInstall => install_GetStatus
  | PostInstall b => install_Create d b
  | PostRegister b => auth_Register d b
  | PostLogin b => auth_Login d c b
  | PostRefresh => auth_Refresh d c
  | PostLogout => auth_Logout c
  | GetMe => auth_Me ui
  | GetGroups => groups_List
  | PostGroup b => groups_Create b
  | PatchGroup id b => groups_Update id b
  | DeleteGroup id => groups_Delete id
  | GetGroup id => groups_Get id
  | GetThreads id => threads_ListByGroup c id
  | PostThread id b => threads_Create ui id b
  | GetThread id => threads_Get id
  | PatchThread id b => threads_Update ui id b
  | DeleteThread id => threads_Delete ui id
  | GetPosts id => posts_ListByThread c id
  | PostPost id b => posts_Create ui id b
  | PatchPost id b => posts_Update ui id b
  | DeletePost id => posts_Delete ui id
  | PostAvatar f => media_UploadAvatar d ui f
  | PostAttachment f p => media_UploadAttachment d ui f p
  | DeleteAttachment id => media_DeleteAttachment ui id
  | GetUsers => admin_ListUsers c
  | PatchUser id b => admin_UpdateUser id b
  | GetSettings => admin_GetSettings
  | PutSettings b => admin_UpdateSettings b
  | GetMedia => admin_ListMedia c
  | GetInbox => messages_Inbox c ui
  | GetConversation w => messages_Conversation c ui w
  | PostMessage b => messages_Send ui b
  | GetUnreadCount => messages_UnreadCount ui
  | PatchMessageRead id => messages_MarkRead ui id
  | GetNotifications => messages_Notifications c ui
  | PatchNotificationRead id => messages_MarkNotificationRead ui id
  | PatchAllNotificationsRead => messages_MarkAllNotificationsRead ui
  end.

(** Public handlers do not look at the identity. *)
Definition nobody : UserInfo.t := UserInfo.Mk uuid_Nil "" [].

Definition handle (d : deps) (c : context) (ep : endpoint) : prog response :=
  match guard_of ep with
  | Public => serve_as d c ep nobody
  | Authenticated => RequireAuth (jwtm d) c (serve_as d c ep)
  | AdminOnly => RequireAuth (jwtm d) c (fun ui =>
                   RequireRole [RoleAdmin] ui (serve_as d c ep ui))
  end.

End routes.

(** The definitions that [DbSafe] proofs look through. *)
Create HintDb mc_handlers.
#[export] Hint Unfold writeJSON writeError writeServerError noContent setting answer decoded
  writeCoreError auth_Register auth_Login auth_Refresh auth_Logout auth_Me groups_List
  groups_Create groups_Get groups_Update groups_Delete threads_ListByGroup threads_Create
  threads_Get threads_Update threads_Delete posts_ListByThread posts_Create posts_Update
  posts_Delete media_UploadAvatar media_UploadAttachment media_DeleteAttachment admin_ListUsers
  admin_UpdateUser admin_GetSettings admin_UpdateSettings admin_ListMedia install_GetStatus
  install_Create messages_Send messages_Conversation messages_Inbox messages_MarkRead
  messages_UnreadCount messages_Notifications messages_MarkNotificationRead
  messages_MarkAllNotificationsRead pathID RequireRole : mc_handlers.

Section safety.
Context `{Postgres, Argon2, Uuid, Jwt, Unicode}.

#[export] Instance serve_as_safe d c ep ui : DbSafe db_ok (serve_as d c ep ui).
Proof. destruct ep; cbn [serve_as]; autounfold with mc_handlers; apply _. Qed.

#[export] Instance RequireAuth_safe J m c next :
  (forall ui, DbSafe J (next ui)) -> DbSafe J (RequireAuth m c next).
Proof. intros ?. unfold RequireAuth. autounfold with mc_handlers. apply _. Qed.

#[export] Instance handle_safe d c ep : DbSafe db_ok (handle d c ep).
Proof. unfold handle. autounfold with mc_handlers. destruct (guard_of ep); apply _. Qed.

End safety.

(** ** Runs of handlers *)

Section runs.
Context `{Postgres, Argon2, Uuid, Jwt, Unicode}.
Context (e : env).

(** A refusal by the middleware, or the handler with the identity of an accepted token. *)
Lemma RequireAuth_cases m c next w r w' :
  run e (RequireAuth m c next) w = (r, w') ->
  (status r = 401%Z /\ w_db w' = w_db w) \/
  exists claims id w1, run e (Parse m (bearerToken (Authorization c))) w = (Ok claims, w1) /\
    w_db w1 = w_db w /\ uuid_Parse (Claims.Subject claims) = Some id /\
    run e (next (UserInfo.Mk id (Claims.Username claims) (Claims.Roles claims))) w1 = (r, w').
Proof.
  unfold RequireAuth. destruct (String.eqb _ ""); [intros [= <- <-]; by left|].
  intros (o & w1 & Hp & Hr)%run_bind_inv.
  assert (Hw1 : w_db w1 = w_db w).
  { replace w1 with (run e (Parse m (bearerToken (Authorization c))) w).2 by by rewrite Hp.
    apply db_safe_reads. apply _. }
  destruct o as [claims|er]; [|injection Hr as <- <-; by left].
  destruct (uuid_Parse _) as [id|] eqn:Hu; [|injection Hr as <- <-; by left].
  right. by exists claims, id, w1.
Qed.

End runs.

(** Writing the response of a service call changes no table. *)
Lemma writeCoreError_run e er w : w_db (run e (writeCoreError er) w).2 = w_db w.
Proof. unfold writeCoreError. by destruct (first_match _ _) as [[[st co] msg]|]. Qed.

Lemma run_answer {A} e (p : prog (result A)) (k : A -> prog response) w :
  (forall a w, w_db (run e (k a) w).2 = w_db w) ->
  w_db (run e (answer p k) w).2 = w_db (run e p w).2.
Proof.
  intros Hk. unfold answer. rewrite run_bind. destruct (run e p w) as [[a|er] w1]; [apply Hk|].
  apply writeCoreError_run.
Qed.

(** ** Bounds of listings *)

(** Whatever the query holds (nothing, text, numbers out of the range of an integer), the
    limit of a listing is between 1 and 100 and the offset is not negative; a number within
    those bounds is taken as it is. *)
Theorem pagination_bounds c :
  (1 <= (pagination c).1 <= 100)%Z /\ (0 <= (pagination c).2)%Z /\
  (forall n, Atoi (q_limit c) = Some n -> (1 <= n <= 100)%Z -> (pagination c).1 = n) /\
  (forall n, Atoi (q_offset c) = Some n -> (0 <= n)%Z -> (pagination c).2 = n).
Proof.
  unfold pagination. cbn. split_and!.
  - destruct (negb _); [|lia]. destruct (Atoi _) as [n|]; [|lia].
    destruct (Z.leb_spec 1 n), (Z.leb_spec n 100); cbn; lia.
  - destruct (negb _); [|lia]. destruct (Atoi _) as [n|]; [|lia].
    destruct (Z.leb_spec 1 n), (Z.leb_spec n 100); cbn; lia.
  - destruct (negb _); [|lia]. destruct (Atoi _) as [n|]; [|lia].
    destruct (Z.leb_spec 0 n); lia.
  - intros n Hn Hb. destruct (String.eqb_spec (q_limit c) "") as [He|He].
    + rewrite He in Hn. done.
    + cbn. rewrite Hn. rewrite (proj2 (Z.leb_le _ _)) by lia. by rewrite (proj2 (Z.leb_le _ _)) by lia.
  - intros n Hn Hb. destruct (String.eqb_spec (q_offset c) "") as [He|He].
    + rewrite He in Hn. done.
    + cbn. rewrite Hn. by rewrite (proj2 (Z.leb_le _ _)) by lia.
Qed.
