(* ===== verification/Requests.v ===== *)
(** * Request bodies (the request structs of internal/handlers)

    Each struct a handler decodes its body into, with the names of its tags: how the members of
    an object fill it, and what a client writes for it.  [groupRequest], [updateThreadRequest]
    and [installRequest] have the fields of the service inputs that the handlers copy them to,
    and are those records here. *)
From S2P Require Import Prelude GoStrings GoErrors Models Prog Encoding GoJson JsonText Jwt JsonStruct.
From S2P Require Import Handlers GroupService ThreadService InstallService.

Module postRequest.
Record t := Mk { body : string }.
End postRequest.
Module updateSettingsRequest.
Record t := Mk { forum_name : string }.
End updateSettingsRequest.

(** The text of a UUID: hexadecimal digits and hyphens. *)
Class UuidText `{Uuid} : Prop := {
  uuid_text_nonempty u : uuid_String u <> "";
  uuid_text_chars u : all_bytes (fun a => is_hex a || is_byte 45 a) (uuid_String u) = true }.

Definition VOpt {A} (f : A -> value) (o : option A) : value := from_option f VNull o.
Definition valid_opt (o : option string) : Prop := from_option (fun s => ValidString s = true) True o.

Section bodies.
Context `{Uuid}.

Definition registerRequest_body : Body registerRequest.t := {|
  of_members ms :=
    let names := ["username"; "email"; "password"] in
    u ← field names "username" into_string ms;
    e ← field names "email" into_string ms;
    p ← field names "password" into_string ms;
    Some (registerRequest.Mk u e p);
  to_members r :=
    [("username", VString (registerRequest.username r)); ("email", VString (registerRequest.email r));
     ("password", VString (registerRequest.password r))];
  sendable r := ValidString (registerRequest.username r) = true /\
    ValidString (registerRequest.email r) = true /\ ValidString (registerRequest.password r) = true |}.

Definition loginRequest_body : Body loginRequest.t := {|
  of_members ms :=
    let names := ["identifier"; "password"] in
    i ← field names "identifier" into_string ms;
    p ← field names "password" into_string ms;
    Some (loginRequest.Mk i p);
  to_members r :=
    [("identifier", VString (loginRequest.identifier r)); ("password", VString (loginRequest.password r))];
  sendable r := ValidString (loginRequest.identifier r) = true /\
    ValidString (loginRequest.password r) = true |}.

Definition createThreadRequest_body : Body createThreadRequest.t := {|
  of_members ms :=
    let names := ["title"; "body"] in
    t ← field names "title" into_string ms;
    b ← field names "body" into_string ms;
    Some (createThreadRequest.Mk t b);
  to_members r :=
    [("title", VString (createThreadRequest.title r)); ("body", VString (createThreadRequest.body r))];
  sendable r := ValidString (createThreadRequest.title r) = true /\
    ValidString (createThreadRequest.body r) = true |}.

Definition updateThreadRequest_body : Body ThreadService.UpdateThreadInput.t := {|
  of_members ms :=
    let names := ["title"; "pinned"; "locked"] in
    t ← field names "title" (into_ptr into_string) ms;
    p ← field names "pinned" (into_ptr into_bool) ms;
    l ← field names "locked" (into_ptr into_bool) ms;
    Some (ThreadService.UpdateThreadInput.Mk t p l);
  to_members r :=
    [("title", VOpt VString (ThreadService.UpdateThreadInput.Title r));
     ("pinned", VOpt VBool (ThreadService.UpdateThreadInput.Pinned r));
     ("locked", VOpt VBool (ThreadService.UpdateThreadInput.Locked r))];
  sendable r := valid_opt (ThreadService.UpdateThreadInput.Title r) |}.

Definition groupRequest_body : Body GroupService.GroupInput.t := {|
  of_members ms :=
    let names := ["name"; "slug"; "description"; "parent_id"; "sort_order"] in
    n ← field names "name" into_string ms;
    s ← field names "slug" into_string ms;
    d ← field names "description" into_string ms;
    p ← field names "parent_id" (into_ptr into_uuid) ms;
    o ← field names "sort_order" into_int ms;
    Some (GroupService.GroupInput.Mk n s d p o);
  to_members r :=
    [("name", VString (GroupService.GroupInput.Name r));
     ("slug", VString (GroupService.GroupInput.Slug r));
     ("description", VString (GroupService.GroupInput.Description r));
     ("parent_id", VOpt (fun u => VString (uuid_String u)) (GroupService.GroupInput.ParentID r));
     ("sort_order", VInt (GroupService.GroupInput.SortOrder r))];
  sendable r := ValidString (GroupService.GroupInput.Name r) = true /\
    ValidString (GroupService.GroupInput.Slug r) = true /\
    ValidString (GroupService.GroupInput.Description r) = true /\
    int64_ok (GroupService.GroupInput.SortOrder r) = true |}.

Definition postRequest_body : Body postRequest.t := {|
  of_members ms := b ← field ["body"] "body" into_string ms; Some (postRequest.Mk b);
  to_members r := [("body", VString (postRequest.body r))];
  sendable r := ValidString (postRequest.body r) = true |}.

Definition updateUserRequest_body : Body updateUserRequest.t := {|
  of_members ms :=
    let names := ["roles"; "status"] in
    r ← field names "roles" (into_ptr (into_slice into_string)) ms;
    s ← field names "status" (into_ptr into_string) ms;
    Some (updateUserRequest.Mk (fst <$> r) s);
  to_members r :=
    [("roles", VOpt (fun l => VArray (VString <$> l)) (updateUserRequest.roles r));
     ("status", VOpt VString (updateUserRequest.status r))];
  sendable r :=
    from_option (fun l => Forall (fun s => ValidString s = true) l) True (updateUserRequest.roles r) /\
    valid_opt (updateUserRequest.status r) |}.

Definition updateSettingsRequest_body : Body updateSettingsRequest.t := {|
  of_members ms := f ← field ["forum_name"] "forum_name" into_string ms;
    Some (updateSettingsRequest.Mk f);
  to_members r := [("forum_name", VString (updateSettingsRequest.forum_name r))];
  sendable r := ValidString (updateSettingsRequest.forum_name r) = true |}.

Definition installRequest_body : Body InstallService.InstallInput.t := {|
  of_members ms :=
    let names := ["forum_name"; "admin_username"; "admin_email"; "admin_password"] in
    f ← field names "forum_name" into_string ms;
    u ← field names "admin_username" into_string ms;
    e ← field names "admin_email" into_string ms;
    p ← field names "admin_password" into_string ms;
    Some (InstallService.InstallInput.Mk f u e p);
  to_members r :=
    [("forum_name", VString (InstallService.InstallInput.ForumName r));
     ("admin_username", VString (InstallService.InstallInput.AdminUsername r));
     ("admin_email", VString (InstallService.InstallInput.AdminEmail r));
     ("admin_password", VString (InstallService.InstallInput.AdminPassword r))];
  sendable r := ValidString (InstallService.InstallInput.ForumName r) = true /\
    ValidString (InstallService.InstallInput.AdminUsername r) = true /\
    ValidString (InstallService.InstallInput.AdminEmail r) = true /\
    ValidString (InstallService.InstallInput.AdminPassword r) = true |}.

Definition sendMessageRequest_body : Body sendMessageRequest.t := {|
  of_members ms :=
    let names := ["recipient_id"; "body"] in
    r ← field names "recipient_id" into_uuid ms;
    b ← field names "body" into_string ms;
    Some (sendMessageRequest.Mk r b);
  to_members r :=
    [("recipient_id", VString (uuid_String (sendMessageRequest.recipient_id r)));
     ("body", VString (sendMessageRequest.body r))];
  sendable r := ValidString (sendMessageRequest.body r) = true |}.

End bodies.
#[export] Existing Instances registerRequest_body loginRequest_body createThreadRequest_body updateThreadRequest_body groupRequest_body
  postRequest_body updateUserRequest_body updateSettingsRequest_body installRequest_body sendMessageRequest_body.

(** ** What a client writes is read back *)

Section laws.
Context `{Uuid}.

Lemma uuid_char_ascii a : is_hex a || is_byte 45 a = true -> (byte_of a <? 128)%N = true.
Proof.
  intros [Ha|Ha%N.eqb_eq]%orb_true_iff; apply N.ltb_lt; [|lia]. revert Ha. unfold is_hex, hex_val.
  destruct (byte_in 48 57 a) eqn:E1; [apply byte_in_range in E1; lia|].
  destruct (byte_in 97 102 a) eqn:E2; [apply byte_in_range in E2; lia|].
  destruct (byte_in 65 70 a) eqn:E3; [apply byte_in_range in E3; lia|done].
Qed.

Lemma uuid_text_valid `{!UuidText} u : ValidString (uuid_String u) = true.
Proof.
  apply ValidString_ascii. pose proof (uuid_text_chars u) as Hc. unfold is_ascii.
  induction (uuid_String u) as [|a s IH]; [done|]. cbn in *.
  apply andb_true_iff in Hc as [Ha Hc]. by rewrite (uuid_char_ascii a Ha), (IH Hc).
Qed.

Lemma store_strings l old :
  Forall (fun s => ValidString s = true) l ->
  store_elems into_string old (coerce <$> (VString <$> l)) = Some l.
Proof.
  intros Hl. revert old. induction Hl as [|s l Hs Hl IH]; intros old; [done|].
  cbn. by rewrite (coerce_utf8_valid s Hs), IH.
Qed.

#[local] Arguments coerce_utf8 : simpl never.
#[local] Arguments ValidString : simpl never.
#[local] Arguments for_field : simpl never.
#[local] Arguments numbers_ok : simpl nomatch.

(** The keys of a struct, decided. *)
#[local] Ltac decide_keys :=
  repeat match goal with
  | |- context [for_field ?ns ?n ?k] =>
      let v := eval vm_compute in (for_field ns n k) in
      replace (for_field ns n k) with v by (vm_compute; reflexivity); cbv iota
  end.

(** A struct of strings: every field is found and every string survives. *)
#[local] Ltac solve_back :=
  cbn; unfold field; cbn; decide_keys; cbn; rewrite ?coerce_utf8_valid by assumption; try reflexivity.

#[export] Instance registerRequest_laws : BodyLaws registerRequest.t.
Proof.
  constructor; [done|cbn; lia|]. intros [u e p] (Hu & He & Hp). cbn in Hu, He, Hp. solve_back.
Qed.

#[export] Instance loginRequest_laws : BodyLaws loginRequest.t.
Proof. constructor; [done|cbn; lia|]. intros [i p] (Hi & Hp). cbn in Hi, Hp. solve_back. Qed.

#[export] Instance createThreadRequest_laws : BodyLaws createThreadRequest.t.
Proof. constructor; [done|cbn; lia|]. intros [t b] (Ht & Hb). cbn in Ht, Hb. solve_back. Qed.

#[export] Instance postRequest_laws : BodyLaws postRequest.t.
Proof. constructor; [done|cbn; lia|]. intros [b] Hb. cbn in Hb. solve_back. Qed.

#[export] Instance updateSettingsRequest_laws : BodyLaws updateSettingsRequest.t.
Proof. constructor; [done|cbn; lia|]. intros [f] Hf. cbn in Hf. solve_back. Qed.

#[export] Instance installRequest_laws : BodyLaws InstallService.InstallInput.t.
Proof.
  constructor; [done|cbn; lia|]. intros [f u e p] (Hf & Hu & He & Hp). cbn in Hf, Hu, He, Hp. solve_back.
Qed.

#[export] Instance updateThreadRequest_laws : BodyLaws ThreadService.UpdateThreadInput.t.
Proof.
  constructor.
  - by intros [[t|] [p|] [l|]].
  - intros [[t|] [p|] [l|]]; cbn; lia.
  - intros [[t|] [p|] [l|]] Ht; cbn in Ht; solve_back.
Qed.

#[export] Instance sendMessageRequest_laws `{!UuidLaws, !UuidText} : BodyLaws sendMessageRequest.t.
Proof.
  constructor; [done|cbn; lia|]. intros [r b] Hb. cbn in Hb. pose proof (uuid_text_valid r). solve_back.
  by rewrite uuid_Parse_String.
Qed.

#[export] Instance groupRequest_laws `{!UuidLaws, !UuidText} : BodyLaws GroupService.GroupInput.t.
Proof.
  constructor.
  - intros [n s d [p|] o] _; cbn; unfold numbers_ok, number_ok; by rewrite number_FormatInt.
  - intros [n s d [p|] o]; cbn; lia.
  - intros [n s d p o] (Hn & Hs & Hd & Ho). cbn in Hn, Hs, Hd, Ho.
    destruct p as [p|]; [pose proof (uuid_text_valid p)|]; solve_back;
      rewrite ?uuid_Parse_String, Atoi_FormatInt by done; done.
Qed.

#[export] Instance updateUserRequest_laws : BodyLaws updateUserRequest.t.
Proof.
  constructor.
  - intros [[l|] [s|]] _; cbn; rewrite ?andb_true_r; try done; by induction l.
  - assert (Hl : forall l, (foldr Nat.max 0 (depth <$> (VString <$> l)) = 0)%nat)
      by (induction l as [|x l IH]; [done|]; cbn in *; by rewrite IH).
    intros [[l|] [s|]]; cbn; rewrite ?Hl; lia.
  - intros [r s] (Hr & Hs). cbn in Hr, Hs. destruct r as [l|], s as [s|]; cbn in Hr, Hs; solve_back.
    all: rewrite store_strings by done; by destruct l.
Qed.

End laws.
