(* ===== verification/Samples.v ===== *)
(** * A concrete server

    Instances of every parameter of the API (address literals and case folding, argon2, UUID
    text, signed tokens, the Unicode tables) and a small forum, on which whole requests can be
    evaluated. *)
From S2P Require Import Prelude GoStrings GoErrors Models Db Prog Concrete Encoding Sha256 Config.
From S2P Require Import Password Jwt AuthService MediaService Handlers.
From Stdlib Require Import Ascii.

#[local] Existing Instances ascii_server plain_argon2 decimal_uuid open_jwt.

Definition sample_deps : deps :=
  Deps sample_auth (MediaService.Mk sample_config "media").

(** A token the server accepts until the second [t]. *)
Definition token_for (id : uuid) (name : string) (roles : list string) (t : Z) : string :=
  open_token HS256 (Claims.Mk name roles (FormatUint id) "masoniccore" None None
    (Some (t * 1000000)%Z)) "secret".

Definition bearer (raw : string) (c : context) : context :=
  Context_ ("Bearer " +:+ raw) (refresh_cookie c) (RemoteAddr c) (UserAgent c) (q_limit c)
    (q_offset c).
Definition anonymous : context := Context_ "" None "10.0.0.1:5000" "test" "" "".
Definition as_alice : context := bearer (token_for alice "alice" [RoleModerator] 100) anonymous.
Definition as_bob : context := bearer (token_for bob "bob" [RoleMember] 100) anonymous.
Definition with_refresh (value : string) : context :=
  Context_ "" (Some value) "10.0.0.1:5000" "test" "" "".

(** A thread, and a refresh session of bob's whose token is ["t0ken"]. *)
Definition one_session : world :=
  world_of (set_user_sessions
    {[50%N := Session.Mk 50%N bob (hex_EncodeToString (Sum256 "t0ken")) "test" None 0
                (10 ^ 12)%Z None]} (w_db one_thread)).

(** The statuses of the requests that have finished. *)
Definition statuses (ps : pool response) : list (option Z) :=
  (fun p => match p with Ret r => Some (status r) | Act _ _ => None end) <$> ps.

Section runs.

#[local] Existing Instance ascii_unicode.

Example refresh_twice :
  let req := handle sample_deps (with_refresh "t0ken") PostRefresh in
  let out := run_sched calm [0; 1; 0; 1; 0; 0; 1; 1; 0; 0; 0; 0; 0; 0; 0; 1; 1; 1]
               ([req; req], one_session) in
  statuses out.1 = [Some 200%Z; Some 500%Z].
Proof. by vm_compute. Qed.

Example reply_as_bob :
  (fun r => (status r.1, code r.1))
    (run calm (handle sample_deps as_bob (PostPost "30" (Some "hi"))) one_session)
  = (201%Z, "").
Proof. by vm_compute. Qed.

End runs.
