(* ===== verification/Frames.v ===== *)
(** * What each statement leaves alone

    [StmtFixes proj s]: the statement [s] does not change the part [proj] of the tables.  The
    instances below say so for the sessions and for the threads and posts; with [DbSafe]'s
    structural instances they carry invariants about those tables through whole handlers, once
    the definitions of the services and stores are unfolded (database [mc_progs]). *)
From S2P Require Import Prelude GoStrings GoErrors Models Db Prog Password Jwt Storage Handlers.
From S2P Require Import GroupStore PostStore ThreadStore UserStore SessionStore SettingsStore.
From S2P Require Import MessageStore NotificationStore AttachmentStore.
From S2P Require Import AuthService AdminService InstallService GroupService ThreadService.
From S2P Require Import PostService MessageService MediaService.
Import MessageService.Notifications.

Class StmtFixes {A F} (proj : database -> F) (s : stmt A) : Prop :=
  stmt_fixes : forall sv d a d', s sv d = Ok (a, d') -> proj d' = proj d.

(** A property of the fixed part is kept. *)
Lemma fixes_keeps {A F} (proj : database -> F) (P : F -> Prop) (s : stmt A) :
  StmtFixes proj s -> StmtKeeps (fun d => P (proj d)) s.
Proof. intros Hs sv d a d' H. by rewrite (Hs _ _ _ _ H). Qed.

#[export] Instance reads_fixes {A F} (proj : database -> F) (s : stmt A) :
  StmtReads s -> StmtFixes proj s.
Proof. intros Hs sv d a d' H. by rewrite (Hs _ _ _ _ H). Qed.

(** Both halves of a conjunction. *)
Lemma keeps_and {A} (J1 J2 : database -> Prop) (s : stmt A) :
  StmtKeeps J1 s -> StmtKeeps J2 s -> StmtKeeps (fun d => J1 d /\ J2 d) s.
Proof. intros H1 H2 sv d a d' H [? ?]. split; [by eapply H1|by eapply H2]. Qed.

(** The statements, for unfolding. *)
Create HintDb mc_stmts.
#[export] Hint Unfold checked resolved write_group insert_group update_group delete_group_stmt
  insert_thread update_thread_row bump_post_stmt increment_views_stmt recalc_stats_stmt
  update_thread_stmt delete_thread_stmt insert_post update_post_body delete_post_stmt insert_user
  update_user_row insert_user_roles delete_user_roles insert_session update_unrevoked delete_dead
  upsert_setting insert_message MessageStore.mark_read_stmt insert_notification
  NotificationStore.mark_read_stmt mark_all_stmt insert_attachment delete_attachment_stmt
  : mc_stmts.

(** A statement leaves a part alone when every branch of its definition does. *)
Ltac fixes_tac :=
  let Hs := fresh "Hs" in
  intros ? ? ? ? Hs; autounfold with mc_stmts in Hs; cbn in Hs;
  repeat case_match; simplify_eq/=; done.
#[export] Hint Extern 10 (StmtFixes _ _) => solve [fixes_tac] : typeclass_instances.

(** The threads and the posts. *)
Definition forum (d : database) : gmap uuid Thread.t * gmap uuid Post.t := (threads d, posts d).

(** The methods of the stores and the services, for unfolding. *)
Create HintDb mc_progs.
#[export] Hint Unfold
  GroupStore.Create GroupStore.List GroupStore.GetByID GroupStore.Update GroupStore.Delete
  PostStore.Create PostStore.ListByThread PostStore.GetByID PostStore.SummaryByID
  PostStore.UpdateBody PostStore.Delete
  ThreadStore.create_body ThreadStore.Create ThreadStore.ListByGroup ThreadStore.GetByID
  ThreadStore.SummaryByID ThreadStore.Update ThreadStore.Delete ThreadStore.IncrementViews
  ThreadStore.CountByGroup ThreadStore.BumpPost ThreadStore.RecalcStats
  UserStore.Create UserStore.GetByUsername UserStore.GetByEmail UserStore.GetByID
  UserStore.RolesForUser UserStore.AssignRole UserStore.AddMemberRole UserStore.UpdateAvatar
  UserStore.UpdateStatus UserStore.List UserStore.update_roles_body UserStore.UpdateRoles
  SessionStore.Create SessionStore.GetByTokenHash SessionStore.Revoke
  SettingsStore.Get SettingsStore.Set_
  MessageStore.Send MessageStore.Conversation MessageStore.Inbox MessageStore.MarkRead
  MessageStore.CountUnread
  NotificationStore.Create NotificationStore.List NotificationStore.MarkRead
  NotificationStore.MarkAllRead NotificationStore.CountUnread
  AttachmentStore.Create AttachmentStore.GetByID AttachmentStore.List AttachmentStore.Delete
  GroupService.List GroupService.Get GroupService.Create GroupService.Update GroupService.Delete
  ThreadService.ListByGroup ThreadService.Get ThreadService.Create ThreadService.Update
  ThreadService.Delete
  PostService.ListByThread PostService.Create PostService.Update PostService.Delete
  AuthService.Register AuthService.issueTokens AuthService.login_user AuthService.Login
  AuthService.Refresh AuthService.Logout AuthService.Profile
  AdminService.ListUsers AdminService.apply_status AdminService.apply_roles
  AdminService.UpdateUser AdminService.ListMedia AdminService.GetSettings
  AdminService.UpdateSettings
  InstallService.status_name InstallService.Status InstallService.Setup
  MessageService.Send MessageService.Conversation MessageService.Inbox
  MessageService.map_not_found MessageService.MarkRead MessageService.UnreadCount
  OnPrivateMessage Notifications.List Notifications.MarkRead MarkAllRead Notifications.UnreadCount
  MediaService.UploadAvatar MediaService.check_post MediaService.UploadAttachment
  MediaService.DeleteAttachment
  : mc_progs.

(** Handlers keep a property that all their statements keep. *)
Ltac serve_one :=
  cbn [serve_as]; autounfold with mc_handlers; autounfold with mc_progs; apply _.
Ltac serve_safe ep := destruct ep; serve_one.

Section routes.
Context `{Postgres, Argon2, Uuid, Jwt, Unicode}.

(** The middleware adds no statement. *)
Lemma handle_of_serve (J : database -> Prop) d c ep :
  (forall ui, DbSafe J (serve_as d c ep ui)) -> DbSafe J (handle d c ep).
Proof.
  intros Hs. unfold handle. destruct (guard_of ep); [apply Hs|apply RequireAuth_safe, Hs|].
  apply RequireAuth_safe. intros ui. unfold RequireRole. autounfold with mc_handlers. apply _.
Qed.

End routes.

(** Two invariants at once. *)
Lemma keeps_conj {A} e (I1 I2 : world -> Prop) (p : prog A) :
  keeps e I1 p -> keeps e I2 p -> keeps e (fun w => I1 w /\ I2 w) p.
Proof.
  induction p as [a|B op k IH]; cbn; [done|]. intros [H1 K1] [H2 K2].
  split; [intros w [? ?]; auto|]. intros b. by apply IH.
Qed.

Lemma db_safe_and {A} (J1 J2 : database -> Prop) (p : prog A) :
  DbSafe J1 p -> DbSafe J2 p -> DbSafe (fun d => J1 d /\ J2 d) p.
Proof. intros H1 H2 e. by apply keeps_conj. Qed.
