(* ===== verification/RefreshOnce.v ===== *)
(** * Refresh tokens are single-use, and the API keeps the schema's integrity

    Invariants of the whole API under interleaving: any number of requests, each a sequence of
    atomic actions, run in any order against one database, in any environment (faults
    included). *)
From S2P Require Import Prelude GoStrings GoErrors Models Db Prog Concrete Encoding Sha256 Password.
From S2P Require Import Config Jwt Storage Handlers GroupStore PostStore ThreadStore UserStore.
From S2P Require Import SessionStore SettingsStore MessageStore NotificationStore AttachmentStore.
From S2P Require Import AuthService Frames Samples.
Local Open Scope mc_scope.

Section api.
Context `{Postgres, Argon2, Uuid, Jwt, Unicode}.

(** A program that some request runs. *)
Definition api_request (p : prog response) : Prop := exists d c ep, p = handle d c ep.


End api.

(** ** Sessions in the tables *)

Definition holds (sid : uuid) (P : Session.t -> Prop) (m : gmap uuid Session.t) : Prop :=
  exists s, m !! sid = Some s /\ P s.

(** The session [sid] is the one of the token with digest [h]; it has been revoked. *)
Definition owned (sid : uuid) (h : string) : gmap uuid Session.t -> Prop :=
  holds sid (fun s => Session.TokenHash s = h).
Definition spent (sid : uuid) (h : string) : gmap uuid Session.t -> Prop :=
  holds sid (fun s => Session.TokenHash s = h /\ Session.RevokedAt s <> None).

Lemma spent_owned sid h m : spent sid h m -> owned sid h m.
Proof. intros (s & Hs & Hh & _). by exists s. Qed.

Section sessions.
Context `{Postgres, Argon2, Uuid, Jwt, Unicode}.

#[local] Instance lift {A} (P : gmap uuid Session.t -> Prop) (s : stmt A) :
  StmtFixes user_sessions s -> StmtKeeps (fun d => P (user_sessions d)) s.
Proof. apply fixes_keeps. Qed.

#[local] Instance insert_session_holds sid P ns ip :
  StmtKeeps (fun d => holds sid P (user_sessions d)) (insert_session ns ip).
Proof.
  intros sv d a d'. unfold insert_session. destruct (inet_param ip) as [ip'|]; [|done].
  rewrite checked_Ok. intros (_ & [Hk%negb_true_iff%has_key_false _]%andb_true_iff & _ & [= <- <-]).
  intros (s & Hs & HP). exists s. split; [|done]. cbn. rewrite lookup_insert_ne; congruence.
Qed.

(** An update of an unrevoked session keeps what it keeps of that session. *)
Lemma update_unrevoked_holds sid (P : Session.t -> Prop) id f :
  (forall s, P s -> Session.RevokedAt s = None -> P (f s)) ->
  StmtKeeps (fun d => holds sid P (user_sessions d)) (update_unrevoked id f).
Proof.
  intros Hf sv d a d'. unfold update_unrevoked.
  destruct (user_sessions d !! id) as [s0|] eqn:Hs0; [|by intros [= <- <-]].
  destruct (Session.RevokedAt s0) eqn:Hr; intros [= <- <-]; [done|].
  intros (s & Hs & HP). destruct (decide (id = sid)) as [->|Hne].
  - assert (s0 = s) as -> by congruence. exists (f s). cbn. rewrite lookup_insert_eq. auto.
  - exists s. cbn. by rewrite lookup_insert_ne.
Qed.
(** Requests touch sessions only by opening new ones and by revoking. *)
Lemma handle_sessions (P : gmap uuid Session.t -> Prop) d c ep :
  (forall ns ip, StmtKeeps (fun db => P (user_sessions db)) (insert_session ns ip)) ->
  (forall id t, StmtKeeps (fun db => P (user_sessions db)) (update_unrevoked id (with_revoked t))) ->
  DbSafe (fun db => P (user_sessions db)) (handle d c ep).
Proof. intros Hins Hrev. apply handle_of_serve. intros ui. serve_safe ep. Qed.

Lemma handle_owned sid h d c ep :
  DbSafe (fun db => db_ok db /\ owned sid h (user_sessions db)) (handle d c ep).
Proof.
  apply db_safe_and; [apply _|]. apply handle_sessions; [intros ns ip; apply insert_session_holds|].
  intros id t. by apply update_unrevoked_holds.
Qed.
Lemma handle_spent sid h d c ep :
  DbSafe (fun db => db_ok db /\ spent sid h (user_sessions db)) (handle d c ep).
Proof.
  apply db_safe_and; [apply _|]. apply handle_sessions; [intros ns ip; apply insert_session_holds|].
  intros id t. apply update_unrevoked_holds. by intros s [? _].
Qed.

End sessions.

(** ** One use *)

Section once.
Context `{Postgres, Argon2, Uuid, Jwt, Unicode}.
Context (e : env) (sid : uuid) (h : string).

Definition session_there (w : world) : Prop :=
  db_ok (w_db w) /\ owned sid h (user_sessions (w_db w)).
Definition session_spent (w : world) : Prop :=
  db_ok (w_db w) /\ spent sid h (user_sessions (w_db w)).
Definition accepted (r : response) : Prop := status r = 200%Z.

Abbreviation waiting := (pending e session_there session_spent accepted).

(** The end of the handler after an error. *)
Definition refused (err : error) : prog response :=
  if errors_Is err ErrInvalidRefresh then setting "" (writeError 401 "invalid_refresh_token" "refresh token is invalid or expired")
  else if errors_Is err ErrUserNotActive then setting "" (writeError 403 "account_disabled" "account is not active")
  else writeServerError.

Lemma refused_waiting err : waiting (refused err).
Proof.
  unfold refused. destruct (errors_Is err ErrInvalidRefresh); [done|].
  by destruct (errors_Is err ErrUserNotActive).
Qed.

(** The active session with digest [h] is [sid]. *)
Lemma active_is_sid sv w s d' :
  session_there w -> select_active h sv (w_db w) = Ok (Some s, d') ->
  (forall R l, sv_scan sv R l ≡ₚ l) -> Session.ID s = sid.
Proof.
  intros [Hd (s0 & Hs0 & Hh0)] (_ & _ & _ & Hs)%checked_Ok Hscan. injection Hs as Hs _.
  assert (Hin : s ∈ select (active h (sv_now sv)) (user_sessions (w_db w))).
  { assert (Hl : s ∈ sv_scan sv _ (select (active h (sv_now sv)) (user_sessions (w_db w)))).
    { destruct (sv_scan _ _ _); [done|]. injection Hs as ->. by left. }
    by rewrite Hscan in Hl. }
  apply elem_select in Hin as [Ha [k Hk]].
  assert (Hh : Session.TokenHash s = h).
  { unfold active in Ha. by apply andb_true_iff in Ha as [[Ha%String.eqb_eq _]%andb_true_iff _]. }
  rewrite (ok_sessions _ Hd k s Hk).
  apply (ok_sessions_hash _ Hd k sid s s0 Hk Hs0). congruence.
Qed.

(** The handler's answer to the outcome of the service. *)
Definition refresh_answer (r : result Tokens.t) : prog response :=
  match r with
  | Err err => refused err
  | Ok t => setting (Tokens.RefreshToken t) (writeJSON 200 (PAccess (Tokens.AccessToken t)))
  end.

(** The user is gone, or could not be read: the request is refused. *)
Lemma no_user_waiting id er :
  waiting (bind (if errors_Is er store_ErrNotFound
                 then now <- clock_Now ;; _ <- SessionStore.Revoke id now ;; fail ErrInvalidRefresh
                 else fail er) refresh_answer).
Proof.
  destruct (errors_Is er store_ErrNotFound); [|exact (refused_waiting er)].
  intros w1 _. left. intros w2 _. left. cbn.
  destruct (exec_op _ e w2) as [[n|er'] ?]; cbn; [destruct (n =? 0)%Z|];
    exact (refused_waiting ErrInvalidRefresh).
Qed.

(** Whoever revokes the session had found it unrevoked, and leaves it revoked. *)
Lemma revoke_waiting id now (k : unit -> prog (result Tokens.t)) :
  id = sid -> waiting (bind (bindr (SessionStore.Revoke id now) k) refresh_answer).
Proof.
  assert (Hk : forall er, waiting (refresh_answer (Err er))) by exact refused_waiting.
  intros -> w [Hd (s0 & Hs0 & Hh0)]. unfold fst.
  destruct (exec_op (update_unrevoked sid (with_revoked now)) e w) as [o w1] eqn:Ho.
  destruct o as [n|er]; [|left; exact (Hk (Wrapf "revoke session: " er ""))]. destruct (n =? 0)%Z eqn:En.
  { left. cbn. rewrite En. exact (Hk store_ErrNotFound). }
  right. apply exec_op_Ok in Ho as (d' & Hs & ->). unfold session_spent. cbn.
  pose proof (stmt_keeps (StmtKeeps := revoke_keeps sid now) _ _ _ _ Hs Hd) as Hd'.
  unfold update_unrevoked in Hs. rewrite Hs0 in Hs.
  destruct (Session.RevokedAt s0) eqn:Hr; injection Hs as <- <-; [done|]. split.
  - intros [_ (s & Hs & _ & Hne)]. congruence.
  - split; [done|]. exists (with_revoked now s0). cbn. by rewrite lookup_insert_eq.
Qed.

Lemma refresh_waiting d c value :
  honest_scans e -> refresh_cookie c = Some value -> value <> "" ->
  hex_EncodeToString (Sum256 value) = h -> waiting (handle d c PostRefresh).
Proof.
  intros Hscan Hc Hv Hh. unfold handle. cbn [guard_of serve_as]. unfold auth_Refresh. rewrite Hc.
  destruct value as [|a value]; [done|]. unfold AuthService.Refresh, HashRefreshToken.
  rewrite Hh. intros w1 Hw1. left.
  destruct (exec_op (select_active h) e w1) as [o w1'] eqn:Ho1. cbn [fst].
  destruct o as [[s|]|er]; [|exact (refused_waiting ErrInvalidRefresh)|].
  2: { cbn. destruct (errors_Is er pgx_ErrNoRows); [exact (refused_waiting ErrInvalidRefresh)|].
       cbn. destruct (errors_Is er store_ErrNotFound);
         [exact (refused_waiting ErrInvalidRefresh)|exact (refused_waiting (Wrapf _ er _))]. }
  apply exec_op_Ok in Ho1 as (d1 & Hs1 & _).
  apply active_is_sid in Hs1; [|done|intros R l; apply Hscan].
  intros w2 Hw2. left.
  destruct (exec_op (select_user (Session.UserID s)) e w2) as [o w2'] eqn:Ho2. cbn [fst].
  destruct o as [[u|]|er].
  - cbn. destruct (String.eqb (User.Status u) UserStatusActive); cbn;
      [|exact (refused_waiting ErrUserNotActive)].
    intros w3 Hw3. left.
    exact (revoke_waiting (Session.ID s) _ (fun _ => issueTokens (auth_svc d) u (UserAgent c) (clientIP c)) Hs1).
  - exact (no_user_waiting (Session.ID s) store_ErrNotFound).
  - cbn. destruct (errors_Is er pgx_ErrNoRows).
    + exact (no_user_waiting (Session.ID s) store_ErrNotFound).
    + exact (no_user_waiting (Session.ID s) (Wrapf "scan user: " er "")).
Qed.

End once.

Section single_use.
Context `{Postgres, Argon2, Uuid, Jwt, Unicode}.

(** C10: a refresh token works at most once: let any requests run concurrently, interleaved in
    any way, with faults anywhere, among them any number that present the same refresh token;
    at most one of those is answered with a new access token. *)
Theorem refresh_single_use e (reqs : list (deps * context * endpoint)) sched w ps' w' value sid s :
  honest_scans e -> db_ok (w_db w) ->
  user_sessions (w_db w) !! sid = Some s -> Session.TokenHash s = hex_EncodeToString (Sum256 value) ->
  value <> "" ->
  run_sched e sched ((fun '(d, c, ep) => handle d c ep) <$> reqs, w) = (ps', w') ->
  forall i j di ci dj cj ri rj, i <> j ->
    reqs !! i = Some (di, ci, PostRefresh) -> refresh_cookie ci = Some value ->
    reqs !! j = Some (dj, cj, PostRefresh) -> refresh_cookie cj = Some value ->
    ps' !! i = Some (Ret ri) -> ps' !! j = Some (Ret rj) ->
    ~ accepted ri \/ ~ accepted rj.
Proof.
  intros Hscan Hd Hs Hh Hv Hrun i j di ci dj cj ri rj Hne Hi Hci Hj Hcj Hpi Hpj.
  pose (S := fun n => (n =? i) || (n =? j)).
  pose (h := hex_EncodeToString (Sum256 value)).
  destruct (one_winner e (session_there sid h) (session_spent sid h) accepted S sched
    ((fun '(d, c, ep) => handle d c ep) <$> reqs) ps' w w' Hrun) with (i := i) (j := j)
    (p := @Ret response ri) (q := @Ret response rj) as [Hw|Hw]; try done.
  - split; [done|]. by exists s.
  - apply Forall_fmap, Forall_forall. intros [[d c] ep] _. apply handle_owned.
  - apply Forall_fmap, Forall_forall. intros [[d c] ep] _. apply handle_spent.
  - intros n p Hn Hp. unfold pool in Hp. rewrite list_lookup_fmap in Hp. unfold S in Hn.
    apply orb_true_iff in Hn as [->%Nat.eqb_eq| ->%Nat.eqb_eq];
      [rewrite Hi in Hp|rewrite Hj in Hp]; injection Hp as <-; by eapply refresh_waiting.
  - unfold S. by rewrite Nat.eqb_refl.
  - unfold S. by rewrite Nat.eqb_refl, orb_true_r.
  - by left.
  - by right.
Qed.

End single_use.

(** ** Examples *)

Section examples.
#[local] Existing Instances ascii_server plain_argon2 decimal_uuid open_jwt ascii_unicode.


(** Two requests present bob's refresh token at once: both find the session active. *)
Definition refresh_race : pool response * world :=
  let req := handle sample_deps (with_refresh "t0ken") PostRefresh in
  run_sched calm [0; 1; 0; 1; 0; 0; 1; 1; 0; 0; 0; 0; 0; 0; 0; 1; 1; 1] ([req; req], one_session).

Definition answer_of (i : nat) : response :=
  match refresh_race.1 !! i with Some (Ret r) => r | _ => Response 0 "" None PNone [] end.

Lemma refresh_single_use_witness :
  status (answer_of 0) = 200%Z /\ (~ accepted (answer_of 0) \/ ~ accepted (answer_of 1)).
Proof.
  assert (Hok : db_ok (w_db one_session)) by by apply db_okb_true; vm_compute.
  split; [by vm_compute|].
  apply (refresh_single_use calm
    [(sample_deps, with_refresh "t0ken", PostRefresh); (sample_deps, with_refresh "t0ken", PostRefresh)]
    [0; 1; 0; 1; 0; 0; 1; 1; 0; 0; 0; 0; 0; 0; 0; 1; 1; 1] one_session
    refresh_race.1 refresh_race.2 "t0ken" 50%N
    (Session.Mk 50%N bob (hex_EncodeToString (Sum256 "t0ken")) "test" None 0 (10 ^ 12)%Z None))
    with (i := 0) (j := 1) (di := sample_deps) (ci := with_refresh "t0ken")
         (dj := sample_deps) (cj := with_refresh "t0ken");
    first [exact Hok | exact calm_honest_scans | discriminate | by vm_compute].
Defined.

End examples.
