(* ===== verification/Counters.v ===== *)
(** * Post counters (threads.post_count)

    A thread carries the number of its posts.  The services maintain it with separate
    statements: insert the post, then bump; delete the post, then recount.  Requests served one
    after another keep the counters exact; two requests at once may not. *)
From S2P Require Import Prelude GoStrings GoErrors Models Db Prog Concrete Encoding Sha256 Password.
From S2P Require Import Config Jwt Storage Handlers GroupStore PostStore ThreadStore UserStore.
From S2P Require Import SessionStore SettingsStore MessageStore NotificationStore AttachmentStore.
From S2P Require Import AuthService GroupService ThreadService PostService Frames Samples.
Local Open Scope mc_scope.

(** The counters of a forum with at most [n] posts: each is the number of the thread's posts,
    and every counter is in the range of its column. *)
Definition counts_ok (f : gmap uuid Thread.t * gmap uuid Post.t) : Prop :=
  forall id t, f.1 !! id = Some t ->
    Thread.PostCount t = count (in_thread id) f.2 /\ int32_ok (Thread.Views t) = true.

Definition counted (n : nat) (f : gmap uuid Thread.t * gmap uuid Post.t) : Prop :=
  counts_ok f /\ size f.2 <= n.

(** ** Counting *)

Section counting.
Context {R : Type}.
Implicit Types (m : gmap uuid R) (f g : R -> bool).

Lemma count_size f m : (count f m <= Z.of_nat (size m))%Z.
Proof.
  unfold count, select, rows. rewrite <- length_map_to_list, <- (length_fmap snd).
  pose proof (List.filter_length_le f (map_to_list m).*2). lia.
Qed.

Lemma count_keep f g m :
  (forall r, f r = true -> g r = true) -> count f (keep g m) = count f m.
Proof.
  intros Hfg. induction m as [|k r m Hk IH] using map_ind.
  - unfold keep. by rewrite map_filter_empty.
  - unfold keep in *. rewrite count_insert by done.
    destruct (g r) eqn:Hg.
    + rewrite map_filter_insert_True by done.
      rewrite count_insert by (by rewrite map_lookup_filter, Hk). by rewrite IH.
    + rewrite map_filter_insert_False by (cbn; by rewrite Hg). rewrite delete_id by done.
      rewrite IH. destruct (f r) eqn:Hf; [|lia]. by rewrite (Hfg r Hf) in Hg.
Qed.

Lemma size_keep g m : size (keep g m) <= size m.
Proof. apply map_size_filter_le || (unfold keep; apply map_subseteq_size, map_filter_subseteq). Qed.

End counting.

(** ** Statements that keep the counters *)

Section statements.
Context (n : nat).

Abbreviation kept s := (StmtKeeps (fun d => counted n (forum d)) s).

#[local] Instance lift_forum {A} (s : stmt A) : StmtFixes forum s -> kept s.
Proof. apply fixes_keeps. Qed.

(** A new row for a thread with the same counter. *)
Lemma counted_replace id t r d :
  threads d !! id = Some t -> Thread.PostCount r = Thread.PostCount t ->
  int32_ok (Thread.Views r) = true -> counted n (forum d) ->
  counted n (forum (set_threads (<[id := r]> (threads d)) d)).
Proof.
  intros Ht Hc Hv [Hd Hn]. split; [|done]. intros k x. cbn. rewrite lookup_insert_Some.
  intros [[<- <-]|[_ Hk]]; [|by apply Hd]. rewrite Hc. split; [|done]. by apply (Hd id t).
Qed.

#[local] Instance increment_views_counted id : kept (increment_views_stmt id).
Proof.
  intros sv d a d'. unfold increment_views_stmt, update_thread_row.
  destruct (threads d !! id) as [t|] eqn:Ht; [|by intros [= <- <-]].
  destruct (int32_ok _ && int32_ok _) eqn:E; [|done]. intros [= <- <-].
  apply andb_true_iff in E as [_ E]. by apply (counted_replace id t).
Qed.

#[local] Instance update_thread_counted id x p l : kept (update_thread_stmt id x p l).
Proof.
  intros sv d a d' (_ & _ & _ & Hs)%checked_Ok Hd.
  destruct (threads d !! id) as [t|] eqn:Ht; injection Hs as <- <-; [|done].
  apply (counted_replace id t); [done|done| |done]. destruct Hd as [Hd _]. by apply (Hd id t).
Qed.

(** Threads that go take their posts along, the others keep theirs. *)
Lemma counted_cascade ts d :
  ts ⊆ threads d -> counted n (forum d) -> counted n (forum (cascade_threads ts d)).
Proof.
  intros Hs [Hd Hn]. split; cbn; [|etrans; [apply size_keep|done]].
  intros k t Hk. cbn in *. rewrite count_keep; [apply Hd; by eapply lookup_weaken|].
  intros p Hp%N.eqb_eq. apply has_key_true. by rewrite Hp, Hk.
Qed.

#[local] Instance delete_thread_counted id : kept (delete_thread_stmt id).
Proof.
  intros sv d a d'. unfold delete_thread_stmt.
  destruct (has_key _ _); intros [= <- <-]; [|done]. apply counted_cascade, delete_subseteq.
Qed.

#[local] Instance delete_group_counted id : kept (delete_group_stmt id).
Proof.
  intros sv d a d'. unfold delete_group_stmt.
  destruct (has_key _ _); intros [= <- <-]; [|done].
  apply (counted_cascade _ (set_groups _ d)), keep_subset.
Qed.

#[local] Instance update_post_body_counted id b u : kept (update_post_body id b u).
Proof.
  intros sv d a d' (_ & _ & _ & Hs)%checked_Ok [Hd Hn].
  destruct (posts d !! id) as [p|] eqn:Hp; [|by injection Hs as <- <-].
  apply checked_Ok in Hs as (_ & _ & _ & [= <- <-]). split.
  - intros k t Hk. cbn in *. rewrite (count_replace _ _ _ p) by done. by apply Hd.
  - cbn in *. rewrite map_size_insert, Hp. done.
Qed.

End statements.

(** ** Requests that keep the counters whatever happens *)

Section api.
Context `{Postgres, Argon2, Uuid, Jwt, Unicode}.

(** The routes whose counting needs an undisturbed run: starting a thread, adding and deleting
    a post. *)
Definition posting (ep : endpoint) : bool :=
  match ep with PostThread _ _ | PostPost _ _ | DeletePost _ => true | _ => false end.

#[local] Existing Instances lift_forum increment_views_counted update_thread_counted
  delete_thread_counted delete_group_counted update_post_body_counted.

Lemma handle_counted n d c ep :
  posting ep = false -> DbSafe (fun db => counted n (forum db)) (handle d c ep).
Proof. intros Hp. apply handle_of_serve. intros ui. destruct ep; try done; serve_one. Qed.

End api.

(** ** Requests that count *)

Section counts.
Context (e : env) (Hf : no_faults e) (n : nat).

Lemma counted_S f : counted n f -> counted (S n) f.
Proof. intros [? ?]. split; [done|lia]. Qed.

Lemma int32_count k t f :
  (Z.of_nat n < 2 ^ 31 - 1)%Z -> counted n f -> f.1 !! k = Some t ->
  int32_ok (Thread.PostCount t + 1) && int32_ok (Thread.Views t) = true.
Proof.
  intros Hn [Hd Hs] Hk. destruct (Hd k t Hk) as [Hc ->]. rewrite andb_true_r.
  pose proof (count_size (in_thread k) f.2). pose proof (count_nonneg (in_thread k) f.2).
  apply andb_true_iff. rewrite !Z.leb_le. lia.
Qed.

(** A new post and its thread's new counter. *)
Lemma counted_reply p t last now d :
  threads d !! Post.ThreadID p = Some t -> posts d !! Post.ID p = None -> counted n (forum d) ->
  counted (S n) (forum (set_threads
    (<[Post.ThreadID p := with_stats (Thread.PostCount t + 1) last now t]> (threads d))
    (set_posts (<[Post.ID p := p]> (posts d)) d))).
Proof.
  intros Ht Hp [Hd Hn]. split.
  2: { cbn in *. rewrite map_size_insert, Hp. cbn. lia. }
  intros k x. cbn. rewrite lookup_insert_Some, count_insert by done. unfold in_thread at 1.
  intros [[<- <-]|[Hne Hk]].
  - rewrite N.eqb_refl. cbn. destruct (Hd _ _ Ht) as [Hc Hv]. cbn in *. split; [lia|done].
  - destruct (N.eqb_spec (Post.ThreadID p) k) as [|_]; [done|]. by apply Hd.
Qed.

Lemma reply_counted tid a b w :
  (Z.of_nat n < 2 ^ 31 - 1)%Z -> counted n (forum (w_db w)) ->
  counted (S n) (forum (w_db (run e (PostService.Create tid a b) w).2)).
Proof.
  intros Hn Hd. unfold PostService.Create. run_simpl Hf.
  destruct (threads (w_db w) !! tid) as [t|] eqn:Ht; [|run_simpl Hf; by apply counted_S].
  destruct (Thread.Locked t); [run_simpl Hf; by apply counted_S|].
  destruct (validateBody b); [run_simpl Hf; by apply counted_S|].
  run_simpl Hf. destruct (insert_post _ _ _) as [[o d']|er] eqn:Hi; [|run_simpl Hf; by apply counted_S].
  apply insert_post_Ok in Hi as (p & -> & Hk & Hp & _ & _ & ->). cbn in Hp. cbn [row_answer].
  run_simpl Hf. unfold bump_post_stmt, update_thread_row. cbn [threads set_posts set_db w_db].
  rewrite Ht. cbn [Thread.PostCount Thread.Views with_stats].
  rewrite (int32_count tid t (forum (w_db w))) by done. cbn [touched].
  run_simpl Hf. rewrite <- Hp in *. by apply counted_reply.
Qed.

(** The thread's counter is recomputed from the posts that are left. *)
Lemma counted_unreply id p t last now d :
  threads d !! Post.ThreadID p = Some t -> posts d !! id = Some p -> counted n (forum d) ->
  counted n (forum (set_threads
    (<[Post.ThreadID p := with_stats (count (in_thread (Post.ThreadID p)) (delete id (posts d)))
                            last now t]> (threads d)) (delete_post id d))).
Proof.
  intros Ht Hp [Hd Hn]. cbn in *. split.
  2: { change (size (delete id (posts d)) <= n). rewrite map_size_delete, Hp. lia. }
  intros k x. cbn. rewrite lookup_insert_Some. intros [[<- <-]|[Hne Hk]].
  - cbn. split; [done|]. by apply (Hd _ _ Ht).
  - rewrite (count_delete _ _ _ p) by done. destruct (Hd _ _ Hk) as [Hc Hv]. split; [|done].
    assert (in_thread k p = false) as -> by by apply N.eqb_neq. rewrite Hc. cbn. lia.
Qed.

Lemma unreply_counted `{Postgres} id a roles w :
  db_ok (w_db w) -> (Z.of_nat n < 2 ^ 31 - 1)%Z -> counted n (forum (w_db w)) ->
  counted n (forum (w_db (run e (PostService.Delete id a roles) w).2)).
Proof.
  intros Hok Hn Hd. unfold PostService.Delete. run_simpl Hf.
  destruct (posts (w_db w) !! id) as [p|] eqn:Hp; [|by run_simpl Hf].
  destruct (negb _ && negb _); [by run_simpl Hf|].
  destruct (ok_posts_thread _ Hok id p Hp) as [t Ht].
  run_simpl Hf. rewrite (proj2 (has_key_true _ _)) by by rewrite Hp.
  run_simpl Hf. unfold recalc_stats_stmt, update_thread_row.
  cbn [threads posts set_posts set_db w_db delete_post cascade_posts set_attachments].
  rewrite Ht. cbn [Thread.PostCount Thread.Views with_stats].
  destruct Hd as [Hc Hs]. destruct (Hc _ _ Ht) as [Hpc Hv]. rewrite Hv, andb_true_r.
  assert (Hi : int32_ok (count (in_thread (Post.ThreadID p)) (delete id (posts (w_db w)))) = true).
  { pose proof (count_size (in_thread (Post.ThreadID p)) (delete id (posts (w_db w)))) as H1.
    pose proof (count_nonneg (in_thread (Post.ThreadID p)) (delete id (posts (w_db w)))) as H2.
    rewrite map_size_delete, Hp in H1. cbn [forum snd] in Hs.
    apply andb_true_iff. rewrite !Z.leb_le. lia. }
  rewrite Hi. cbn [touched]. run_simpl Hf. by apply (counted_unreply id p t).
Qed.

(** Starting a thread, whatever happens. *)
Lemma start_counted `{Postgres} inp w :
  db_ok (w_db w) -> counted n (forum (w_db w)) ->
  counted (S n) (forum (w_db (run e (ThreadService.Create inp) w).2)).
Proof.
  intros Hok Hd. destruct (run e (ThreadService.Create inp) w) as [r w'] eqn:Hr. cbn [snd].
  apply any_service_Create in Hr as [[-> _]|(_ & _ & w0 & r1 & w1 & Hw0 & -> & _ & Hr)];
    [by apply counted_S|].
  apply any_Create in Hr as [[-> _]|(th & p & Hth & Hp & -> & _ & _ & _ & _ & _ & Hv & Hc & _ & Hpt & _)];
    rewrite Hw0 in *; [by apply counted_S|].
  destruct Hd as [Hd Hs]. split.
  2: { change (size (<[Post.ID p := p]> (posts (w_db w))) <= S n). rewrite map_size_insert, Hp.
       cbn in Hs. lia. }
  intros k t. cbn. rewrite lookup_insert_Some, count_insert by done. unfold in_thread at 1.
  rewrite Hpt. intros [[<- <-]|[Hne Hk]].
  - rewrite N.eqb_refl, Hc, Hv. split; [|done]. rewrite (proj2 (count_zero _ _)); [done|].
    intros j q Hq. apply N.eqb_neq. intros Heq.
    destruct (ok_posts_thread _ Hok j q Hq) as [t Ht]. congruence.
  - destruct (N.eqb_spec (Thread.ID th) k) as [|_]; [done|]. by apply Hd.
Qed.
End counts.

(** ** Requests served one after another *)

Section sequential.
Context `{Postgres, Argon2, Uuid, Jwt, Unicode}.

Fixpoint serve (e : env) (reqs : list (deps * context * endpoint)) (w : world) : world :=
  match reqs with
  | [] => w
  | (d, c, ep) :: reqs' => serve e reqs' (run e (handle d c ep) w).2
  end.

Lemma request_counted e n d c ep w :
  no_faults e -> db_ok (w_db w) -> (Z.of_nat n < 2 ^ 31 - 1)%Z -> counted n (forum (w_db w)) ->
  counted (S n) (forum (w_db (run e (handle d c ep) w).2)).
Proof.
  intros Hf Hok Hn Hd. destruct (posting ep) eqn:Hp.
  2: { apply counted_S. by apply (db_safe_run (fun db => counted n (forum db)) _
         (DbSafe0 := handle_counted n d c ep Hp)). }
  assert (Hauth : guard_of ep = Authenticated) by by destruct ep.
  unfold handle. rewrite Hauth. destruct (run e _ w) as [r w'] eqn:Hr. cbn [snd].
  apply RequireAuth_cases in Hr as [[_ ->]|(claims & id & w1 & _ & Hw1 & _ & Hr)];
    [by apply counted_S|].
  replace w' with (run e (serve_as d c ep
    (UserInfo.Mk id (Claims.Username claims) (Claims.Roles claims))) w1).2 by by rewrite Hr.
  rewrite <- Hw1 in *. clear Hr.
  destruct ep; try done; cbn [serve_as];
    unfold threads_Create, posts_Create, posts_Delete, pathID, decoded;
    (destruct (uuid_Parse _); [|by apply counted_S]);
    try match goal with b : option _ |- _ => destruct b; [|by apply counted_S] end;
    rewrite run_answer by done.
  - by eapply start_counted.
  - by apply reply_counted.
  - apply counted_S. by eapply unreply_counted.
Qed.


End sequential.

(** ** Requests at once *)

(** The counter of a thread is above the number of its posts. *)
Definition overcounted (id : uuid) (d : database) : Prop :=
  exists t, threads d !! id = Some t /\ (count (in_thread id) (posts d) < Thread.PostCount t)%Z.

(** Two requests at once can leave a counter too high for ever: one deletes a post while the
    other replies; the recount falls between the insertion and the bump, so the new post is
    counted twice. *)
Theorem concurrent_overcount :
  match run_sched calm [0; 0; 1; 1; 1; 0; 0]
      ([ (r <- PostService.Create 30%N bob "reply" ;;
          Ret (match r with Ok _ => None | Err er => Some er end));
         (r <- PostService.Delete 40%N alice [] ;;
          Ret (match r with Ok _ => None | Err er => Some er end)) ],
       one_thread) with
  | ([Ret None; Ret None], w) => overcounted 30%N (w_db w)
  | _ => False
  end.
Proof. vm_compute. eexists. split; reflexivity. Qed.

(** ** Examples *)

Section examples.
#[local] Existing Instances ascii_server plain_argon2 decimal_uuid open_jwt ascii_unicode.

Definition a_session_of_posts : list (deps * context * endpoint) :=
  [(sample_deps, as_bob, PostPost "30" (Some "hi"));
   (sample_deps, as_alice, PostThread "20" (Some (createThreadRequest.Mk "Next" "body")));
   (sample_deps, as_alice, DeletePost "40");
   (sample_deps, as_alice, PostPost "30" (Some "again"))].

Definition served : world := serve calm a_session_of_posts one_session.

Lemma one_thread_counted : counts_ok (forum (w_db one_session)).
Proof.
  intros id t. cbn. rewrite lookup_singleton_Some. intros [<- <-]. by vm_compute.
Qed.


End examples.
