(* ===== verification/Access.v ===== *)
(** * Who may call what

    The middleware of the router decides every request before its handler runs. *)
From S2P Require Import Prelude GoStrings GoErrors Models Db Prog Roles Password Config Jwt.
From S2P Require Import AuthService MediaService Handlers.
Local Open Scope mc_scope.

Section access.
Context `{Postgres, Argon2, Uuid, Jwt, Unicode}.

(** The identity the bearer token of a request stands for, when it is accepted. *)
Definition identity (e : env) (d : deps) (c : context) (w : world) : option UserInfo.t :=
  let raw := bearerToken (Authorization c) in
  if String.eqb raw "" then None else
  match (run e (Parse (jwtm d) raw) w).1 with
  | Err _ => None
  | Ok claims =>
      (fun id => UserInfo.Mk id (Claims.Username claims) (Claims.Roles claims))
      <$> uuid_Parse (Claims.Subject claims)
  end.

(** An error response, on unchanged tables. *)
Definition refusal (st : Z) (w : world) (out : response * world) : Prop :=
  status out.1 = st /\ (exists m, body out.1 = PError m) /\ set_cookie out.1 = None /\ events out.1 = [] /\
  w_db out.2 = w_db w.

Lemma refusal_writeError e st c m w w' :
  w_db w' = w_db w -> refusal st w (run e (writeError st c m) w').
Proof. intros Hw. unfold refusal. cbn. eauto 6. Qed.

(** The handler's own answer, for the identity [ui], on the tables the request found. *)
Definition served_as (e : env) (d : deps) (c : context) (ep : endpoint) (ui : UserInfo.t)
    (w : world) (out : response * world) : Prop :=
  exists w1, w_db w1 = w_db w /\ run e (serve_as d c ep ui) w1 = out.

Lemma RequireAuth_identity e d c (next : UserInfo.t -> prog response) w :
  match identity e d c w with
  | None => refusal 401 w (run e (RequireAuth (jwtm d) c next) w)
  | Some ui => exists w1, w_db w1 = w_db w /\
      run e (RequireAuth (jwtm d) c next) w = run e (next ui) w1
  end.
Proof.
  unfold identity, RequireAuth. destruct (String.eqb _ ""); [by apply refusal_writeError|]. rewrite run_bind.
  assert (Hw1 : w_db (run e (Parse (jwtm d) (bearerToken (Authorization c))) w).2 = w_db w).
  { apply db_safe_reads. apply _. }
  destruct (run e (Parse _ _) w) as [[claims|er] w1]; cbn [fst snd] in *;
    [|by apply refusal_writeError]. destruct (uuid_Parse _) as [id|]; cbn [fmap option_fmap option_map];
    [by exists w1|by apply refusal_writeError].
Qed.

(** C12: authorisation: a public route runs its handler; any other route refuses with 401, with
    nothing but an error message and without effect, unless the bearer token is accepted; an admin route refuses
    with 403, again without effect, unless the token carries the admin role; and the handler
    that runs gets exactly the token's identity. *)
Theorem handle_authorised e d c ep w :
  match guard_of ep with
  | Public => served_as e d c ep nobody w (run e (handle d c ep) w)
  | Authenticated =>
    match identity e d c w with
    | None => refusal 401 w (run e (handle d c ep) w)
    | Some ui => served_as e d c ep ui w (run e (handle d c ep) w)
    end
  | AdminOnly =>
    match identity e d c w with
    | None => refusal 401 w (run e (handle d c ep) w)
    | Some ui =>
      if bool_decide (RoleAdmin ∈ UserInfo.Roles ui)
      then served_as e d c ep ui w (run e (handle d c ep) w)
      else refusal 403 w (run e (handle d c ep) w)
    end
  end.
Proof.
  unfold handle, served_as. destruct (guard_of ep).
  - by exists w.
  - pose proof (RequireAuth_identity e d c (serve_as d c ep) w) as Hr.
    destruct (identity e d c w) as [ui|]; [|done]. destruct Hr as (w1 & Hw1 & ->). by exists w1.
  - pose proof (RequireAuth_identity e d c
      (fun ui => RequireRole [RoleAdmin] ui (serve_as d c ep ui)) w) as Hr.
    destruct (identity e d c w) as [ui|]; [|done]. destruct Hr as (w1 & Hw1 & ->).
    unfold RequireRole.
    assert (Ha : hasRole (UserInfo.Roles ui) [RoleAdmin] = bool_decide (RoleAdmin ∈ UserInfo.Roles ui)).
    { apply eq_bool_prop_intro. rewrite !Is_true_true, hasRole_true, bool_decide_eq_true.
      split; [intros (r & Hr & ->%list_elem_of_singleton)|]; [done|].
      intros Hr. exists RoleAdmin. split; [done|by left]. }
    rewrite Ha. destruct (bool_decide _); [by exists w1|by apply refusal_writeError].
Qed.

End access.
