(* ===== verification/Privacy.v ===== *)
(** * Who sees private messages and notifications

    Messages and notifications leave the server in the payloads of four routes.  A payload is
    [quiet] when it carries none; every other route answers only such ones, and the four answer
    only what the tables hold for the identity of the request. *)
From S2P Require Import Prelude GoStrings GoErrors Models Db Prog Concrete Roles Password Config Jwt.
From S2P Require Import UserStore MessageStore NotificationStore Hub AuthService MessageService.
From S2P Require Import MediaService Handlers Samples Access.
Local Open Scope mc_scope.

(** ** What a payload carries *)

Definition messages_of (p : Handlers.payload) : list PrivateMessage.t :=
  match p with
  | PMessage m => [m]
  | PConversations l _ _ _ => PMConversation.theMessage <$> l
  | _ => []
  end.
Definition notifications_of (p : Handlers.payload) : list Notification.t :=
  match p with PNotifications l _ _ _ => l | _ => [] end.

Definition quiet (r : response) : Prop :=
  messages_of (body r) = [] /\ notifications_of (body r) = [] /\ events r = [].

(** Every result of a program, in any environment. *)
Definition always {A} (P : A -> Prop) (p : prog A) : Prop := forall e w, P (run e p w).1.

Lemma always_Ret {A} (P : A -> Prop) a : P a -> always P (Ret a).
Proof. by intros Ha e w. Qed.

Lemma always_bind {A B} (P : B -> Prop) (p : prog A) (k : A -> prog B) :
  (forall a, always P (k a)) -> always P (bind p k).
Proof.
  intros Hk e w. rewrite run_bind. destruct (run e p w) as [a w1]. apply Hk.
Qed.

Lemma always_setting v (p : prog response) : 
  always quiet p -> always quiet (r <- p ;; Ret (with_cookie v r)).
Proof.
  intros Hp e w. rewrite run_bind. specialize (Hp e w).
  by destruct (run e p w) as [r w1].
Qed.

Section privacy.
Context `{Postgres, Argon2, Uuid, Jwt, Unicode}.

(** The routes that answer messages or notifications. *)
Definition mail (ep : endpoint) : bool :=
  match ep with
  | GetInbox | GetConversation _ | PostMessage _ | GetNotifications => true
  | _ => false
  end.

Ltac quiet :=
  repeat first
    [ apply always_setting
    | apply always_bind; intros
    | match goal with
      | |- always _ (match ?x with _ => _ end) => destruct x
      | |- always _ (let '(_, _) := ?x in _) => destruct x
      end
    | by apply always_Ret ].

Lemma quiet_serve_as d c ep ui : mail ep = false -> always quiet (serve_as d c ep ui).
Proof.
  destruct ep; cbn [mail serve_as]; intros Hm; try done; autounfold with mc_handlers; quiet.
Qed.

Lemma quiet_RequireAuth m c next :
  (forall ui, always quiet (next ui)) -> always quiet (RequireAuth m c next).
Proof. intros Hn. unfold RequireAuth. autounfold with mc_handlers. quiet. apply Hn. Qed.

Lemma quiet_handle d c ep : mail ep = false -> always quiet (handle d c ep).
Proof.
  intros Hm. unfold handle. pose proof (fun ui => quiet_serve_as d c ep ui Hm) as Hs.
  destruct (guard_of ep); [apply Hs|apply quiet_RequireAuth, Hs|].
  apply quiet_RequireAuth. intros ui. autounfold with mc_handlers. destruct (hasRole _ _); [apply Hs|].
  by apply always_Ret.
Qed.

(** ** What the queries answer *)

(** A message of the tables that the user sent or received; [Inbox] shows the caller as the
    recipient of all of them. *)
Definition theirs (u : uuid) (d : database) (m : PrivateMessage.t) : Prop :=
  exists k row, private_messages d !! k = Some row /\ involves u row = true /\
    PrivateMessage.ID m = PrivateMessage.ID row /\
    PrivateMessage.SenderID m = PrivateMessage.SenderID row /\
    PrivateMessage.Body m = PrivateMessage.Body row.

(** A notification of the tables for the user. *)
Definition noted (u : uuid) (d : database) (n : Notification.t) : Prop :=
  Notification.UserID n = u /\ exists k, notifications d !! k = Some n.

Lemma between_involves a b m : between a b m = true -> involves a m = true.
Proof.
  unfold between, involves.
  intros [[-> _]%andb_true_iff|[_ ->]%andb_true_iff]%orb_true_iff; [done|apply orb_true_r].
Qed.

Lemma elem_page {A} limit offset (l l' : list A) x : page limit offset l = Ok l' -> x ∈ l' -> x ∈ l.
Proof.
  intros (_ & _ & ->)%page_ok Hx.
  rewrite <- (take_drop (Z.to_nat offset) l). apply elem_of_app. right.
  rewrite <- (take_drop (Z.to_nat limit) (drop _ l)). apply elem_of_app. by left.
Qed.

(** The rows of a sorted join come from the table. *)
Lemma elem_join (sv : server) (leb : PMConversation.t -> PMConversation.t -> bool) key us l c :
  (forall l, sv_scan sv PMConversation.t l ≡ₚ l) ->
  c ∈ order_by leb (sv_scan sv _ (join_users key conversation us l)) ->
  PMConversation.theMessage c ∈ l.
Proof.
  intros Hs. rewrite order_by_Permutation, Hs. unfold join_users.
  intros (m & Hm & (u & _ & ->)%fmap_Some)%list_elem_of_omap. exact Hm.
Qed.

Lemma honest_server e w : honest_scans e -> forall R (l : list R), sv_scan (server_at e w) R l ≡ₚ l.
Proof. intros Hs R l. apply (Hs (w_tick w)). Qed.

(** Two reads in a row, of which the second is answered. *)
Lemma two_reads {A B C} e (s1 : stmt A) (s2 : stmt B) `{!StmtReads s1, !StmtReads s2}
    (f : A -> B -> C) w c w' :
  run e (x <-? exec s1 ;; y <-? exec s2 ;; ret (f x y)) w = (Ok c, w') ->
  w_db w' = w_db w /\ exists x y w1, c = f x y /\ w_db w1 = w_db w /\
    s2 (server_at e w1) (w_db w) = Ok (y, w_db w).
Proof.
  intros (x & w1 & Hx & Hr)%run_bindr_Ok. apply run_bindr_Ok in Hr as (y & w2 & Hy & [= <- <-]).
  rewrite run_exec in Hx. rewrite run_exec in Hy. apply exec_read in Hx as [Hw1 _]; [|done].
  apply exec_read in Hy as [Hw2 Hy]; [|done]. specialize (Hy y eq_refl). rewrite Hw1 in *.
  split; [done|]. eauto 7.
Qed.

Lemma any_Conversation e a b limit offset w items total w' :
  honest_scans e -> run e (MessageService.Conversation a b limit offset) w = (Ok (items, total), w') ->
  w_db w' = w_db w /\ forall c, c ∈ items -> theirs a (w_db w) (PMConversation.theMessage c).
Proof.
  intros Hs (Hw & x & y & w1 & [= -> ->] & Hw1 & Hq)%(two_reads e _ _ (fun total items => (items, total))).
  split; [done|]. unfold select_between, resolved in Hq. cbn [resolves pmColumns forallb existsb] in Hq.
  destruct (page _ _ _) as [l|] eqn:Hp; [|done]. injection Hq as <-. intros c Hc.
  eapply elem_page in Hc; [|exact Hp]. apply elem_join in Hc; [|by apply honest_server].
  apply elem_select in Hc as [Hb [k Hk]]. exists k, (PMConversation.theMessage c).
  split_and!; try done. by apply between_involves in Hb.
Qed.

Lemma distinct_on_elem {R} (key : R -> uuid) prev l x : x ∈ distinct_on key prev l -> x ∈ l.
Proof.
  revert prev. induction l as [|r l IH]; intros prev; cbn; [done|].
  destruct (bool_decide _); [intros Hx; right; by eapply IH|].
  intros [->|Hx]%elem_of_cons; [by left|right; by eapply IH].
Qed.

Lemma any_Inbox e u limit offset w items total w' :
  honest_scans e -> run e (MessageService.Inbox u limit offset) w = (Ok (items, total), w') ->
  w_db w' = w_db w /\ forall c, c ∈ items -> theirs u (w_db w) (PMConversation.theMessage c).
Proof.
  intros Hs (Hw & x & y & w1 & [= -> ->] & Hw1 & Hq)%(two_reads e
    (count_partners u) (select_inbox u limit offset) (fun total items => (set_recipient u <$> items, total))).
  split; [done|]. unfold select_inbox, resolved in Hq. cbn [resolves pmColumns forallb existsb] in Hq.
  destruct (page _ _ _) as [l|] eqn:Hp; [|done]. injection Hq as <-. intros c (c' & -> & Hc)%list_elem_of_fmap.
  eapply elem_page in Hc; [|exact Hp]. apply distinct_on_elem, elem_join in Hc; [|by apply honest_server].
  apply elem_select in Hc as [Hb [k Hk]]. by exists k, (PMConversation.theMessage c').
Qed.

Lemma any_List_notifications e u limit offset w items total w' :
  honest_scans e -> run e (Notifications.List u limit offset) w = (Ok (items, total), w') ->
  w_db w' = w_db w /\ forall n, n ∈ items -> noted u (w_db w) n.
Proof.
  intros Hs (Hw & x & y & w1 & [= -> ->] & Hw1 & Hq)%(two_reads e _ _ (fun total items => (items, total))).
  split; [done|]. unfold select_notifications in Hq.
  destruct (page _ _ _) as [l|] eqn:Hp; [|done]. injection Hq as <-. intros n Hn.
  eapply elem_page in Hn; [|exact Hp]. rewrite order_by_Permutation, honest_server in Hn by done.
  apply elem_select in Hn as [Hb%N.eqb_eq [k Hk]]. split; [done|by exists k].
Qed.

(** Sending, whatever names the statement has in scope: the row is the sender's message. *)
Lemma any_Send e a b text w m w' :
  run e (MessageService.Send a b text) w = (Ok m, w') ->
  PrivateMessage.SenderID m = a /\ PrivateMessage.RecipientID m = b /\
  private_messages (w_db w') !! PrivateMessage.ID m = Some m.
Proof.
  unfold MessageService.Send. destruct (N.eqb a b); [done|]. destruct (_ || _); [done|].
  intros (o & w1 & _ & Hr)%run_bind_inv. destruct o as [u|er]; [|by destruct (errors_Is er _)].
  unfold MessageStore.Send in Hr. apply run_bind_inv in Hr as (row & w2 & Hi & Hr). rewrite run_exec in Hi.
  rewrite run_Ret in Hr. injection Hr as Hr <-. unfold scanPM in Hr.
  destruct row as [[x|]|er]; cbn in Hr; [injection Hr as ->|done|by destruct (errors_Is er _)].
  apply exec_op_Ok in Hi as (d' & Hi & ->). unfold insert_message, resolved in Hi.
  destruct (resolves _ _); [|done]. apply checked_Ok in Hi as (_ & _ & _ & [= <- <-]). cbn.
  by rewrite lookup_insert_eq.
Qed.

Lemma any_OnPrivateMessage e msg w n w' :
  run e (Notifications.OnPrivateMessage msg) w = (Ok n, w') ->
  Notification.UserID n = PrivateMessage.RecipientID msg /\
  private_messages (w_db w') = private_messages (w_db w).
Proof.
  unfold Notifications.OnPrivateMessage, NotificationStore.Create.
  intros (row & w1 & Hi & Hr)%run_bind_inv. rewrite run_exec in Hi. rewrite run_Ret in Hr.
  injection Hr as Hr <-. destruct row as [[x|]|er]; cbn in Hr; [injection Hr as ->|done..].
  apply exec_op_Ok in Hi as (d' & Hi & ->). unfold insert_notification in Hi.
  destruct (negb _); [done|]. by apply checked_Ok in Hi as (_ & _ & _ & [= <- <-]).
Qed.

(** ** The answers of the routes *)

(** Everything in a response is the user's own, on the tables the request leaves behind. *)
Definition private_to (u : uuid) (d : database) (r : response) : Prop :=
  (forall m, m ∈ messages_of (body r) -> theirs u d m) /\
  (forall n, n ∈ notifications_of (body r) -> noted u d n) /\
  (forall x, x ∈ events r ->
     match Data (Hub.event x) with
     | pm_data m => PrivateMessage.SenderID m = u /\ Hub.userID x = PrivateMessage.RecipientID m
     | notification_data n => Hub.userID x = Notification.UserID n
     | _ => False
     end).

Lemma quiet_private u d r : quiet r -> private_to u d r.
Proof.
  intros (Hm & Hn & He). unfold private_to. rewrite Hm, Hn, He.
  by split_and!; intros ? ?%not_elem_of_nil.
Qed.

Lemma quiet_error st c m e w : quiet (run e (writeError st c m) w).1.
Proof. done. Qed.

Lemma quiet_core_error er e w : quiet (run e (writeCoreError er) w).1.
Proof. unfold writeCoreError. by destruct (first_match _ _) as [[[st co] m]|]. Qed.

(** The answer of a listing: an error, or the page. *)
Lemma private_answer {A} e (p : prog (result A)) (k : A -> prog response) u w r w' :
  run e (answer p k) w = (r, w') ->
  (forall a w1, run e p w = (Ok a, w1) -> run e (k a) w1 = (r, w') -> private_to u (w_db w') r) ->
  private_to u (w_db w') r.
Proof.
  unfold answer. intros (o & w1 & Ho & Hr)%run_bind_inv Hk. destruct o as [a|er]; [by eapply Hk|].
  apply quiet_private. pose proof (quiet_core_error er e w1) as Hq. by rewrite Hr in Hq.
Qed.

Lemma private_send e ui b w r w' :
  run e (messages_Send ui b) w = (r, w') -> private_to (UserInfo.ID ui) (w_db w') r.
Proof.
  intros Hr. destruct b as [req|]; [|injection Hr as <- <-; by apply quiet_private].
  unfold messages_Send, decoded in Hr. cbv zeta in Hr.
  destruct (N.eqb _ _); [injection Hr as <- <-; by apply quiet_private|].
  eapply private_answer; [exact Hr|]. clear Hr. intros msg w1 Hm (o & w2 & Hn & Hr)%run_bind_inv.
  apply any_Send in Hm as (Hfrom & Hto & Hrow).
  destruct o as [n|er]; injection Hr as <- <-; [|by apply quiet_private].
  apply any_OnPrivateMessage in Hn as [Hu Hsame]. split_and!; cbn.
  - intros m ->%list_elem_of_singleton. exists (PrivateMessage.ID msg), msg. rewrite Hsame.
    unfold involves. by rewrite Hfrom, N.eqb_refl.
  - by intros m ?%not_elem_of_nil.
  - intros x [-> | ->%list_elem_of_singleton]%elem_of_cons; cbn; [done|]. by rewrite Hu.
Qed.

Lemma private_conversations e (p : prog (result (list PMConversation.t * Z))) limit offset u w r w' :
  (forall items total w1, run e p w = (Ok (items, total), w1) ->
     w_db w1 = w_db w /\ forall c, c ∈ items -> theirs u (w_db w) (PMConversation.theMessage c)) ->
  run e (answer p (fun r => writeJSON 200 (PConversations r.1 r.2 limit offset))) w = (r, w') ->
  private_to u (w_db w') r.
Proof.
  intros Hp Hr. eapply private_answer; [exact Hr|]. intros [items total] w1 Ho [= <- <-].
  destruct (Hp _ _ _ Ho) as [Hw Hi]. split_and!; cbn; [|by intros ? ?%not_elem_of_nil..].
  intros m (c & -> & Hc)%list_elem_of_fmap. rewrite Hw. by apply Hi.
Qed.

Lemma private_serve_as e d c ep ui w r w' :
  honest_scans e -> mail ep = true ->
  run e (serve_as d c ep ui) w = (r, w') -> private_to (UserInfo.ID ui) (w_db w') r.
Proof.
  intros Hs Hm. destruct ep; try done; clear Hm; cbn [serve_as]; [| |apply private_send|].
  - unfold messages_Inbox. destruct (pagination c) as [limit offset].
    apply private_conversations. intros items total w1. by apply any_Inbox.
  - unfold messages_Conversation, pathID. destruct (uuid_Parse _) as [other|];
      [|intros [= <- <-]; by apply quiet_private].
    destruct (N.eqb _ _); [intros [= <- <-]; by apply quiet_private|].
    destruct (pagination c) as [limit offset].
    apply private_conversations. intros items total w1. by apply any_Conversation.
  - unfold messages_Notifications. destruct (pagination c) as [limit offset]. intros Hr.
    eapply private_answer; [exact Hr|]. intros [items total] w1 Ho [= <- <-].
    apply any_List_notifications in Ho as [Hw Hi]; [|done].
    split_and!; cbn; [by intros ? ?%not_elem_of_nil| |by intros ? ?%not_elem_of_nil].
    intros n Hn. rewrite Hw. by apply Hi.
Qed.

(** C13: private messages and notifications stay private: whatever the request, in any environment,
    a message in the answer is one of the tables that the user of the accepted token sent or
    received, a notification in the answer is that user's, and a message or notification pushed
    to the connections of a user is addressed to that user. *)
Theorem mail_is_private e d c ep w r w' :
  honest_scans e -> run e (handle d c ep) w = (r, w') ->
  quiet r \/ exists ui, identity e d c w = Some ui /\ private_to (UserInfo.ID ui) (w_db w') r.
Proof.
  intros Hs Hr. destruct (mail ep) eqn:Hm.
  2: { left. pose proof (quiet_handle d c ep Hm e w) as Hq. by rewrite Hr in Hq. }
  assert (Hg : handle d c ep = RequireAuth (jwtm d) c (serve_as d c ep)) by by destruct ep.
  rewrite Hg in Hr. pose proof (RequireAuth_identity e d c (serve_as d c ep) w) as Hid.
  destruct (identity e d c w) as [ui|].
  - right. exists ui. split; [done|]. destruct Hid as (w1 & _ & Hw1). rewrite Hw1 in Hr.
    by eapply private_serve_as.
  - left. rewrite Hr in Hid. destruct Hid as (_ & [m Hb] & _ & He & _). unfold quiet. cbn in *.
    by rewrite Hb, He.
Qed.

End privacy.

(** ** Examples *)

(** A message between alice and bob, one of alice's to herself aside, and a notification each. *)
Definition some_mail : world :=
  world_of (set_private_messages
    {[60%N := PrivateMessage.Mk 60%N alice bob "hi" None 5;
      61%N := PrivateMessage.Mk 61%N alice alice "note" None 6]}
    (set_notifications
      {[70%N := Notification.Mk 70%N bob "pm" (JObject []) None 5;
        71%N := Notification.Mk 71%N alice "pm" (JObject []) None 6]} sample)).

Section examples.
#[local] Existing Instances ascii_server plain_argon2 decimal_uuid open_jwt ascii_unicode.

Lemma mail_is_private_witness :
  let out := run calm (handle sample_deps as_bob GetInbox) some_mail in
  (exists m, m ∈ messages_of (body out.1)) /\ private_to bob (w_db out.2) out.1.
Proof.
  cbv zeta. split.
  - exists (PrivateMessage.Mk 60%N alice bob "hi" None 5).
    assert (He : messages_of (body (run calm (handle sample_deps as_bob GetInbox) some_mail).1)
      = [PrivateMessage.Mk 60%N alice bob "hi" None 5]) by by vm_compute.
    rewrite He. by left.
  - destruct (mail_is_private calm sample_deps as_bob GetInbox some_mail _ _ calm_honest_scans
      (surjective_pairing _)) as [[Hq _]|(ui & Hid & Hp)]; [by vm_compute in Hq|].
    assert (Hu : UserInfo.ID ui = bob) by (vm_compute in Hid; by injection Hid as <-).
    by rewrite Hu in Hp.
Defined.

End examples.
