(* ===== verification/Cookies.v ===== *)
(** * The refresh cookie (handlers/auth.go, with net/http's cookies)

    The header that [setRefreshCookie] and [clearRefreshCookie] write, as [http.SetCookie] prints
    it, and what [Request.Cookie] reads from the Cookie headers of a later request.  Handlers.v
    keeps of the first the value, of the second the result. *)
From S2P Require Import Prelude GoStrings GoErrors Models Db Prog Concrete Encoding Urls Config.
From S2P Require Import Password Jwt AuthService MediaService Handlers Samples Privacy.
From Stdlib Require Import Ascii SpecFloat ZifyBool ZifyN.

(** ** [net/http]'s cookies *)

Inductive same_site := SameSiteDefaultMode | SameSiteLaxMode | SameSiteStrictMode | SameSiteNoneMode.

Module Cookie.
Record t := Mk { Name : string; Value : string; Path : string; MaxAge : Z; HttpOnly : bool;
  Secure : bool; SameSite : same_site }.
End Cookie.

(** A token of RFC 7230. *)
Definition token_byte (a : ascii) : bool :=
  byte_in 48 57 a || byte_in 65 90 a || byte_in 97 122 a ||
  existsb (Ascii.eqb a) (bytes_of "!#$%&'*+-.^_`|~").
Definition isToken (s : string) : bool := negb (String.eqb s "") && all_bytes token_byte s.

(** No controls, quotes, semicolons or backslashes. *)
Definition validCookieValueByte (a : ascii) : bool :=
  byte_in 32 126 a && negb (is_byte 34 a) && negb (is_byte 59 a) && negb (is_byte 92 a).
Definition validCookiePathByte (a : ascii) : bool := byte_in 32 126 a && negb (is_byte 59 a).

(** [sanitizeOrWarn]: the valid bytes. *)
Definition sanitize (valid : ascii -> bool) (s : string) : string :=
  string_of (filter (fun a => valid a = true) (bytes_of s)).

Definition quoted (s : string) : string := String (byte 34) (s +:+ String (byte 34) "").
Definition sanitizeCookieValue (v : string) : string :=
  let v := sanitize validCookieValueByte v in
  if has_byte (fun a => is_byte 32 a || is_byte 44 a) v then quoted v else v.

(** [Cookie.String]; [None] for a name that is no token, which [SetCookie] does not send. *)
Definition Cookie_String (c : Cookie.t) : option string :=
  if negb (isToken (Cookie.Name c)) then None else Some (
    Cookie.Name c +:+ "=" +:+ sanitizeCookieValue (Cookie.Value c) +:+
    (if String.eqb (Cookie.Path c) "" then "" else "; Path=" +:+ sanitize validCookiePathByte (Cookie.Path c)) +:+
    (if (0 <? Cookie.MaxAge c)%Z then "; Max-Age=" +:+ FormatUint (Z.to_N (Cookie.MaxAge c))
     else if (Cookie.MaxAge c <? 0)%Z then "; Max-Age=0" else "") +:+
    (if Cookie.HttpOnly c then "; HttpOnly" else "") +:+
    (if Cookie.Secure c then "; Secure" else "") +:+
    match Cookie.SameSite c with
    | SameSiteDefaultMode => ""
    | SameSiteLaxMode => "; SameSite=Lax"
    | SameSiteStrictMode => "; SameSite=Strict"
    | SameSiteNoneMode => "; SameSite=None"
    end).

(** [textproto.TrimString] *)
Definition ascii_space (a : ascii) : bool :=
  is_byte 32 a || is_byte 9 a || is_byte 10 a || is_byte 13 a.
Definition trim_bytes (l : list ascii) : list ascii :=
  reverse (drop_while ascii_space (reverse (drop_while ascii_space l))).
Definition TrimString (s : string) : string := string_of (trim_bytes (bytes_of s)).

(** [parseCookieValue], with quotes allowed. *)
Definition unquoted (l : list ascii) : list ascii :=
  match l with
  | q :: l' =>
    match last l' with
    | Some q' => if is_byte 34 q && is_byte 34 q' then removelast l' else l
    | None => l
    end
  | [] => []
  end.
Definition parseCookieValue (raw : string) : option string :=
  let v := string_of (unquoted (bytes_of raw)) in
  if all_bytes validCookieValueByte v then Some v else None.

(** One part of a Cookie header, for the cookie [name]. *)
Definition cookie_part (name part : string) : option string :=
  let part := TrimString part in
  if String.eqb part "" then None else
  let '(n, val) := Cut 61 part in
  let n := TrimString n in
  if negb (isToken n) || negb (String.eqb n name) then None else parseCookieValue val.

(** [Request.Cookie]: the first cookie of that name in the Cookie headers ([readCookies]); the
    limit of net/http on their number is left out. *)
Definition Request_Cookie (name : string) (lines : list string) : option string :=
  if String.eqb name "" then None else
  head (omap (cookie_part name) (lines ≫= (fun line => split_at 59 (TrimString line)))).

(** ** [Duration.Seconds] and its conversion to an integer *)

(** float64 of an integer, and the integer part of a float64. *)
Definition float64 (z : Z) : spec_float := binary_normalize 53 1024 z 0 false.
Definition int (f : spec_float) : Z :=
  match f with
  | S754_finite s m e => let a := Z.shiftl (Zpos m) e in if s then (- a)%Z else a
  | _ => 0%Z
  end.

Definition Seconds (d : Z) : spec_float :=
  SFadd 53 1024 (float64 (Z.quot d 1000000000))
    (SFdiv 53 1024 (float64 (Z.rem d 1000000000)) (float64 1000000000)).

(** ** The handler's cookies *)

Definition setRefreshCookie (cfg : Config.t) (value : string) : Cookie.t :=
  Cookie.Mk (Config.RefreshCookieName cfg) value "/" (int (Seconds (Config.RefreshTTL cfg))) true
    (SecureCookies cfg) SameSiteLaxMode.
Definition clearRefreshCookie (cfg : Config.t) : Cookie.t :=
  Cookie.Mk (Config.RefreshCookieName cfg) "" "/" (-1) true (SecureCookies cfg) SameSiteLaxMode.

(** The Set-Cookie header of a response; Handlers.v writes the value of the cookie that is set,
    and none for the one that is cleared. *)
Definition Set_Cookie (cfg : Config.t) (r : response) : option string :=
  match set_cookie r with
  | None => None
  | Some "" => Cookie_String (clearRefreshCookie cfg)
  | Some v => Cookie_String (setRefreshCookie cfg v)
  end.

(** What a user agent sends back of a Set-Cookie header: the pair before the attributes. *)
Definition pair_of (header : string) : string := string_of (take_until (is_byte 59) (bytes_of header)).

(** ** Whole seconds are exact *)

Lemma digits_shift k p : digits2_pos (Pos.iter xO p k) = (digits2_pos p + k)%positive.
Proof.
  induction k as [|k IH] using Pos.peano_ind; cbn; [lia|]. rewrite Pos.iter_succ. cbn. rewrite IH. lia.
Qed.

Lemma shift_value k p : Zpos (Pos.iter xO p k) = (Zpos p * 2 ^ Zpos k)%Z.
Proof.
  induction k as [|k IH] using Pos.peano_ind; cbn; [lia|]. rewrite Pos.iter_succ, Pos2Z.inj_xO, IH.
  rewrite Pos2Z.inj_succ, Z.pow_succ_r by lia. lia.
Qed.

Lemma digits_bound p n : (0 < n)%Z -> (Zpos p < 2 ^ n)%Z -> (Zpos (digits2_pos p) <= n)%Z.
Proof.
  intros Hn. revert n Hn. induction p as [p IH|p IH|]; intros n Hn Hp; cbn [digits2_pos]; [| |lia].
  all: assert (Hn2 : (1 < n)%Z) by (destruct (Z.eq_dec n 1%Z) as [->|]; [cbn in Hp; lia|lia]).
  all: replace n with (Z.succ (n - 1)) in Hp by lia; rewrite Z.pow_succ_r in Hp by lia.
  all: specialize (IH (n - 1)%Z ltac:(lia) ltac:(lia)); lia.
Qed.

(** No rounding happens to a number of at most 53 binary digits. *)
Lemma float64_exact p : (Zpos p < 2 ^ 53)%Z ->
  exists m e, float64 (Zpos p) = S754_finite false m e /\ (e <= 0)%Z /\ Zpos m = (Zpos p * 2 ^ (- e))%Z.
Proof.
  intros Hp. pose proof (digits_bound p 53 ltac:(lia) Hp) as Hd. set (d := digits2_pos p) in *.
  assert (Haux : forall m e, Zpos (digits2_pos m) = 53%Z -> (-60 <= e <= 0)%Z ->
    binary_round_aux 53 1024 false (Zpos m) e loc_Exact = S754_finite false m e).
  { intros m e Hm He. unfold binary_round_aux, shr_fexp, fexp, emin. cbn [Zdigits2]. rewrite Hm.
    replace (Z.max (53 + e - 53) (3 - 1024 - 53) - e)%Z with 0%Z by lia. cbn.
    rewrite Hm. replace (Z.max (53 + e - 53) (3 - 1024 - 53) - e)%Z with 0%Z by lia. cbn.
    destruct (Z.leb_spec e (1024 - 53)); [done|lia]. }
  unfold float64, binary_normalize, binary_round, shl_align, fexp, emin. fold d.
  replace (Z.max (Zpos d + 0 - 53) (3 - 1024 - 53)) with (Zpos d - 53)%Z by lia.
  destruct (Z.eq_dec (Zpos d) 53%Z) as [E|Hne].
  - rewrite E. change (53 - 53 - 0)%Z with 0%Z. cbv beta iota. exists p, 0%Z. rewrite Haux by (try done; lia). split_and!; [done|lia|lia].
  - destruct (Zpos d - 53 - 0)%Z as [|k|k] eqn:Hk; [lia|lia|]. cbv beta iota.
    exists (Pos.iter xO p k), (Zpos d - 53)%Z.
    rewrite Haux by (rewrite ?digits_shift; fold d; lia).
    rewrite shift_value. split_and!; [done|lia|]. do 2 f_equal. lia.
Qed.

Lemma Seconds_whole k : (0 <= k < 2 ^ 53)%Z -> int (Seconds (k * 1000000000)) = k.
Proof.
  intros Hk. unfold Seconds. rewrite Z.quot_mul, Z.rem_mul by done.
  destruct k as [|p|p]; [by vm_compute| |lia].
  destruct (float64_exact p) as (m & e & -> & He & Hm); [lia|].
  change (SFdiv 53 1024 (float64 0) (float64 1000000000)) with (S754_zero false). cbn [SFadd int].
  rewrite Z.shiftl_div_pow2, Hm by lia. apply Z.div_mul. lia.
Qed.

(** The lifetime of the cookie is that of the session, for every configured number of days whose
    duration fits 64 bits. *)
Lemma max_age_days Getenv n :
  Atoi (Getenv "REFRESH_TTL_DAYS") = Some n -> (0 <= n <= 106751)%Z ->
  Cookie.MaxAge (setRefreshCookie (Load Getenv) "") = (n * 86400)%Z.
Proof.
  intros Hn Hr. cbn [setRefreshCookie Cookie.MaxAge Load Config.RefreshTTL]. unfold getInt. rewrite Hn.
  unfold Hour, Minute. rewrite (wrap64_id (n * 24)), wrap64_id by lia.
  replace (n * 24 * (60 * (60 * 1000000000)))%Z with (n * 86400 * 1000000000)%Z by lia. apply Seconds_whole. lia.
Qed.

(** ** Tokens come back *)

(** The characters of a refresh token. *)
Definition url_byte (a : ascii) : bool :=
  byte_in 48 57 a || byte_in 65 90 a || byte_in 97 122 a || is_byte 45 a || is_byte 95 a.

Lemma url_bytes a : url_byte a = true ->
  validCookieValueByte a = true /\ (is_byte 32 a || is_byte 44 a) = false /\ token_byte a = true.
Proof. destruct a as [[] [] [] [] [] [] [] []]; by vm_compute. Qed.
Lemma token_bytes a : token_byte a = true ->
  ascii_space a = false /\ is_byte 59 a = false /\ is_byte 61 a = false /\ is_byte 34 a = false.
Proof. destruct a as [[] [] [] [] [] [] [] []]; by vm_compute. Qed.

Lemma enc_char_url n : url_byte (enc_char URLEncoding n) = true.
Proof.
  unfold enc_char, url_byte, byte_in, is_byte. cbn [c62 c63 URLEncoding].
  destruct (N.ltb_spec n 26); [rewrite byte_of_byte by lia; lia|].
  destruct (N.ltb_spec n 52); [rewrite byte_of_byte by lia; lia|].
  destruct (N.ltb_spec n 62); [rewrite byte_of_byte by lia; lia|]. by destruct (n =? 62)%N.
Qed.

Lemma b64_url l : Forall (fun a => url_byte a = true) (b64_encode URLEncoding l).
Proof.
  induction l as [l IH] using (induction_ltof1 _ (@length ascii)). unfold ltof in IH.
  destruct l as [|a [|b [|c l]]]; cbn [b64_encode]; repeat constructor; auto using enc_char_url.
  apply IH. cbn. lia.
Qed.

Lemma token_url buf : all_bytes url_byte (EncodeToString URLEncoding buf) = true.
Proof. apply all_bytes_Forall, b64_url. Qed.

Lemma sanitize_id f s : all_bytes f s = true -> sanitize f s = s.
Proof.
  unfold sanitize. induction s as [|a s IH]; [done|]. cbn [all_bytes bytes_of]. intros [Ha Hs]%andb_true_iff.
  rewrite filter_cons_True by done. cbn [string_of]. by rewrite IH.
Qed.

Lemma has_byte_false f s : all_bytes (fun a => negb (f a)) s = true -> has_byte f s = false.
Proof.
  induction s as [|a s IH]; [done|]. cbn. intros [Ha%negb_true_iff Hs]%andb_true_iff. by rewrite Ha, (IH Hs).
Qed.

Lemma trim_id s : all_bytes (fun a => negb (ascii_space a)) s = true -> TrimString s = s.
Proof.
  intros Hs. assert (Hd : forall l, Forall (fun a => ascii_space a = false) l -> drop_while ascii_space l = l).
  { intros [|a l] Hl; [done|]. cbn. by rewrite (Forall_inv Hl). }
  rewrite <- (string_of_bytes_of s), all_bytes_Forall in Hs.
  assert (Hf : Forall (fun a => ascii_space a = false) (bytes_of s)).
  { eapply Forall_impl; [exact Hs|]. intros a. apply negb_true_iff. }
  unfold TrimString, trim_bytes. rewrite (Hd (bytes_of s)) by done. rewrite Hd by by apply Forall_reverse.
  by rewrite reverse_involutive, string_of_bytes_of.
Qed.

Lemma split_one n s : all_bytes (fun a => negb (is_byte n a)) s = true -> split_at n s = [s].
Proof.
  induction s as [|a s IH]; [done|]. cbn. intros [Ha%negb_true_iff Hs]%andb_true_iff. by rewrite Ha, (IH Hs).
Qed.

Lemma pair_of_app s t :
  all_bytes (fun a => negb (is_byte 59 a)) s = true -> pair_of (s +:+ String (byte 59) t) = s.
Proof.
  unfold pair_of. induction s as [|a s IH]; [done|]. rewrite str_app_cons. cbn.
  intros [Ha%negb_true_iff Hs]%andb_true_iff. rewrite Ha. cbn. f_equal. by apply IH.
Qed.

(** A value of such characters comes back as it was sent. *)
Lemma pair_returns name v :
  isToken name = true -> all_bytes url_byte v = true ->
  Request_Cookie name [name +:+ "=" +:+ v] = Some v.
Proof.
  intros [Hne Hn]%andb_true_iff Hv.
  assert (Ht : all_bytes token_byte v = true) by (eapply all_bytes_impl; [|exact Hv]; intros a Ha; apply (url_bytes a Ha)).
  assert (Hsp : forall s, all_bytes token_byte s = true -> all_bytes (fun a => negb (ascii_space a)) s = true).
  { intros s. apply all_bytes_impl. intros a Ha. destruct (token_bytes a Ha) as (-> & _). done. }
  assert (Hsc : forall s, all_bytes token_byte s = true -> all_bytes (fun a => negb (is_byte 59 a)) s = true).
  { intros s. apply all_bytes_impl. intros a Ha. destruct (token_bytes a Ha) as (_ & -> & _). done. }
  assert (Hpair : TrimString (name +:+ "=" +:+ v) = name +:+ "=" +:+ v).
  { apply trim_id. rewrite !all_bytes_app. by rewrite (Hsp name Hn), (Hsp v Ht). }
  unfold Request_Cookie. apply negb_true_iff in Hne. rewrite Hne. cbn [mbind list_bind]. rewrite Hpair.
  rewrite split_one by (rewrite !all_bytes_app; by rewrite (Hsc name Hn), (Hsc v Ht)). rewrite app_nil_r. cbn [omap list_omap].
  unfold cookie_part. rewrite Hpair. rewrite str_app_cons, str_app_nil.
  assert (Hstr : String.eqb (name +:+ String "=" v) "" = false) by by destruct name.
  rewrite Hstr, Cut_app.
  2: { eapply all_bytes_impl; [|exact Hn]. intros a Ha. destruct (token_bytes a Ha) as (_ & _ & -> & _). done. }
  rewrite trim_id by by apply Hsp. unfold isToken. rewrite Hne, Hn, String.eqb_refl. cbn [negb andb orb].
  unfold parseCookieValue.
  assert (Hq : unquoted (bytes_of v) = bytes_of v).
  { destruct v as [|a v]; [done|]. cbn [all_bytes] in Ht. apply andb_true_iff in Ht as [Ha _].
    cbn [bytes_of unquoted]. destruct (last _); [|done]. by destruct (token_bytes a Ha) as (_ & _ & _ & ->). }
  rewrite Hq, string_of_bytes_of. replace (all_bytes validCookieValueByte v) with true; [done|]. symmetry.
  eapply all_bytes_impl; [|exact Hv]. intros a Ha. apply (url_bytes a Ha).
Qed.

(** The header of such a cookie: the pair first, then the attributes. *)
Lemma header_pair c :
  isToken (Cookie.Name c) = true -> all_bytes url_byte (Cookie.Value c) = true -> Cookie.Path c = "/" ->
  exists attrs, Cookie_String c = Some (Cookie.Name c +:+ "=" +:+ Cookie.Value c +:+ "; Path=/" +:+ attrs).
Proof.
  intros Hn Hv Hp. unfold Cookie_String. rewrite Hn, Hp. cbn [negb].
  assert (Hs : sanitizeCookieValue (Cookie.Value c) = Cookie.Value c).
  { unfold sanitizeCookieValue. rewrite sanitize_id by (eapply all_bytes_impl; [|exact Hv]; intros a Ha; apply (url_bytes a Ha)).
    rewrite has_byte_false; [done|]. eapply all_bytes_impl; [|exact Hv]. intros a Ha.
    by destruct (url_bytes a Ha) as (_ & -> & _). }
  rewrite Hs. change (String.eqb "/" "") with false. cbv iota.
  change ("; Path=" +:+ sanitize validCookiePathByte "/") with "; Path=/". by eexists.
Qed.

(** ** The cookies that the API sets *)

Lemma always_bind_post {A B} (R : A -> Prop) (P : B -> Prop) (p : prog A) (k : A -> prog B) :
  always R p -> (forall a, R a -> always P (k a)) -> always P (bind p k).
Proof.
  intros Hp Hk e w. rewrite run_bind. specialize (Hp e w). destruct (run e p w) as [a w1]. by apply Hk.
Qed.

Section api.
Context `{Postgres, Argon2, Uuid, Jwt, Unicode}.

(** A result with a token that a cookie can carry; a response that sets none other. *)
Definition fresh_token (r : result Tokens.t) : Prop :=
  match r with Ok t => all_bytes url_byte (Tokens.RefreshToken t) = true | Err _ => True end.
Definition carries (r : response) : Prop :=
  match set_cookie r with Some v => all_bytes url_byte v = true | None => True end.

Ltac always_with tac :=
  repeat first
    [ tac
    | apply always_bind; intros
    | match goal with
      | |- always _ (match ?x with _ => _ end) => destruct x
      | |- always _ (let '(_, _) := ?x in _) => destruct x
      end
    | by apply always_Ret ].

Lemma issue_token s u ua ip : always fresh_token (issueTokens s u ua ip).
Proof.
  unfold issueTokens, bindr, fail, ret. do 2 (apply always_bind; intros [|]; [|by apply always_Ret]).
  apply always_bind_post with (R := fun r => match r with Ok t => all_bytes url_byte t.1 = true | Err _ => True end).
  - unfold NewRefreshToken, fail, ret. apply always_bind. intros [buf|]; [|by apply always_Ret].
    apply always_Ret. cbn. apply token_url.
  - intros [t|er] Ht; [|by apply always_Ret]. apply always_bind. intros now. apply always_bind.
    intros [|]; by apply always_Ret.
Qed.

Lemma login_token s u pw ua ip : always fresh_token (login_user s u pw ua ip).
Proof. unfold login_user, fail. always_with ltac:(apply issue_token). Qed.

Lemma Login_token s i pw ua ip : always fresh_token (Login s i pw ua ip).
Proof. unfold Login, fail. always_with ltac:(apply login_token). Qed.

Lemma Refresh_token s t ua ip : always fresh_token (Refresh s t ua ip).
Proof. unfold Refresh, bindr, fail. always_with ltac:(apply issue_token). Qed.

Lemma setting_carries v p : all_bytes url_byte v = true -> always carries (setting v p).
Proof. intros Hv. unfold setting. apply always_bind. intros r. by apply always_Ret. Qed.

(** Only the answers of login, refresh and logout set the cookie, each to a token or to nothing. *)
Lemma carries_serve_as d c ep ui : always carries (serve_as d c ep ui).
Proof.
  destruct ep; cbn [serve_as];
    try (autounfold with mc_handlers; always_with ltac:(fail); fail);
    unfold auth_Login, auth_Refresh, decoded.
  - destruct body as [req|]; [|by apply always_Ret].
    eapply always_bind_post; [apply Login_token|]. intros [t|er] Ht; [by apply setting_carries|].
    unfold writeServerError, writeError. always_with ltac:(fail).
  - destruct (refresh_cookie c) as [[|a v]|]; [by apply always_Ret| |by apply always_Ret].
    eapply always_bind_post; [apply Refresh_token|]. intros [t|er] Ht; [by apply setting_carries|].
    unfold writeServerError, writeError. always_with ltac:(by apply setting_carries).
Qed.

Lemma carries_handle d c ep : always carries (handle d c ep).
Proof.
  unfold handle. assert (Ha : forall k, (forall ui, always carries (k ui)) -> always carries (RequireAuth (jwtm d) c k)).
  { intros k Hk. unfold RequireAuth, writeError. always_with ltac:(apply Hk). }
  destruct (guard_of ep); [apply carries_serve_as|apply Ha; intros ui; apply carries_serve_as|].
  apply Ha. intros ui. unfold RequireRole, writeError. always_with ltac:(apply carries_serve_as).
Qed.

End api.

(** ** Examples *)

Section examples.
#[local] Existing Instances ascii_server plain_argon2 decimal_uuid open_jwt ascii_unicode.

(** Bob's refresh: the header that takes the new token to him, and the one of his logout. *)
Abbreviation bobs_refresh :=
  ((run calm (handle sample_deps (with_refresh "t0ken") PostRefresh) one_session).1).

Example bobs_header : exists v, set_cookie bobs_refresh = Some v /\
  Set_Cookie sample_config bobs_refresh
    = Some ("masonic_refresh=" +:+ v +:+ "; Path=/; Max-Age=2592000; HttpOnly; SameSite=Lax").
Proof. eexists. by vm_compute. Qed.

Example logout_header :
  Set_Cookie sample_config (run calm (handle sample_deps (with_refresh "t0ken") PostLogout) one_session).1
  = Some "masonic_refresh=; Path=/; Max-Age=0; HttpOnly; SameSite=Lax".
Proof. by vm_compute. Qed.

(** A configured name that is no token is accepted, and then no cookie is ever sent. *)
Example no_cookie_for_name :
  let cfg := Load (fun k => if String.eqb k "REFRESH_COOKIE_NAME" then "my cookie" else sample_env k) in
  Validate cfg = None /\ Set_Cookie cfg bobs_refresh = None.
Proof. split; by vm_compute. Qed.

Example quoted_cookie :
  Request_Cookie "b" ["a=1; c"; " b = 2;b=3"] = Some " 2" /\ Request_Cookie "b" ["b=x y"] = Some "x y" /\
  Request_Cookie "b" ["b=a\c; b="] = Some "" /\ Request_Cookie "b" ["a=b"] = None.
Proof. by split_and!; vm_compute. Qed.

Lemma bobs_cookie : exists v, set_cookie bobs_refresh = Some v /\ v <> "".
Proof.
  destruct bobs_header as (v & Hv & _). exists v. split; [done|]. intros ->.
  revert Hv. apply (bool_decide_unpack (set_cookie bobs_refresh <> Some "")). by vm_compute.
Qed.

Lemma bobs_cookie_name : isToken (Config.RefreshCookieName sample_config) = true.
Proof. by vm_compute. Qed.


End examples.
