(* ===== verification/Account.v ===== *)
(** * Logging in works

    [Login_sound] says what a login that succeeds was given.  Here is the converse: the owner of
    an active account logs in whenever the database, the random source and the signer do their
    part; the access token is then accepted as that user for its lifetime, and the refresh token
    is good for another pair of tokens as long as its session lives. *)
From S2P Require Import Prelude GoStrings GoErrors Models Db Prog Concrete Roles Encoding Sha256.
From S2P Require Import Password Config Jwt UserStore SessionStore AuthService MediaService Handlers.
From S2P Require Import Samples JsonStruct Requests Access.
Local Open Scope mc_scope.

#[local] Opaque Sum256 hex_EncodeToString.

Section account.
Context `{Postgres, Argon2, Uuid, Jwt}.
Implicit Types (s : AuthService.t).

Definition digest (token : string) : string := hex_EncodeToString (Sum256 token).

(** Nothing is in the way of a session: no faults, random bytes to be had, a signer that signs,
    and, from now on, identifiers and digests for the session row that are not those of the rows
    there are. *)
Record clear (e : env) (s : AuthService.t) (w : world) : Prop := {
  clear_faults : no_faults e;
  clear_scans : honest_scans e;
  clear_rand t n : exists b, env_rand e t n = Some b;
  clear_sign c : exists raw, SignedString HS256 c (Manager.secret (AuthService.jwt s)) = Ok raw /\ raw <> "";
  clear_ids t : (w_tick w <= t)%nat -> user_sessions (w_db w) !! env_uuid e t = None;
  clear_digests t b k x : (w_tick w <= t)%nat -> env_rand e t RefreshTokenBytes = Some b ->
    user_sessions (w_db w) !! k = Some x ->
    Session.TokenHash x <> digest (EncodeToString URLEncoding b) }.

(** The client's own texts can be stored. *)
Definition storable (ua ip : string) : Prop :=
  text_ok ua = true /\
  exists ip', inet_param (if String.eqb (normalizeIP ip) "" then None else Some (normalizeIP ip)) = Ok ip'.

(** The claims of a user's token issued at [t]. *)
Definition claims_at (m : Manager.t) (u : User.t) (keys : list string) (t : time) : Claims.t :=
  Claims.Mk (User.Username u) keys (uuid_String (User.ID u)) (Manager.issuer m)
    (Some (NewNumericDate t)) (Some (NewNumericDate t)) (Some (NewNumericDate (Add t (Manager.ttl m)))).

(** ** Step by step *)

Lemma run_read {A} e (st : stmt A) a w :
  no_faults e -> st (server_at e w) (w_db w) = Ok (a, w_db w) -> run e (exec st) w = (Ok a, tick w).
Proof. intros Hf Hs. by rewrite run_exec, exec_op_no_fault, Hs by apply Hf. Qed.

(** A condition that one row satisfies. *)
Lemma scan_one {R} e w (f : R -> bool) (m : gmap uuid R) k r :
  honest_scans e -> m !! k = Some r -> f r = true ->
  (forall k' r', m !! k' = Some r' -> f r' = true -> r' = r) ->
  head (sv_scan (server_at e w) R (select f m)) = Some r.
Proof.
  intros Hs Hk Hf Hu. pose proof (Hs (w_tick w) R (select f m)) as Hp.
  change (env_scan e (w_tick w)) with (sv_scan (server_at e w)) in Hp.
  destruct (sv_scan _ _ _) as [|x l] eqn:E.
  - assert (Hr : r ∈ select f m) by (apply elem_select; eauto). rewrite <- Hp in Hr.
    by apply not_elem_of_nil in Hr.
  - assert (Hx : x ∈ select f m) by (rewrite <- Hp; by left). apply elem_select in Hx as [Hfx [k' Hk']].
    cbn. f_equal. by eapply Hu.
Qed.

Lemma run_GetByUsername e w name u :
  no_faults e -> honest_scans e -> db_ok (w_db w) -> text_ok name = true ->
  users (w_db w) !! User.ID u = Some u -> lower (User.Username u) = lower name ->
  run e (GetByUsername name) w = (Ok u, tick w).
Proof.
  intros Hf Hs Hd Ht Hu Hn. unfold GetByUsername. rewrite run_bind.
  rewrite (run_read e _ (Some u) w Hf); [done|]. unfold select_user_where, checked. rewrite Ht. cbn [negb].
  rewrite (scan_one e w _ _ (User.ID u) u Hs Hu); [done|by apply String.eqb_eq|].
  intros k r Hk Hr%String.eqb_eq.
  assert (Hkk : k = User.ID u) by (apply (ok_users_name _ Hd k (User.ID u) r u); congruence).
  subst k. congruence.
Qed.

Lemma run_NewRefreshToken e w b :
  env_rand e (w_tick w) RefreshTokenBytes = Some b ->
  run e NewRefreshToken w =
    (Ok (EncodeToString URLEncoding b, digest (EncodeToString URLEncoding b)), tick w).
Proof. intros Hb. unfold NewRefreshToken, rand_Read. cbn [bind run]. by rewrite Hb. Qed.

Lemma run_RolesForUser e w id :
  no_faults e ->
  run e (RolesForUser id) w = (Ok (role_keys id (server_at e w) (w_db w)), tick w).
Proof.
  intros Hf. unfold RolesForUser. rewrite run_bind.
  by rewrite (run_read e _ (role_keys id (server_at e w) (w_db w)) w Hf).
Qed.

(** The row of a session that can be stored is stored. *)
Lemma run_Create_session e w ns ip' :
  no_faults e ->
  inet_param (if String.eqb (NewSession.IP ns) "" then None else Some (NewSession.IP ns)) = Ok ip' ->
  text_ok (NewSession.TokenHash ns) = true -> text_ok (NewSession.UserAgent ns) = true ->
  user_sessions (w_db w) !! sv_uuid (server_at e w) = None ->
  (forall k x, user_sessions (w_db w) !! k = Some x -> Session.TokenHash x <> NewSession.TokenHash ns) ->
  is_Some (users (w_db w) !! NewSession.UserID ns) ->
  exists sess w', run e (SessionStore.Create ns) w = (Ok sess, w') /\ w_tick w' = S (w_tick w).
Proof.
  intros Hf Hip Hth Hua Hid Hnew Hu. unfold SessionStore.Create. rewrite run_bind, run_exec.
  rewrite exec_op_no_fault by apply Hf. unfold insert_session. rewrite Hip. unfold checked, texts_ok.
  cbn [forallb]. rewrite Hth, Hua. cbn [andb negb].
  assert (Hk : has_key (user_sessions (w_db w)) (sv_uuid (server_at e w)) = false).
  { apply has_key_false. exact Hid. }
  rewrite Hk. cbn [negb andb]. match goal with |- context [unique_ok ?f ?k ?r ?m] =>
    assert (Hq : unique_ok f k r m = true) end.
  { apply unique_ok_true. intros k x Hx _ He. by apply (Hnew k x Hx). }
  rewrite Hq. cbn [negb Session.UserID]. rewrite (proj2 (has_key_true _ _) Hu). cbn.
  eexists _, _. by split.
Qed.

(** The refresh token is random bytes, in text. *)
Definition drawn (e : env) (tok : Tokens.t) : Prop :=
  exists j b, env_rand e j RefreshTokenBytes = Some b /\ Tokens.RefreshToken tok = EncodeToString URLEncoding b.

Lemma run_issueTokens e s w u ua ip :
  clear e s w -> users (w_db w) !! User.ID u = Some u -> storable ua ip ->
  exists tok w' i, run e (issueTokens s u ua ip) w = (Ok tok, w') /\
    (w_tick w <= i < w_tick w')%nat /\
    SignedString HS256 (claims_at (AuthService.jwt s) u (Tokens.Roles tok) (env_clock e i))
      (Manager.secret (AuthService.jwt s)) = Ok (Tokens.AccessToken tok) /\
    Tokens.AccessToken tok <> "" /\ drawn e tok.
Proof.
  intros Hc Hu (Hua & ip' & Hip). pose proof (clear_faults e s w Hc) as Hf.
  unfold issueTokens. rewrite run_bindr, run_RolesForUser by done.
  remember (role_keys (User.ID u) (server_at e w) (w_db w)) as keys eqn:Hkeys.
  destruct (clear_sign e s w Hc (claims_at (AuthService.jwt s) u keys (env_clock e (S (w_tick w))))) as [raw [Hraw Hne]].
  rewrite run_bind. replace (run e (NewAccessToken _ _ _ _) (tick w)) with (@Ok string raw, tick (tick w))
    by (unfold NewAccessToken, issue; cbn [bind clock_Now run]; by rewrite <- Hraw).
  destruct (clear_rand e s w Hc (S (S (w_tick w))) RefreshTokenBytes) as [b Hb].
  rewrite run_bindr, (run_NewRefreshToken e _ b) by done. rewrite run_bind.
  cbn [clock_Now run]. rewrite run_bindr.
  match goal with |- context [SessionStore.Create ?ns] =>
    destruct (run_Create_session e (tick (tick (tick (tick w)))) ns ip') as (sess & w' & Hr & Ht)
  end; [exact Hf|exact Hip|..|].
  - cbn [NewSession.TokenHash snd]. apply hex_text_ok.
  - exact Hua.
  - apply (clear_ids e s w Hc). cbn. lia.
  - intros k x Hx. apply (clear_digests e s w Hc (S (S (w_tick w))) b k x); [lia|exact Hb|exact Hx].
  - by exists u.
  - rewrite Hr. eexists _, _, (S (w_tick w)). split; [reflexivity|]. split; [|split; [done|split; [done|by exists (S (S (w_tick w))), b]]].
    rewrite Ht. cbn. lia.
Qed.

(** ** Refreshing *)

Lemma clear_same e s w w' : w_db w' = w_db w -> (w_tick w <= w_tick w')%nat -> clear e s w -> clear e s w'.
Proof.
  intros Hw Ht [Hf Hs Hr Hg Hi Hd]. constructor; rewrite ?Hw; try done.
  - intros t Hl. apply Hi. lia.
  - intros t b k x Hl. apply Hd. lia.
Qed.

Lemma clear_revoked e s w id t x :
  clear e s w -> user_sessions (w_db w) !! id = Some x ->
  clear e s (set_db (set_user_sessions (<[id := with_revoked t x]> (user_sessions (w_db w))) (w_db w)) (tick w)).
Proof.
  intros [Hf Hs Hr Hg Hi Hd] Hx. constructor; try done; cbn.
  - intros t' Hl. assert (Hn : user_sessions (w_db w) !! env_uuid e t' = None) by (apply Hi; lia).
    rewrite lookup_insert_None. split; [done|]. intros ->. by rewrite Hn in Hx.
  - intros t' b k y Hl Hb [[<- <-]|[_ Hy]]%lookup_insert_Some; [|by apply (Hd t' b k y); [lia|..]].
    by apply (Hd t' b id x); [lia|..].
Qed.

Lemma run_GetByTokenHash e w h x :
  no_faults e -> honest_scans e -> db_ok (w_db w) -> text_ok h = true ->
  user_sessions (w_db w) !! Session.ID x = Some x -> active h (sv_now (server_at e w)) x = true ->
  run e (GetByTokenHash h) w = (Ok x, tick w).
Proof.
  intros Hf Hs Hd Ht Hx Ha. unfold GetByTokenHash. rewrite run_bind.
  rewrite (run_read e _ (Some x) w Hf); [done|]. unfold select_active, checked. rewrite Ht. cbn [negb].
  assert (Hh : forall y, active h (sv_now (server_at e w)) y = true -> Session.TokenHash y = h).
  { intros y [[Hy%String.eqb_eq _]%andb_true_iff _]%andb_true_iff. exact Hy. }
  rewrite (scan_one e w _ _ (Session.ID x) x Hs Hx Ha); [done|]. intros k y Hk Hy.
  assert (Hkk : k = Session.ID x).
  { apply (ok_sessions_hash _ Hd k (Session.ID x) y x); [done|done|]. by rewrite (Hh y Hy), (Hh x Ha). }
  subst k. congruence.
Qed.

Lemma run_Refresh e s w raw ua ip x u :
  clear e s w -> db_ok (w_db w) -> storable ua ip ->
  user_sessions (w_db w) !! Session.ID x = Some x -> Session.UserID x = User.ID u ->
  active (digest raw) (sv_now (server_at e w)) x = true ->
  users (w_db w) !! User.ID u = Some u -> User.Status u = UserStatusActive ->
  exists tok w' i, run e (Refresh s raw ua ip) w = (Ok tok, w') /\ Tokens.theUser tok = u /\
    (w_tick w <= i < w_tick w')%nat /\
    SignedString HS256 (claims_at (AuthService.jwt s) u (Tokens.Roles tok) (env_clock e i))
      (Manager.secret (AuthService.jwt s)) = Ok (Tokens.AccessToken tok) /\
    Tokens.AccessToken tok <> "".
Proof.
  intros Hc Hd Hst Hx Hxu Ha Hu Hact. pose proof (clear_faults e s w Hc) as Hf.
  pose proof (clear_scans e s w Hc) as Hs. unfold Refresh, HashRefreshToken. rewrite run_bind.
  fold (digest raw). rewrite (run_GetByTokenHash e w _ x) by (done || apply hex_text_ok).
  rewrite run_bind. unfold UserStore.GetByID. rewrite run_bind.
  rewrite (run_read e _ (Some u) (tick w) Hf)
    by (unfold select_user; change (w_db (tick w)) with (w_db w); by rewrite Hxu, Hu).
  rewrite run_Ret. cbn [scanOne Scan]. rewrite Hact, String.eqb_refl. cbn [negb].
  rewrite run_bind. cbn [clock_Now run]. rewrite run_bindr.
  set (w3 := tick (tick (tick w))).
  unfold Revoke. rewrite run_bind, run_exec, exec_op_no_fault by apply Hf.
  unfold update_unrevoked. change (w_db w3) with (w_db w). rewrite Hx.
  assert (Hnr : Session.RevokedAt x = None).
  { unfold active in Ha. destruct (Session.RevokedAt x); [by rewrite andb_false_r in Ha|done]. }
  rewrite Hnr. cbn [Z.eqb]. rewrite run_ret.
  destruct (run_issueTokens e s _ u ua ip (clear_revoked e s w3 (Session.ID x) (env_clock e (w_tick (tick (tick w)))) x
    (clear_same e s w w3 eq_refl ltac:(cbn; lia) Hc) Hx) Hu Hst)
    as (tok & w' & i & Hr & Hi & Hsig & Hne & _).
  exists tok, w', i. split; [exact Hr|]. split; [by apply any_issueTokens in Hr as [? _]|].
  split; [cbn in Hi; lia|done].
Qed.

End account.

(** ** Logging in *)

Section login.
Context `{Postgres, Argon2, UuidLaws0 : UuidLaws, !UuidText, JwtLaws0 : JwtLaws, Unicode}.
Implicit Types (s : AuthService.t).

(** The token is believed: from its issue (to the second) until the second its lifetime ends. *)
Lemma token_identity e d c w u keys t :
  SignedString HS256 (claims_at (jwtm d) u keys t) (Manager.secret (jwtm d))
    = Ok (bearerToken (Authorization c)) ->
  bearerToken (Authorization c) <> "" ->
  ValidString (User.Username u) = true -> Forall (fun r => ValidString r = true) keys ->
  ValidString (Manager.issuer (jwtm d)) = true -> instant t -> instant (Add t (Manager.ttl (jwtm d))) ->
  let now := env_clock e (w_tick w) in
  (t - t mod 1000000 <= now)%Z ->
  (now < Add t (Manager.ttl (jwtm d)) - Add t (Manager.ttl (jwtm d)) mod 1000000)%Z ->
  identity e d c w = Some (UserInfo.Mk (User.ID u) (User.Username u) keys).
Proof.
  intros Hs Hne Hn Hk Hi Ht Ht' now Hlo Hhi. unfold identity.
  rewrite (proj2 (String.eqb_neq _ _) Hne). unfold Parse. rewrite run_bind. cbn [clock_Now run].
  assert (Hp : plain_claims (claims_at (jwtm d) u keys t)).
  { unfold plain_claims, claims_at.
    cbn [Claims.Username Claims.Roles Claims.Subject Claims.Issuer Claims.IssuedAt Claims.NotBefore Claims.ExpiresAt].
    split_and!; try done; [apply uuid_text_valid|]. repeat constructor; by apply whole_second_trunc. }
  assert (Hv : valid_at (claims_at (jwtm d) u keys t) now).
  { split; cbn; intros ? [= <-]; by rewrite NewNumericDate_trunc. }
  rewrite (Parse_signed _ _ _ _ _ _ _ Hp Hs) by (done || (by left)).
  cbn [negb ret run fst Claims.Subject claims_at]. by rewrite uuid_Parse_String.
Qed.

(** The access token, issued at the tick [i], is believed for its lifetime. *)
Definition believed_after (e : env) s (u : User.t) (tok : Tokens.t) (i : nat) : Prop :=
  forall d c w2, let t := env_clock e i in
    jwtm d = AuthService.jwt s -> bearerToken (Authorization c) = Tokens.AccessToken tok ->
    ValidString (User.Username u) = true -> Forall (fun r => ValidString r = true) (Tokens.Roles tok) ->
    ValidString (Manager.issuer (jwtm d)) = true ->
    instant t -> instant (Add t (Manager.ttl (jwtm d))) ->
    (t - t mod 1000000 <= env_clock e (w_tick w2))%Z ->
    (env_clock e (w_tick w2) < Add t (Manager.ttl (jwtm d)) - Add t (Manager.ttl (jwtm d)) mod 1000000)%Z ->
    identity e d c w2 = Some (UserInfo.Mk (User.ID u) (User.Username u) (Tokens.Roles tok)).

(** The sessions of a refresh token have not expired. *)
Definition unexpired (e : env) (token : string) (w : world) : Prop :=
  forall k x, user_sessions (w_db w) !! k = Some x -> Session.TokenHash x = digest token ->
    (sv_now (server_at e w) < Session.ExpiresAt x)%Z.

(** The refresh token is good for more, as long as nothing changed and its session lasts. *)
Definition renewable (e : env) s (u : User.t) (tok : Tokens.t) (ua ip : string) (w1 : world) : Prop :=
  forall w2, w_db w2 = w_db w1 -> clear e s w2 -> unexpired e (Tokens.RefreshToken tok) w2 ->
    exists tok' w3 i, run e (Refresh s (Tokens.RefreshToken tok) ua ip) w2 = (Ok tok', w3) /\
      Tokens.theUser tok' = u /\ (w_tick w2 <= i < w_tick w3)%nat /\ believed_after e s u tok' i.

Lemma issued_believed e s u tok i :
  SignedString HS256 (claims_at (AuthService.jwt s) u (Tokens.Roles tok) (env_clock e i))
    (Manager.secret (AuthService.jwt s)) = Ok (Tokens.AccessToken tok) ->
  Tokens.AccessToken tok <> "" -> believed_after e s u tok i.
Proof.
  intros Hsig Hne d c w2 t Hj Hb Hnv Hkv Hiss Ht0 Ht1 Hlo Hhi.
  apply (token_identity e d c w2 u _ (env_clock e i)); try done; by rewrite ?Hj, Hb.
Qed.

Lemma login_outcome e s w ident pw u ua ip :
  clear e s w -> db_ok (w_db w) -> storable ua ip -> text_ok (TrimSpace ident) = true ->
  users (w_db w) !! User.ID u = Some u -> lower (User.Username u) = lower (TrimSpace ident) ->
  User.Status u = UserStatusActive -> Verify pw (User.PasswordHash u) = Some (Ok true) ->
  exists tok w1 i, run e (Login s ident pw ua ip) w = (Ok tok, w1) /\ Tokens.theUser tok = u /\
    (w_tick w <= i < w_tick w1)%nat /\ believed_after e s u tok i /\ renewable e s u tok ua ip w1 /\
    drawn e tok.
Proof.
  intros Hc Hd Hst Ht Hu Hn Hact Hv. pose proof (clear_faults e s w Hc) as Hf.
  pose proof (clear_scans e s w Hc) as Hs.
  assert (Hu' : users (w_db (tick w)) !! User.ID u = Some u) by done.
  destruct (run_issueTokens e s (tick w) u ua ip (clear_same e s w (tick w) eq_refl ltac:(cbn; lia) Hc) Hu' Hst)
    as (tok & w1 & i & Hr & Hi & Hsig & Hne & Hdr).
  exists tok, w1, i.
  assert (Hrun : run e (Login s ident pw ua ip) w = (Ok tok, w1)).
  { unfold Login. rewrite run_bind, (run_GetByUsername e w _ u) by done.
    unfold login_user. by rewrite Hact, String.eqb_refl, Hv. }
  pose proof (any_issueTokens e s u ua ip _ tok w1 Hs Hr) as (Htok & _ & _ & sess & now & Hfresh & Hsu & Hsh & _ & Hsr & Hdb).
  split_and!; [done|done|cbn in Hi; lia|lia|..|done].
  - by apply issued_believed.
  - intros w2 Hw2 Hc2 Hexp.
    assert (Hx : user_sessions (w_db w2) !! Session.ID sess = Some sess).
    { rewrite Hw2, Hdb. cbn. apply lookup_insert_eq. }
    destruct (run_Refresh e s w2 (Tokens.RefreshToken tok) ua ip sess u) as (tok' & w3 & j & Hr' & Hu2 & Hj & Hs' & Hn'); try done.
    + rewrite Hw2. replace w1 with (run e (Login s ident pw ua ip) w).2 by by rewrite Hrun.
      by apply (keeps_run e (fun w => db_ok (w_db w))); [apply Login_safe|].
    + unfold active. fold (digest (Tokens.RefreshToken tok)) in Hsh.
      rewrite Hsh, String.eqb_refl, Hsr. apply Z.ltb_lt. by apply (Hexp _ _ Hx).
    + rewrite Hw2, Hdb. exact Hu.
    + exists tok', w3, j. split_and!; [done|done|lia|lia|by apply issued_believed].
Qed.

(** C28: logging in works: when the database, the random source and the signer do their part, the
    owner of an active account, by its name in any case and the right password, is given tokens;
    the access token is then accepted, in the header of any request within its lifetime, as that
    user with the roles held; and the refresh token is good for new tokens of the same user,
    the access token of which is accepted likewise, as long as nothing changed and its session has
    not expired. *)
Theorem login_works e s w ident pw u ua ip :
  clear e s w -> db_ok (w_db w) -> storable ua ip -> text_ok (TrimSpace ident) = true ->
  users (w_db w) !! User.ID u = Some u -> lower (User.Username u) = lower (TrimSpace ident) ->
  User.Status u = UserStatusActive -> Verify pw (User.PasswordHash u) = Some (Ok true) ->
  exists tok w1 i, run e (Login s ident pw ua ip) w = (Ok tok, w1) /\ Tokens.theUser tok = u /\
    (w_tick w <= i < w_tick w1)%nat /\ believed_after e s u tok i /\ renewable e s u tok ua ip w1.
Proof.
  intros Hc Hd Hst Ht Hu Hn Hact Hv.
  destruct (login_outcome e s w ident pw u ua ip Hc Hd Hst Ht Hu Hn Hact Hv) as (tok & w1 & i & Hr & Ht' & Hi & Hb & Hre & _).
  by exists tok, w1, i.
Qed.

End login.

(** ** Examples *)

Section examples.
#[local] Existing Instances ascii_server plain_argon2 plain_argon2_laws decimal_uuid decimal_uuid_laws
  open_jwt open_jwt_laws ascii_unicode.

Lemma decimal_uuid_text : @UuidText decimal_uuid.
Proof.
  constructor; intros u; [apply FormatUint_nonempty|].
  eapply all_bytes_impl; [|apply FormatUint_digits]. intros a Ha. unfold is_digit in Ha.
  unfold JsonText.is_hex, JsonText.hex_val. by rewrite Ha.
Qed.
#[local] Existing Instance decimal_uuid_text.

Lemma open_token_nonempty m c k : open_token m c k <> "".
Proof.
  intros He. pose proof (read_open_token m c k) as Hr. rewrite He in Hr. by vm_compute in Hr.
Qed.

(** A world without sessions is clear. *)
Lemma calm_clear w : user_sessions (w_db w) = ∅ -> clear calm sample_auth w.
Proof.
  intros Hw. constructor; [apply calm_no_faults|apply calm_honest_scans|..].
  - intros t n. by eexists.
  - intros c. eexists. split; [reflexivity|]. apply open_token_nonempty.
  - intros t _. rewrite Hw. apply lookup_empty.
  - intros t b k x _ _. by rewrite Hw, lookup_empty.
Qed.

(** The bytes of [calm] repeat after 256 draws; these are distinct from draw to draw, up to one
    that is drawn ever after. *)
Definition last_draw : nat := 10.
Definition rested : env :=
  {| env_now := env_now calm; env_uuid := env_uuid calm; env_scan := env_scan calm;
     env_fault := env_fault calm; env_clock := env_clock calm;
     env_rand := fun t n => Some (some_bytes (Nat.min t last_draw) n);
     env_PutObject := env_PutObject calm; env_RemoveObject := env_RemoveObject calm |}.

(** No session has an identifier or a digest that is still to come. *)
Definition restedb (w : world) : bool :=
  let from := Nat.min (w_tick w) last_draw in
  forallb (fun '(k, x) => (k <? N.of_nat (1000 + w_tick w))%N &&
    forallb (fun i => negb (String.eqb (Session.TokenHash x)
      (digest (EncodeToString URLEncoding (some_bytes i RefreshTokenBytes))))) (seq from (S last_draw - from)))
    (map_to_list (user_sessions (w_db w))).

Lemma rested_clear w : restedb w = true -> clear rested sample_auth w.
Proof.
  intros Hw. assert (Hk : forall k x, user_sessions (w_db w) !! k = Some x ->
    (k < N.of_nat (1000 + w_tick w))%N /\ forall t, (w_tick w <= t)%nat ->
    Session.TokenHash x <> digest (EncodeToString URLEncoding (some_bytes (Nat.min t last_draw) RefreshTokenBytes))).
  { intros k x Hx. unfold restedb in Hw. rewrite forallb_forall in Hw.
    specialize (Hw (k, x)). rewrite <- list_elem_of_In, elem_of_map_to_list in Hw.
    specialize (Hw Hx) as [Hlt%N.ltb_lt Hall]%andb_true_iff. split; [done|]. intros t Ht.
    rewrite forallb_forall in Hall. specialize (Hall (Nat.min t last_draw)). rewrite in_seq in Hall.
    apply negb_true_iff, String.eqb_neq in Hall; [done|lia]. }
  constructor; [done|by intros t R l|..].
  - intros t n. by eexists.
  - intros c. eexists. split; [reflexivity|]. apply open_token_nonempty.
  - intros t Ht. apply eq_None_not_Some. intros [x Hx]. apply Hk in Hx as [Hlt _]. cbn in Hlt. lia.
  - intros t b k x Ht [= <-] Hx. by apply Hk in Hx as [_ Hd]; apply Hd.
Qed.

(** No session has expired. *)
Definition unexpiredb (e : env) (w : world) : bool :=
  forallb (fun '(_, x) => (sv_now (server_at e w) <? Session.ExpiresAt x)%Z) (map_to_list (user_sessions (w_db w))).
Lemma unexpiredb_true e token w : unexpiredb e w = true -> unexpired e token w.
Proof.
  unfold unexpiredb. rewrite forallb_forall. intros Hw k x Hx _. apply Z.ltb_lt, (Hw (k, x)).
  by apply list_elem_of_In, elem_of_map_to_list.
Qed.

Definition carol_user : User.t :=
  match (carol "password1").1 with Ok u => u | Err _ => User.Mk 0%N "" "" "" "" "" "" 0 0 None end.
Definition carol_login : prog (result Tokens.t) := Login sample_auth "CAROL" "password1" "test" "10.0.0.1:5000".

(** Carol logs in and is believed, and her token is good for more. *)
Lemma login_works_witness :
  exists tok w1, run rested carol_login (carol "password1").2 = (Ok tok, w1) /\
    Tokens.Roles tok = [RoleMember] /\
    exists tok' w3 i, run rested (Refresh sample_auth (Tokens.RefreshToken tok) "test" "10.0.0.1:5000") w1 = (Ok tok', w3) /\
      believed_after rested sample_auth carol_user tok' i.
Proof.
  destruct (login_works rested sample_auth (carol "password1").2 "CAROL" "password1" carol_user "test" "10.0.0.1:5000")
    as (tok & w1 & i & Hr & _ & _ & _ & Hre).
  - apply rested_clear. by vm_compute.
  - apply db_okb_true. by vm_compute.
  - split; [by vm_compute|]. eexists. by vm_compute.
  - by vm_compute.
  - by vm_compute.
  - by vm_compute.
  - by vm_compute.
  - by vm_compute.
  - assert (Ht : (Ok tok, w1) = run rested carol_login (carol "password1").2) by (symmetry; exact Hr).
    assert (H1 : w1 = (run rested carol_login (carol "password1").2).2) by (by rewrite <- Ht).
    assert (H2 : Ok tok = (run rested carol_login (carol "password1").2).1) by (by rewrite <- Ht).
    assert (Hc1 : clear rested sample_auth w1) by (apply rested_clear; rewrite H1; by vm_compute).
    assert (Hx1 : unexpired rested (Tokens.RefreshToken tok) w1).
    { apply unexpiredb_true. rewrite H1. by vm_compute. }
    destruct (Hre w1 eq_refl Hc1 Hx1) as (tok' & w3 & j & Hr3 & _ & _ & Hb3).
    exists tok, w1. split; [exact Hr|]. split.
    + vm_compute in H2. by injection H2 as ->.
    + exists tok', w3, j. split; [exact Hr3|exact Hb3].
Defined.

End examples.
