(* ===== verification/Middleware.v ===== *)
(** * The identity in the request context (jwt.go WithUser, FromContext; core.go; middleware.go)

    Handlers.v passes the identity of a request as an argument.  The code passes it through the
    values of the request's context: [RequireAuth] attaches it, [RequireRole] and the handlers
    read it back and answer 401 when it is missing.  This file models that and shows the two
    ways to be the same on every guarded route, whatever else the context holds. *)
From S2P Require Import Prelude GoStrings GoErrors Models Db Prog Roles Password Config Jwt.
From S2P Require Import AuthService MediaService Handlers.
Local Open Scope mc_scope.

(** A value of a context: a pointer to an identity, or a value of another type. *)
Inductive value := VUser (info : option UserInfo.t) | VOther (v : string).

Definition values : Type := list (string * value).

(** [context.WithValue] and [Context.Value]: the innermost value of a key. *)
Definition WithValue (c : values) (key : string) (v : value) : values := (key, v) :: c.
Fixpoint Value (c : values) (key : string) : option value :=
  match c with
  | [] => None
  | (k, v) :: c' => if String.eqb k key then Some v else Value c' key
  end.

Definition keyContext : string := "auth.user".

(** FromContext returns the authenticated user attached by middleware. *)
Definition FromContext (c : values) : result UserInfo.t :=
  match Value c keyContext with
  | Some (VUser (Some claims)) => Ok claims
  | _ => Err ErrNoClaims
  end.

(** WithUser stores the authenticated user in context. *)
Definition WithUser (c : values) (info : option UserInfo.t) : values :=
  WithValue c keyContext (VUser info).

Record request := Request { http : context; ctx : values }.
Definition handler : Type := request -> prog response.

(** authUser returns the authenticated user from the request context or nil. *)
Definition authUser (r : request) : option UserInfo.t :=
  match FromContext (ctx r) with Err _ => None | Ok ui => Some ui end.

(** The first lines of the handlers that need an identity. *)
Definition with_identity (k : UserInfo.t -> prog response) : handler := fun r =>
  match authUser r with None => writeError 401 "unauthorized" "authentication required" | Some user => k user end.

(** RequireRole restricts a route to users holding any of the given roles. *)
Definition RequireRole_http (roles : list string) (next : handler) : handler := fun r =>
  match authUser r with
  | None => writeError 401 "unauthorized" "authentication required"
  | Some ui =>
      if hasRole (UserInfo.Roles ui) roles then next r else writeError 403 "forbidden" "insufficient permissions"
  end.

Section middleware.
Context `{Postgres, Argon2, Uuid, Jwt, Unicode}.

(** RequireAuth validates the Bearer access token and attaches the user identity. *)
Definition RequireAuth_http (m : Manager.t) (next : handler) : handler := fun r =>
  let raw := bearerToken (Authorization (http r)) in
  if String.eqb raw "" then writeError 401 "unauthorized" "authentication required" else
  claims <- Parse m raw ;;
  match claims with
  | Err _ => writeError 401 "invalid_token" "access token is invalid or expired"
  | Ok claims =>
    match uuid_Parse (Claims.Subject claims) with
    | None => writeError 401 "invalid_token" "access token is invalid or expired"
    | Some userID =>
        next (Request (http r) (WithUser (ctx r)
          (Some (UserInfo.Mk userID (Claims.Username claims) (Claims.Roles claims)))))
    end
  end.

(** The middleware of a route, outermost first. *)
Definition mounted (d : deps) (g : guard) (h : handler) : handler :=
  match g with
  | Public => h
  | Authenticated => RequireAuth_http (jwtm d) h
  | AdminOnly => RequireAuth_http (jwtm d) (RequireRole_http [RoleAdmin] h)
  end.

Lemma authUser_WithUser c vs ui : authUser (Request c (WithUser vs (Some ui))) = Some ui.
Proof. done. Qed.

(** On a guarded route the nil checks never fire, and a stale identity in the context has no
    effect: the handler runs as the identity of the token. *)
Lemma mounted_handle e d c ep vs w :
  guard_of ep <> Public ->
  run e (mounted d (guard_of ep) (with_identity (serve_as d c ep)) (Request c vs)) w
  = run e (handle d c ep) w.
Proof.
  intros Hg. unfold handle, mounted, RequireAuth, RequireAuth_http.
  destruct (guard_of ep); [done| |]; cbn [http]; (destruct (String.eqb _ ""); [done|]);
    rewrite !run_bind; destruct (run e (Parse _ _) w) as [[claims|er] w1]; cbn [fst snd]; try done;
    destruct (uuid_Parse _); done.
Qed.

End middleware.
