(* ===== verification/Board.v ===== *)
(** * The forum as its users see it

    An abstract specification of what the API does to threads and posts.  A [board] is a map of
    topics, each with its entries; counters, timestamps and the other tables are forgotten.
    [move] says which requests change the board, who may make them, and how: it is the promise
    that Refinement.v shows the services keep, however their statements interleave.

    A request decides on what it read, and what it read may be out of date when it writes.
    A move is therefore judged against the history of boards: a reply needs a topic that was
    unlocked at some time, an update of a thread writes back the fields it does not change as
    they were at some time, a group is closed when it had no topic at some time. *)
From S2P Require Import Prelude GoStrings GoErrors Models Db Prog Roles PostStore ThreadStore.
From S2P Require Import GroupService ThreadService Jwt Handlers.

(** ** Data *)

Module Entry.
Record t := Mk { Writer : uuid; Text : string }.
End Entry.

Module Topic.
Record t := Mk {
  Section_ : uuid;            (* the group *)
  Starter : uuid;
  Title : string;
  Pinned : bool;
  Locked : bool;
  Entries : gmap uuid Entry.t }.
End Topic.

#[export] Instance entry_eq_dec : EqDecision Entry.t.
Proof. solve_decision. Defined.
#[export] Instance topic_eq_dec : EqDecision Topic.t.
Proof. solve_decision. Defined.

Abbreviation board := (gmap uuid Topic.t).

Definition with_entries (es : gmap uuid Entry.t) (t : Topic.t) : Topic.t :=
  Topic.Mk (Topic.Section_ t) (Topic.Starter t) (Topic.Title t) (Topic.Pinned t)
    (Topic.Locked t) es.

(** ** What the tables show *)

Definition entry_of (p : Post.t) : Entry.t := Entry.Mk (Post.AuthorID p) (Post.Body p).
Definition entries_of (id : uuid) (ps : gmap uuid Post.t) : gmap uuid Entry.t :=
  entry_of <$> keep (in_thread id) ps.
Definition topic_of (ps : gmap uuid Post.t) (id : uuid) (t : Thread.t) : Topic.t :=
  Topic.Mk (Thread.GroupID t) (Thread.AuthorID t) (Thread.Title t) (Thread.Pinned t)
    (Thread.Locked t) (entries_of id ps).
Definition board_of (d : database) : board :=
  map_imap (fun id t => Some (topic_of (posts d) id t)) (threads d).

(** ** Moves *)

Definition moderates (ui : UserInfo.t) : bool := hasRole (UserInfo.Roles ui) moderators.

(** Who may act on a thread or a post of [owner]. *)
Definition may_touch (ui : UserInfo.t) (owner : uuid) : Prop :=
  owner = UserInfo.ID ui \/ moderates ui = true.

(** The fields an update asks for: only moderators set flags. *)
Definition amended (ui : UserInfo.t) (inp : UpdateThreadInput.t) (read : Topic.t) (t : Topic.t)
    : Topic.t :=
  let flag (asked : option bool) (old : bool) :=
    if moderates ui then default old asked else old in
  Topic.Mk (Topic.Section_ t) (Topic.Starter t)
    (default (Topic.Title read) (UpdateThreadInput.Title inp))
    (flag (UpdateThreadInput.Pinned inp) (Topic.Pinned read))
    (flag (UpdateThreadInput.Locked inp) (Topic.Locked read))
    (Topic.Entries t).

Section moves.
Context `{Unicode, Uuid}.

(** [move ui h b ep b']: the request [ep] of [ui] takes the board from [b] to [b'], after the
    boards [h]. *)
Inductive move (ui : UserInfo.t) (h : list board) (b : board) : endpoint -> board -> Prop :=
| move_start gid g req id pid :
    uuid_Parse gid = Some g -> b !! id = None ->
    validateTitle (createThreadRequest.title req) = None ->
    validateBody (createThreadRequest.body req) = None ->
    move ui h b (PostThread gid (Some req))
      (<[id := Topic.Mk g (UserInfo.ID ui) (createThreadRequest.title req) false false
                 {[pid := Entry.Mk (UserInfo.ID ui) (createThreadRequest.body req)]}]> b)
| move_reply raw id t body pid b0 t0 :
    uuid_Parse raw = Some id -> b !! id = Some t -> Topic.Entries t !! pid = None ->
    validateBody body = None ->
    b0 ∈ h -> b0 !! id = Some t0 -> Topic.Locked t0 = false ->
    move ui h b (PostPost raw (Some body))
      (<[id := with_entries (<[pid := Entry.Mk (UserInfo.ID ui) body]> (Topic.Entries t)) t]> b)
| move_edit raw pid id t old body :
    uuid_Parse raw = Some pid -> b !! id = Some t ->
    Topic.Entries t !! pid = Some (Entry.Mk (UserInfo.ID ui) old) -> validateBody body = None ->
    move ui h b (PatchPost raw (Some body))
      (<[id := with_entries (<[pid := Entry.Mk (UserInfo.ID ui) body]> (Topic.Entries t)) t]> b)
| move_retract raw pid id t old :
    uuid_Parse raw = Some pid -> b !! id = Some t -> Topic.Entries t !! pid = Some old ->
    may_touch ui (Entry.Writer old) ->
    move ui h b (DeletePost raw)
      (<[id := with_entries (delete pid (Topic.Entries t)) t]> b)
| move_amend raw id t inp b0 read :
    uuid_Parse raw = Some id -> b !! id = Some t -> may_touch ui (Topic.Starter t) ->
    (forall title, UpdateThreadInput.Title inp = Some title ->
       Topic.Starter t = UserInfo.ID ui /\ validateTitle title = None) ->
    b0 ∈ h -> b0 !! id = Some read ->
    move ui h b (PatchThread raw (Some inp)) (<[id := amended ui inp read t]> b)
| move_remove raw id t :
    uuid_Parse raw = Some id -> b !! id = Some t -> may_touch ui (Topic.Starter t) ->
    move ui h b (DeleteThread raw) (delete id b)
| move_close raw g b0 :
    uuid_Parse raw = Some g -> hasRole (UserInfo.Roles ui) [RoleAdmin] = true ->
    b0 ∈ h -> (forall id t, b0 !! id = Some t -> Topic.Section_ t <> g) ->
    move ui h b (DeleteGroup raw) (filter (fun kt => Topic.Section_ kt.2 <> g) b).

End moves.

(** ** The board after each kind of change to the tables *)

Lemma lookup_board d id : board_of d !! id = topic_of (posts d) id <$> threads d !! id.
Proof. unfold board_of. rewrite map_lookup_imap. by destruct (threads d !! id). Qed.

Lemma lookup_entries id ps pid :
  entries_of id ps !! pid =
  match ps !! pid with
  | Some p => if in_thread id p then Some (entry_of p) else None
  | None => None
  end.
Proof.
  unfold entries_of, keep. rewrite lookup_fmap, map_lookup_filter.
  destruct (ps !! pid) as [p|]; [|done]. cbn. destruct (in_thread id p); done.
Qed.

Lemma lookup_board_Some d id t :
  board_of d !! id = Some t ->
  exists th, threads d !! id = Some th /\ t = topic_of (posts d) id th.
Proof.
  rewrite lookup_board. destruct (threads d !! id) as [th|]; [|done]. intros [= <-]. by exists th.
Qed.

Lemma lookup_entries_Some id ps pid en :
  entries_of id ps !! pid = Some en ->
  exists p, ps !! pid = Some p /\ Post.ThreadID p = id /\ en = entry_of p.
Proof.
  rewrite lookup_entries. destruct (ps !! pid) as [p|]; [|done].
  unfold in_thread. destruct (N.eqb_spec (Post.ThreadID p) id); [|done]. intros [= <-].
  by exists p.
Qed.

(** The same threads, seen through their identity, and the same posts. *)
Lemma board_same d d' :
  posts d' = posts d ->
  (forall id, topic_of (posts d) id <$> threads d' !! id =
              topic_of (posts d) id <$> threads d !! id) ->
  board_of d' = board_of d.
Proof. intros Hp Ht. apply map_eq. intros id. by rewrite !lookup_board, Hp. Qed.

Lemma topic_insert_other ps id p th :
  Post.ThreadID p <> id -> (forall q, ps !! Post.ID p = Some q -> Post.ThreadID q <> id) ->
  topic_of (<[Post.ID p := p]> ps) id th = topic_of ps id th.
Proof.
  intros Hne Hold. unfold topic_of. f_equal. apply map_eq. intros k. rewrite !lookup_entries.
  destruct (decide (k = Post.ID p)) as [->|Hk]; [|by rewrite lookup_insert_ne].
  rewrite lookup_insert_eq. unfold in_thread.
  rewrite (proj2 (N.eqb_neq _ _) Hne).
  destruct (ps !! Post.ID p) as [q|]; [|done]. by rewrite (proj2 (N.eqb_neq _ _) (Hold q eq_refl)).
Qed.

Lemma topic_insert_own ps p th :
  topic_of (<[Post.ID p := p]> ps) (Post.ThreadID p) th =
  with_entries (<[Post.ID p := entry_of p]> (entries_of (Post.ThreadID p) ps))
    (topic_of ps (Post.ThreadID p) th).
Proof.
  unfold topic_of, with_entries. cbn. f_equal. apply map_eq. intros k. rewrite lookup_entries.
  destruct (decide (k = Post.ID p)) as [->|Hk].
  - rewrite !lookup_insert_eq. unfold in_thread. by rewrite N.eqb_refl.
  - by rewrite !lookup_insert_ne, lookup_entries.
Qed.

(** A new post, or a new version of a post of the same thread. *)
Lemma board_put_post d p th :
  threads d !! Post.ThreadID p = Some th ->
  (forall q, posts d !! Post.ID p = Some q -> Post.ThreadID q = Post.ThreadID p) ->
  board_of (set_posts (<[Post.ID p := p]> (posts d)) d) =
  <[Post.ThreadID p := with_entries
      (<[Post.ID p := entry_of p]> (entries_of (Post.ThreadID p) (posts d)))
      (topic_of (posts d) (Post.ThreadID p) th)]> (board_of d).
Proof.
  intros Hth Hold. apply map_eq. intros id. rewrite lookup_board. cbn.
  destruct (decide (id = Post.ThreadID p)) as [->|Hid].
  - rewrite lookup_insert_eq, Hth. cbn. f_equal. apply topic_insert_own.
  - rewrite lookup_insert_ne, lookup_board by done. destruct (threads d !! id) as [t|]; [|done].
    cbn. f_equal. apply topic_insert_other; [done|]. intros q Hq. by rewrite (Hold q Hq).
Qed.

(** A post is gone. *)
Lemma board_delete_post d pid p th :
  posts d !! pid = Some p -> threads d !! Post.ThreadID p = Some th ->
  board_of (delete_post pid d) =
  <[Post.ThreadID p := with_entries (delete pid (entries_of (Post.ThreadID p) (posts d)))
      (topic_of (posts d) (Post.ThreadID p) th)]> (board_of d).
Proof.
  intros Hp Hth. apply map_eq. intros id. rewrite lookup_board. cbn.
  destruct (decide (id = Post.ThreadID p)) as [->|Hid].
  - rewrite lookup_insert_eq, Hth. cbn. f_equal. unfold topic_of, with_entries. cbn. f_equal.
    apply map_eq. intros k. rewrite lookup_entries.
    destruct (decide (k = pid)) as [->|Hk]; [by rewrite !lookup_delete_eq|].
    by rewrite !lookup_delete_ne, lookup_entries.
  - rewrite lookup_insert_ne, lookup_board by done. destruct (threads d !! id) as [t|]; [|done].
    cbn. f_equal. unfold topic_of. f_equal. apply map_eq. intros k. rewrite !lookup_entries.
    destruct (decide (k = pid)) as [->|Hk]; [|by rewrite lookup_delete_ne].
    rewrite lookup_delete_eq, Hp. unfold in_thread. by rewrite (proj2 (N.eqb_neq _ _)).
Qed.

(** Threads go with their posts; the topics that stay are as they were. *)
Lemma board_cascade d ts :
  ts ⊆ threads d ->
  board_of (cascade_threads ts d) = filter (fun kt => is_Some (ts !! kt.1)) (board_of d).
Proof.
  intros Hts. apply map_eq. intros id. rewrite lookup_board, map_lookup_filter, lookup_board. cbn.
  destruct (ts !! id) as [t|] eqn:Ht; cbn.
  - rewrite (lookup_weaken _ _ _ _ Ht Hts). cbn. rewrite option_guard_True by eauto.
    f_equal. unfold topic_of. f_equal. apply map_eq. intros k. rewrite !lookup_entries.
    unfold keep. rewrite map_lookup_filter. destruct (posts d !! k) as [p|]; [|done]. cbn.
    destruct (in_thread id p) eqn:Hp.
    + apply N.eqb_eq in Hp. rewrite Hp. unfold has_key. rewrite Ht.
      rewrite bool_decide_true, option_guard_True by eauto. cbn. unfold in_thread.
      by rewrite Hp, N.eqb_refl.
    + destruct (decide (has_key ts (Post.ThreadID p) = true)).
      * by rewrite option_guard_True; cbn; rewrite ?Hp.
      * by rewrite option_guard_False.
  - destruct (threads d !! id) as [t|]; [|done]. cbn. by rewrite option_guard_False by (intros [? ?]; congruence).
Qed.

Lemma board_delete_thread d id : board_of (delete_thread id d) = delete id (board_of d).
Proof.
  unfold delete_thread. rewrite board_cascade by apply delete_subseteq.
  apply map_eq. intros k. rewrite map_lookup_filter. cbn.
  destruct (decide (k = id)) as [->|Hk].
  - rewrite !lookup_delete_eq. destruct (board_of d !! id); [|done]. cbn.
    by rewrite option_guard_False by (intros [? ?]; congruence).
  - rewrite !lookup_delete_ne by done. rewrite lookup_board.
    destruct (threads d !! k) as [t|]; [|done]. cbn. by rewrite option_guard_True by eauto.
Qed.

(** A group goes with its topics. *)
Lemma board_delete_group d g :
  (forall id t, threads d !! id = Some t -> is_Some (groups d !! Thread.GroupID t)) ->
  board_of (delete_group g d) = filter (fun kt => Topic.Section_ kt.2 <> g) (board_of d).
Proof.
  intros Hfk. unfold delete_group, cascade_groups.
  set (ts := keep _ (threads d)). set (d1 := set_groups _ d).
  change (board_of d) with (board_of d1).
  rewrite (board_cascade d1 ts) by apply keep_subset.
  apply map_eq. intros k. rewrite !map_lookup_filter, lookup_board. cbn.
  destruct (threads d !! k) as [t|] eqn:Ht; [|done]. cbn.
  assert (Hiff : is_Some (ts !! k) <-> Thread.GroupID t <> g).
  { unfold ts, keep. rewrite map_lookup_filter, Ht. cbn. unfold has_key.
    destruct (decide (Thread.GroupID t = g)) as [Hg|Hg].
    - rewrite Hg, lookup_delete_eq. rewrite bool_decide_false by (intros [? ?]; congruence).
      rewrite option_guard_False by done. cbn. split; [by intros [? ?]|done].
    - rewrite lookup_delete_ne by done. rewrite bool_decide_true by by eapply Hfk.
      rewrite option_guard_True by done. cbn. split; [done|eauto]. }
  destruct (decide (Thread.GroupID t = g)) as [Hg|Hg].
  - rewrite !option_guard_False; [done|cbn; tauto|]. intros Hs. by apply Hiff.
  - by rewrite !option_guard_True by (cbn; tauto).
Qed.

(** A new thread with its first post. *)
Lemma board_start d th p :
  threads d !! Thread.ID th = None -> posts d !! Post.ID p = None ->
  (forall k q, posts d !! k = Some q -> Post.ThreadID q <> Thread.ID th) ->
  Post.ThreadID p = Thread.ID th ->
  board_of (set_posts (<[Post.ID p := p]> (posts d))
              (set_threads (<[Thread.ID th := th]> (threads d)) d)) =
  <[Thread.ID th := Topic.Mk (Thread.GroupID th) (Thread.AuthorID th) (Thread.Title th)
      (Thread.Pinned th) (Thread.Locked th) {[Post.ID p := entry_of p]}]> (board_of d).
Proof.
  intros Hth Hp Hnone Ht. set (d1 := set_threads _ d).
  change (posts d) with (posts d1).
  rewrite (board_put_post d1 p th), Ht.
  2: { rewrite Ht. apply lookup_insert_eq. }
  2: { cbn. congruence. }
  assert (Hd1 : board_of d1 = <[Thread.ID th := topic_of (posts d) (Thread.ID th) th]> (board_of d)).
  { apply map_eq. intros id. rewrite lookup_board. cbn. destruct (decide (id = Thread.ID th)) as [->|Hid].
    - by rewrite !lookup_insert_eq.
    - by rewrite !lookup_insert_ne, lookup_board. }
  rewrite Hd1, insert_insert_eq. f_equal. unfold with_entries, topic_of. cbn. f_equal.
  apply map_eq. intros k. destruct (decide (k = Post.ID p)) as [->|Hk].
  - by rewrite lookup_insert_eq, lookup_singleton_eq.
  - rewrite lookup_insert_ne, lookup_singleton_ne, lookup_entries by done.
    destruct (posts d !! k) as [q|] eqn:Hq; [|done]. unfold in_thread.
    by rewrite (proj2 (N.eqb_neq _ _) (Hnone k q Hq)).
Qed.

(** A thread with other fields. *)
Lemma board_put_thread d id th th' :
  threads d !! id = Some th ->
  board_of (set_threads (<[id := th']> (threads d)) d) =
  <[id := topic_of (posts d) id th']> (board_of d).
Proof.
  intros Hth. apply map_eq. intros k. rewrite lookup_board. cbn.
  destruct (decide (k = id)) as [->|Hk]; [by rewrite !lookup_insert_eq|].
  by rewrite !lookup_insert_ne, lookup_board.
Qed.
