(* ===== verification/Evolution.v ===== *)
(** * How the board evolves, and which requests leave it alone

    What a request may rely on between its statements: topics and entries keep their origin and
    their writer as long as they exist, and identifiers are not reused.  Every request that is
    not about threads, posts or the deletion of a group leaves the board as it is, statement by
    statement; those that are get their proofs in Refinement.v. *)
From S2P Require Import Prelude GoStrings GoErrors Models Db Prog Concrete Rely Roles Encoding.
From S2P Require Import Sha256 Password Config Jwt Storage GroupStore PostStore ThreadStore.
From S2P Require Import UserStore SessionStore SettingsStore MessageStore NotificationStore.
From S2P Require Import AttachmentStore AuthService AdminService InstallService GroupService.
From S2P Require Import ThreadService PostService MessageService MediaService Handlers Samples.
From S2P Require Import Frames Board.
Import MessageService.Notifications.
Local Open Scope mc_scope.

(** ** What others may do meanwhile

    Identifiers are not reused: a topic or an entry that is there now was there before, with the
    same origin, or it was born in between, under an identifier generated in between. *)

(** [gen_random_uuid()] does not repeat itself. *)
Definition fresh_uuids (e : env) : Prop := forall n m, env_uuid e n = env_uuid e m -> n = m.

Definition origin (b : board) (id : uuid) : option (uuid * uuid) :=
  (fun t => (Topic.Section_ t, Topic.Starter t)) <$> b !! id.
Definition writer (b : board) (id pid : uuid) : option uuid :=
  t ← b !! id; Entry.Writer <$> Topic.Entries t !! pid.

Section rely.
Context (e : env).

Definition born (lo hi : nat) (id : uuid) : Prop := exists n, lo <= n < hi /\ env_uuid e n = id.

Record evolves (lo hi : nat) (b b' : board) : Prop := {
  evolves_topics : forall id o, origin b' id = Some o -> origin b id = Some o \/ born lo hi id;
  evolves_entries : forall id pid u,
    writer b' id pid = Some u -> writer b id pid = Some u \/ born lo hi pid }.

Definition view (w : world) : board := board_of (w_db w).
Definition rely (w w' : world) : Prop :=
  w_tick w <= w_tick w' /\ evolves (w_tick w) (w_tick w') (view w) (view w').

(** The identifiers in use will not be generated. *)
Definition aged (w : world) (id : uuid) : Prop := forall n, w_tick w <= n -> env_uuid e n <> id.
Record old (w : world) : Prop := {
  old_topics : forall id o, origin (view w) id = Some o -> aged w id;
  old_entries : forall id pid u, writer (view w) id pid = Some u -> aged w pid }.

Definition good `{Postgres} (w : world) : Prop := db_ok (w_db w) /\ old w.

Lemma born_weaken lo hi lo' hi' id : born lo hi id -> lo' <= lo -> hi <= hi' -> born lo' hi' id.
Proof. intros (n & Hn & <-) ? ?. exists n. split; [lia|done]. Qed.

Lemma evolves_refl lo hi b : evolves lo hi b b.
Proof. constructor; auto. Qed.

#[export] Instance rely_preorder : PreOrder rely.
Proof.
  split; [intros w; split; [done|apply evolves_refl]|].
  intros w1 w2 w3 [H1 [T1 E1]] [H2 [T2 E2]]. split; [lia|]. constructor.
  - intros id o [[Ho|Hb]%T1|Hb]%T2; [by left|right..]; (eapply born_weaken; [done|lia..]).
  - intros id pid u [[Ho|Hb]%E1|Hb]%E2; [by left|right..]; (eapply born_weaken; [done|lia..]).
Qed.

(** A world that evolved from one whose identifiers are old has old identifiers. *)
Lemma rely_old w w' : fresh_uuids e -> old w -> rely w w' -> old w'.
Proof.
  intros Hf [Ht He] [Hle [T E]]. constructor.
  - intros id o [Ho|(n & Hn & <-)]%T m Hm; [eapply (Ht id); [done|lia]|].
    intros Heq%Hf. lia.
  - intros id pid u [Ho|(n & Hn & <-)]%E m Hm; [eapply (He id pid); [done|lia]|].
    intros Heq%Hf. lia.
Qed.

(** What is still there is what it was. *)
Lemma rely_origin w w' id o o' :
  old w -> rely w w' -> origin (view w) id = Some o -> origin (view w') id = Some o' -> o' = o.
Proof.
  intros [Ht _] [_ [T _]] Ho [Ho'|(n & Hn & Hb)]%T; [congruence|].
  destruct (Ht id o Ho n); [lia|done].
Qed.

Lemma rely_writer w w' id id' pid u u' :
  old w -> rely w w' -> writer (view w) id pid = Some u -> writer (view w') id' pid = Some u' ->
  writer (view w) id' pid = Some u'.
Proof.
  intros [_ He] [_ [_ E]] Hw [Hw'|(n & Hn & Hb)]%E; [done|].
  destruct (He id pid u Hw n); [lia|done].
Qed.

(** ** How moves evolve the board *)

Lemma evolves_put lo hi (b : board) id t t' :
  b !! id = Some t -> Topic.Section_ t' = Topic.Section_ t -> Topic.Starter t' = Topic.Starter t ->
  (forall pid en, Topic.Entries t' !! pid = Some en ->
     (exists en0, Topic.Entries t !! pid = Some en0 /\ Entry.Writer en = Entry.Writer en0) \/
     born lo hi pid) ->
  evolves lo hi b (<[id := t']> b).
Proof.
  intros Ht Hs Hst He. constructor.
  - intros k o. unfold origin. destruct (decide (k = id)) as [->|]; [|rewrite lookup_insert_ne; auto].
    rewrite lookup_insert_eq, Ht. cbn. rewrite Hs, Hst. auto.
  - intros k pid u. unfold writer. destruct (decide (k = id)) as [->|]; [|rewrite lookup_insert_ne; auto].
    rewrite lookup_insert_eq, Ht. cbn.
    destruct (Topic.Entries t' !! pid) as [en|] eqn:Hen; [|done]. cbn.
    destruct (He pid en Hen) as [(en0 & -> & ->)|]; auto.
Qed.

Lemma evolves_new lo hi (b : board) id t :
  b !! id = None -> born lo hi id -> (forall pid, is_Some (Topic.Entries t !! pid) -> born lo hi pid) ->
  evolves lo hi b (<[id := t]> b).
Proof.
  intros Hn Hb He. constructor.
  - intros k o. unfold origin. destruct (decide (k = id)) as [->|]; [auto|].
    rewrite lookup_insert_ne; auto.
  - intros k pid u. unfold writer. destruct (decide (k = id)) as [->|]; [|rewrite lookup_insert_ne; auto].
    rewrite lookup_insert_eq. cbn. destruct (Topic.Entries t !! pid) eqn:Hen; [|done]. intros _.
    right. apply He. by rewrite Hen.
Qed.

Lemma evolves_sub lo hi (b b' : board) : b' ⊆ b -> evolves lo hi b b'.
Proof.
  intros Hs. constructor.
  - intros k o. unfold origin. destruct (b' !! k) as [t|] eqn:Ht; [|done].
    rewrite (lookup_weaken _ _ _ _ Ht Hs). auto.
  - intros k pid u. unfold writer. destruct (b' !! k) as [t|] eqn:Ht; [|done].
    rewrite (lookup_weaken _ _ _ _ Ht Hs). auto.
Qed.

End rely.

(** ** Requests that leave the board alone *)

#[export] Instance lift_board {A} (s : stmt A) : StmtFixes forum s -> StmtFixes board_of s.
Proof.
  intros Hs sv d a d' H. pose proof (Hs _ _ _ _ H) as Hf. unfold forum in Hf.
  injection Hf as Ht Hp. by apply board_same; rewrite ?Ht.
Qed.

Lemma row_fixes_board id f d n d' :
  (forall t ps, topic_of ps id (f t) = topic_of ps id t) ->
  update_thread_row id f d = Ok (n, d') -> board_of d' = board_of d.
Proof.
  intros Hf. unfold update_thread_row. destruct (threads d !! id) as [t|] eqn:Ht; [|by intros [= _ <-]].
  destruct (_ && _); [|done]. intros [= _ <-].
  rewrite (board_put_thread d id t) by done. rewrite Hf. apply insert_id.
  by rewrite lookup_board, Ht.
Qed.
#[export] Instance increment_views_board id : StmtFixes board_of (increment_views_stmt id).
Proof. intros sv d a d'. by apply row_fixes_board. Qed.
#[export] Instance bump_post_board id t : StmtFixes board_of (bump_post_stmt id t).
Proof. intros sv d a d'. by apply row_fixes_board. Qed.
#[export] Instance recalc_stats_board id : StmtFixes board_of (recalc_stats_stmt id).
Proof. intros sv d a d'. by apply row_fixes_board. Qed.

(** The calls below the services take time like any other. *)
Section ticks.
Context `{Argon2, Uuid, Jwt, Unicode}.

#[export] Instance Hash_ticks h pw : Ticks (Hash h pw).
Proof. unfold Hash. apply _. Qed.
#[export] Instance NewAccessToken_ticks m u n r : Ticks (NewAccessToken m u n r).
Proof. unfold NewAccessToken, issue. apply _. Qed.
#[export] Instance NewRefreshToken_ticks : Ticks NewRefreshToken.
Proof. unfold NewRefreshToken. apply _. Qed.
#[export] Instance AvatarKey_ticks u f : Ticks (AvatarKey u f).
Proof. unfold AvatarKey. apply _. Qed.
#[export] Instance AttachmentKey_ticks f : Ticks (AttachmentKey f).
Proof. unfold AttachmentKey. apply _. Qed.
#[export] Instance Upload_ticks k d n c : Ticks (Upload k d n c).
Proof. unfold Upload. apply _. Qed.
#[export] Instance Remove_ticks k : Ticks (Remove k).
Proof. unfold Remove. apply _. Qed.

End ticks.

(** Nothing but time passes for the board. *)
Class Still `{Postgres} {A} (p : prog A) : Prop := {
  still_ok : DbSafe db_ok p;
  still_board : forall b, DbSafe (fun d => board_of d = b) p;
  still_ticks : Ticks p }.

Lemma still_quiet `{Postgres} e {A} (p : prog A) : Still p -> Quiet e view (good e) (rely e) p.
Proof.
  intros [Hok Hb Ht] w0.
  assert (Hk : forall b n, keeps e (fun w => (db_ok (w_db w) /\ board_of (w_db w) = b) /\ n <= w_tick w) p).
  { intros b n. apply keeps_conj; [apply keeps_conj; [apply Hok|apply Hb]|apply Ht]. }
  clear Hok Hb Ht. induction p as [a|B op k IH]; cbn; [done|]. split.
  - intros w ([Hd Ho] & Hv & HR).
    destruct (proj1 (Hk (view w) (w_tick w)) w) as [[Hd2 Hv2] Ht2]; [done|].
    assert (Hr : rely e w (op e w).2).
    { split; [done|]. unfold view at 2. rewrite Hv2. apply evolves_refl. }
    split_and!; [split; [done|]|by rewrite <- Hv|by etrans].
    destruct Ho as [O1 O2]. constructor; unfold view; rewrite Hv2.
    + intros id o Hid n Hn. apply (O1 id o Hid). lia.
    + intros id pid u Hid n Hn. apply (O2 id pid u Hid). lia.
  - intros b. apply IH. intros b' n. apply (Hk b' n).
Qed.

Ltac still_tac :=
  split; intros; cbn [serve_as]; autounfold with mc_handlers; autounfold with mc_progs; apply _.

#[export] Instance lift_still {A} b (s : stmt A) :
  StmtFixes board_of s -> StmtKeeps (fun d => board_of d = b) s.
Proof. apply (fixes_keeps board_of (fun x => x = b)). Qed.

(** The requests that can change the board. *)
Definition moving (ep : endpoint) : bool :=
  match ep with
  | PostThread _ _ | PatchThread _ _ | DeleteThread _ | PostPost _ _ | PatchPost _ _
  | DeletePost _ | DeleteGroup _ => true
  | _ => false
  end.

Section api.
Context `{Postgres, Argon2, Uuid, Jwt, Unicode}.

Lemma serve_as_still d c ep ui : moving ep = false -> Still (serve_as d c ep ui).
Proof. intros Hm. destruct ep; try done; still_tac. Qed.

End api.
