(* ===== verification/Refinement.v ===== *)
(** * The API refines the board

    Every interleaving of requests, with faults anywhere, is a history of boards in which each
    change is a move of Board.v made by the identity of an accepted token.  The proof is local
    to a request: Rely.v lets the others act between any two of its statements. *)
From S2P Require Import Prelude GoStrings GoErrors Models Db Prog Concrete Rely Roles Encoding.
From S2P Require Import Sha256 Password Config Jwt Storage GroupStore PostStore ThreadStore.
From S2P Require Import UserStore AuthService GroupService ThreadService PostService MediaService.
From S2P Require Import Handlers Samples Frames Access Board Evolution.
Local Open Scope mc_scope.

Section refinement.
Context `{Postgres, Argon2, Uuid, Jwt, Unicode}.
Context (e : env) (srv : deps).

(** The requests that are sent. *)
Context (sent : context -> endpoint -> Prop).

(** The request [c] carries a token that the server accepts, at some time, as [ui]'s. *)
Definition identified (c : context) (ui : UserInfo.t) : Prop :=
  exists w, identity e srv c w = Some ui.

(** What may happen to the board: nothing, or the move of a request that was sent, by the user
    whose token it carries. *)
Inductive permitted (h : list board) (b : board) : board -> Prop :=
| permitted_same : permitted h b b
| permitted_move c ui ep b' :
    sent c ep -> identified c ui -> move ui h b ep b' -> permitted h b b'.

Abbreviation legal := (legal view (good e)).
Abbreviation later := (@later board (rely e)).
Abbreviation wp := (wp e view (good e) (rely e) permitted).
Abbreviation action_ok := (action_ok view (good e) (rely e) permitted).

Context (Hf : fresh_uuids e).

Lemma tick_good w : good e w -> good e (tick w) /\ view (tick w) = view w /\ rely e w (tick w).
Proof.
  intros [Hd Ho].
  assert (Hr : rely e w (tick w)) by (split; [cbn; lia|apply evolves_refl]).
  split_and!; [split; [done|by eapply rely_old]|done|done].
Qed.

(** A statement that makes a move. *)
Lemma action_move w w2 h :
  good e w -> db_ok (w_db w2) -> w_tick w <= w_tick w2 ->
  evolves e (w_tick w) (w_tick w2) (view w) (view w2) -> permitted h (view w) (view w2) ->
  action_ok w w2 h.
Proof.
  intros [Hd Ho] Hd2 Ht Hev Hp. assert (Hr : rely e w w2) by done.
  split_and!; [split; [done|by eapply rely_old]|done|done].
Qed.

Lemma wp_still {A} (p : prog A) x (Q : A -> config -> Prop) :
  Still p -> (forall a y, later x y -> Q a y) -> wp x p Q.
Proof. intros Hp. apply wp_quiet; [apply _|apply permitted_same|by apply still_quiet]. Qed.

(** A read, with what it saw still true of the world right after it. *)
Lemma wp_see {A} (s : stmt A) `{!StmtReads s} x (Q : result A -> config -> Prop) :
  (forall er y, later x y -> Q (Err er) y) ->
  (forall a y sv, later x y -> legal y -> s sv (w_db y.1) = Ok (a, w_db y.1) -> Q (Ok a) y) ->
  wp x (exec s) Q.
Proof.
  intros Herr Hok. apply wp_read; [apply permitted_same|apply tick_good|apply _|].
  intros w h Hl Hg. destruct (tick_good w (proj1 Hg)) as (Hg2 & Hv & Hr).
  assert (Hl2 : later x (push_view view (tick w) h)) by (etrans; [done|by apply later_push]).
  split; [auto|]. intros a Ha. eapply (Hok a _ (server_at e w)); [done| |done].
  by split.
Qed.

Lemma wp_thread id x (Q : result Thread.t -> config -> Prop) :
  (forall er y, later x y -> Q (Err er) y) ->
  (forall t y, later x y -> legal y -> threads (w_db y.1) !! id = Some t -> Q (Ok t) y) ->
  wp x (ThreadStore.GetByID id) Q.
Proof.
  intros Herr Hok. apply wp_bind, wp_see; [apply _| |].
  - intros er y Hl. cbn. destruct (isNoRows er); by apply Herr.
  - intros o y sv Hl Hg. unfold select_thread. intros [= <-]. cbn.
    destruct (threads _ !! id) as [t|] eqn:Ht; [by apply Hok|by apply Herr].
Qed.

Lemma wp_post id x (Q : result Post.t -> config -> Prop) :
  (forall er y, later x y -> Q (Err er) y) ->
  (forall p y, later x y -> legal y -> posts (w_db y.1) !! id = Some p -> Q (Ok p) y) ->
  wp x (PostStore.GetByID id) Q.
Proof.
  intros Herr Hok. apply wp_bind, wp_see; [apply _| |].
  - intros er y Hl. cbn. destruct (isNoRows er); by apply Herr.
  - intros o y sv Hl Hg. unfold select_post. intros [= <-]. cbn.
    destruct (posts _ !! id) as [t|] eqn:Ht; [by apply Hok|by apply Herr].
Qed.

(** A statement that may make a move, at the end of what matters for the board. *)
Lemma wp_act {A B} (s : stmt A) (k : result A -> prog B) x Q `{!StmtKeeps db_ok s} :
  (forall r, Still (k r)) -> (forall a y, Q a y) ->
  (forall w h a d', later x (w, h) -> legal (w, h) ->
     s (server_at e w) (w_db w) = Ok (a, d') -> board_of d' <> view w ->
     evolves e (w_tick w) (S (w_tick w)) (view w) (board_of d') /\
     permitted h (view w) (board_of d')) ->
  wp x (bind (exec s) k) Q.
Proof.
  intros Hk HQ Hs. apply wp_bind, wp_exec; [apply permitted_same|apply tick_good|].
  intros w h Hl Hg. split; [intros er; by apply wp_still|]. intros a d' Ha. cbn zeta.
  split; [|intros r _; by apply wp_still].
  assert (Hd' : db_ok d') by (eapply stmt_keeps; [exact Ha|apply Hg]).
  destruct (decide (board_of d' = view w)) as [Hv|Hv].
  - apply action_move; try done; [apply Hg|cbn; lia|..];
      (replace (view (set_db d' (tick w))) with (view w) by done).
    + apply evolves_refl.
    + apply permitted_same.
  - destruct (Hs w h a d' Hl Hg Ha Hv) as [Hev Hp].
    apply action_move; try done; [apply Hg|cbn; lia].
Qed.

(** ** What a request knows of the board from what it read *)

Lemma seen_in_history y w h : legal y -> later y (w, h) -> view y.1 ∈ h.
Proof.
  intros [_ Hh] [_ [l Hs]]. cbn in Hs. subst h. apply elem_of_app. right.
  destruct y.2; [done|]. injection Hh as ->. by left.
Qed.

Lemma thread_stays y w h id t t' :
  legal y -> later y (w, h) -> threads (w_db y.1) !! id = Some t ->
  threads (w_db w) !! id = Some t' ->
  Thread.GroupID t' = Thread.GroupID t /\ Thread.AuthorID t' = Thread.AuthorID t.
Proof.
  intros [[_ Ho] _] [HR _] Ht Ht'.
  assert (Hor : forall v th, threads (w_db v) !! id = Some th ->
    origin (view v) id = Some (Thread.GroupID th, Thread.AuthorID th)).
  { intros v th Hth. unfold origin, view. by rewrite lookup_board, Hth. }
  by injection (rely_origin e _ _ id _ _ Ho HR (Hor _ _ Ht) (Hor _ _ Ht')).
Qed.

Lemma writer_post d pid p :
  db_ok d -> posts d !! pid = Some p ->
  writer (board_of d) (Post.ThreadID p) pid = Some (Post.AuthorID p).
Proof.
  intros Hd Hp. destruct (ok_posts_thread _ Hd pid p Hp) as [th Hth].
  unfold writer. rewrite lookup_board, Hth. cbn. rewrite lookup_entries, Hp.
  unfold in_thread. by rewrite N.eqb_refl.
Qed.

Lemma post_writer d id pid u :
  writer (board_of d) id pid = Some u ->
  exists p, posts d !! pid = Some p /\ Post.ThreadID p = id /\ Post.AuthorID p = u.
Proof.
  unfold writer. destruct (board_of d !! id) as [t|] eqn:Ht; [|done]. cbn.
  apply lookup_board_Some in Ht as (th & Hth & ->). cbn.
  destruct (entries_of id (posts d) !! pid) as [en|] eqn:Hen; [|done]. intros [= <-].
  apply lookup_entries_Some in Hen as (p & Hp & Hid & ->). by exists p.
Qed.

Lemma post_stays y w h pid p p' :
  legal y -> legal (w, h) -> later y (w, h) -> posts (w_db y.1) !! pid = Some p ->
  posts (w_db w) !! pid = Some p' ->
  Post.ThreadID p' = Post.ThreadID p /\ Post.AuthorID p' = Post.AuthorID p.
Proof.
  intros [[Hd Ho] _] [[Hd' _] _] [HR _] Hp Hp'.
  destruct (post_writer (w_db y.1) (Post.ThreadID p') pid (Post.AuthorID p')) as (q & Hq & E1 & E2).
  - eapply (rely_writer e); [done|exact HR|by apply writer_post|by apply writer_post].
  - assert (q = p) as -> by congruence. done.
Qed.

(** ** The moves *)

Section moves.
Context (c : context) (ui : UserInfo.t) (Hid : identified c ui).

Lemma permitted_by h b ep b' : sent c ep -> move ui h b ep b' -> permitted h b b'.
Proof. intros Hs. by apply permitted_move with c. Qed.

Lemma moderator_may owner :
  negb (N.eqb owner (UserInfo.ID ui)) && negb (hasRole (UserInfo.Roles ui) moderators) = false ->
  may_touch ui owner.
Proof.
  unfold may_touch, moderates. destruct (N.eqb_spec owner (UserInfo.ID ui)); [by left|].
  destruct (hasRole _ _); [by right|done].
Qed.

(** A reply. *)
Lemma reply_moves raw tid body x Q :
  sent c (PostPost raw (Some body)) -> uuid_Parse raw = Some tid -> (forall a y, Q a y) ->
  wp x (PostService.Create tid (UserInfo.ID ui) body) Q.
Proof.
  intros Hsent Hraw HQ. unfold PostService.Create. apply wp_bind, wp_thread.
  { intros er y _. apply wp_still; [still_tac|auto]. }
  intros t y _ Hy Ht. destruct (Thread.Locked t) eqn:Hl; [apply HQ|].
  destruct (validateBody body) eqn:Hb; [apply HQ|].
  apply wp_bind, wp_act; [apply _|intros r; still_tac|intros a z; apply wp_still; [still_tac|auto]|].
  intros w h o d' Hyw Hg Ho Hne.
  destruct o as [p|]; [|by apply insert_post_Ok in Ho as (p & ? & _)].
  pose proof (insert_post_id _ _ _ _ _ Ho) as Hpid.
  pose proof (stmt_keeps _ _ _ _ Ho (proj1 (proj1 Hg))) as Hd'.
  apply insert_post_Ok in Ho as (p' & [= <-] & Hk & E1 & E2 & E3 & ->). cbn in E1, E2, E3.
  destruct (ok_posts_thread _ Hd' (Post.ID p) p (lookup_insert_eq _ _ _)) as [th Hth].
  cbn in Hth. rewrite E1 in Hth.
  rewrite (board_put_post _ p th) by (rewrite ?E1; done || congruence). rewrite E1.
  assert (Hb' : view w !! tid = Some (topic_of (posts (w_db w)) tid th)).
  { unfold view. by rewrite lookup_board, Hth. }
  assert (Hnew : entries_of tid (posts (w_db w)) !! Post.ID p = None).
  { by rewrite lookup_entries, Hk. }
  split.
  - eapply evolves_put; [exact Hb'|done|done|]. intros pid en. cbn.
    rewrite lookup_insert_Some. intros [[<- <-]|[_ Hen]]; [right|left; eauto].
    exists (w_tick w). split; [lia|]. by rewrite Hpid.
  - apply (permitted_by _ _ (PostPost raw (Some body))); [done|].
    replace (entry_of p) with (Entry.Mk (UserInfo.ID ui) body) by by (unfold entry_of; rewrite E2, E3).
    eapply (move_reply ui h _ raw tid (topic_of (posts (w_db w)) tid th) _ _ (view y.1)
      (topic_of (posts (w_db y.1)) tid t)); try done.
    + by apply (seen_in_history y w h).
    + unfold view. by rewrite lookup_board, Ht.
Qed.

(** The end of a service call, after the statement that matters. *)
Ltac finish HQ :=
  first [ by apply HQ | intros; apply wp_still; [still_tac|intros; by apply HQ] ].

(** A post that is there now: its thread is there, and it is the entry the request read. *)
Lemma post_entry w h pid p :
  legal (w, h) -> posts (w_db w) !! pid = Some p ->
  exists th, threads (w_db w) !! Post.ThreadID p = Some th /\
    view w !! Post.ThreadID p = Some (topic_of (posts (w_db w)) (Post.ThreadID p) th) /\
    entries_of (Post.ThreadID p) (posts (w_db w)) !! pid = Some (entry_of p).
Proof.
  intros [[Hd _] _] Hp. destruct (ok_posts_thread _ Hd pid p Hp) as [th Hth]. cbn in Hth.
  exists th. split_and!; [done|unfold view; by rewrite lookup_board, Hth|].
  rewrite lookup_entries, Hp. unfold in_thread. by rewrite N.eqb_refl.
Qed.

(** An edit. *)
Lemma edit_moves raw pid body x Q :
  sent c (PatchPost raw (Some body)) -> uuid_Parse raw = Some pid -> (forall a y, Q a y) ->
  wp x (PostService.Update pid (UserInfo.ID ui) body) Q.
Proof.
  intros Hsent Hraw HQ. unfold PostService.Update. apply wp_bind, wp_post; [finish HQ|].
  intros p y _ Hy Hp. destruct (N.eqb_spec (Post.AuthorID p) (UserInfo.ID ui)) as [Ha|]; [|apply HQ].
  cbn [negb]. destruct (validateBody body) eqn:Hb; [apply HQ|].
  apply wp_bind, wp_act; [apply _|intros r; still_tac|finish HQ|].
  intros w h o d' Hyw Hg Ho Hne. apply checked_Ok in Ho as (_ & _ & _ & Ho).
  destruct (posts (w_db w) !! pid) as [p'|] eqn:Hp'; [|by injection Ho as <- <-].
  apply checked_Ok in Ho as (_ & _ & _ & [= <- <-]).
  destruct (post_stays y w h pid p p') as [E1 E2]; try done.
  destruct (post_entry w h pid p' Hg Hp') as (th & Hth & Hv & Hen).
  assert (Hid' : Post.ID p' = pid) by by apply (ok_posts _ (proj1 (proj1 Hg))).
  set (q := edited _ _ _ _).
  replace (<[pid := q]> (posts (w_db w))) with (<[Post.ID q := q]> (posts (w_db w)))
    by by rewrite <- Hid'.
  rewrite (board_put_post _ q th); [|done|cbn; rewrite Hid'; congruence].
  change (Post.ID q) with (Post.ID p'). change (Post.ThreadID q) with (Post.ThreadID p').
  rewrite Hid'. split.
  - eapply evolves_put; [exact Hv|done|done|]. intros k en. cbn.
    rewrite lookup_insert_Some. intros [[<- <-]|[_ He]]; left; eauto.
  - apply (permitted_by _ _ (PatchPost raw (Some body))); [done|].
    replace (entry_of q) with (Entry.Mk (UserInfo.ID ui) body)
      by (unfold entry_of; cbn; congruence).
    eapply (move_edit ui h _ raw pid _ _ (Post.Body p') body Hraw Hv); [|done].
    cbn. rewrite Hen. unfold entry_of. congruence.
Qed.

(** A deletion of a post. *)
Lemma retract_moves raw pid x Q :
  sent c (DeletePost raw) -> uuid_Parse raw = Some pid -> (forall a y, Q a y) ->
  wp x (PostService.Delete pid (UserInfo.ID ui) (UserInfo.Roles ui)) Q.
Proof.
  intros Hsent Hraw HQ. unfold PostService.Delete. apply wp_bind, wp_post; [finish HQ|].
  intros p y _ Hy Hp. destruct (negb _ && negb _) eqn:Ha; [apply HQ|]. apply moderator_may in Ha.
  apply wp_bind, wp_act; [apply _|intros r; still_tac|finish HQ|].
  intros w h o d' Hyw Hg Ho Hne. unfold delete_post_stmt in Ho.
  destruct (has_key _ _) eqn:Hk; injection Ho as <- <-; [|done].
  apply has_key_true in Hk as [p' Hp'].
  destruct (post_stays y w h pid p p') as [E1 E2]; try done.
  destruct (post_entry w h pid p' Hg Hp') as (th & Hth & Hv & Hen).
  rewrite (board_delete_post _ pid p' th) by done. split.
  - eapply evolves_put; [exact Hv|done|done|]. intros k en. cbn.
    rewrite lookup_delete_Some. intros [_ He]; left; eauto.
  - apply (permitted_by _ _ (DeletePost raw)); [done|].
    eapply (move_retract ui h _ raw pid _ _ (entry_of p') Hraw Hv Hen). cbn. by rewrite E2.
Qed.

(** A deletion of a thread. *)
Lemma remove_moves raw id x Q :
  sent c (DeleteThread raw) -> uuid_Parse raw = Some id -> (forall a y, Q a y) ->
  wp x (ThreadService.Delete id (UserInfo.ID ui) (UserInfo.Roles ui)) Q.
Proof.
  intros Hsent Hraw HQ. unfold ThreadService.Delete. apply wp_bind, wp_thread; [finish HQ|].
  intros t y _ Hy Ht. destruct (negb _ && negb _) eqn:Ha; [apply HQ|]. apply moderator_may in Ha.
  apply wp_bind, wp_act; [apply _|intros r; still_tac|finish HQ|].
  intros w h o d' Hyw Hg Ho Hne. unfold delete_thread_stmt in Ho.
  destruct (has_key _ _) eqn:Hk; injection Ho as <- <-; [|done].
  apply has_key_true in Hk as [t' Ht'].
  destruct (thread_stays y w h id t t') as [_ E2]; try done.
  rewrite board_delete_thread. split.
  - apply evolves_sub, delete_subseteq.
  - apply (permitted_by _ _ (DeleteThread raw)); [done|].
    apply (move_remove ui h _ raw id (topic_of (posts (w_db w)) id t')); try done.
    + unfold view. by rewrite lookup_board, Ht'.
    + cbn. by rewrite E2.
Qed.

(** An update of a thread. *)
Lemma apply_update_amends t inp title pinned locked :
  apply_update t inp (UserInfo.ID ui) (UserInfo.Roles ui) = Ok (title, pinned, locked) ->
  may_touch ui (Thread.AuthorID t) /\
  (forall x, UpdateThreadInput.Title inp = Some x ->
     Thread.AuthorID t = UserInfo.ID ui /\ validateTitle x = None) /\
  forall now ps ps0 id t', topic_of ps id (with_fields title pinned locked now t') =
    amended ui inp (topic_of ps0 id t) (topic_of ps id t').
Proof.
  unfold apply_update, amended, moderates. destruct (negb _ && negb _) eqn:Ha; [done|].
  apply moderator_may in Ha. destruct (UpdateThreadInput.Title inp) as [x|].
  - destruct (N.eqb_spec (Thread.AuthorID t) (UserInfo.ID ui)); [|done]. cbn.
    destruct (validateTitle x) eqn:Hx; [done|]. intros [= <- <- <-].
    split_and!; [done|by intros ? [= <-]|]. intros. unfold topic_of. cbn. f_equal;
      destruct (hasRole _ _), (UpdateThreadInput.Pinned inp), (UpdateThreadInput.Locked inp); done.
  - intros [= <- <- <-].
    split_and!; [done|done|]. intros. unfold topic_of. cbn. f_equal;
      destruct (hasRole _ _), (UpdateThreadInput.Pinned inp), (UpdateThreadInput.Locked inp); done.
Qed.

Lemma amend_moves raw id inp x Q :
  sent c (PatchThread raw (Some inp)) -> uuid_Parse raw = Some id -> (forall a y, Q a y) ->
  wp x (ThreadService.Update id inp (UserInfo.ID ui) (UserInfo.Roles ui)) Q.
Proof.
  intros Hsent Hraw HQ. unfold ThreadService.Update. apply wp_bind, wp_thread; [finish HQ|].
  intros t y _ Hy Ht. destruct (apply_update _ _ _ _) as [[[title pinned] locked]|] eqn:Ha; [|apply HQ].
  apply apply_update_amends in Ha as (Hmay & Htitle & Hfields).
  apply wp_bind, wp_act; [apply _|intros r; still_tac|finish HQ|].
  intros w h o d' Hyw Hg Ho Hne. apply checked_Ok in Ho as (_ & _ & _ & Ho).
  destruct (threads (w_db w) !! id) as [t'|] eqn:Ht'; injection Ho as <- <-; [|done].
  destruct (thread_stays y w h id t t') as [_ E2]; try done.
  rewrite (board_put_thread _ id t') by done.
  rewrite (Hfields _ _ (posts (w_db y.1))).
  assert (Hv : view w !! id = Some (topic_of (posts (w_db w)) id t')).
  { unfold view. by rewrite lookup_board, Ht'. }
  split.
  - eapply evolves_put; [exact Hv|done|done|]. intros k en. cbn. eauto.
  - apply (permitted_by _ _ (PatchThread raw (Some inp))); [done|].
    apply (move_amend ui h _ raw id _ inp (view y.1)); try done.
    + cbn. by rewrite E2.
    + cbn. by rewrite E2.
    + by apply (seen_in_history y w h).
    + unfold view. by rewrite lookup_board, Ht.
Qed.

(** A new thread. *)
Lemma start_moves raw g req x Q :
  sent c (PostThread raw (Some req)) -> uuid_Parse raw = Some g -> (forall a y, Q a y) ->
  wp x (ThreadService.Create (ThreadService.CreateThreadInput.Mk g (UserInfo.ID ui)
          (createThreadRequest.title req) (createThreadRequest.body req))) Q.
Proof.
  intros Hsent Hraw HQ. unfold ThreadService.Create. apply wp_bind, wp_still; [still_tac|].
  intros r y _. destruct r as [gr|er]; [|finish HQ].
  cbn [CreateThreadInput.Title CreateThreadInput.Body CreateThreadInput.GroupID CreateThreadInput.AuthorID].
  destruct (validateTitle _) eqn:Htitle; [apply HQ|]. destruct (validateBody _) eqn:Hbody; [apply HQ|].
  apply wp_bind, wp_bind, wp_transact; [|unfold create_body; apply _].
  intros w h _ Hg. split.
  - intros er w2 Hw2 Ht. split; [|apply HQ].
    assert (Hv : view w2 = view w) by (unfold view; by rewrite Hw2).
    apply action_move; [apply Hg|rewrite Hw2; apply Hg|lia|rewrite Hv..];
      [apply evolves_refl|apply permitted_same].
  - intros a w0 w1 w2 Hw0 Ht0 Hrun Hw2 Ht2. split.
    2: { intros o _. apply wp_still; [destruct o as [[]|]; still_tac|].
         intros [?|?] z _; finish HQ. }
    assert (Hd2 : db_ok (w_db w2)).
    { rewrite Hw2. apply (f_equal snd) in Hrun. cbn [snd] in Hrun. rewrite <- Hrun.
      apply (db_safe_run db_ok); [unfold create_body; apply _|]. rewrite Hw0. apply Hg. }
    apply run_create_body in Hrun as (th & p & Hst & Hth & Hp & Ht1).
    unfold starting in Hst. rewrite Hw0 in Hst. cbn in Hst.
    destruct Hst as (N1 & N2 & Hd & G1 & G2 & G3 & G4 & G5 & _ & _ & _ & P1 & P2 & P3).
    assert (Hv : view w2 = <[Thread.ID th := Topic.Mk g (UserInfo.ID ui)
        (createThreadRequest.title req) false false
        {[Post.ID p := Entry.Mk (UserInfo.ID ui) (createThreadRequest.body req)]}]> (view w)).
    { unfold view. rewrite Hw2, Hd, board_start; [|done|done| |done].
      - rewrite G1, G2, G3, G4, G5. unfold entry_of. by rewrite P2, P3.
      - intros k q Hq Hqt. destruct (ok_posts_thread _ (proj1 (proj1 Hg)) k q Hq) as [t Ht].
        rewrite Hqt in Ht. cbn in Ht. congruence. }
    assert (Hnone : view w !! Thread.ID th = None).
    { unfold view. by rewrite lookup_board, N1. }
    apply action_move; [apply Hg|done|lia|rewrite Hv..].
    + apply evolves_new; [done|exists (w_tick w0); split; [lia|done]|].
      intros pid [en Hen]. cbn in Hen. apply lookup_singleton_Some in Hen as [<- _].
      exists (S (w_tick w0)). split; [lia|done].
    + apply (permitted_by _ _ (PostThread raw (Some req))); [done|]. by apply move_start.
Qed.

(** A deletion of a group. *)
Lemma close_moves raw g x Q :
  sent c (DeleteGroup raw) -> uuid_Parse raw = Some g -> hasRole (UserInfo.Roles ui) [RoleAdmin] = true ->
  (forall a y, Q a y) -> wp x (GroupService.Delete g) Q.
Proof.
  intros Hsent Hraw Hadm HQ. unfold GroupService.Delete. apply wp_bind, wp_still; [still_tac|].
  intros r y _. destruct r as [gr|er]; [|finish HQ].
  apply wp_bind, wp_see; [apply _|intros er z _; apply HQ|].
  intros n z sv _ Hz [= <-].
  destruct (Z.ltb_spec 0 (count (in_group g) (threads (w_db z.1)))) as [|Hn]; [apply HQ|].
  apply wp_bind, wp_act; [apply _|intros o; still_tac|finish HQ|].
  intros w h o d' Hzw Hg Ho Hne. unfold delete_group_stmt in Ho.
  destruct (has_key _ _); injection Ho as <- <-; [|done].
  rewrite board_delete_group by apply Hg. split.
  - apply evolves_sub, map_filter_subseteq.
  - apply (permitted_by _ _ (DeleteGroup raw)); [done|].
    apply (move_close ui h _ raw g (view z.1)); [done|done|by apply (seen_in_history z w h)|].
    intros id t Ht. apply lookup_board_Some in Ht as (th & Hth & ->). cbn.
    assert (Hc : count (in_group g) (threads (w_db z.1)) = 0%Z).
    { pose proof (count_nonneg (in_group g) (threads (w_db z.1))). lia. }
    rewrite count_zero in Hc. specialize (Hc id th Hth). by apply N.eqb_neq.
Qed.

End moves.

(** ** Every request *)

(** A middleware that lets a request through does so as an identified user. *)
Lemma wp_RequireAuth c next x :
  (forall ui y, identified c ui -> wp y (next ui) done_with) ->
  wp x (RequireAuth (jwtm srv) c next) done_with.
Proof.
  intros Hnext. unfold RequireAuth. destruct (String.eqb _ "") eqn:Hraw; [done|].
  intros w h Hl Hg. destruct (tick_good w (proj1 Hg)) as (G2 & Hv & Hr).
  split; [split_and!; [done|done|]; cbn [snd]; rewrite Hv; apply permitted_same|]. cbn [fst].
  assert (Hi : forall ui, identity e srv c w = Some ui -> identified c ui) by (intros ui Hui; by exists w).
  unfold identity in Hi. rewrite Hraw in Hi. unfold Parse in *. cbn in *.
  destruct (ParseWithClaims _ _ _ _ _) as [[claims valid]|er]; cbn in *; [|done].
  destruct (negb valid); cbn in *; [done|].
  destruct (uuid_Parse (Claims.Subject claims)) as [id|]; cbn in *; [|done].
  by apply Hnext, Hi.
Qed.

Lemma serve_moves c ui ep x :
  sent c ep -> identified c ui -> (guard_of ep = AdminOnly -> hasRole (UserInfo.Roles ui) [RoleAdmin] = true) ->
  wp x (serve_as srv c ep ui) done_with.
Proof.
  intros Hsent Hid Hadm. destruct (moving ep) eqn:Hm; [|apply wp_still; [by apply serve_as_still|done]].
  destruct ep; try done; cbn [serve_as];
    unfold threads_Create, threads_Update, threads_Delete, posts_Create, posts_Update, posts_Delete,
      groups_Delete, pathID, decoded, answer;
    (destruct (uuid_Parse _) as [id|] eqn:Hraw; [|done]);
    try match goal with b : option _ |- _ => destruct b as [req|]; [|done] end;
    apply wp_bind;
    first [ eapply close_moves | eapply start_moves | eapply amend_moves | eapply remove_moves
          | eapply reply_moves | eapply edit_moves | eapply retract_moves ]; eauto;
    intros [a|er] y; (apply wp_still; [still_tac|done]).
Qed.

Lemma handle_moves c ep x : sent c ep -> wp x (handle srv c ep) done_with.
Proof.
  intros Hs. unfold handle. destruct (guard_of ep) eqn:Hg.
  - apply wp_still; [|done]. apply serve_as_still. by destruct ep.
  - apply wp_RequireAuth. intros ui y Hid. apply serve_moves; [done|done|congruence].
  - apply wp_RequireAuth. intros ui y Hid. unfold RequireRole.
    destruct (hasRole _ _) eqn:Hr; [by apply serve_moves|done].
Qed.

(** A program that a sent request runs. *)
Definition request_sent (p : prog response) : Prop :=
  exists c ep, sent c ep /\ p = handle srv c ep.

(** C1: refinement: let requests arrive at any time, interleave their statements and
    transactions in any order, and lose connections anywhere; as long as the server's generated
    identifiers do not repeat, the boards that are reached form a history of the specification:
    every change of a thread or a post is one permitted move of a request that was sent, made in
    the name of the user whose token it carries (only members start topics and reply, only the
    writer edits, only the writer or a moderator removes, only the starter renames, only
    moderators pin and lock, only an administrator closes a group), decided on a state of the
    board that was current at some time since the start. *)
Theorem api_refines_board w ps' w' :
  db_ok (w_db w) -> old e w -> rtc (step request_sent e) ([], w) (ps', w') ->
  exists h, history permitted (board_of (w_db w)) (board_of (w_db w') :: h).
Proof.
  intros Hd Ho Hs.
  destruct (wp_steps e view (good e) (rely e) permitted request_sent ([], w) (ps', w') [view w])
    with (s0 := view w) as (h & Hh & _ & Hl); try done.
  - intros p x (c & ep & Hc & ->) _. by apply handle_moves.
  - constructor.
  - destruct h as [|b h]; [done|]. injection Hl as ->. by exists h.
Qed.

End refinement.

(** ** Examples *)

Section examples.
#[local] Existing Instances ascii_server plain_argon2 decimal_uuid open_jwt ascii_unicode.

(** A thread that bob, who is no moderator, started. *)
Definition bobs_thread : world :=
  world_of (set_threads {[30%N := Thread.Mk 30%N 20%N bob "Hello" false false 0 1 (Some 5%Z) 5 5]}
    (w_db one_session)).

(** Bob renames the thread while alice, a moderator, locks it. *)
Definition rename_and_lock : list (context * endpoint) :=
  [(as_bob, PatchThread "30" (Some (UpdateThreadInput.Mk (Some "Bye") None None)));
   (as_alice, PatchThread "30" (Some (UpdateThreadInput.Mk None None (Some true))))].
Definition lock_race : pool response * world :=
  run_sched calm [0; 0; 1; 1; 1; 1; 0; 0]
    ((fun '(c, ep) => handle sample_deps c ep) <$> rename_and_lock, bobs_thread).

(** Both are answered with 200, alice with the thread locked; the thread is left unlocked. *)
Lemma rename_undoes_lock :
  statuses lock_race.1 = [Some 200%Z; Some 200%Z] /\
  Thread.Locked <$> threads (w_db lock_race.2) !! 30%N = Some false /\
  match lock_race.1 !! 1 with
  | Some (Ret r) => match body r with
                    | PThread t => Thread.Locked (ThreadSummary.theThread t) = true
                    | _ => False
                    end
  | _ => False
  end.
Proof. by vm_compute. Qed.

Lemma calm_fresh : fresh_uuids calm.
Proof. intros n m. cbn. lia. Qed.

Lemma bobs_thread_old : old calm bobs_thread.
Proof.
  assert (Hb : forall id, is_Some (view bobs_thread !! id) -> id = 30%N).
  { intros id. unfold view. rewrite lookup_board. cbn.
    destruct (decide (id = 30%N)) as [->|Hne]; [done|].
    rewrite lookup_singleton_ne by done. by intros [? ?]. }
  constructor.
  - intros id o Ho n _. assert (id = 30%N) as ->; [|cbn; lia]. apply Hb.
    unfold origin in Ho. by destruct (view bobs_thread !! id).
  - intros id pid u Hu n _. apply post_writer in Hu as (p & Hp & _). cbn in Hp.
    apply lookup_singleton_Some in Hp as [<- _]. cbn. lia.
Qed.

Lemma api_refines_board_witness :
  exists h, history (permitted calm sample_deps (fun c ep => (c, ep) ∈ rename_and_lock))
    (board_of (w_db bobs_thread)) (board_of (w_db lock_race.2) :: h).
Proof.
  assert (Hok : db_ok (w_db bobs_thread)) by by apply db_okb_true; vm_compute.
  apply (api_refines_board calm sample_deps (fun c ep => (c, ep) ∈ rename_and_lock) calm_fresh
    bobs_thread lock_race.1 lock_race.2 Hok bobs_thread_old).
  apply run_sched_reached, Forall_fmap, Forall_forall. intros [c ep] Hin. by exists c, ep.
Defined.

End examples.
