(* ===== verification/Views.v ===== *)
(** * Refinements of a part of the tables

    Rely.v for specifications whose state is a function of the tables: the invariant is the
    integrity of the schema, and what a request may rely on is a preorder on that state.  A
    program is [Calm] when every statement of it leaves the state alone; the rules below deal
    with reads, with statements and transactions that change the state, and with the check of a
    token. *)
From S2P Require Import Prelude GoStrings GoErrors Models Db Prog Concrete Rely Password Config Jwt.
From S2P Require Import Roles AuthService MediaService Handlers Frames Access Refinement.
Local Open Scope mc_scope.

(** Every statement keeps the schema's integrity and the state [vf]. *)
Class Calm `{Postgres} {V} (vf : database -> V) {A} (p : prog A) : Prop := {
  calm_ok : DbSafe db_ok p;
  calm_part : forall b, DbSafe (fun d => vf d = b) p }.

(** Every statement of a handler or a service, looked up in its definition. *)
Ltac calm_tac :=
  split; intros; cbn [serve_as]; autounfold with mc_handlers; autounfold with mc_progs; apply _.

Section views.
Context `{Postgres} {V : Type} `{!EqDecision V} (vf : database -> V).
Context (P : relation V) `{!PreOrder P} (e : env).

Definition part (w : world) : V := vf (w_db w).
Definition intact (w : world) : Prop := db_ok (w_db w).
Definition drift (w w' : world) : Prop := P (part w) (part w').

#[export] Instance drift_preorder : PreOrder drift.
Proof. unfold drift. split; [intros w; reflexivity|]. intros w1 w2 w3. by etrans. Qed.

Abbreviation legal := (legal part intact).
Abbreviation later := (@later V drift).

Lemma intact_tick w : intact w -> intact (tick w) /\ part (tick w) = part w /\ drift w (tick w).
Proof. intros Hw. split_and!; [done|done|]. unfold drift. reflexivity. Qed.

(** What was seen is in the history from then on, and what persists is still so. *)
Lemma seen y w h : legal y -> later y (w, h) -> part y.1 ∈ h.
Proof.
  intros [_ Hh] [_ [l Hs]]. cbn in Hs. subst h. apply elem_of_app. right.
  destruct y.2; [done|]. injection Hh as ->. by left.
Qed.

Lemma seen_now y : legal y -> part y.1 ∈ y.2.
Proof. intros Hy. destruct y as [w h]. apply (seen (w, h) w h); [done|reflexivity]. Qed.

Lemma kept y w h : later y (w, h) -> P (part y.1) (part w).
Proof. by intros [Hr _]. Qed.

Lemma elem_later (y z : config) b : later y z -> b ∈ y.2 -> b ∈ z.2.
Proof. intros [_ [l ->]] Hb. apply elem_of_app. by right. Qed.

Section rules.
Context (G : list V -> V -> V -> Prop) (HG : forall h b, G h b b).

Abbreviation wp := (wp e part intact drift G).

Lemma wp_calm {A} (p : prog A) x (Q : A -> config -> Prop) :
  Calm vf p -> (forall a y, later x y -> Q a y) -> wp x p Q.
Proof.
  intros [Hok Hp]. apply wp_quiet; [apply _|done|]. intros w0. specialize (Hok e).
  assert (Hk : keeps e (fun w => db_ok (w_db w) /\ part w = part w0) p).
  { apply keeps_conj; [done|]. apply (Hp (part w0)). }
  clear Hok Hp. induction p as [a|B op k IH]; cbn; [done|]. destruct Hk as [Hop Hk].
  split; [|intros b; apply IH, Hk]. intros w (Hi & Hv & Hd). destruct (Hop w) as [Hi2 Hv2]; [done|].
  split_and!; [done|done|]. unfold drift in *. by rewrite Hv2.
Qed.

(** An action that takes time only. *)
Lemma action_tick w h : legal (w, h) -> action_ok part intact drift G w (tick w) h.
Proof.
  intros Hg. destruct (intact_tick w (proj1 Hg)) as (H1 & H2 & H3).
  split_and!; [done|done|]. rewrite H2. apply HG.
Qed.

(** A read, with what it saw still true right after it. *)
Lemma wp_look {A} (s : stmt A) `{!StmtReads s} x (Q : result A -> config -> Prop) :
  (forall er y, later x y -> legal y ->
     er = ErrConn \/ (exists w, s (server_at e w) (w_db y.1) = Err er) -> Q (Err er) y) ->
  (forall a y w, later x y -> legal y ->
     s (server_at e w) (w_db y.1) = Ok (a, w_db y.1) -> Q (Ok a) y) ->
  wp x (exec s) Q.
Proof.
  intros Herr Hok w h Hl Hg.
  assert (Hact : action_ok part intact drift G w (tick w) h).
  { by apply action_tick. }
  assert (Hl2 : later x (push_view part (tick w) h)) by (etrans; [exact Hl|apply later_push, Hact]).
  assert (Hg2 : legal (push_view part (tick w) h)) by (split; [apply Hact|done]).
  unfold exec_op. destruct (s _ _) as [[a d']|er] eqn:Es.
  - pose proof (stmt_reads (s := s) _ _ _ _ Es) as ->.
    destruct (env_fault e (w_tick w)) as [[]|]; cbn; rewrite ?set_db_tick; eauto.
  - destruct (env_fault e (w_tick w)) as [[]|]; cbn; eauto 10.
Qed.

(** What a statement or a transaction makes of the tables, when it takes effect. *)
Definition lawfully (w : world) (h : list V) (d' : database) : Prop :=
  vf d' = part w \/ P (part w) (vf d') /\ G h (part w) (vf d').

Lemma action_lawful w w2 h :
  intact w2 -> lawfully w h (w_db w2) -> action_ok part intact drift G w w2 h.
Proof.
  intros Hi Hl. unfold action_ok, drift. change (part w2) with (vf (w_db w2)).
  destruct Hl as [->|[HP HGr]]; [|done]. split_and!; [done|done|apply HG].
Qed.

(** A statement that may change the state. *)
Lemma wp_change {A} (s : stmt A) `{!StmtKeeps db_ok s} x (Q : result A -> config -> Prop) :
  (forall er y, later x y -> Q (Err er) y) ->
  (forall w h a d', later x (w, h) -> legal (w, h) -> s (server_at e w) (w_db w) = Ok (a, d') ->
     lawfully w h d' /\
     forall y, later (w, h) y -> legal y -> w_db y.1 = d' -> Q (Ok a) y) ->
  wp x (exec s) Q.
Proof.
  intros Herr Hs. apply wp_exec; [done|apply intact_tick|]. intros w h Hl Hg. split.
  { intros er. apply Herr. etrans; [exact Hl|]. apply later_push. unfold drift. reflexivity. }
  intros a d' Ha w2. destruct (Hs w h a d' Hl Hg Ha) as [Hlaw HQ].
  assert (Hact : action_ok part intact drift G w w2 h).
  { apply action_lawful; [|exact Hlaw]. exact (stmt_keeps (J := db_ok) _ _ _ _ Ha (proj1 Hg)). }
  split; [done|]. assert (Hl2 : later (w, h) (push_view part w2 h)) by (apply later_push, Hact).
  intros r [-> | ->]; [|apply Herr; by etrans]. apply HQ; [done| |done]. by split; [apply Hact|].
Qed.

(** A transaction that may change the state. *)
Lemma wp_commit {A} (body : prog (result A)) x (Q : result A -> config -> Prop) :
  Ticks body -> DbSafe db_ok body ->
  (forall er y, later x y -> Q (Err er) y) ->
  (forall w h a w0 w1, later x (w, h) -> legal (w, h) -> w_db w0 = w_db w ->
     run e body w0 = (Ok a, w1) ->
     lawfully w h (w_db w1) /\
     forall y, later (w, h) y -> legal y -> w_db y.1 = w_db w1 -> Q (Ok a) y) ->
  wp x (transact body) Q.
Proof.
  intros Ht Hb Herr Hs. apply wp_transact; [|exact Ht]. intros w h Hl Hg. split.
  - intros er w2 Hw _. assert (Hp : part w2 = part w) by (unfold part; by rewrite Hw).
    assert (Hact : action_ok part intact drift G w w2 h).
    { unfold action_ok, drift, intact. rewrite Hw, Hp. split_and!; [apply Hg|done|apply HG]. }
    split; [done|]. apply Herr. etrans; [exact Hl|]. apply later_push, Hact.
  - intros a w0 w1 w2 H0 _ Hr H2 _. destruct (Hs w h a w0 w1 Hl Hg H0 Hr) as [Hlaw HQ].
    assert (Hi : intact w2).
    { unfold intact. rewrite H2. replace w1 with (run e body w0).2 by by rewrite Hr.
      apply (db_safe_run db_ok body). rewrite H0. exact (proj1 Hg). }
    assert (Hact : action_ok part intact drift G w w2 h) by (apply action_lawful; [done|by rewrite H2]).
    split; [done|]. assert (Hl2 : later (w, h) (push_view part w2 h)) by (apply later_push, Hact).
    intros r [-> | ->]; [|apply Herr; by etrans]. apply HQ; [done|by split|done].
Qed.

(** The check of a token: the next handler runs as the identity of the request. *)
Lemma wp_token `{Uuid, Jwt} srv c next x Q :
  (forall r y, Q r y) ->
  (forall ui y, identified e srv c ui -> later x y -> wp y (next ui) Q) ->
  wp x (RequireAuth (jwtm srv) c next) Q.
Proof.
  intros HQ Hnext. unfold RequireAuth. destruct (String.eqb _ "") eqn:Hraw; [apply HQ|].
  intros w h Hl Hg. split; [by apply action_tick|]. cbn [fst].
  assert (Hid : forall ui, identity e srv c w = Some ui -> identified e srv c ui) by (intros ui Hui; by exists w).
  assert (Hl2 : later x (push_view part (tick w) h)) by (etrans; [exact Hl|apply later_push, (action_tick w h Hg)]).
  unfold identity in Hid. rewrite Hraw in Hid. unfold Parse in *. cbn in *.
  destruct (ParseWithClaims _ _ _ _ _) as [[claims valid]|er]; cbn in *; [|apply HQ].
  destruct (negb valid); cbn in *; [apply HQ|].
  destruct (uuid_Parse (Claims.Subject claims)) as [id|]; cbn in *; [|apply HQ].
  apply Hnext; [by apply Hid|done].
Qed.

(** Programs that are correct each on its own are so together. *)
Lemma lawful_history {A} (allowed : prog A -> Prop) w ps' w' :
  (forall p x, allowed p -> wp x p done_with) ->
  db_ok (w_db w) -> rtc (step allowed e) ([], w) (ps', w') ->
  exists h, history G (part w) (part w' :: h).
Proof.
  intros Hall Hd Hs.
  destruct (wp_steps e part intact drift G allowed ([], w) (ps', w') [part w])
    with (s0 := part w) as (h & Hh & _ & Hl); try done; [auto|constructor|].
  destruct h as [|b h]; [done|]. injection Hl as ->. by exists h.
Qed.

End rules.

(** ** Requests

    A specification says which request changes the state how: [change c ui h b ep b'] when the
    request [ep] with the context [c], made by [ui] where it needs an identity, takes the state
    from [b] to [b'] after the states [h]. *)
Section requests.
Context `{Argon2, Uuid, Jwt, Unicode}.
Context (change : context -> UserInfo.t -> list V -> V -> endpoint -> V -> Prop).
Context (srv : deps) (sent : context -> endpoint -> Prop).

(** What may happen to the state: nothing, or the change of a request that was sent, which
    carries a token of [ui] where its route asks for one, and an administrator's where the route
    asks for that. *)
Inductive lawful (h : list V) (b : V) : V -> Prop :=
| lawful_same : lawful h b b
| lawful_change c ui ep b' :
    sent c ep -> (guard_of ep <> Public -> identified e srv c ui) ->
    (guard_of ep = AdminOnly -> hasRole (UserInfo.Roles ui) [RoleAdmin] = true) ->
    change c ui h b ep b' -> lawful h b b'.

(** A program that a sent request runs. *)
Definition sent_program (p : prog response) : Prop := exists c ep, sent c ep /\ p = handle srv c ep.

Abbreviation wp := (wp e part intact drift lawful).

(** A part of a program that leaves the state alone. *)
Lemma wp_calmly {A} (p : prog A) x (Q : A -> config -> Prop) :
  Calm vf p -> (forall a y, later x y -> Q a y) -> wp x p Q.
Proof. apply wp_calm. apply lawful_same. Qed.

(** Handlers that are correct under their guard are so behind it. *)
Lemma handle_lawful :
  (forall c ui ep x, sent c ep -> (guard_of ep <> Public -> identified e srv c ui) ->
     (guard_of ep = AdminOnly -> hasRole (UserInfo.Roles ui) [RoleAdmin] = true) ->
     wp x (serve_as srv c ep ui) done_with) ->
  forall c ep x, sent c ep -> wp x (handle srv c ep) done_with.
Proof.
  intros Hserve c ep x Hs. unfold handle. destruct (guard_of ep) eqn:Hg.
  - apply Hserve; [done|congruence|congruence].
  - apply wp_token; [apply lawful_same|done|]. intros ui y Hid _. apply Hserve; [done|done|congruence].
  - apply wp_token; [apply lawful_same|done|]. intros ui y Hid _. unfold RequireRole.
    destruct (hasRole _ _) eqn:Hr; [by apply Hserve|done].
Qed.

(** Then every interleaving of requests is a history of the specification. *)
Lemma sent_history w ps' w' :
  (forall c ep x, sent c ep -> wp x (handle srv c ep) done_with) ->
  db_ok (w_db w) -> rtc (step sent_program e) ([], w) (ps', w') ->
  exists h, history lawful (part w) (part w' :: h).
Proof.
  intros Hall. apply lawful_history. intros p x (c & ep & Hc & ->). by apply Hall.
Qed.

End requests.
End views.

Arguments lawful_same {V e _ _ change srv sent} h b.
Arguments lawful_change {V e _ _ change srv sent} h b c ui ep b'.
