(* ===== verification/Roster.v ===== *)
(** * The members of the forum and what they hold

    An abstract specification of what the API does to accounts, roles, sessions and the mark of
    the installation.  A [roster] forgets timestamps, user agents, addresses and row numbers.
    [change] says which requests change it, who may make them, and how: the promise that
    Membership.v shows the services keep, however their statements interleave.

    As in Board.v a request decides on what it read, and so a change is judged against the
    history of rosters: a session is opened for an account that was active at some time, a setup
    goes on that found the forum not installed at some time. *)
From S2P Require Import Prelude GoStrings Regexp GoErrors Models GoJson Db Prog Roles Encoding Sha256.
From S2P Require Import Password Config Jwt UserStore SessionStore AuthService AdminService.
From S2P Require Import InstallService Handlers Rely.

(** ** Data *)

Module Account.
Record t := Mk { Name : string; Email : string; Secret : string; Avatar : string; Standing : string }.
End Account.

Module Ticket.
Record t := Mk { Owner : uuid; Digest : string; Spent : bool }.
End Ticket.

Module Roster.
Record t := Mk {
  Accounts : gmap uuid Account.t;
  Held : gset (uuid * string);         (* who holds which role *)
  Tickets : gmap uuid Ticket.t;
  Installed : bool }.
End Roster.

#[export] Instance account_eq_dec : EqDecision Account.t.
Proof. solve_decision. Defined.
#[export] Instance ticket_eq_dec : EqDecision Ticket.t.
Proof. solve_decision. Defined.
#[export] Instance roster_eq_dec : EqDecision Roster.t.
Proof. solve_decision. Defined.

Definition with_avatar (url : string) (a : Account.t) : Account.t :=
  Account.Mk (Account.Name a) (Account.Email a) (Account.Secret a) url (Account.Standing a).
Definition with_standing (st : string) (a : Account.t) : Account.t :=
  Account.Mk (Account.Name a) (Account.Email a) (Account.Secret a) (Account.Avatar a) st.
Definition spend (t : Ticket.t) : Ticket.t := Ticket.Mk (Ticket.Owner t) (Ticket.Digest t) true.

Definition put_account (id : uuid) (a : Account.t) (b : Roster.t) : Roster.t :=
  Roster.Mk (<[id := a]> (Roster.Accounts b)) (Roster.Held b) (Roster.Tickets b) (Roster.Installed b).
Definition put_ticket (sid : uuid) (t : Ticket.t) (b : Roster.t) : Roster.t :=
  Roster.Mk (Roster.Accounts b) (Roster.Held b) (<[sid := t]> (Roster.Tickets b)) (Roster.Installed b).
Definition grant (id : uuid) (key : string) (b : Roster.t) : Roster.t :=
  Roster.Mk (Roster.Accounts b) ({[(id, key)]} ∪ Roster.Held b) (Roster.Tickets b) (Roster.Installed b).
Definition assign (id : uuid) (keys : list string) (b : Roster.t) : Roster.t :=
  Roster.Mk (Roster.Accounts b)
    (list_to_set (pair id <$> keys) ∪ filter (fun p => p.1 <> id) (Roster.Held b))
    (Roster.Tickets b) (Roster.Installed b).
Definition mark_installed (b : Roster.t) : Roster.t :=
  Roster.Mk (Roster.Accounts b) (Roster.Held b) (Roster.Tickets b) true.

(** ** What the tables show *)

Definition account_of (u : User.t) : Account.t :=
  Account.Mk (User.Username u) (User.Email u) (User.PasswordHash u) (User.AvatarURL u) (User.Status u).
Definition ticket_of (s : Session.t) : Ticket.t :=
  Ticket.Mk (Session.UserID s) (Session.TokenHash s)
    (match Session.RevokedAt s with Some _ => true | None => false end).
Definition held_of (d : database) : gset (uuid * string) :=
  set_omap (fun p => (fun r => (p.1, Role.Key r)) <$> roles d !! p.2) (user_roles d).
Definition installed_of (d : database) : bool :=
  match settings d !! keyInstalled with
  | Some row => match set_value row with JBool b => b | _ => false end
  | None => false
  end.
Definition roster_of (d : database) : Roster.t :=
  Roster.Mk (account_of <$> users d) (held_of d) (ticket_of <$> user_sessions d) (installed_of d).

(** ** What persists *)

(** Accounts stay, under their name, address and password; tickets stay, and stay spent; an
    installed forum stays installed. *)
Record persists (b b' : Roster.t) : Prop := {
  persists_account : forall id a, Roster.Accounts b !! id = Some a ->
    exists a', Roster.Accounts b' !! id = Some a' /\ Account.Name a' = Account.Name a /\
      Account.Email a' = Account.Email a /\ Account.Secret a' = Account.Secret a;
  persists_ticket : forall sid t, Roster.Tickets b !! sid = Some t ->
    exists t', Roster.Tickets b' !! sid = Some t' /\ Ticket.Owner t' = Ticket.Owner t /\
      Ticket.Digest t' = Ticket.Digest t /\ (Ticket.Spent t = true -> Ticket.Spent t' = true);
  persists_installed : Roster.Installed b = true -> Roster.Installed b' = true }.

#[export] Instance persists_preorder : PreOrder persists.
Proof.
  split.
  - intros b. constructor; eauto 10.
  - intros b1 b2 b3 [A1 T1 I1] [A2 T2 I2]. constructor; [| |auto].
    + intros id a Ha. destruct (A1 id a Ha) as (a2 & Ha2 & ? & ? & ?).
      destruct (A2 id a2 Ha2) as (a3 & Ha3 & ? & ? & ?). exists a3. split_and!; congruence.
    + intros sid t Ht. destruct (T1 sid t Ht) as (t2 & Ht2 & ? & ? & ?).
      destruct (T2 sid t2 Ht2) as (t3 & Ht3 & ? & ? & ?). exists t3. split_and!; [done|congruence..|auto].
Qed.

(** ** Changes *)

Section changes.
Context `{Postgres, Argon2, Unicode, Uuid}.

(** A new account: its name and address are nobody else's. *)
Definition vacant (name email : string) (b : Roster.t) : Prop :=
  forall id a, Roster.Accounts b !! id = Some a ->
    lower (Account.Name a) <> lower name /\ Account.Email a <> email.
Definition newcomer (name email secret : string) : Account.t :=
  Account.Mk name email secret "" UserStatusActive.

(** The ticket of a refresh token, and one that nobody has. *)
Definition digest_of (token : string) : string := hex_EncodeToString (Sum256 token).
Definition unheard (sid : uuid) (digest : string) (b : Roster.t) : Prop :=
  Roster.Tickets b !! sid = None /\
  forall sid' t, Roster.Tickets b !! sid' = Some t -> Ticket.Digest t <> digest.

(** An account of that name came after some roster of the history. *)
Definition joined (h : list Roster.t) (b : Roster.t) (id : uuid) (name : string) : Prop :=
  (exists a, Roster.Accounts b !! id = Some a /\ Account.Name a = name) /\
  exists b0, b0 ∈ h /\ Roster.Accounts b0 !! id = None.

(** An active account, at some time. *)
Definition was_active (h : list Roster.t) (id : uuid) (a : Account.t) : Prop :=
  exists b0, b0 ∈ h /\ Roster.Accounts b0 !! id = Some a /\ Account.Standing a = UserStatusActive.

(** [change c ui h b ep b']: the request [ep] with the context [c], made by [ui] where it needs
    an identity, takes the roster from [b] to [b'], after the rosters [h]. *)
Inductive change (c : context) (ui : UserInfo.t) (h : list Roster.t) (b : Roster.t)
    : endpoint -> Roster.t -> Prop :=
| change_register req id secret :
    let name := TrimSpace (registerRequest.username req) in
    let email := TrimSpace (registerRequest.email req) in
    let password := TrimSpace (registerRequest.password req) in
    matches usernameRe name = true -> matches emailRe email = true -> (8 <= len password)%Z ->
    Verify password secret = Some (Ok true) ->
    Roster.Accounts b !! id = None -> vacant name email b ->
    change c ui h b (PostRegister (Some req)) (put_account id (newcomer name email secret) b)
| change_member req id :
    joined h b id (TrimSpace (registerRequest.username req)) ->
    change c ui h b (PostRegister (Some req)) (grant id RoleMember b)
| change_login req id a sid digest :
    let ident := lower (TrimSpace (loginRequest.identifier req)) in
    was_active h id a -> lower (Account.Name a) = ident \/ lower (Account.Email a) = ident ->
    Verify (loginRequest.password req) (Account.Secret a) = Some (Ok true) ->
    unheard sid digest b ->
    change c ui h b (PostLogin (Some req)) (put_ticket sid (Ticket.Mk id digest false) b)
| change_revoke token ep sid t :
    ep = PostRefresh \/ ep = PostLogout ->
    refresh_cookie c = Some token -> token <> "" ->
    Roster.Tickets b !! sid = Some t -> Ticket.Digest t = digest_of token -> Ticket.Spent t = false ->
    change c ui h b ep (put_ticket sid (spend t) b)
| change_rotate token sid0 b0 t0 t1 id a sid digest :
    refresh_cookie c = Some token -> token <> "" ->
    b0 ∈ h -> Roster.Tickets b0 !! sid0 = Some t0 -> Ticket.Digest t0 = digest_of token ->
    Ticket.Spent t0 = false -> Ticket.Owner t0 = id ->
    Roster.Tickets b !! sid0 = Some t1 -> Ticket.Spent t1 = true ->
    was_active h id a -> unheard sid digest b ->
    change c ui h b PostRefresh (put_ticket sid (Ticket.Mk id digest false) b)
| change_avatar f a url :
    Roster.Accounts b !! UserInfo.ID ui = Some a ->
    change c ui h b (PostAvatar (Some f)) (put_account (UserInfo.ID ui) (with_avatar url a) b)
| change_standing raw req id a st :
    uuid_Parse raw = Some id -> updateUserRequest.status req = Some st -> st ∈ allowedStatus ->
    Roster.Accounts b !! id = Some a ->
    change c ui h b (PatchUser raw (Some req)) (put_account id (with_standing st a) b)
| change_roles raw req id keys :
    uuid_Parse raw = Some id -> updateUserRequest.roles req = Some keys ->
    (forall k, k ∈ keys -> ToLower unicode_lower k ∈ allowedRoles) ->
    change c ui h b (PatchUser raw (Some req)) (assign id (ToLower unicode_lower <$> keys) b)
| change_install inp id secret b0 :
    let name := TrimSpace (InstallInput.AdminUsername inp) in
    let email := TrimSpace (InstallInput.AdminEmail inp) in
    b0 ∈ h -> Roster.Installed b0 = false ->
    setup_invalid (TrimSpace (InstallInput.ForumName inp)) name email (InstallInput.AdminPassword inp) = false ->
    Verify (InstallInput.AdminPassword inp) secret = Some (Ok true) ->
    Roster.Accounts b !! id = None -> vacant name email b ->
    change c ui h b (PostInstall (Some inp)) (put_account id (newcomer name email secret) b)
| change_founder inp id key b0 :
    b0 ∈ h -> Roster.Installed b0 = false ->
    joined h b id (TrimSpace (InstallInput.AdminUsername inp)) -> key ∈ [RoleMember; RoleAdmin] ->
    change c ui h b (PostInstall (Some inp)) (grant id key b)
| change_mark inp b0 :
    b0 ∈ h -> Roster.Installed b0 = false ->
    change c ui h b (PostInstall (Some inp)) (mark_installed b).

(** ** Consequences *)

Lemma put_account_persists id a a' b :
  Roster.Accounts b !! id = Some a -> Account.Name a' = Account.Name a ->
  Account.Email a' = Account.Email a -> Account.Secret a' = Account.Secret a ->
  persists b (put_account id a' b).
Proof.
  intros Ha Hn He Hs. constructor; cbn; eauto 10. intros k x Hx.
  destruct (decide (k = id)) as [->|]; [rewrite lookup_insert_eq|rewrite lookup_insert_ne by done; eauto 10].
  exists a'. split_and!; congruence.
Qed.

Lemma new_account_persists id a b :
  Roster.Accounts b !! id = None -> persists b (put_account id a b).
Proof.
  intros Ha. constructor; cbn; eauto 10. intros k x Hx.
  rewrite lookup_insert_ne by congruence. eauto 10.
Qed.

Lemma spend_persists sid t b : Roster.Tickets b !! sid = Some t -> persists b (put_ticket sid (spend t) b).
Proof.
  intros Ht. constructor; cbn; eauto 10. intros k x Hx.
  destruct (decide (k = sid)) as [->|]; [rewrite lookup_insert_eq|rewrite lookup_insert_ne by done; eauto 10].
  assert (x = t) as -> by congruence. exists (spend t). by split_and!.
Qed.

Lemma new_ticket_persists sid t b : Roster.Tickets b !! sid = None -> persists b (put_ticket sid t b).
Proof.
  intros Ht. constructor; cbn; eauto 10. intros k x Hx. rewrite lookup_insert_ne by congruence. eauto 10.
Qed.

Lemma change_persists c ui h b ep b' : change c ui h b ep b' -> persists b b'.
Proof.
  destruct 1; try match goal with Hu : unheard _ _ _ |- _ => destruct Hu end;
    eauto using new_account_persists, new_ticket_persists, spend_persists, put_account_persists;
    constructor; cbn; eauto 10.
Qed.

End changes.
