(* ===== verification/Membership.v ===== *)
(** * The API refines the roster

    Every interleaving of requests, with faults anywhere, is a history of rosters in which each
    change is one of Roster.v, made by a request that was sent and, where the route is guarded,
    by the identity of an accepted token. *)
From S2P Require Import Prelude GoStrings Regexp GoErrors Models GoJson Db Prog Concrete Rely Roles Encoding.
From S2P Require Import Sha256 Password Config Jwt Storage GroupStore PostStore ThreadStore.
From S2P Require Import UserStore SessionStore SettingsStore MessageStore NotificationStore.
From S2P Require Import AttachmentStore AuthService AdminService InstallService GroupService.
From S2P Require Import ThreadService PostService MessageService MediaService Handlers Samples.
From S2P Require Import Frames Access Board Evolution Refinement Views Roster.
Import MessageService.Notifications.
Local Open Scope mc_scope.

(** ** The roster after each kind of change to the tables *)

Lemma roster_put_user d id u :
  roster_of (set_users (<[id := u]> (users d)) d) = put_account id (account_of u) (roster_of d).
Proof. unfold roster_of, put_account. cbn. by rewrite fmap_insert. Qed.

Lemma roster_put_session d sid s :
  roster_of (set_user_sessions (<[sid := s]> (user_sessions d)) d)
  = put_ticket sid (ticket_of s) (roster_of d).
Proof. unfold roster_of, put_ticket. cbn. by rewrite fmap_insert. Qed.

Lemma roster_put_setting d key row :
  key <> keyInstalled -> roster_of (set_settings (<[key := row]> (settings d)) d) = roster_of d.
Proof. intros Hk. unfold roster_of, installed_of. cbn. by rewrite lookup_insert_ne. Qed.

Lemma roster_mark d now :
  roster_of (set_settings (<[keyInstalled := SettingRow (JBool true) now]> (settings d)) d)
  = mark_installed (roster_of d).
Proof. unfold roster_of, mark_installed, installed_of. cbn. by rewrite lookup_insert_eq. Qed.

Lemma elem_held u k d :
  (u, k) ∈ held_of d <->
  exists rid r, (u, rid) ∈ user_roles d /\ roles d !! rid = Some r /\ Role.Key r = k.
Proof.
  unfold held_of. rewrite elem_of_set_omap. split.
  - intros ([u' rid] & Hp & Hr). cbn in Hr. destruct (roles d !! rid) as [r|] eqn:E; [|done].
    injection Hr as -> Hk. eauto.
  - intros (rid & r & Hp & Hr & Hk). exists (u, rid). cbn. by rewrite Hr, <- Hk.
Qed.

(** The roster of a world, row by row. *)
Lemma account_at w id : Roster.Accounts (part roster_of w) !! id = account_of <$> users (w_db w) !! id.
Proof. apply lookup_fmap. Qed.
Lemma ticket_at w sid : Roster.Tickets (part roster_of w) !! sid = ticket_of <$> user_sessions (w_db w) !! sid.
Proof. apply lookup_fmap. Qed.

(** Other pairs of users and roles make another set of roles held. *)
Lemma roster_held d ur b :
  Roster.Accounts b = Roster.Accounts (roster_of d) -> Roster.Tickets b = Roster.Tickets (roster_of d) ->
  Roster.Installed b = Roster.Installed (roster_of d) ->
  (forall u k, (u, k) ∈ held_of (set_user_roles ur d) <-> (u, k) ∈ Roster.Held b) ->
  roster_of (set_user_roles ur d) = b.
Proof.
  intros Ha Ht Hi Hh. destruct b as [a h t i]. cbn in *. subst. unfold roster_of. f_equal.
  apply set_eq. intros [u k]. apply Hh.
Qed.

Lemma roster_grant `{Postgres} d u key r :
  db_ok d -> r ∈ select (fun r => String.eqb (Role.Key r) key) (roles d) ->
  roster_of (set_user_roles (list_to_set ((fun r => (u, Role.ID r)) <$>
      select (fun r => String.eqb (Role.Key r) key) (roles d)) ∪ user_roles d) d)
  = grant u key (roster_of d).
Proof.
  intros Hd Hr. apply roster_held; [done..|]. intros v k. unfold grant. cbn [Roster.Held roster_of].
  rewrite elem_of_union, elem_of_singleton, !elem_held. cbn [user_roles roles set_user_roles].
  setoid_rewrite elem_of_union. setoid_rewrite elem_of_list_to_set. setoid_rewrite list_elem_of_fmap.
  split.
  - intros (rid & r' & [(x & [= -> ->] & [Hx [i Hi]]%elem_select)|Hin] & Hr' & Hk); [left|right; eauto].
    apply String.eqb_eq in Hx. rewrite (ok_roles _ Hd i x Hi) in Hr'. congruence.
  - intros [[= -> ->]|(rid & r' & Hin & Hr' & Hk)]; [|exists rid, r'; split; auto].
    pose proof Hr as [Hk [i Hi]]%elem_select. apply String.eqb_eq in Hk.
    exists i, r. split; [|done]. left. exists r. split; [|done]. by rewrite (ok_roles _ Hd i r Hi).
Qed.

Lemma roster_replaced d d' u keys :
  replaced u keys d d' -> (forall k, k ∈ keys -> exists rid role, roles d !! rid = Some role /\ Role.Key role = k) ->
  roster_of d' = assign u keys (roster_of d).
Proof.
  intros [-> Hp] Hall. apply roster_held; [done..|]. intros v k. unfold assign. cbn [Roster.Held roster_of].
  rewrite elem_of_union, elem_of_filter, elem_of_list_to_set, list_elem_of_fmap, !elem_held.
  cbn [user_roles roles set_user_roles] in *. setoid_rewrite Hp. cbn. split.
  - intros (rid & r & [[Hv Hin]|[-> (r' & Hr' & Hk')]] & Hr & Hk); [right; eauto 10|left].
    exists k. split; [done|]. congruence.
  - intros [(k' & [= -> ->] & Hk)|(Hv & rid & r & Hin & Hr & Hk)]; [|eauto 10].
    destruct (Hall k' Hk) as (rid & r & Hr & Hrk). exists rid, r. split; [|done]. right. split; [done|].
    exists r. by rewrite Hrk.
Qed.

(** ** Requests that leave the roster alone *)

#[export] Instance lift_roster {A} b (s : stmt A) :
  StmtFixes roster_of s -> StmtKeeps (fun d => roster_of d = b) s.
Proof. apply (fixes_keeps roster_of (fun x => x = b)). Qed.

#[export] Instance forum_name_roster v : StmtFixes roster_of (upsert_setting keyForumName v).
Proof.
  intros sv d a d'. unfold upsert_setting. destruct (negb _); [done|].
  intros (_ & _ & _ & [= <- <-])%checked_Ok. by apply roster_put_setting.
Qed.

(** The requests that can change the roster. *)
Definition joining (ep : endpoint) : bool :=
  match ep with
  | PostInstall _ | PostRegister _ | PostLogin _ | PostRefresh | PostLogout | PostAvatar _
  | PatchUser _ _ => true
  | _ => false
  end.

Section calm.
Context `{Postgres, Argon2, Uuid, Jwt, Unicode}.

Lemma serve_keeps_roster d c ep ui : joining ep = false -> Calm roster_of (serve_as d c ep ui).
Proof. intros Hj. destruct ep; try done; calm_tac. Qed.

End calm.

(** ** The changes *)

Section membership.
Context `{Postgres, Argon2, Uuid, Jwt, Unicode, !Argon2Laws}.
Context (e : env) (Hscan : honest_scans e) (srv : deps) (Hpar : params_ok (hasher srv)).

(** The requests that are sent. *)
Context (sent : context -> endpoint -> Prop).

Abbreviation lawful := (lawful e change srv sent).
Abbreviation part := (part roster_of).
Abbreviation legal := (legal part intact).
Abbreviation later := (@later Roster.t (drift roster_of persists)).
Abbreviation wp := (wp e part intact (drift roster_of persists) lawful).
Abbreviation lawfully := (lawfully roster_of persists lawful).

(** The row that a query answers. *)
Lemma selected {R} w f (m : gmap uuid R) r :
  head (sv_scan (server_at e w) R (select f m)) = Some r -> f r = true /\ exists k, m !! k = Some r.
Proof.
  intros Hr. apply elem_select. rewrite <- (Hscan (w_tick w) R (select f m)).
  change (env_scan e (w_tick w)) with (sv_scan (server_at e w)). destruct (sv_scan _ _ _); [done|].
  injection Hr as ->. by left.
Qed.

Abbreviation still := (wp_calmly roster_of persists).

Section as_user.
Context (c : context) (ui : UserInfo.t) (ep : endpoint) (Hsent : sent c ep).
Context (Hid : guard_of ep <> Public -> identified e srv c ui).
Context (Hadm : guard_of ep = AdminOnly -> hasRole (UserInfo.Roles ui) [RoleAdmin] = true).

Lemma changed_lawfully w h d' : change c ui h (part w) ep (roster_of d') -> lawfully w h d'.
Proof.
  intros Hc. right. split; [by eapply change_persists|]. by eapply lawful_change.
Qed.

(** *** Accounts and roles *)

(** A new row of [users]. *)
Lemma create_wp nu x (Q : result User.t -> config -> Prop) :
  (forall w h id, later x (w, h) -> legal (w, h) -> Roster.Accounts (part w) !! id = None ->
     vacant (NewUser.Username nu) (NewUser.Email nu) (part w) ->
     change c ui h (part w) ep (put_account id
       (newcomer (NewUser.Username nu) (NewUser.Email nu) (NewUser.PasswordHash nu)) (part w))) ->
  (forall er y, later x y -> Q (Err er) y) ->
  (forall u y, later x y -> legal y -> joined y.2 (part y.1) (User.ID u) (NewUser.Username nu) -> Q (Ok u) y) ->
  wp x (UserStore.Create nu) Q.
Proof.
  intros Hch Herr Hok. unfold UserStore.Create. apply wp_bind, wp_change; [apply _|apply lawful_same|apply _|..].
  - intros er y Hl. cbn [Scan]. destruct (isUniqueViolation (Some er)); by apply Herr.
  - intros w h o d' Hl Hg Hs. unfold insert_user in Hs. set (id := sv_uuid _) in Hs.
    apply checked_Ok in Hs as (_ & [[Hk%negb_true_iff%has_key_false He]%andb_true_iff Hn]%andb_true_iff & _ & [= <- <-]).
    assert (Hnone : Roster.Accounts (part w) !! id = None).
    { by rewrite account_at, Hk. }
    split.
    + apply changed_lawfully. rewrite roster_put_user. apply Hch; [done|done|done|].
      intros k a. rewrite account_at, fmap_Some. intros (u & Hu & ->). rewrite unique_ok_true in He, Hn. 
      assert (Hki : k <> id) by congruence. split; [apply (Hn k u Hu Hki)|apply (He k u Hu Hki)].
    + intros y Hl2 Hg2 Hy. cbn. apply Hok; [by etrans|done|]. split.
      * exists (account_of (User.Mk id (NewUser.Username nu) (NewUser.Email nu) (NewUser.PasswordHash nu)
          (NewUser.DisplayName nu) "" "active" (sv_now (server_at e w)) (sv_now (server_at e w)) None)).
        split; [|done]. rewrite account_at, Hy. cbn. by rewrite lookup_insert_eq.
      * exists (part w). split; [|done]. apply (elem_later _ _ _ y _ Hl2). exact (seen_now roster_of persists (w, h) Hg).
Qed.

(** A role for an account. *)
Lemma grant_wp u key x (Q : result unit -> config -> Prop) :
  (forall w h, later x (w, h) -> legal (w, h) -> change c ui h (part w) ep (grant u key (part w))) ->
  (forall r y, later x y -> Q r y) ->
  wp x (UserStore.AssignRole u key) Q.
Proof.
  intros Hch HQ. unfold UserStore.AssignRole. apply wp_bind, wp_change; [apply _|apply lawful_same|apply _|..].
  - intros er y Hl. by apply HQ.
  - intros w h n d' Hl Hg Hs. apply checked_Ok in Hs as (_ & _ & _ & [= _ <-]). split.
    2: { intros y Hl2 _ _. apply HQ. by etrans. }
    destruct (select (fun r => String.eqb (Role.Key r) key) (roles (w_db w))) as [|r l] eqn:Er.
    + left. unfold Views.part. f_equal. cbn. rewrite (left_id_L ∅ (∪)). by destruct (w_db w).
    + rewrite <- Er. apply changed_lawfully. rewrite (roster_grant _ _ _ r); [by apply Hch|apply Hg|].
      rewrite Er. by left.
Qed.

(** An update of a row of [users]. *)
Lemma update_wp id param f g x (Q : result (option User.t) -> config -> Prop) :
  (forall sv u, User.ID (f sv u) = User.ID u /\ User.Username (f sv u) = User.Username u /\
     User.Email (f sv u) = User.Email u) ->
  (forall sv u, account_of (f sv u) = g (account_of u)) ->
  (forall w h a, later x (w, h) -> Roster.Accounts (part w) !! id = Some a ->
     change c ui h (part w) ep (put_account id (g a) (part w))) ->
  (forall r y, later x y -> Q r y) ->
  wp x (exec (update_user_row id param f)) Q.
Proof.
  intros Hf Hg Hch HQ. apply wp_change; [apply _|apply lawful_same|by apply update_user_row_keeps|..].
  - intros er y Hl. by apply HQ.
  - intros w h o d' Hl Hw Hs. unfold update_user_row in Hs. apply checked_Ok in Hs as (_ & _ & _ & Hs).
    split; [|intros y Hl2 _ _; apply HQ; by etrans].
    destruct (users (w_db w) !! id) as [u|] eqn:Hu; injection Hs as <- <-; [|by left].
    apply changed_lawfully. rewrite roster_put_user, Hg. apply Hch; [done|]. by rewrite account_at, Hu.
Qed.

(** *** Sessions *)

Lemma issue_wp s user ua ip x (Q : result Tokens.t -> config -> Prop) :
  (forall w h sid digest, later x (w, h) -> legal (w, h) -> unheard sid digest (part w) ->
     change c ui h (part w) ep (put_ticket sid (Ticket.Mk (User.ID user) digest false) (part w))) ->
  (forall r y, Q r y) ->
  wp x (issueTokens s user ua ip) Q.
Proof.
  intros Hch HQ. unfold issueTokens.
  apply wp_bind, still; [calm_tac|]. intros [roles|er] y1 L1; [|apply HQ].
  apply wp_bind, still; [calm_tac|]. intros [access|er] y2 L2; [|apply HQ].
  apply wp_bind, still; [calm_tac|]. intros [refresh|er] y3 L3; [|apply HQ].
  apply wp_bind, still; [calm_tac|]. intros now y4 L4. apply wp_bind.
  unfold SessionStore.Create. apply wp_bind, wp_change; [apply _|apply lawful_same|apply _|..].
  - intros er y5 _. apply HQ.
  - intros w h o d' Hl Hg Hs. unfold insert_session in Hs. destruct (inet_param _) as [ip'|]; [|done].
    apply checked_Ok in Hs as (_ & [Hk%negb_true_iff%has_key_false Hn]%andb_true_iff & _ & [= <- <-]).
    split; [|intros y5 _ _ _; apply HQ].
    apply changed_lawfully. rewrite roster_put_session. apply Hch; [|done|].
    + do 3 (etrans; [eassumption|]). by etrans.
    + split; [rewrite ticket_at; apply fmap_None; exact Hk|]. intros sid t. rewrite ticket_at, fmap_Some.
      intros (s' & Hs' & ->). rewrite unique_ok_true in Hn. apply (Hn sid s' Hs'). congruence.
Qed.

(** The session of a refresh token, found unspent. *)
Definition found (digest : string) (s : Session.t) (b : Roster.t) : Prop :=
  exists t, Roster.Tickets b !! Session.ID s = Some t /\ Ticket.Digest t = digest /\
    Ticket.Spent t = false /\ Ticket.Owner t = Session.UserID s.

Lemma find_wp digest x (Q : result Session.t -> config -> Prop) :
  (forall er y, Q (Err er) y) ->
  (forall s y, later x y -> legal y -> found digest s (part y.1) -> Q (Ok s) y) ->
  wp x (SessionStore.GetByTokenHash digest) Q.
Proof.
  intros Herr Hok. unfold GetByTokenHash. apply wp_bind, wp_look; [apply _|apply lawful_same|apply _|..].
  - intros er y _ _ _. cbn [Scan]. destruct (errors_Is er pgx_ErrNoRows); apply Herr.
  - intros o y w Hl Hg Hs. apply checked_Ok in Hs as (_ & _ & _ & [= Ho]).
    destruct o as [s|]; [|apply Herr]. cbn. apply Hok; [done|done|].
    apply selected in Ho as [Ha [k Hk]]. rewrite <- (ok_sessions _ (proj1 Hg) k s Hk) in Hk.
    unfold active in Ha. apply andb_true_iff in Ha as [[Ha%String.eqb_eq Hr]%andb_true_iff _].
    exists (ticket_of s). rewrite ticket_at, Hk. split_and!; [done|done| |done]. cbn. by destruct (Session.RevokedAt s).
Qed.

(** The session is spent, when it is not already. *)
Lemma revoke_wp id at_ x (Q : result unit -> config -> Prop) :
  (forall w h t, later x (w, h) -> legal (w, h) -> Roster.Tickets (part w) !! id = Some t ->
     Ticket.Spent t = false -> change c ui h (part w) ep (put_ticket id (spend t) (part w))) ->
  (forall er y, Q (Err er) y) ->
  (forall y, later x y -> legal y ->
     (exists t, Roster.Tickets (part y.1) !! id = Some t /\ Ticket.Spent t = true) -> Q (Ok tt) y) ->
  wp x (Revoke id at_) Q.
Proof.
  intros Hch Herr Hok. unfold Revoke. apply wp_bind, wp_change; [apply _|apply lawful_same|apply _|..].
  - intros er y _. apply Herr.
  - intros w h n d' Hl Hg Hs. unfold update_unrevoked in Hs.
    destruct (user_sessions (w_db w) !! id) as [s|] eqn:Hk.
    2: { injection Hs as <- <-. split; [by left|]. intros y _ _ _. apply Herr. }
    destruct (Session.RevokedAt s) eqn:Hr; injection Hs as <- <-.
    { split; [by left|]. intros y _ _ _. apply Herr. }
    split.
    + apply changed_lawfully. rewrite roster_put_session.
      change (ticket_of (with_revoked at_ s)) with (spend (ticket_of s)).
      apply Hch; [done|done|by rewrite ticket_at, Hk|]. cbn. by rewrite Hr.
    + intros y Hl2 Hg2 Hy. apply Hok; [by etrans|done|]. exists (ticket_of (with_revoked at_ s)).
      rewrite ticket_at, Hy. cbn. by rewrite lookup_insert_eq.
Qed.

(** A ticket that was found unspent is still of its owner and digest. *)
Lemma found_later digest s y w h :
  later y (w, h) -> found digest s (part y.1) ->
  exists t, Roster.Tickets (part w) !! Session.ID s = Some t /\ Ticket.Digest t = digest /\
    Ticket.Owner t = Session.UserID s.
Proof.
  intros Hl (t & Ht & Hd & _ & Ho). destruct (persists_ticket _ _ (kept roster_of persists y w h Hl) _ t Ht)
    as (t' & Ht' & Ho' & Hd' & _). exists t'. split_and!; congruence.
Qed.

(** Who joined stays. *)
Lemma joined_later y w h id name :
  later y (w, h) -> joined y.2 (part y.1) id name -> joined h (part w) id name.
Proof.
  intros Hl [(a & Ha & Hn) (b0 & Hb & Hb0)].
  destruct (persists_account _ _ (kept roster_of persists y w h Hl) id a Ha) as (a' & Ha' & Hn' & _).
  split; [exists a'; split; congruence|]. exists b0. split; [|done]. exact (elem_later _ _ y (w, h) b0 Hl Hb).
Qed.

(** The accounts that are read. *)
Lemma account_wp param f x (Q : result User.t -> config -> Prop) :
  (forall er y, later x y -> Q (Err er) y) ->
  (forall u y, later x y -> legal y -> users (w_db y.1) !! User.ID u = Some u -> f u = true -> Q (Ok u) y) ->
  wp x (row <- exec (select_user_where param f) ;; Ret (scanOne row)) Q.
Proof.
  intros Herr Hok. apply wp_bind, wp_look; [apply _|apply lawful_same|apply _|..].
  - intros er y Hl _ _. unfold scanOne. cbn [Scan]. by destruct (errors_Is er pgx_ErrNoRows); apply Herr.
  - intros o y w Hl Hg Hs. apply checked_Ok in Hs as (_ & _ & _ & [= Ho]).
    destruct o as [u|]; [|by apply Herr]. apply selected in Ho as [Hf [k Hk]].
    apply Hok; [done|done| |done]. by rewrite (ok_users _ (proj1 Hg) k u Hk).
Qed.

Lemma user_wp id x (Q : result User.t -> config -> Prop) :
  (forall er y, later x y -> Q (Err er) y) ->
  (forall u y, later x y -> legal y -> users (w_db y.1) !! id = Some u -> User.ID u = id -> Q (Ok u) y) ->
  wp x (UserStore.GetByID id) Q.
Proof.
  intros Herr Hok. apply wp_bind, wp_look; [apply _|apply lawful_same|apply _|..].
  - intros er y Hl _ _. unfold scanOne. cbn [Scan]. by destruct (errors_Is er pgx_ErrNoRows); apply Herr.
  - intros o y w Hl Hg [= Ho]. destruct o as [u|]; [|by apply Herr].
    apply Hok; [done|done|done|]. by apply (ok_users _ (proj1 Hg)).
Qed.

(** The hash of a password. *)
Lemma hash_wp pw x (Q : result string -> config -> Prop) :
  (forall er y, later x y -> Q (Err er) y) ->
  (forall enc y, later x y -> Verify pw enc = Some (Ok true) -> Q (Ok enc) y) ->
  wp x (Hash (hasher srv) pw) Q.
Proof.
  intros Herr Hok w h Hl Hg.
  pose proof (action_tick roster_of persists lawful lawful_same w h Hg) as Hact. split; [exact Hact|].
  assert (Hl2 : later x (push_view part (tick w) h)) by (etrans; [exact Hl|apply later_push, Hact]).
  assert (Hver : forall enc, (run e (Hash (hasher srv) pw) w).1 = Ok enc -> Verify pw enc = Some (Ok true)).
  { intros enc He. eapply (Hash_verifies _ _ _ w); [exact Hpar|]. rewrite <- He. apply surjective_pairing. }
  revert Hver. unfold Hash. cbn. destruct (env_rand _ _ _) as [salt|]; [|intros _; by apply Herr].
  destruct (IDKey _ _ _ _ _ _); intros Hver; [apply Hok|apply Herr]; try done. by apply Hver.
Qed.

(** Whether the forum is installed. *)
Lemma status_wp x (Q : result InstallStatus.t -> config -> Prop) :
  (forall er y, Q (Err er) y) ->
  (forall st y, later x y -> (InstallStatus.Installed st = false ->
     exists b0, b0 ∈ y.2 /\ Roster.Installed b0 = false) -> Q (Ok st) y) ->
  wp x Status Q.
Proof.
  intros Herr Hok. unfold Status, SettingsStore.Get.
  apply wp_bind, wp_bind, wp_look; [apply _|apply lawful_same|apply _|..].
  - intros er y Hl _ Her. assert (Hn : errors_Is er pgx_ErrNoRows = false /\ errors_Is er store_ErrNotFound = false).
    { destruct Her as [->|[w Hs]]; [done|]. unfold select_setting, checked in Hs.
      by destruct (negb _); [injection Hs as <-|]. }
    cbn [Scan]. rewrite (proj1 Hn). cbn. rewrite (proj2 Hn). apply Herr.
  - intros o y w Hl Hg Hs. apply checked_Ok in Hs as (_ & _ & _ & [= Ho]).
    assert (Hname : forall b, (b = false -> Roster.Installed (part y.1) = false) -> wp y (status_name b) Q).
    { intros b Hb. 
      assert (Hst : forall st z, later y z -> InstallStatus.Installed st = b -> Q (Ok st) z).
      { intros st z Hz <-. apply Hok; [by etrans|]. intros Hi. exists (part y.1). split; [|auto].
        apply (elem_later _ _ _ z _ Hz). exact (seen_now roster_of persists y Hg). }
      unfold status_name. apply wp_bind, still; [calm_tac|]. intros [raw|er] z Hz.
      - destruct (Unmarshal_string raw); [by apply Hst|apply Herr].
      - destruct (negb _); [apply Herr|by apply Hst]. }
    assert (Hi : Roster.Installed (part y.1) = match o with Some (JBool b) => b | _ => false end).
    { unfold Views.part, roster_of, installed_of. cbn. subst o.
      by destruct (settings (w_db y.1) !! keyInstalled). }
    destruct o as [raw|]; cbn [Scan].
    + destruct raw as [b| |]; cbn; [|apply Herr..]. apply Hname. by intros ->.
    + cbn. by apply Hname.
Qed.

(** *** The services *)

Lemma register_wp req x Q :
  ep = PostRegister (Some req) -> (forall a y, Q a y) ->
  wp x (Register (auth_svc srv) (registerRequest.username req) (registerRequest.email req)
    (registerRequest.password req)) Q.
Proof.
  intros Hep HQ. unfold Register.
  destruct (matches usernameRe _) eqn:Hn; cbn [negb]; [|apply HQ].
  destruct (matches emailRe _) eqn:Hm; cbn [negb]; [|apply HQ].
  destruct (Z.ltb_spec (len (TrimSpace (registerRequest.password req))) 8) as [|Hp]; [apply HQ|].
  apply wp_bind, hash_wp; [intros er y _; apply HQ|]. intros enc y _ Hv.
  apply wp_bind, create_wp.
  - intros w h id _ _ Hnone Hvac. rewrite Hep. by apply change_register.
  - intros er z _. destruct (errors_Is er store_ErrConflict); apply HQ.
  - intros u z _ _ Hj. apply wp_bind, grant_wp; [|intros [[]|er] t _; apply HQ].
    intros w h Hl _. rewrite Hep. apply change_member. by eapply joined_later.
Qed.

Lemma login_user_wp req u ua ip x Q :
  ep = PostLogin (Some req) -> (forall a y, Q a y) ->
  legal x -> users (w_db x.1) !! User.ID u = Some u ->
  lower (User.Username u) = lower (TrimSpace (loginRequest.identifier req)) \/
  lower (User.Email u) = lower (TrimSpace (loginRequest.identifier req)) ->
  wp x (login_user (auth_svc srv) u (loginRequest.password req) ua ip) Q.
Proof.
  intros Hep HQ Hx Hu Hn. unfold login_user.
  destruct (String.eqb_spec (User.Status u) UserStatusActive) as [Hact|]; cbn [negb]; [|apply HQ].
  destruct (Verify _ _) as [[[]|er]|] eqn:Hv; try apply HQ. apply issue_wp; [|exact HQ].
  intros w h sid digest Hl _ Hun. rewrite Hep. apply (change_login _ _ _ _ _ _ (account_of u)); try done.
  exists (part x.1). split_and!; [exact (seen roster_of persists x w h Hx Hl)| |done]. by rewrite account_at, Hu.
Qed.

Lemma login_wp req ua ip x Q :
  ep = PostLogin (Some req) -> (forall a y, Q a y) ->
  wp x (Login (auth_svc srv) (loginRequest.identifier req) (loginRequest.password req) ua ip) Q.
Proof.
  intros Hep HQ. unfold Login. apply wp_bind, account_wp.
  - intros er y _. destruct (errors_Is er store_ErrNotFound); [|apply HQ].
    apply wp_bind, account_wp; [intros er' z _; apply HQ|]. intros u z _ Hz Hu Hm%String.eqb_eq.
    apply login_user_wp; auto.
  - intros u y _ Hy Hu Hm%String.eqb_eq. apply login_user_wp; auto.
Qed.

Lemma refresh_wp token ua ip x Q :
  ep = PostRefresh -> refresh_cookie c = Some token -> token <> "" -> (forall a y, Q a y) ->
  wp x (Refresh (auth_svc srv) token ua ip) Q.
Proof.
  intros Hep Hc Hne HQ. unfold Refresh, HashRefreshToken.
  apply wp_bind, find_wp; [intros er y; destruct (errors_Is er store_ErrNotFound); apply HQ|].
  intros s y _ Hy Hf.
  assert (Hrev : forall w h t, later y (w, h) -> Roster.Tickets (part w) !! Session.ID s = Some t ->
    Ticket.Spent t = false -> change c ui h (part w) ep (put_ticket (Session.ID s) (spend t) (part w))).
  { intros w h t Hl Ht Hsp. rewrite Hep. apply (change_revoke _ _ _ _ token); [by left|done|done|done| |done].
    destruct (found_later _ _ _ _ _ Hl Hf) as (t' & Ht' & Hd & _). unfold digest_of. congruence. }
  apply wp_bind, user_wp.
  - intros er y1 Hy1. destruct (errors_Is er store_ErrNotFound); [|apply HQ].
    apply wp_bind, still; [calm_tac|]. intros now y2 Hy2. apply wp_bind, revoke_wp; [|intros; apply HQ..].
    intros w h t Hl _. apply Hrev. etrans; [exact Hy1|]. by etrans.
  - intros u y1 Hy1 Hg1 Hu Hid'.
    destruct (String.eqb_spec (User.Status u) UserStatusActive) as [Hact|]; cbn [negb]; [|apply HQ].
    apply wp_bind, still; [calm_tac|]. intros now y2 Hy2. apply wp_bind, revoke_wp; [|intros; apply HQ|].
    { intros w h t Hl _. apply Hrev. etrans; [exact Hy1|]. by etrans. }
    intros y3 Hy3 Hg3 (t3 & Ht3 & Hs3). apply issue_wp; [|exact HQ].
    intros w h sid digest Hl _ Hun. rewrite Hep.
    destruct Hf as (t0 & Ht0 & Hd0 & Hs0 & Ho0).
    destruct (persists_ticket _ _ (kept roster_of persists y3 w h Hl) _ t3 Ht3) as (t1 & Ht1 & _ & _ & Hs1).
    apply (change_rotate _ _ _ _ token (Session.ID s) (part y.1) t0 t1 _ (account_of u)); try done; auto.
    + apply (seen roster_of persists _ w h); [done|]. etrans; [exact Hy1|]. etrans; [exact Hy2|]. by etrans.
    + congruence.
    + exists (part y1.1). split_and!; [|by rewrite account_at, Hid', Hu|done].
      apply (seen roster_of persists _ w h); [done|]. etrans; [exact Hy2|]. by etrans.
Qed.

Lemma logout_wp token x Q :
  ep = PostLogout -> refresh_cookie c = Some token -> token <> "" -> (forall a y, Q a y) ->
  wp x (Logout token) Q.
Proof.
  intros Hep Hc Hne HQ. unfold Logout, HashRefreshToken. apply wp_bind, find_wp; [intros er y; apply HQ|].
  intros s y _ Hy Hf. apply wp_bind, still; [calm_tac|]. intros now y1 Hy1.
  apply wp_bind, revoke_wp; [|intros; apply HQ..]. intros w h t Hl _ Ht Hsp. rewrite Hep.
  apply (change_revoke _ _ _ _ token); [by right|done|done|done| |done].
  destruct (found_later (digest_of token) s y w h) as (t' & Ht' & Hd & _); [by etrans|exact Hf|congruence].
Qed.

Lemma standing_wp raw req id x Q :
  ep = PatchUser raw (Some req) -> uuid_Parse raw = Some id ->
  (forall a y, later x y -> Q a y) ->
  wp x (apply_status id (updateUserRequest.status req)) Q.
Proof.
  intros Hep Hraw HQ. unfold apply_status. destruct (updateUserRequest.status req) as [st|] eqn:Hst; [|by apply HQ].
  destruct (existsb (String.eqb st) allowedStatus) eqn:Hall; cbn [negb]; [|by apply HQ].
  apply wp_bind. unfold UpdateStatus. apply wp_bind.
  apply (update_wp _ _ _ (with_standing st)); [done|done|..].
  - intros w h a Hl Ha. rewrite Hep. apply change_standing; try done.
    apply existsb_true_iff in Hall as (st' & Hin & ->%String.eqb_eq). done.
  - intros r y Hl. cbn. destruct (scanOne r); by apply HQ.
Qed.

Lemma roles_wp raw req id x Q :
  ep = PatchUser raw (Some req) -> uuid_Parse raw = Some id -> (forall a y, Q a y) ->
  wp x (apply_roles id (updateUserRequest.roles req)) Q.
Proof.
  intros Hep Hraw HQ. unfold apply_roles. destruct (updateUserRequest.roles req) as [keys|] eqn:Hk; [|apply HQ].
  destruct (length keys =? 0); [apply HQ|]. destruct (existsb _ keys) eqn:Hall; [apply HQ|].
  apply wp_bind. unfold UpdateRoles. apply wp_commit; [apply _|apply lawful_same| | | |].
  - unfold update_roles_body. apply _.
  - unfold update_roles_body. apply _.
  - intros er y _. apply HQ.
  - intros w h [] w0 w1 Hl Hg H0 Hr. split; [|intros y _ _ _; apply HQ].
    assert (Hd : db_ok (w_db w0)) by (rewrite H0; apply Hg).
    destruct (run_update_roles_body e id _ w0 w1 Hd Hr) as (Hrep & _ & Hex). rewrite H0 in Hrep, Hex.
    apply changed_lawfully. rewrite (roster_replaced _ _ _ _ Hrep Hex), Hep. apply change_roles; [done|done|].
    intros k Hin. rewrite existsb_false_iff in Hall. specialize (Hall k Hin). apply negb_false_iff in Hall.
    apply existsb_true_iff in Hall as (k' & Hk' & ->%String.eqb_eq). done.
Qed.

Lemma update_user_wp raw req id x Q :
  ep = PatchUser raw (Some req) -> uuid_Parse raw = Some id -> (forall a y, Q a y) ->
  wp x (UpdateUser id (updateUserRequest.roles req) (updateUserRequest.status req)) Q.
Proof.
  intros Hep Hraw HQ. unfold UpdateUser. apply wp_bind, (standing_wp raw); [done|done|].
  intros [[]|er] y _; [|apply HQ]. apply wp_bind, (roles_wp raw); [done|done|].
  intros [[]|er] z; [|apply HQ]. apply still; [calm_tac|intros; apply HQ].
Qed.

Lemma avatar_wp f x Q :
  ep = PostAvatar (Some f) -> (forall a y, Q a y) ->
  wp x (UploadAvatar (media_svc srv) (UserInfo.ID ui) (upload.Filename f) (upload.ContentType f)
    (upload.Size f) (upload.data f)) Q.
Proof.
  intros Hep HQ. unfold UploadAvatar. destruct (_ <=? 0)%Z; [apply HQ|]. destruct (_ <? _)%Z; [apply HQ|].
  destruct (negb _); [apply HQ|]. apply wp_bind, still; [unfold AvatarKey; calm_tac|]. intros key y _.
  apply wp_bind, still; [unfold Upload; calm_tac|]. intros [[]|er] z _; [|apply HQ].
  unfold UpdateAvatar. apply wp_bind.
  apply (update_wp _ _ _ (Roster.with_avatar (mediaURL (media_svc srv) key))); [done|done| |intros; apply HQ].
  intros w h a _ Ha. rewrite Hep. by apply change_avatar.
Qed.

Lemma found_wp inp x Q :
  ep = PostInstall (Some inp) -> (forall a y, Q a y) -> wp x (Setup (hasher srv) inp) Q.
Proof.
  intros Hep HQ. unfold Setup. apply wp_bind, status_wp; [intros; apply HQ|]. intros st y Hy Hst.
  destruct (InstallStatus.Installed st); [apply HQ|]. destruct (Hst eq_refl) as (b0 & Hb0 & Hi).
  assert (Hseen : forall w h, later y (w, h) -> b0 ∈ h) by (intros w h Hl; exact (elem_later _ _ y (w, h) b0 Hl Hb0)).
  cbv zeta. destruct (setup_invalid _ _ _ _) eqn:Hok; [apply HQ|].
  apply wp_bind, hash_wp; [intros; apply HQ|]. intros enc y1 L1 Hv.
  apply wp_bind, create_wp.
  - intros w h id Hl _ Hnone Hvac. rewrite Hep. apply (change_install _ _ _ _ _ _ _ b0); try done.
    apply (Hseen w). by etrans.
  - intros er y2 _. destruct (errors_Is er store_ErrConflict); apply HQ.
  - intros u y2 L2 _ Hj. unfold AddMemberRole.
    assert (Hgrant : forall key z Q', key ∈ [RoleMember; RoleAdmin] -> later y2 z ->
      (forall r t, later y2 t -> Q' r t) -> wp z (AssignRole (User.ID u) key) Q').
    { intros key z Q' Hk Hz HQ'. apply grant_wp; [|intros r t Ht; apply HQ'; by etrans].
      intros w h Hl _. assert (Hl2 : later y2 (w, h)) by by etrans.
      rewrite Hep. apply (change_founder _ _ _ _ _ _ _ b0); [|done|by eapply joined_later|done].
      apply (Hseen w). etrans; [exact L1|]. by etrans. }
    apply wp_bind, Hgrant; [by left|done|]. intros [[]|er] y3 L3; [|apply HQ].
    apply wp_bind, Hgrant; [by right; left|done|]. intros [[]|er] y4 L4; [|apply HQ].
    apply wp_bind. unfold SettingsStore.Set_.
    apply wp_bind, wp_change; [apply _|apply lawful_same|apply _|intros; apply HQ|].
    intros w h [] d' Hl _ Hs. unfold upsert_setting in Hs. cbn [Marshal] in Hs.
    destruct (negb _); [done|]. apply checked_Ok in Hs as (_ & _ & _ & [= <-]). split.
    + apply changed_lawfully. rewrite roster_mark, Hep. apply (change_mark _ _ _ _ _ b0); [|done].
      apply (Hseen w). do 2 (etrans; [eassumption|]). by etrans.
    + intros y5 _ _ _. apply wp_bind, still; [calm_tac|]. intros [[]|er] y6 _; apply HQ.
Qed.

End as_user.

(** *** Every request *)

Lemma serve_changes c ui ep x :
  sent c ep -> (guard_of ep <> Public -> identified e srv c ui) ->
  (guard_of ep = AdminOnly -> hasRole (UserInfo.Roles ui) [RoleAdmin] = true) ->
  wp x (serve_as srv c ep ui) done_with.
Proof.
  intros Hs Hid Hadm. destruct (joining ep) eqn:Hj; [|apply still; [by apply serve_keeps_roster|done]].
  destruct ep; try done; cbn [serve_as]; clear Hj;
    try (destruct body as [req|]; [|done]); unfold install_Create, auth_Register, auth_Login, decoded.
  - eapply wp_bind, found_wp; [exact Hs|exact Hid|exact Hadm|done|]. intros a y. apply still; [calm_tac|done].
  - eapply wp_bind, register_wp; [exact Hs|exact Hid|exact Hadm|done|]. intros a y. apply still; [calm_tac|done].
  - eapply wp_bind, login_wp; [exact Hs|exact Hid|exact Hadm|done|]. intros a y. apply still; [calm_tac|done].
  - unfold auth_Refresh. destruct (refresh_cookie c) as [[|ch token]|] eqn:Hc; [done| |done].
    eapply wp_bind, refresh_wp; [exact Hs|exact Hid|exact Hadm|done|exact Hc|done|].
    intros a y. apply still; [calm_tac|done].
  - unfold auth_Logout. destruct (refresh_cookie c) as [[|ch token]|] eqn:Hc; [done| |done].
    eapply wp_bind, logout_wp; [exact Hs|exact Hid|exact Hadm|done|exact Hc|done|].
    intros a y. apply still; [calm_tac|done].
  - unfold media_UploadAvatar, decoded, answer. destruct file as [f|]; [|done].
    eapply wp_bind, avatar_wp; [exact Hs|exact Hid|exact Hadm|done|]. intros a y. apply still; [calm_tac|done].
  - unfold admin_UpdateUser, pathID, decoded. destruct (uuid_Parse userID) as [id|] eqn:Hraw; [|done]. destruct body as [req|]; [|done].
    assert (Hup : wp x (answer (UpdateUser id (updateUserRequest.roles req) (updateUserRequest.status req))
      (fun u => writeJSON 200 (PUserWithRoles u))) done_with).
    { eapply wp_bind, update_user_wp; [exact Hs|exact Hid|exact Hadm|done|exact Hraw|].
      intros a y. apply still; [calm_tac|done]. }
    by destruct (updateUserRequest.roles req), (updateUserRequest.status req).
Qed.

Lemma handle_changes c ep x : sent c ep -> wp x (handle srv c ep) done_with.
Proof. apply (handle_lawful roster_of persists). intros c' ui ep' y. apply serve_changes. Qed.

(** The roster of [w'] has come from that of [w] by lawful changes. *)
Definition roster_history (w w' : world) (h : list Roster.t) : Prop :=
  history lawful (roster_of (w_db w)) (roster_of (w_db w') :: h).

Lemma roster_past w ps' w' :
  db_ok (w_db w) -> rtc (step (sent_program srv sent) e) ([], w) (ps', w') ->
  exists h, roster_history w w' h.
Proof. apply (sent_history roster_of persists). intros c ep x. apply handle_changes. Qed.


(** ** What follows for any history *)

(** An administrator asked for the role. *)
Definition promoted (u : uuid) (key : string) : Prop :=
  exists c ui raw req keys, sent c (PatchUser raw (Some req)) /\ identified e srv c ui /\
    hasRole (UserInfo.Roles ui) [RoleAdmin] = true /\ uuid_Parse raw = Some u /\
    updateUserRequest.roles req = Some keys /\ key ∈ ToLower unicode_lower <$> keys.

(** An administrator asked for the account to be active. *)
Definition revived (u : uuid) : Prop :=
  exists c ui raw req, sent c (PatchUser raw (Some req)) /\ identified e srv c ui /\
    hasRole (UserInfo.Roles ui) [RoleAdmin] = true /\ uuid_Parse raw = Some u /\
    updateUserRequest.status req = Some UserStatusActive.

Lemma roles_in_history s0 h :
  history lawful s0 h -> Roster.Installed s0 = true ->
  Forall (fun b => Roster.Installed b = true /\ forall u key, key <> RoleMember ->
    (u, key) ∈ Roster.Held b -> (u, key) ∈ Roster.Held s0 \/ promoted u key) h.
Proof.
  intros Hh Hi. induction Hh as [|h s s' Hh IH Hl]; [by constructor; [auto|]|].
  constructor; [|done]. pose proof (Forall_inv IH) as [His Hheld].
  assert (Hno : forall b0, b0 ∈ s :: h -> Roster.Installed b0 = false -> False).
  { intros b0 Hb Hf. rewrite Forall_forall in IH. destruct (IH b0 Hb). congruence. }
  destruct Hl as [|c ui ep s' Hs Hid Hadm Hc]; [done|].
  destruct Hc; try (by exfalso; eauto); cbn [put_account put_ticket Roster.Installed Roster.Held grant assign];
    try done; (split; [done|]; intros u key Hkey).
  - intros [[= -> ->]%elem_of_singleton|Hin]%elem_of_union; [done|by apply Hheld].
  - rewrite elem_of_union, elem_of_list_to_set, elem_of_filter, list_elem_of_fmap.
    intros [(k & [= -> ->] & Hk)|[_ Hin]]; [right|by apply Hheld].
    exists c, ui, raw, req, keys. split_and!; try done; [by apply Hid|by apply Hadm].
Qed.

Lemma tickets_in_history s0 h id a0 :
  history lawful s0 h -> Roster.Accounts s0 !! id = Some a0 -> Account.Standing a0 <> UserStatusActive ->
  ~ revived id ->
  Forall (fun b => (exists a, Roster.Accounts b !! id = Some a /\ Account.Standing a <> UserStatusActive) /\
    forall sid t, Roster.Tickets b !! sid = Some t -> Ticket.Owner t = id ->
      is_Some (Roster.Tickets s0 !! sid)) h.
Proof.
  intros Hh Ha Hst Hrev. induction Hh as [|h s s' Hh IH Hl].
  { constructor; [|done]. split; [by exists a0|]. by intros sid t ->. }
  constructor; [|done]. pose proof (Forall_inv IH) as [(a & Has & Hna) Ht].
  assert (Hout : forall a' b0, b0 ∈ s :: h -> Roster.Accounts b0 !! id = Some a' ->
    Account.Standing a' = UserStatusActive -> False).
  { intros a' b0 Hb Ha' Hact. rewrite Forall_forall in IH. destruct (IH b0 Hb) as [(a'' & Ha'' & Hn) _]. congruence. }
  destruct Hl as [|c ui ep s' Hs Hid Hadm Hc]; [eauto|].
  assert (Hput : forall k a', k <> id \/ Account.Standing a' <> UserStatusActive ->
    exists a2, <[k := a']> (Roster.Accounts s) !! id = Some a2 /\ Account.Standing a2 <> UserStatusActive).
  { intros k a' Hk. destruct (decide (k = id)) as [->|Hne]; [|rewrite lookup_insert_ne by done; eauto].
    rewrite lookup_insert_eq. exists a'. split; [done|]. by destruct Hk. }
  assert (Hnew : forall k t', Ticket.Owner t' <> id -> forall sid t,
    <[k := t']> (Roster.Tickets s) !! sid = Some t -> Ticket.Owner t = id -> is_Some (Roster.Tickets s0 !! sid)).
  { intros k t' Ho sid t. rewrite lookup_insert_Some. intros [[_ <-]|[_ Hin]]; [done|by apply Ht]. }
  assert (Hact : forall a', was_active (s :: h) id a' -> False) by (intros a' (b0 & Hb & Ha' & Hs0); eauto).
  destruct Hc; cbn [put_account put_ticket Roster.Accounts Roster.Tickets grant assign mark_installed];
    (split; [try (by eauto); apply Hput|try done]); try (left; congruence).
  - apply Hnew. cbn. intros ->. eauto.
  - intros sid' t'. rewrite lookup_insert_Some. intros [[<- <-]|[_ Hin]]; [intros Ho; by eapply Ht|by apply Ht].
  - apply Hnew. cbn. intros Ho. subst id. eauto.
  - destruct (decide (UserInfo.ID ui = id)) as [E|]; [right|by left]. rewrite E, Has in *. cbn. congruence.
  - destruct (decide (id0 = id)) as [->|]; [right|by left]. cbn. intros ->. apply Hrev.
    exists c, ui, raw, req. split_and!; try done; [by apply Hid|by apply Hadm].
Qed.

(** A user holds a role. *)
Definition holds_role (u : uuid) (key : string) (d : database) : Prop :=
  exists rid r, (u, rid) ∈ user_roles d /\ roles d !! rid = Some r /\ Role.Key r = key.

(** C5: no escalation: on an installed forum, whatever requests arrive and however they interleave
    or fail, a user who holds a role other than that of a member at the end held it at the start,
    or somebody with an administrator's token asked for it in a request that was sent. *)
Theorem no_escalation w ps' w' u key :
  db_ok (w_db w) -> installed (w_db w) -> rtc (step (sent_program srv sent) e) ([], w) (ps', w') ->
  key <> RoleMember -> holds_role u key (w_db w') -> holds_role u key (w_db w) \/ promoted u key.
Proof.
  intros Hd (row & Hrow & Hv) Hs Hk Hu. destruct (roster_past w ps' w' Hd Hs) as (h & Hh).
  change (history lawful (part w) (part w' :: h)) in Hh.
  pose proof (Forall_inv (roles_in_history _ _ Hh ltac:(by cbn; unfold installed_of; rewrite Hrow, Hv))) as [_ Hheld].
  destruct (Hheld u key Hk) as [Hin|]; [by apply elem_held|left|by right]. by apply elem_held.
Qed.

(** C6: a ban holds: an account that is not active when the requests begin gets no session, by
    login or by refresh, whatever requests arrive and however they interleave or fail, unless
    somebody with an administrator's token asked for it to be active again; its later sessions
    are those it had. *)
Theorem ban_holds w ps' w' u sid s :
  db_ok (w_db w) -> users (w_db w) !! User.ID u = Some u -> User.Status u <> UserStatusActive ->
  rtc (step (sent_program srv sent) e) ([], w) (ps', w') -> ~ revived (User.ID u) ->
  user_sessions (w_db w') !! sid = Some s -> Session.UserID s = User.ID u ->
  is_Some (user_sessions (w_db w) !! sid).
Proof.
  intros Hd Hu Hst Hs Hrev Hsid Ho. destruct (roster_past w ps' w' Hd Hs) as (h & Hh).
  change (history lawful (part w) (part w' :: h)) in Hh.
  assert (Ha : Roster.Accounts (part w) !! User.ID u = Some (account_of u)) by by rewrite account_at, Hu.
  pose proof (Forall_inv (tickets_in_history _ _ _ _ Hh Ha Hst Hrev)) as [_ Ht].
  specialize (Ht sid (ticket_of s)). rewrite !ticket_at, Hsid in Ht. specialize (Ht eq_refl Ho).
  destruct (user_sessions (w_db w) !! sid); [by eexists|by destruct Ht].
Qed.

End membership.

(** ** Examples *)

Section examples.
#[local] Existing Instances ascii_server plain_argon2 plain_argon2_laws decimal_uuid open_jwt ascii_unicode.

(** An installed forum on which bob, who has a session, is banned. *)
Definition banned_bob : world :=
  world_of (set_settings {[keyInstalled := SettingRow (JBool true) 0]}
    (set_users (<[bob := User.Mk bob "bob" "bob@example.org" "x" "bob" "" UserStatusBanned 0 0 None]>
      (users (w_db one_session))) (w_db one_session))).

Definition as_root : context := bearer (token_for alice "alice" [RoleAdmin] 100) anonymous.

(** Somebody registers, bob tries his token, and an administrator makes bob a moderator. *)
Definition newcomers : list (context * endpoint) :=
  [(anonymous, PostRegister (Some (registerRequest.Mk "carol" "carol@example.org" "password1")));
   (with_refresh "t0ken", PostRefresh);
   (as_root, PatchUser "2" (Some (updateUserRequest.Mk (Some [RoleModerator]) None)))].
Definition gathering : pool response * world :=
  run_sched calm [0; 1; 2; 0; 1; 2; 0; 2; 2; 0; 2; 2; 1; 1; 1; 1; 1; 1]
    ((fun '(c, ep) => handle sample_deps c ep) <$> newcomers, banned_bob).

Lemma gathering_reached :
  rtc (step (sent_program sample_deps (fun c ep => (c, ep) ∈ newcomers)) calm) ([], banned_bob)
    (gathering.1, gathering.2).
Proof.
  unfold gathering. apply run_sched_reached, Forall_fmap, Forall_forall. intros [c ep] Hin. by exists c, ep.
Qed.

Lemma banned_bob_ok : db_ok (w_db banned_bob).
Proof. apply db_okb_true. by vm_compute. Qed.


Lemma no_escalation_witness :
  holds_role bob RoleModerator (w_db gathering.2) /\
  (holds_role bob RoleModerator (w_db banned_bob) \/
   promoted calm sample_deps (fun c ep => (c, ep) ∈ newcomers) bob RoleModerator).
Proof.
  assert (Hb : holds_role bob RoleModerator (w_db gathering.2)).
  { apply elem_held. apply (bool_decide_unpack _). by vm_compute. }
  split; [exact Hb|].
  apply (no_escalation calm calm_honest_scans sample_deps sample_params_ok
    (fun c ep => (c, ep) ∈ newcomers) banned_bob gathering.1 gathering.2 bob RoleModerator banned_bob_ok);
    [by eexists|exact gathering_reached|done|exact Hb].
Defined.

Lemma ban_holds_witness : is_Some (user_sessions (w_db banned_bob) !! 50%N).
Proof.
  pose (u := User.Mk bob "bob" "bob@example.org" "x" "bob" "" UserStatusBanned 0 0 None).
  pose (s := Session.Mk 50%N bob (hex_EncodeToString (Sum256 "t0ken")) "test" None 0 (10 ^ 12)%Z None).
  apply (ban_holds calm calm_honest_scans sample_deps sample_params_ok
    (fun c ep => (c, ep) ∈ newcomers) banned_bob gathering.1 gathering.2 u 50%N s banned_bob_ok);
    [by vm_compute|done|exact gathering_reached| |by vm_compute|done].
  intros (c & ui & raw & req & Hin & _ & _ & _ & Hst). unfold newcomers in Hin.
  repeat (apply elem_of_cons in Hin as [E|Hin]; [injection E; intros; subst; done|]). by apply not_elem_of_nil in Hin.
Defined.

End examples.
