(* ===== verification/Catalogue.v ===== *)
(** * What the forum keeps beside its discussions and its members

    An abstract specification of what the API does to the groups, the attachments, the private
    messages, the notifications and the forum's name, in the manner of Roster.v.  A [catalogue]
    forgets timestamps and the post that an attachment belongs to.  [revision] says which
    requests change it, who may make them, and how; with the board and the roster it accounts
    for every table of the database. *)
From S2P Require Import Prelude GoStrings Regexp GoErrors Models GoJson Db Prog Roles Config Jwt.
From S2P Require Import Storage AuthService AdminService InstallService GroupService MediaService Handlers.

(** ** Data *)

Module Room.
Record t := Mk { Name : string; Slug : string; About : string; Parent : option uuid; Rank : Z }.
End Room.

Module File.
Record t := Mk { Owner : uuid; Name : string; Type_ : string; Size : Z; Key : string; Url : string }.
End File.

Module Letter.
Record t := Mk { From : uuid; To : uuid; Text : string; Seen : bool }.
End Letter.

Module Notice.
Record t := Mk { To : uuid; Kind : string; Content : json; Seen : bool }.
End Notice.

Module Catalogue.
Record t := Mk {
  Rooms : gmap uuid Room.t;
  Files : gmap uuid File.t;
  Letters : gmap uuid Letter.t;
  Notices : gmap uuid Notice.t;
  Title : option json }.
End Catalogue.

#[export] Instance room_eq_dec : EqDecision Room.t.
Proof. solve_decision. Defined.
#[export] Instance file_eq_dec : EqDecision File.t.
Proof. solve_decision. Defined.
#[export] Instance letter_eq_dec : EqDecision Letter.t.
Proof. solve_decision. Defined.
#[export] Instance notice_eq_dec : EqDecision Notice.t.
Proof. solve_decision. Defined.
#[export] Instance catalogue_eq_dec : EqDecision Catalogue.t.
Proof. solve_decision. Defined.

(** A room whose parent is gone is at the top. *)
Definition bereft (id : uuid) (r : Room.t) : Room.t :=
  if decide (Room.Parent r = Some id)
  then Room.Mk (Room.Name r) (Room.Slug r) (Room.About r) None (Room.Rank r) else r.
Definition seen_letter (l : Letter.t) : Letter.t := Letter.Mk (Letter.From l) (Letter.To l) (Letter.Text l) true.
Definition seen_notice (n : Notice.t) : Notice.t := Notice.Mk (Notice.To n) (Notice.Kind n) (Notice.Content n) true.

Definition set_rooms (m : gmap uuid Room.t) (b : Catalogue.t) : Catalogue.t :=
  Catalogue.Mk m (Catalogue.Files b) (Catalogue.Letters b) (Catalogue.Notices b) (Catalogue.Title b).
Definition set_files (m : gmap uuid File.t) (b : Catalogue.t) : Catalogue.t :=
  Catalogue.Mk (Catalogue.Rooms b) m (Catalogue.Letters b) (Catalogue.Notices b) (Catalogue.Title b).
Definition set_letters (m : gmap uuid Letter.t) (b : Catalogue.t) : Catalogue.t :=
  Catalogue.Mk (Catalogue.Rooms b) (Catalogue.Files b) m (Catalogue.Notices b) (Catalogue.Title b).
Definition set_notices (m : gmap uuid Notice.t) (b : Catalogue.t) : Catalogue.t :=
  Catalogue.Mk (Catalogue.Rooms b) (Catalogue.Files b) (Catalogue.Letters b) m (Catalogue.Title b).
Definition set_title (v : json) (b : Catalogue.t) : Catalogue.t :=
  Catalogue.Mk (Catalogue.Rooms b) (Catalogue.Files b) (Catalogue.Letters b) (Catalogue.Notices b) (Some v).

(** ** What the tables show *)

Definition room_of (g : Group.t) : Room.t :=
  Room.Mk (Group.Name g) (Group.Slug g) (Group.Description g) (Group.ParentID g) (Group.SortOrder g).
Definition file_of (a : Attachment.t) : File.t :=
  File.Mk (Attachment.OwnerID a) (Attachment.Filename a) (Attachment.ContentType a)
    (Attachment.SizeBytes a) (Attachment.StorageKey a) (Attachment.PublicURL a).
Definition marked (t : option time) : bool := match t with Some _ => true | None => false end.
Definition letter_of (m : PrivateMessage.t) : Letter.t :=
  Letter.Mk (PrivateMessage.SenderID m) (PrivateMessage.RecipientID m) (PrivateMessage.Body m)
    (marked (PrivateMessage.ReadAt m)).
Definition notice_of (n : Notification.t) : Notice.t :=
  Notice.Mk (Notification.UserID n) (Notification.Type_ n) (Notification.Payload n)
    (marked (Notification.ReadAt n)).
Definition catalogue_of (d : database) : Catalogue.t :=
  Catalogue.Mk (room_of <$> groups d) (file_of <$> attachments d) (letter_of <$> private_messages d)
    (notice_of <$> notifications d) (set_value <$> settings d !! keyForumName).

(** ** What persists *)

(** Letters and notices stay as they are but for the mark of being seen, which stays. *)
Record lasts (b b' : Catalogue.t) : Prop := {
  lasts_letter : forall id,
    Catalogue.Letters b' !! id = Catalogue.Letters b !! id \/
    exists l, Catalogue.Letters b !! id = Some l /\ Catalogue.Letters b' !! id = Some (seen_letter l);
  lasts_notice : forall id,
    Catalogue.Notices b' !! id = Catalogue.Notices b !! id \/
    exists n, Catalogue.Notices b !! id = Some n /\ Catalogue.Notices b' !! id = Some (seen_notice n) }.

#[export] Instance lasts_preorder : PreOrder lasts.
Proof.
  split; [by intros b; constructor; left|]. intros b1 b2 b3 [L1 N1] [L2 N2]. constructor; intros id.
  - destruct (L1 id) as [E1|(l & Hl & E1)], (L2 id) as [E2|(l' & Hl' & E2)]; [left; congruence|right..].
    + exists l'. split; congruence.
    + exists l. split; congruence.
    + exists l. assert (l' = seen_letter l) as -> by congruence. by split.
  - destruct (N1 id) as [E1|(n & Hn & E1)], (N2 id) as [E2|(n' & Hn' & E2)]; [left; congruence|right..].
    + exists n'. split; congruence.
    + exists n. split; congruence.
    + exists n. assert (n' = seen_notice n) as -> by congruence. by split.
Qed.

(** ** Revisions *)

Section revisions.
Context `{Postgres, Argon2, Unicode, Uuid}.
Context (srv : deps).

Definition room (inp : GroupInput.t) : Room.t :=
  Room.Mk (GroupInput.Name inp) (GroupInput.Slug inp) (GroupInput.Description inp)
    (GroupInput.ParentID inp) (GroupInput.SortOrder inp).

(** A room that fits: its name and slug are no other room's, and its parent is there. *)
Definition fits (id : uuid) (r : Room.t) (b : Catalogue.t) : Prop :=
  (forall id' r', Catalogue.Rooms b !! id' = Some r' -> id' <> id ->
     Room.Name r' <> Room.Name r /\ Room.Slug r' <> Room.Slug r) /\
  forall p, Room.Parent r = Some p -> is_Some (<[id := r]> (Catalogue.Rooms b) !! p).

(** The type that a file is stored under. *)
Definition stored_type (t : string) : string := if String.eqb t "" then "application/octet-stream" else t.

(** The title that a name is stored as. *)
Definition titled (name : string) : json := Marshal (JString (TrimSpace name)).
Definition good_title (name : string) : Prop :=
  TrimSpace name <> "" /\ (RuneCountInString (TrimSpace name) <= maxForumName)%Z.

(** [revision c ui h b ep b']: the request [ep], made by [ui] where it needs an identity, takes
    the catalogue from [b] to [b'], after the catalogues [h]. *)
Inductive revision (c : context) (ui : UserInfo.t) (h : list Catalogue.t) (b : Catalogue.t)
    : endpoint -> Catalogue.t -> Prop :=
| revise_open inp id :
    validateGroup inp = None -> Catalogue.Rooms b !! id = None -> fits id (room inp) b ->
    revision c ui h b (PostGroup (Some inp)) (set_rooms (<[id := room inp]> (Catalogue.Rooms b)) b)
| revise_room raw inp id r :
    uuid_Parse raw = Some id -> validateGroup inp = None -> Catalogue.Rooms b !! id = Some r ->
    fits id (room inp) b ->
    revision c ui h b (PatchGroup raw (Some inp)) (set_rooms (<[id := room inp]> (Catalogue.Rooms b)) b)
| revise_close raw id r :
    uuid_Parse raw = Some id -> Catalogue.Rooms b !! id = Some r ->
    revision c ui h b (DeleteGroup raw) (set_rooms (bereft id <$> delete id (Catalogue.Rooms b)) b)
| revise_upload f post id u :
    let key := attachDir +:+ "/" +:+ uuid_String u +:+ sanitizeExt (upload.Filename f) in
    (0 < upload.Size f <= maxAttachmentSize)%Z -> Catalogue.Files b !! id = None ->
    (forall id' f', Catalogue.Files b !! id' = Some f' -> File.Key f' <> key) ->
    revision c ui h b (PostAttachment (Some f) post)
      (set_files (<[id := File.Mk (UserInfo.ID ui) (sanitizeFilename (upload.Filename f))
                           (stored_type (upload.ContentType f)) (upload.Size f) key
                           (mediaURL (media_svc srv) key)]> (Catalogue.Files b)) b)
| revise_remove raw id f b0 f0 :
    uuid_Parse raw = Some id -> Catalogue.Files b !! id = Some f ->
    b0 ∈ h -> Catalogue.Files b0 !! id = Some f0 ->
    File.Owner f0 = UserInfo.ID ui \/ hasRole (UserInfo.Roles ui) moderators = true ->
    revision c ui h b (DeleteAttachment raw) (set_files (delete id (Catalogue.Files b)) b)
| revise_letter raw id l :
    uuid_Parse raw = Some id -> Catalogue.Letters b !! id = Some l -> Letter.To l = UserInfo.ID ui ->
    revision c ui h b (PatchMessageRead raw) (set_letters (<[id := seen_letter l]> (Catalogue.Letters b)) b)
| revise_notice raw id n :
    uuid_Parse raw = Some id -> Catalogue.Notices b !! id = Some n -> Notice.To n = UserInfo.ID ui ->
    revision c ui h b (PatchNotificationRead raw) (set_notices (<[id := seen_notice n]> (Catalogue.Notices b)) b)
| revise_notices :
    revision c ui h b PatchAllNotificationsRead
      (set_notices ((fun n => if decide (Notice.To n = UserInfo.ID ui) then seen_notice n else n)
                      <$> Catalogue.Notices b) b)
| revise_title name :
    good_title name -> revision c ui h b (PutSettings (Some name)) (set_title (titled name) b)
| revise_setup inp :
    good_title (InstallInput.ForumName inp) ->
    revision c ui h b (PostInstall (Some inp)) (set_title (titled (InstallInput.ForumName inp)) b).

Lemma revision_lasts c ui h b ep b' : revision c ui h b ep b' -> lasts b b'.
Proof.
  destruct 1; constructor; intros k; cbn; auto.
  - destruct (decide (k = id)) as [->|]; [right; exists l; by rewrite lookup_insert_eq|left; by rewrite lookup_insert_ne].
  - destruct (decide (k = id)) as [->|]; [right; exists n; by rewrite lookup_insert_eq|left; by rewrite lookup_insert_ne].
  - rewrite lookup_fmap. destruct (Catalogue.Notices b !! k) as [n|] eqn:Hn; [|by left]. cbn.
    destruct (decide _); [right; by exists n|by left].
Qed.

End revisions.
