(* ===== verification/Cataloguing.v ===== *)
(** * The API refines the catalogue

    Every interleaving of requests, with faults anywhere, is a history of catalogues in which
    each change is one of Catalogue.v, made by a request that was sent and, where the route is
    guarded, by the identity of an accepted token. *)
From S2P Require Import Prelude GoStrings Regexp GoErrors Models GoJson Db Prog Concrete Rely Roles Encoding.
From S2P Require Import Password Config Jwt Storage GroupStore PostStore ThreadStore UserStore.
From S2P Require Import SessionStore SettingsStore MessageStore NotificationStore AttachmentStore.
From S2P Require Import AuthService AdminService InstallService GroupService ThreadService.
From S2P Require Import PostService MessageService MediaService Handlers Samples Frames Access Board.
From S2P Require Import Evolution Refinement Views Catalogue.
Import MessageService.Notifications.
Local Open Scope mc_scope.

(** ** The catalogue after each kind of change to the tables *)

Lemma file_of_clear ps a : file_of (clear_post ps a) = file_of a.
Proof. unfold clear_post. by destruct (has_key_opt _ _). Qed.

Lemma catalogue_cascade_posts ps d : catalogue_of (cascade_posts ps d) = catalogue_of d.
Proof.
  unfold catalogue_of. cbn. f_equal. rewrite <- map_fmap_compose. apply map_fmap_ext.
  intros k a _. apply file_of_clear.
Qed.

Lemma catalogue_group d id g :
  catalogue_of (Db.set_groups (<[id := g]> (groups d)) d)
  = set_rooms (<[id := room_of g]> (Catalogue.Rooms (catalogue_of d))) (catalogue_of d).
Proof. unfold catalogue_of, set_rooms. cbn. by rewrite fmap_insert. Qed.

Lemma room_of_clear (d : database) id g :
  fk_opt Group.ParentID (groups d) (groups d) -> groups d !! Group.ID g = Some g ->
  room_of (clear_parent (delete id (groups d)) g) = bereft id (room_of g).
Proof.
  intros Hfk Hg. unfold bereft, clear_parent. cbn. destruct (Group.ParentID g) as [p|] eqn:Hp; cbn.
  - unfold has_key. destruct (decide (Some p = Some id)) as [[= ->]|Hne].
    + by rewrite lookup_delete_eq.
    + rewrite lookup_delete_ne by congruence. destruct (Hfk _ g p Hg Hp) as [x Hx]. rewrite Hx. done.
  - destruct (decide _); [done|]. done.
Qed.

Lemma catalogue_delete_group `{Postgres} d id :
  db_ok d ->
  catalogue_of (delete_group id d)
  = set_rooms (bereft id <$> delete id (Catalogue.Rooms (catalogue_of d))) (catalogue_of d).
Proof.
  intros Hd. unfold delete_group, cascade_groups, cascade_threads. rewrite catalogue_cascade_posts.
  unfold catalogue_of, set_rooms. cbn. f_equal. rewrite <- fmap_delete, <- !map_fmap_compose.
  apply map_fmap_ext. intros k g [_ Hg]%lookup_delete_Some. cbn. apply room_of_clear; [apply Hd|].
  by rewrite (ok_groups _ Hd k g Hg).
Qed.

Lemma catalogue_title d v now :
  catalogue_of (set_settings (<[keyForumName := SettingRow v now]> (settings d)) d)
  = set_title v (catalogue_of d).
Proof. unfold catalogue_of, set_title. cbn. by rewrite lookup_insert_eq. Qed.

(** The catalogue of a world, row by row. *)
Lemma room_at w id : Catalogue.Rooms (part catalogue_of w) !! id = room_of <$> groups (w_db w) !! id.
Proof. apply lookup_fmap. Qed.
Lemma file_at w id : Catalogue.Files (part catalogue_of w) !! id = file_of <$> attachments (w_db w) !! id.
Proof. apply lookup_fmap. Qed.
Lemma letter_at w id : Catalogue.Letters (part catalogue_of w) !! id = letter_of <$> private_messages (w_db w) !! id.
Proof. apply lookup_fmap. Qed.
Lemma notice_at w id : Catalogue.Notices (part catalogue_of w) !! id = notice_of <$> notifications (w_db w) !! id.
Proof. apply lookup_fmap. Qed.

(** ** Requests that leave the catalogue alone *)

#[export] Instance lift_catalogue {A} b (s : stmt A) :
  StmtFixes catalogue_of s -> StmtKeeps (fun d => catalogue_of d = b) s.
Proof. apply (fixes_keeps catalogue_of (fun x => x = b)). Qed.

#[export] Instance delete_post_catalogue id : StmtFixes catalogue_of (delete_post_stmt id).
Proof.
  intros sv d a d'. unfold delete_post_stmt. destruct (has_key _ _); intros [= <- <-]; [|done].
  apply catalogue_cascade_posts.
Qed.
#[export] Instance delete_thread_catalogue id : StmtFixes catalogue_of (delete_thread_stmt id).
Proof.
  intros sv d a d'. unfold delete_thread_stmt. destruct (has_key _ _); intros [= <- <-]; [|done].
  unfold delete_thread, cascade_threads. by rewrite catalogue_cascade_posts.
Qed.
#[export] Instance mark_installed_catalogue v : StmtFixes catalogue_of (upsert_setting keyInstalled v).
Proof.
  intros sv d a d'. unfold upsert_setting. destruct (negb _); [done|].
  intros (_ & _ & _ & [= <- <-])%checked_Ok. unfold catalogue_of. cbn. by rewrite lookup_insert_ne.
Qed.

(** The requests that can change the catalogue, and the one that would send a letter. *)
Definition filing (ep : endpoint) : bool :=
  match ep with
  | PostInstall _ | PostGroup _ | PatchGroup _ _ | DeleteGroup _ | PostAttachment _ _
  | DeleteAttachment _ | PutSettings _ | PostMessage _ | PatchMessageRead _
  | PatchNotificationRead _ | PatchAllNotificationsRead => true
  | _ => false
  end.

Section calm.
Context `{Postgres, Argon2, Uuid, Jwt, Unicode}.

Lemma serve_keeps_catalogue d c ep ui : filing ep = false -> Calm catalogue_of (serve_as d c ep ui).
Proof. intros Hj. destruct ep; try done; calm_tac. Qed.

End calm.

(** ** The revisions *)

Section cataloguing.
Context `{Postgres, Argon2, Uuid, Jwt, Unicode}.
Context (e : env) (srv : deps) (sent : context -> endpoint -> Prop).

Abbreviation part := (part catalogue_of).
Abbreviation legal := (legal part intact).
Abbreviation later := (@later Catalogue.t (drift catalogue_of lasts)).
Abbreviation lawful := (lawful e (revision srv) srv sent).
Abbreviation wp := (wp e part intact (drift catalogue_of lasts) lawful).
Abbreviation lawfully := (lawfully catalogue_of lasts lawful).

Abbreviation still := (wp_calmly catalogue_of lasts).

Section as_user.
Context (c : context) (ui : UserInfo.t) (ep : endpoint) (Hsent : sent c ep).
Context (Hid : guard_of ep <> Public -> identified e srv c ui).
Context (Hadm : guard_of ep = AdminOnly -> hasRole (UserInfo.Roles ui) [RoleAdmin] = true).

Lemma revised_lawfully w h d' : revision srv c ui h (part w) ep (catalogue_of d') -> lawfully w h d'.
Proof.
  intros Hc. right. split; [by eapply revision_lasts|]. by eapply lawful_change.
Qed.

(** A statement whose every effect is a revision. *)
Lemma revise_wp {A} (s : stmt A) `{!StmtKeeps db_ok s} x (Q : result A -> config -> Prop) :
  (forall w h a d', later x (w, h) -> legal (w, h) -> s (server_at e w) (w_db w) = Ok (a, d') ->
     d' = w_db w \/ revision srv c ui h (part w) ep (catalogue_of d')) ->
  (forall r y, Q r y) ->
  wp x (exec s) Q.
Proof.
  intros Hs HQ. apply wp_change; [apply _|apply lawful_same|done|by intros|].
  intros w h a d' Hl Hg Ha. split; [|by intros].
  destruct (Hs w h a d' Hl Hg Ha) as [->|Hr]; [by left|by apply revised_lawfully].
Qed.

(** *** Groups *)

Lemma write_group_revises (w : world) id r o d' :
  write_group id r (w_db w) = Ok (o, d') ->
  catalogue_of d' = set_rooms (<[id := room_of r]> (Catalogue.Rooms (part w))) (part w) /\
  fits id (room_of r) (part w).
Proof.
  unfold write_group. intros (_ & [Hn Hs]%andb_true_iff & Hp & [= _ <-])%checked_Ok.
  split; [apply catalogue_group|]. rewrite unique_ok_true in Hn, Hs. split.
  - intros k r' Hk Hne. rewrite room_at, fmap_Some in Hk. destruct Hk as (g & Hg & ->).
    split; [apply (Hn k g Hg Hne)|apply (Hs k g Hg Hne)].
  - intros p Hpar. rewrite has_key_opt_true in Hp. destruct (Hp p Hpar) as [g Hg].
    cbn. rewrite <- fmap_insert, lookup_fmap, Hg. by eexists.
Qed.

Lemma create_group_wp inp x Q :
  ep = PostGroup (Some inp) -> (forall a y, Q a y) -> wp x (GroupService.Create inp) Q.
Proof.
  intros Hep HQ. unfold GroupService.Create. destruct (validateGroup inp) eqn:Hv; [apply HQ|].
  apply wp_bind. unfold GroupStore.Create. apply wp_bind, revise_wp; [apply _|..].
  - intros w h o d' _ _ Hs. right. unfold insert_group in Hs. destruct (negb _); [done|].
    apply checked_Ok in Hs as (_ & Hk%negb_true_iff%has_key_false & _ & Hw).
    apply write_group_revises in Hw as [-> Hfit]. rewrite Hep. apply revise_open; [done| |exact Hfit].
    by rewrite room_at, Hk.
  - intros r y. cbn. repeat (case_match; cbn); apply HQ.
Qed.

Lemma update_group_wp raw id inp x Q :
  ep = PatchGroup raw (Some inp) -> uuid_Parse raw = Some id -> (forall a y, Q a y) ->
  wp x (GroupService.Update id inp) Q.
Proof.
  intros Hep Hraw HQ. unfold GroupService.Update. destruct (validateGroup inp) eqn:Hv; [apply HQ|].
  apply wp_bind. unfold GroupStore.Update. apply wp_bind, revise_wp; [apply _|..].
  - intros w h o d' _ _ Hs. unfold update_group in Hs. destruct (negb _); [done|].
    apply checked_Ok in Hs as (_ & _ & _ & Hw). destruct (groups (w_db w) !! id) as [g|] eqn:Hg.
    2: { left. congruence. }
    right. apply write_group_revises in Hw as [-> Hfit]. rewrite Hep.
    apply (revise_room _ _ _ _ _ _ _ _ (room_of g)); [done|done| |exact Hfit]. by rewrite room_at, Hg.
  - intros r y. cbn. repeat (case_match; cbn); apply HQ.
Qed.

Lemma delete_group_wp raw id x Q :
  ep = DeleteGroup raw -> uuid_Parse raw = Some id -> (forall a y, Q a y) ->
  wp x (GroupService.Delete id) Q.
Proof.
  intros Hep Hraw HQ. unfold GroupService.Delete.
  apply wp_bind, still; [calm_tac|]. intros [g|er] y _; [|repeat case_match; apply HQ].
  apply wp_bind, still; [calm_tac|]. intros [n|er] z _; [|apply HQ]. destruct (0 <? n)%Z; [apply HQ|].
  apply wp_bind. unfold GroupStore.Delete. apply wp_bind, revise_wp; [apply _|..].
  - intros w h o d' _ Hg Hs. unfold delete_group_stmt in Hs. destruct (has_key _ _) eqn:Hk; injection Hs as _ <-; [right|by left].
    apply has_key_true in Hk as [r Hr]. rewrite catalogue_delete_group, Hep by apply Hg.
    apply (revise_close _ _ _ _ _ _ _ (room_of r)); [done|]. by rewrite room_at, Hr.
  - intros r t. cbn. repeat (case_match; cbn); apply HQ.
Qed.

(** *** Attachments *)

Lemma file_revises (w : world) na o d' sv :
  insert_attachment na sv (w_db w) = Ok (o, d') ->
  exists id, Catalogue.Files (part w) !! id = None /\
    (forall id' f', Catalogue.Files (part w) !! id' = Some f' -> File.Key f' <> NewAttachment.StorageKey na) /\
    catalogue_of d' = set_files (<[id := File.Mk (NewAttachment.OwnerID na) (NewAttachment.Filename na)
      (NewAttachment.ContentType na) (NewAttachment.SizeBytes na) (NewAttachment.StorageKey na)
      (NewAttachment.PublicURL na)]> (Catalogue.Files (part w))) (part w).
Proof.
  unfold insert_attachment. intros (_ & [Hk%negb_true_iff%has_key_false Hu]%andb_true_iff & _ & [= _ <-])%checked_Ok.
  exists (sv_uuid sv). split; [by rewrite file_at, Hk|]. split.
  - intros k f'. rewrite file_at, fmap_Some. intros (a & Ha & ->). rewrite unique_ok_true in Hu.
    apply (Hu k a Ha). congruence.
  - unfold catalogue_of, set_files. cbn. by rewrite fmap_insert.
Qed.

Lemma key_wp name x (Q : string -> config -> Prop) :
  (forall u y, Q (attachDir +:+ "/" +:+ uuid_String u +:+ sanitizeExt name) y) -> wp x (AttachmentKey name) Q.
Proof.
  intros HQ. unfold AttachmentKey. apply wp_bind. intros w h Hl Hg.
  split; [by apply (action_tick catalogue_of lasts lawful lawful_same)|apply HQ].
Qed.

Lemma upload_wp f post postID x Q :
  ep = PostAttachment (Some f) post -> (forall a y, Q a y) ->
  wp x (UploadAttachment (media_svc srv) (UserInfo.ID ui) postID (upload.Filename f) (upload.ContentType f)
    (upload.Size f) (upload.data f)) Q.
Proof.
  intros Hep HQ. unfold UploadAttachment. destruct (Z.leb_spec (upload.Size f) 0); [apply HQ|].
  destruct (Z.ltb_spec maxAttachmentSize (upload.Size f)); [apply HQ|].
  apply wp_bind, still; [calm_tac|]. intros [[]|er] y _; [|apply HQ].
  apply wp_bind, key_wp. intros u t.
  apply wp_bind, still; [unfold Upload; calm_tac|]. intros [[]|er] z _; [|apply HQ].
  unfold AttachmentStore.Create. apply wp_bind, revise_wp; [apply _| |intros; apply HQ].
  intros w' h' o d' _ _ Hs. right. apply file_revises in Hs as (id & Hk & Hu & ->). rewrite Hep.
  by apply revise_upload.
Qed.

Lemma remove_wp raw id x Q :
  ep = DeleteAttachment raw -> uuid_Parse raw = Some id -> (forall a y, Q a y) ->
  wp x (MediaService.DeleteAttachment id (UserInfo.ID ui) (UserInfo.Roles ui)) Q.
Proof.
  intros Hep Hraw HQ. unfold MediaService.DeleteAttachment, AttachmentStore.GetByID.
  apply wp_bind, wp_bind, wp_look; [apply _|apply lawful_same|apply _|..].
  { intros er y _ _ _. unfold scanAttachment. cbn [Scan Rely.wp].
    destruct (errors_Is er pgx_ErrNoRows); [apply HQ|]. cbn [Rely.wp].
    destruct (errors_Is er store_ErrNotFound); apply HQ. }
  intros o y w _ Hy [= <-]. destruct (attachments (w_db y.1) !! id) as [a|] eqn:Ha; [|apply HQ].
  cbn [scanAttachment Scan Rely.wp].
  destruct (negb _ && negb _) eqn:Hmay; [apply HQ|].
  apply wp_bind, still; [unfold Remove; calm_tac|]. intros [[]|er] z Hz; [|apply HQ].
  unfold AttachmentStore.Delete. apply wp_bind, revise_wp; [apply _|..].
  - intros w' h' n d' Hl _ Hs. unfold delete_attachment_stmt in Hs.
    destruct (has_key _ _) eqn:Hk; injection Hs as _ <-; [right|by left]. apply has_key_true in Hk as [a' Ha'].
    replace (catalogue_of _) with (set_files (delete id (Catalogue.Files (part w'))) (part w'))
      by (unfold catalogue_of, set_files; cbn; by rewrite fmap_delete).
    rewrite Hep. apply (revise_remove _ _ _ _ _ _ _ (file_of a') (part y.1) (file_of a)); [done| | | |].
    + by rewrite file_at, Ha'.
    + apply (seen catalogue_of lasts _ w' h'); [done|by etrans].
    + by rewrite file_at, Ha.
    + apply andb_false_iff in Hmay as [Ho%negb_false_iff%N.eqb_eq|Hr%negb_false_iff]; [by left|by right].
  - intros r t. cbn. repeat (case_match; cbn); apply HQ.
Qed.

(** *** Letters and notices *)

(** No letter is sent: the statement that would write it is refused. *)
Lemma send_wp sender recipient text x (Q : result PrivateMessage.t -> config -> Prop) :
  (forall er y, Q (Err er) y) -> wp x (MessageService.Send sender recipient text) Q.
Proof.
  intros HQ. unfold MessageService.Send. destruct (N.eqb _ _); [apply HQ|]. cbv zeta.
  destruct (_ || _); [apply HQ|].
  apply wp_bind, still; [calm_tac|]. intros [u|er] y _; [|case_match; apply HQ].
  unfold MessageStore.Send. apply wp_bind, wp_change; [apply _|apply lawful_same|apply _|..].
  - intros er z _. unfold scanPM. cbn. case_match; apply HQ.
  - intros w h o d' _ _ Hs. by unfold insert_message, resolved in Hs.
Qed.

Lemma letter_wp raw id x Q :
  ep = PatchMessageRead raw -> uuid_Parse raw = Some id -> (forall a y, Q a y) ->
  wp x (MessageService.MarkRead id (UserInfo.ID ui)) Q.
Proof.
  intros Hep Hraw HQ. unfold MessageService.MarkRead, map_not_found, MessageStore.MarkRead.
  apply wp_bind, wp_bind, revise_wp; [apply _|..].
  - intros w h n d' _ _ Hs. unfold MessageStore.mark_read_stmt in Hs.
    destruct (private_messages (w_db w) !! id) as [m|] eqn:Hm; [|left; congruence].
    destruct (MessageStore.unread _ m) eqn:Hu; [right|left; congruence]. injection Hs as _ <-.
    apply andb_true_iff in Hu as [Hto%N.eqb_eq _].
    replace (catalogue_of _) with (set_letters (<[id := seen_letter (letter_of m)]> (Catalogue.Letters (part w))) (part w))
      by (unfold catalogue_of, set_letters; cbn; by rewrite fmap_insert).
    rewrite Hep. apply revise_letter; [done| |done]. by rewrite letter_at, Hm.
  - intros r y. cbn. repeat (case_match; cbn); apply HQ.
Qed.

Lemma notice_wp raw id x Q :
  ep = PatchNotificationRead raw -> uuid_Parse raw = Some id -> (forall a y, Q a y) ->
  wp x (Notifications.MarkRead id (UserInfo.ID ui)) Q.
Proof.
  intros Hep Hraw HQ. unfold Notifications.MarkRead, map_not_found, NotificationStore.MarkRead.
  apply wp_bind, wp_bind, revise_wp; [apply _|..].
  - intros w h n d' _ _ Hs. unfold NotificationStore.mark_read_stmt in Hs.
    destruct (notifications (w_db w) !! id) as [m|] eqn:Hm; [|left; congruence].
    destruct (NotificationStore.unread _ m) eqn:Hu; [right|left; congruence]. injection Hs as _ <-.
    apply andb_true_iff in Hu as [Hto%N.eqb_eq _].
    replace (catalogue_of _) with (set_notices (<[id := seen_notice (notice_of m)]> (Catalogue.Notices (part w))) (part w))
      by (unfold catalogue_of, set_notices; cbn; by rewrite fmap_insert).
    rewrite Hep. apply revise_notice; [done| |done]. by rewrite notice_at, Hm.
  - intros r y. cbn. repeat (case_match; cbn); apply HQ.
Qed.

Lemma notices_wp x Q :
  ep = PatchAllNotificationsRead -> (forall a y, Q a y) -> wp x (MarkAllRead (UserInfo.ID ui)) Q.
Proof.
  intros Hep HQ. unfold MarkAllRead, NotificationStore.MarkAllRead. apply wp_bind, revise_wp; [apply _|..].
  - intros w h n d' _ _ [= _ <-]. right. rewrite Hep.
    replace (catalogue_of _) with (set_notices ((fun n => if decide (Notice.To n = UserInfo.ID ui)
      then seen_notice n else n) <$> Catalogue.Notices (part w)) (part w)); [apply revise_notices|].
    unfold catalogue_of, set_notices. cbn. f_equal. rewrite <- !map_fmap_compose. apply map_fmap_ext.
    intros k m _. cbn. unfold NotificationStore.unread, of_user. destruct (N.eqb_spec (Notification.UserID m) (UserInfo.ID ui)).
    + rewrite decide_True by done. cbn. by destruct m as [? ? ? ? []].
    + by rewrite decide_False.
  - intros r y. cbn. case_match; apply HQ.
Qed.

(** *** The name *)

Lemma title_wp name x Q :
  (forall h b, revision srv c ui h b ep (set_title (titled name) b)) -> (forall a y, Q a y) ->
  wp x (SettingsStore.Set_ keyForumName (JString (TrimSpace name))) Q.
Proof.
  intros Hr HQ. unfold SettingsStore.Set_. apply wp_bind, revise_wp; [apply _|..].
  - intros w h [] d' _ _ Hs. unfold upsert_setting in Hs. destruct (negb _); [done|].
    apply checked_Ok in Hs as (_ & _ & _ & [= <-]). right. rewrite catalogue_title. apply Hr.
  - intros r y. case_match; apply HQ.
Qed.

Lemma name_ok name : String.eqb name "" || (maxForumName <? RuneCountInString name)%Z = false ->
  name <> "" /\ (RuneCountInString name <= maxForumName)%Z.
Proof. intros [Hn%String.eqb_neq Hl%Z.ltb_ge]%orb_false_iff. done. Qed.

Lemma settings_wp name x Q :
  ep = PutSettings (Some name) -> (forall a y, Q a y) -> wp x (UpdateSettings name) Q.
Proof.
  intros Hep HQ. unfold UpdateSettings. cbv zeta. destruct (_ || _) eqn:Hn; [apply HQ|]. apply name_ok in Hn.
  apply wp_bind, title_wp; [|intros r y; case_match; apply HQ].
  intros h b. rewrite Hep. by apply revise_title.
Qed.

Lemma christen_wp inp x Q :
  ep = PostInstall (Some inp) -> (forall a y, Q a y) -> wp x (Setup (hasher srv) inp) Q.
Proof.
  intros Hep HQ. unfold Setup. apply wp_bind, still; [calm_tac|]. intros [st|er] y1 _; [|apply HQ].
  destruct (InstallStatus.Installed st); [apply HQ|]. cbv zeta. destruct (setup_invalid _ _ _ _) eqn:Hv; [apply HQ|].
  apply wp_bind, still; [calm_tac|]. intros [enc|er] y2 _; [|apply HQ].
  apply wp_bind, still; [calm_tac|]. intros [u|er] y3 _; [|case_match; apply HQ].
  apply wp_bind, still; [calm_tac|]. intros [[]|er] y4 _; [|apply HQ].
  apply wp_bind, still; [calm_tac|]. intros [[]|er] y5 _; [|apply HQ].
  apply wp_bind, still; [calm_tac|]. intros [[]|er] y6 _; [|apply HQ].
  apply wp_bind, title_wp; [|intros r y; case_match; apply HQ].
  intros h b. rewrite Hep. apply revise_setup. unfold setup_invalid in Hv.
  apply orb_false_iff in Hv as [[[Hv _]%orb_false_iff _]%orb_false_iff _]. by apply name_ok in Hv.
Qed.

End as_user.

(** *** Every request *)

(** A rule of the sections above, for a request that was sent. *)
Ltac by_rule rule Hs Hid Hadm :=
  intros ? ?; eapply rule; [exact Hs|exact Hid|exact Hadm|..]; solve [done|eassumption].

Lemma serve_revises c ui ep x :
  sent c ep -> (guard_of ep <> Public -> identified e srv c ui) ->
  (guard_of ep = AdminOnly -> hasRole (UserInfo.Roles ui) [RoleAdmin] = true) ->
  wp x (serve_as srv c ep ui) done_with.
Proof.
  intros Hs Hid Hadm. destruct (filing ep) eqn:Hj; [|apply still; [by apply serve_keeps_catalogue|done]].
  assert (Hans : forall A (p : prog (result A)) k y, (forall Q : result A -> config -> Prop,
    (forall a z, Q a z) -> wp y p Q) -> (forall a, Calm catalogue_of (k a)) -> wp y (answer p k) done_with).
  { intros A p k y Hp Hk. unfold answer. apply wp_bind, Hp. intros [a|er] z; [by apply still|].
    apply still; [calm_tac|done]. }
  destruct ep; try done; cbn [serve_as]; clear Hj;
    unfold install_Create, groups_Create, groups_Update, groups_Delete, media_UploadAttachment,
      media_DeleteAttachment, admin_UpdateSettings, messages_Send, messages_MarkRead,
      messages_MarkNotificationRead, messages_MarkAllNotificationsRead, pathID, decoded;
    repeat match goal with |- context [match uuid_Parse ?r with _ => _ end] => destruct (uuid_Parse r) eqn:? end;
    try done; try (destruct body as [req|]; [|done]).
  - apply wp_bind. eapply christen_wp; [exact Hs|exact Hid|exact Hadm|done|].
    intros a y. apply still; [calm_tac|done].
  - apply Hans; [by_rule create_group_wp Hs Hid Hadm|intros a; calm_tac].
  - apply Hans; [by_rule update_group_wp Hs Hid Hadm|intros a; calm_tac].
  - apply Hans; [by_rule delete_group_wp Hs Hid Hadm|intros a; calm_tac].
  - destruct file as [f|]; [|done]. destruct (negb _).
    + apply Hans; [by_rule upload_wp Hs Hid Hadm|intros a; calm_tac].
    + apply Hans; [by_rule upload_wp Hs Hid Hadm|intros a; calm_tac].
  - destruct file as [f|]; [|done]. destruct (negb _); [done|].
    apply Hans; [by_rule upload_wp Hs Hid Hadm|intros a; calm_tac].
  - apply Hans; [by_rule remove_wp Hs Hid Hadm|intros a; calm_tac].
  - apply Hans; [by_rule settings_wp Hs Hid Hadm|intros a; calm_tac].
  - destruct (N.eqb _ _); [done|]. unfold answer. apply wp_bind, send_wp. intros er y. apply still; [calm_tac|done].
  - apply Hans; [by_rule letter_wp Hs Hid Hadm|intros a; calm_tac].
  - apply Hans; [by_rule notice_wp Hs Hid Hadm|intros a; calm_tac].
  - apply wp_bind. eapply notices_wp; [exact Hs|exact Hid|exact Hadm|done|].
    intros a y. apply still; [calm_tac|done].
Qed.

Lemma handle_revises c ep x : sent c ep -> wp x (handle srv c ep) done_with.
Proof. apply (handle_lawful catalogue_of lasts). intros c' ui ep' y. apply serve_revises. Qed.

(** The catalogue of [w'] has come from that of [w] by lawful revisions. *)
Definition catalogue_history (w w' : world) (h : list Catalogue.t) : Prop :=
  history lawful (catalogue_of (w_db w)) (catalogue_of (w_db w') :: h).

Lemma catalogue_past w ps' w' :
  db_ok (w_db w) -> rtc (step (sent_program srv sent) e) ([], w) (ps', w') ->
  exists h, catalogue_history w w' h.
Proof. apply (sent_history catalogue_of lasts). intros c ep x. apply handle_revises. Qed.

(** C4: refinement: let requests arrive at any time and interleave their statements and
    transactions in any order, with connections lost anywhere: the groups, attachments, private
    messages, notifications and the forum's name that are reached form a history of the
    specification.  Every change is one of a request that was sent: only administrators open,
    change and close groups, whose names and slugs stay unique and whose parents exist; an
    attachment comes by an upload of its owner, within the bounds and under a key of its own,
    and goes by its owner or a moderator; messages and notifications stay as they are but for
    the mark that their recipient read them; the name comes from an administrator or a setup. *)
Theorem api_refines_catalogue w ps' w' :
  db_ok (w_db w) -> rtc (step (sent_program srv sent) e) ([], w) (ps', w') ->
  exists h, catalogue_history w w' h.
Proof. exact (catalogue_past w ps' w'). Qed.

(** ** What follows for any history *)

(** The attachment's owner or a moderator asked for its removal. *)
Definition removed (id owner : uuid) : Prop :=
  exists c ui raw, sent c (DeleteAttachment raw) /\ identified e srv c ui /\ uuid_Parse raw = Some id /\
    (UserInfo.ID ui = owner \/ hasRole (UserInfo.Roles ui) moderators = true).

(** The owner sent the file. *)
Definition contributed (f : File.t) : Prop :=
  exists c ui u post, sent c (PostAttachment (Some u) post) /\ identified e srv c ui /\
    UserInfo.ID ui = File.Owner f /\ File.Name f = sanitizeFilename (upload.Filename u) /\
    File.Size f = upload.Size u /\ (0 < upload.Size u <= maxAttachmentSize)%Z.

Lemma files_stay s0 h id f :
  history lawful s0 h -> Catalogue.Files s0 !! id = Some f ->
  Forall (fun b => Catalogue.Files b !! id = Some f) h \/ removed id (File.Owner f).
Proof.
  intros Hh Hf. induction Hh as [|h s s' Hh IH Hl]; [left; by constructor|].
  destruct IH as [IH|]; [|by right]. pose proof (Forall_inv IH) as Hs.
  destruct Hl as [|c ui ep s' Hsent Hid _ Hc]; [left; by constructor|].
  destruct Hc; try (left; by constructor).
  - left. constructor; [|done]. cbn. by rewrite lookup_insert_ne by congruence.
  - destruct (decide (id0 = id)) as [->|Hne]; [right|left; constructor; [cbn; by rewrite lookup_delete_ne|done]].
    rewrite Forall_forall in IH. match goal with Hb : ?b0 ∈ _ |- _ => pose proof (IH b0 Hb) end.
    exists c, ui, raw. split_and!; [done|by apply Hid|done|].
    match goal with Ho : _ \/ _ |- _ => destruct Ho as [Ho|Hr]; [left; congruence|by right] end.
Qed.

Lemma files_come s0 h :
  history lawful s0 h ->
  Forall (fun b => forall id f, Catalogue.Files b !! id = Some f ->
    Catalogue.Files s0 !! id = Some f \/ contributed f) h.
Proof.
  intros Hh. induction Hh as [|h s s' Hh IH Hl]; [constructor; [by left|done]|].
  constructor; [|done]. pose proof (Forall_inv IH) as Hs.
  destruct Hl as [|c ui ep s' Hsent Hid _ Hc]; [done|]. destruct Hc; try done.
  - intros k g. cbn. rewrite lookup_insert_Some. intros [[_ <-]|[_ Hg]]; [right|by apply Hs].
    exists c, ui, f, post. split_and!; try done; [by apply Hid|lia..].
  - intros k g. cbn. rewrite lookup_delete_Some. intros [_ Hg]. by apply Hs.
Qed.

(** C7: attachments: whatever requests arrive and however they interleave or fail, an attachment
    is still there, with its owner, name, type, size and key, unless its owner or a moderator
    asked for its removal in a request that was sent; and one that is there in the end was there
    at the start or was sent by its owner, within the bounds. *)
Theorem attachments_kept w ps' w' :
  db_ok (w_db w) -> rtc (step (sent_program srv sent) e) ([], w) (ps', w') ->
  (forall id a, attachments (w_db w) !! id = Some a ->
     (exists a', attachments (w_db w') !! id = Some a' /\ file_of a' = file_of a) \/
     removed id (Attachment.OwnerID a)) /\
  (forall id a', attachments (w_db w') !! id = Some a' ->
     (exists a, attachments (w_db w) !! id = Some a /\ file_of a' = file_of a) \/
     contributed (file_of a')).
Proof.
  intros Hd Hs. destruct (catalogue_past w ps' w' Hd Hs) as (h & Hh).
  change (history lawful (part w) (part w' :: h)) in Hh. split.
  - intros id a Ha. destruct (files_stay _ _ id (file_of a) Hh) as [Hall|]; [by rewrite file_at, Ha| |by right].
    left. apply Forall_inv in Hall. rewrite file_at, fmap_Some in Hall. destruct Hall as (a' & Ha' & ->). eauto.
  - intros id a' Ha'. pose proof (Forall_inv (files_come _ _ Hh)) as Hall.
    destruct (Hall id (file_of a')) as [Hf|]; [by rewrite file_at, Ha'| |by right].
    left. rewrite file_at, fmap_Some in Hf. destruct Hf as (a & Ha & ->). eauto.
Qed.

End cataloguing.

(** ** Examples *)

Section examples.
#[local] Existing Instances ascii_server plain_argon2 decimal_uuid open_jwt ascii_unicode.

Definition alices_notes : Attachment.t :=
  Attachment.Mk 70%N alice None "notes.txt" "text/plain" 3 "attachments/70.txt" "/media/attachments/70.txt" 0 0.
Definition with_notes : world :=
  world_of (Db.set_attachments {[70%N := alices_notes]} (w_db one_session)).

(** Bob would remove alice's file and sends one of his own, alice sends him a message, and an
    administrator names the forum. *)
Definition errands : list (context * endpoint) :=
  [(as_bob, DeleteAttachment "70");
   (as_bob, PostAttachment (Some (upload.Mk "cat.png" "image/png" 4 "meow")) "");
   (as_alice, PostMessage (Some (sendMessageRequest.Mk bob "hello")));
   (bearer (token_for alice "alice" [RoleAdmin] 100) anonymous, PutSettings (Some " Lounge "))].
Definition errands_run : pool response * world :=
  run_sched calm [1; 0; 3; 2; 1; 0; 2; 3; 1; 1; 2; 3; 0; 1; 2; 3; 1]
    ((fun '(c, ep) => handle sample_deps c ep) <$> errands, with_notes).

Lemma errands_reached :
  rtc (step (sent_program sample_deps (fun c ep => (c, ep) ∈ errands)) calm) ([], with_notes)
    (errands_run.1, errands_run.2).
Proof.
  unfold errands_run. apply run_sched_reached, Forall_fmap, Forall_forall. intros [c ep] Hin. by exists c, ep.
Qed.

Lemma with_notes_ok : db_ok (w_db with_notes).
Proof. apply db_okb_true. by vm_compute. Qed.

Lemma api_refines_catalogue_witness :
  (statuses errands_run.1, Catalogue.Title (catalogue_of (w_db errands_run.2)))
    = ([Some 403%Z; Some 201%Z; Some 500%Z; Some 200%Z], Some (JString "Lounge")) /\
  exists h, catalogue_history calm sample_deps (fun c ep => (c, ep) ∈ errands) with_notes errands_run.2 h.
Proof.
  split; [by vm_compute|].
  exact (api_refines_catalogue calm sample_deps (fun c ep => (c, ep) ∈ errands) with_notes
    errands_run.1 errands_run.2 with_notes_ok errands_reached).
Defined.

Lemma attachments_kept_witness :
  (exists a', attachments (w_db errands_run.2) !! 70%N = Some a' /\ file_of a' = file_of alices_notes) \/
  removed calm sample_deps (fun c ep => (c, ep) ∈ errands) 70%N alice.
Proof.
  destruct (attachments_kept calm sample_deps (fun c ep => (c, ep) ∈ errands) with_notes
    errands_run.1 errands_run.2 with_notes_ok errands_reached) as [Hkept _].
  apply (Hkept 70%N alices_notes). by vm_compute.
Defined.

End examples.
