(* ===== verification/Answered.v ===== *)
(** * Every request is answered

    A request is a bounded number of actions (statements, transactions, calls to the object
    store, readings of the clock, of the random source and of the UUID generator), on every path
    and whatever the actions return.  No action waits for another request, so a request that is
    given that many turns has its response, however the others are scheduled. *)
From S2P Require Import Prelude GoStrings GoErrors Models Db Prog Concrete Password Jwt Storage.
From S2P Require Import GroupStore PostStore ThreadStore UserStore SessionStore SettingsStore.
From S2P Require Import MessageStore NotificationStore AttachmentStore AuthService AdminService.
From S2P Require Import InstallService GroupService ThreadService PostService MessageService.
From S2P Require Import MediaService Handlers Samples Frames.
Local Open Scope mc_scope.

(** [p] ends within [n] actions. *)
Fixpoint within {A} (n : nat) (p : prog A) {struct p} : Prop :=
  match p with
  | Ret _ => True
  | Act op k => match n with
                | 0 => False
                | S n' => forall b, within n' (k b)
                end
  end.

Lemma within_mono {A} n m (p : prog A) : n <= m -> within n p -> within m p.
Proof.
  revert n m. induction p as [a|D op k IH]; [by cbn|]. intros [|n] [|m] Hle; cbn; try done; [lia|].
  intros Hk b. apply (IH b n); [lia|done].
Qed.

Lemma within_bind {A B} n m (p : prog A) (k : A -> prog B) :
  within n p -> (forall a, within m (k a)) -> within (n + m) (bind p k).
Proof.
  revert n. induction p as [a|D op q IH]; intros n Hp Hk; cbn.
  - apply (within_mono m); [lia|done].
  - destruct n as [|n]; [done|]. intros b. by apply IH.
Qed.

Lemma within_same {A} n (p q : prog A) : same p q -> within n q -> within n p.
Proof.
  intros Hs. revert n. induction Hs as [a|B op k k' _ IH]; intros [|n]; cbn; try done.
  intros Hk b. by apply IH.
Qed.

(** One step of a bound: a bind is taken apart from the left. *)
Lemma within_bind_Ret {A B} n a (k : A -> prog B) : within n (k a) -> within n (bind (Ret a) k).
Proof. done. Qed.

Lemma bind_assoc {A B C} (p : prog A) (k : A -> prog B) (l : B -> prog C) :
  forall n, within n (bind p (fun a => bind (k a) l)) -> within n (bind (bind p k) l).
Proof.
  induction p as [a|D op q IH]; cbn; [done|]. intros [|n]; [done|]. intros Hq b. by apply IH.
Qed.

Lemma within_act {A B} n {D} (op : env -> world -> D * world) (k : D -> prog A) (l : A -> prog B) :
  (forall b, within n (bind (k b) l)) -> within (S n) (bind (Act op k) l).
Proof. done. Qed.

(** [count_tac] follows every path of a program. *)
Ltac count_step :=
  match goal with
  | |- within _ (Ret _) => exact I
  | |- within _ (bind (Ret _) _) => apply within_bind_Ret
  | |- within _ (bind (bind _ _) _) => apply bind_assoc
  | |- within _ (bind (Act _ _) _) => apply within_act; intros ?
  | |- within _ (Act _ Ret) => intros ?; exact I
  | |- within _ (bind (match ?x with _ => _ end) _) => destruct x
  | |- within _ (match ?x with _ => _ end) => destruct x
  end.
Ltac count_tac :=
  unfold bindr, exec, transact, clock_Now, rand_Read, uuid_New, object_op, ret, fail;
  repeat (cbv beta; count_step).

Section bounds.
Context `{Postgres, Argon2, Uuid, Jwt, Unicode}.

(** The largest number of actions of one request: a login by e-mail address takes nine. *)
Definition most_actions : nat := 9.

(** Behind the check of a token, whose time is read first, a handler takes at most eight. *)
Lemma serve_as_within d c ep ui :
  within (match guard_of ep with Public => 9 | _ => 8 end) (serve_as d c ep ui).
Proof.
  destruct ep; cbn [serve_as guard_of]; autounfold with mc_handlers; autounfold with mc_progs;
    unfold Hash, NewAccessToken, issue, NewRefreshToken, AvatarKey, AttachmentKey, Upload, Remove;
    count_tac.
Qed.

Lemma RequireAuth_within n m c next :
  (forall ui, within n (next ui)) -> within (S n) (RequireAuth m c next).
Proof.
  intros Hn. unfold RequireAuth. destruct (String.eqb _ ""); [exact I|]. unfold Parse.
  apply bind_assoc, within_act. intros now. cbn.
  destruct (ParseWithClaims _ _ _ _ _) as [[claims valid]|er]; [|exact I]. cbn.
  destruct (negb valid); [exact I|]. cbn. destruct (uuid_Parse _); [apply Hn|exact I].
Qed.

Lemma handle_within d c ep : within most_actions (handle d c ep).
Proof.
  unfold handle. pose proof (serve_as_within d c ep) as Hw. destruct (guard_of ep).
  - apply Hw.
  - apply RequireAuth_within, Hw.
  - apply RequireAuth_within. intros ui. unfold RequireRole.
    destruct (Roles.hasRole _ _); [apply Hw|exact I].
Qed.

End bounds.

(** ** Turns *)

(** The turns that a schedule gives to the program [i]. *)
Definition turns (i : nat) (sched : list nat) : nat := count_occ Nat.eq_dec sched i.

(** A program with enough turns ends. *)
Lemma turns_end {A} e sched (ps : pool A) w i p n :
  ps !! i = Some p -> within n p -> n <= turns i sched ->
  exists a, (run_sched e sched (ps, w)).1 !! i = Some (Ret a).
Proof.
  revert ps w p n. induction sched as [|j sched IH]; intros ps w p n Hi Hp Ht.
  - unfold turns in Ht. cbn in *. destruct p as [a|B op k]; [by exists a|].
    destruct n; [done|lia].
  - unfold turns in *. cbn in *. destruct (Nat.eq_dec j i) as [->|Hne].
    + rewrite Hi. destruct p as [a|B op k].
      * by apply (IH ps w (Ret a) 0); [|done|lia].
      * destruct n as [|n]; [done|]. cbn in Hp.
        apply (IH _ _ (k (op e w).1) n); [|apply Hp|lia].
        apply list_lookup_insert_eq. by eapply lookup_lt_Some.
    + destruct (ps !! j) as [[a|B op k]|]; [by eapply IH| |by eapply IH].
      eapply IH; [|exact Hp|done]. unfold pool in *. by rewrite list_lookup_insert_ne.
Qed.

Section answered.
Context `{Postgres, Argon2, Uuid, Jwt, Unicode}.

(** C15: termination: a request that gets nine turns is answered: among any requests, under any
    schedule of their actions, with faults anywhere, the request number [i] has its response as
    soon as the schedule has named it nine times; no request ever waits for another, and every
    path of every handler, error paths included, is at most nine actions. *)
Theorem every_request_answered e (reqs : list (deps * context * endpoint)) sched w i d c ep :
  reqs !! i = Some (d, c, ep) -> most_actions <= turns i sched ->
  exists r, (run_sched e sched ((fun '(d, c, ep) => handle d c ep) <$> reqs, w)).1 !! i
            = Some (Ret r).
Proof.
  intros Hi Ht. eapply turns_end; [|apply (handle_within d c ep)|done].
  unfold pool. by rewrite list_lookup_fmap, Hi.
Qed.

End answered.

(** ** Examples *)

Section examples.
#[local] Existing Instances ascii_server plain_argon2 decimal_uuid open_jwt ascii_unicode.

(** Three requests, the first of which is served last. *)
Definition three_requests : list (deps * context * endpoint) :=
  [(sample_deps, as_bob, PostPost "30" (Some "hi"));
   (sample_deps, with_refresh "t0ken", PostRefresh);
   (sample_deps, as_alice, DeletePost "40")].

Lemma every_request_answered_witness :
  exists r, (run_sched calm ([2; 1; 1; 2; 2] ++ replicate 9 0)
    ((fun '(d, c, ep) => handle d c ep) <$> three_requests, one_session)).1 !! 0 = Some (Ret r).
Proof.
  apply (every_request_answered calm three_requests _ one_session 0 sample_deps as_bob
    (PostPost "30" (Some "hi")) eq_refl). by vm_compute.
Defined.

End examples.
