(* ===== verification/Wellformed.v ===== *)
(** * Every stored row is well formed

    The handlers check what they are sent before they store it.  [wf] is what those checks
    promise of the tables: names, addresses and slugs in their languages, titles and bodies
    within their limits, statuses from the allowed set, sizes in bounds, texts valid UTF-8
    without NUL, counters in the range of their columns, settings of the type they are read at.
    No request, interleaved with others in any way, stores a row that is not. *)
From S2P Require Import Prelude GoStrings Regexp GoErrors Models GoJson Db Prog Concrete Rely Roles.
From S2P Require Import Encoding Sha256 Password Config Jwt Storage GroupStore PostStore.
From S2P Require Import ThreadStore UserStore SessionStore SettingsStore MessageStore.
From S2P Require Import NotificationStore AttachmentStore AuthService AdminService.
From S2P Require Import InstallService GroupService ThreadService PostService MessageService.
From S2P Require Import MediaService Handlers Samples Frames.
Import MessageService.Notifications.
Local Open Scope mc_scope.

(** ** Rows *)

Section rows.
Context `{Unicode}.

Definition accepted (o : option error) : bool := match o with None => true | Some _ => false end.

Definition user_wf (u : User.t) : bool :=
  matches usernameRe (User.Username u) && matches emailRe (User.Email u)
  && existsb (String.eqb (User.Status u)) allowedStatus
  && texts_ok [User.Username u; User.Email u; User.PasswordHash u; User.DisplayName u;
               User.AvatarURL u].

(** A group row as the input it would be. *)
Definition group_input (g : Group.t) : GroupInput.t :=
  GroupInput.Mk (Group.Name g) (Group.Slug g) (Group.Description g) (Group.ParentID g)
    (Group.SortOrder g).
Definition group_wf (g : Group.t) : bool :=
  accepted (validateGroup (group_input g))
  && texts_ok [Group.Name g; Group.Slug g; Group.Description g] && int32_ok (Group.SortOrder g).

Definition thread_wf (t : Thread.t) : bool :=
  accepted (validateTitle (Thread.Title t)) && text_ok (Thread.Title t)
  && (int32_ok (Thread.PostCount t) && int32_ok (Thread.Views t)).

Definition post_wf (p : Post.t) : bool :=
  accepted (validateBody (Post.Body p)) && text_ok (Post.Body p).

Definition attachment_wf (a : Attachment.t) : bool :=
  (0 <? Attachment.SizeBytes a)%Z && (Attachment.SizeBytes a <=? maxAttachmentSize)%Z
  && negb (String.eqb (Attachment.Filename a) "")
  && (len (Attachment.Filename a) <=? Z.of_nat maxFilenameLength)%Z
  && texts_ok [Attachment.Filename a; Attachment.ContentType a; Attachment.StorageKey a;
               Attachment.PublicURL a].

Definition message_wf (m : PrivateMessage.t) : bool :=
  negb (N.eqb (PrivateMessage.SenderID m) (PrivateMessage.RecipientID m))
  && negb (String.eqb (PrivateMessage.Body m) "")
  && (RuneCountInString (PrivateMessage.Body m) <=? maxPMBodyLength)%Z
  && text_ok (PrivateMessage.Body m).

Definition session_wf (s : Session.t) : bool :=
  texts_ok [Session.TokenHash s; Session.UserAgent s].

Definition setting_wf (key : string) (row : setting_row) : bool :=
  if String.eqb key keyInstalled then match set_value row with JBool b => b | _ => false end
  else if String.eqb key keyForumName
  then match set_value row with JString s => no_nul s | _ => false end
  else true.

Definition notification_wf (n : Notification.t) : bool :=
  jsonb_ok (Notification.Payload n) && text_ok (Notification.Type_ n).

(** ** Tables *)

Definition every {K R} `{Countable K} (f : R -> bool) (m : gmap K R) : Prop :=
  map_Forall (fun _ r => f r = true) m.

Record wf (d : database) : Prop := {
  wf_users : every user_wf (users d);
  wf_groups : every group_wf (groups d);
  wf_threads : every thread_wf (threads d);
  wf_posts : every post_wf (posts d);
  wf_attachments : every attachment_wf (attachments d);
  wf_messages : every message_wf (private_messages d);
  wf_sessions : every session_wf (user_sessions d);
  wf_notifications : every notification_wf (notifications d);
  wf_settings : map_Forall (fun k r => setting_wf k r = true) (settings d) }.

End rows.

Lemma every_insert {R} (f : R -> bool) (m : gmap uuid R) k r :
  every f m -> f r = true -> every f (<[k := r]> m).
Proof. intros Hm Hr. by apply map_Forall_insert_2. Qed.
Lemma every_delete {R} (f : R -> bool) (m : gmap uuid R) k : every f m -> every f (delete k m).
Proof. apply map_Forall_delete. Qed.
Lemma every_subset {R} (f : R -> bool) (m m' : gmap uuid R) : m' ⊆ m -> every f m -> every f m'.
Proof. intros Hs Hm k r Hk. apply (Hm k r). by eapply lookup_weaken. Qed.
Lemma every_fmap {R} (f : R -> bool) (g : R -> R) (m : gmap uuid R) :
  (forall r, f r = true -> f (g r) = true) -> every f m -> every f (g <$> m).
Proof. intros Hg Hm k r. rewrite lookup_fmap_Some. intros (x & <- & Hx). apply Hg. by apply (Hm k). Qed.
Lemma every_lookup {R} (f : R -> bool) (m : gmap uuid R) k r : every f m -> m !! k = Some r -> f r = true.
Proof. intros Hm. apply Hm. Qed.
#[export] Hint Resolve every_insert every_delete : mc.

(** ** Statements *)

Section statements.
Context `{Postgres, Unicode}.

#[local] Ltac wf_insert := intros Hd; destruct Hd; constructor; cbn; try done.

Lemma insert_user_wf nu :
  matches usernameRe (NewUser.Username nu) = true -> matches emailRe (NewUser.Email nu) = true ->
  StmtKeeps wf (insert_user nu).
Proof.
  intros Hn He sv d a d' (Ht & _ & _ & [= <- <-])%checked_Ok. wf_insert.
  apply every_insert; [done|]. unfold user_wf. cbn in *. rewrite Hn, He. cbn.
  by rewrite !andb_true_iff in *.
Qed.

Lemma update_user_row_wf id param f :
  (text_ok param = true -> forall sv u, user_wf u = true -> user_wf (f sv u) = true) ->
  StmtKeeps wf (update_user_row id param f).
Proof.
  intros Hf sv d a d' (Ht & _ & _ & Hs)%checked_Ok.
  destruct (users d !! id) as [u|] eqn:Hu; injection Hs as <- <-; [|done]. wf_insert.
  apply every_insert; [done|]. apply Hf; [done|]. by eapply every_lookup.
Qed.

Lemma avatar_wf id url :
  StmtKeeps wf (update_user_row id url (fun sv => with_avatar url (sv_now sv))).
Proof.
  apply update_user_row_wf. intros Ht sv u. unfold user_wf. cbn.
  rewrite !andb_true_iff. naive_solver.
Qed.

Lemma status_wf id st : existsb (String.eqb st) allowedStatus = true ->
  StmtKeeps wf (update_user_row id st (fun sv => with_status st (sv_now sv))).
Proof.
  intros Hst. apply update_user_row_wf. intros Ht sv u. unfold user_wf. cbn.
  rewrite !andb_true_iff. cbn in Hst. naive_solver.
Qed.

Lemma write_group_wf id r d a d' :
  group_wf r = true -> write_group id r d = Ok (a, d') -> wf d -> wf d'.
Proof.
  intros Hr (_ & _ & _ & [= <- <-])%checked_Ok. wf_insert. by apply every_insert.
Qed.

Lemma group_row_wf id c u inp :
  validateGroup inp = None -> group_params_ok (to_new inp) = true ->
  int32_ok (NewGroup.SortOrder (to_new inp)) = true ->
  group_wf (group_row id c u (to_new inp)) = true.
Proof.
  intros Hv Ht Hs. unfold group_wf. destruct inp. cbn in *. unfold group_input. cbn.
  rewrite Hv, Hs. cbn. unfold group_params_ok in Ht. cbn in Ht. by rewrite Ht.
Qed.

Lemma insert_group_wf inp : validateGroup inp = None -> StmtKeeps wf (insert_group (to_new inp)).
Proof.
  intros Hv sv d a d'. unfold insert_group. destruct (negb _) eqn:Hs; [done|].
  apply negb_false_iff in Hs. intros (Ht & _ & _ & Hw)%checked_Ok.
  eapply write_group_wf; [|exact Hw]. by apply group_row_wf.
Qed.

Lemma update_group_wf id inp :
  validateGroup inp = None -> StmtKeeps wf (update_group id (to_new inp)).
Proof.
  intros Hv sv d a d'. unfold update_group. destruct (negb _) eqn:Hs; [done|].
  apply negb_false_iff in Hs. intros (Ht & _ & _ & Hw)%checked_Ok.
  destruct (groups d !! id) as [old|]; [|by injection Hw as <- <-].
  eapply write_group_wf; [|exact Hw]. by apply group_row_wf.
Qed.

Lemma insert_thread_wf nt :
  validateTitle (NewThread.Title nt) = None -> StmtKeeps wf (insert_thread nt).
Proof.
  intros Hv sv d a d' (Ht & _ & _ & [= <- <-])%checked_Ok. wf_insert.
  apply every_insert; [done|]. unfold thread_wf. cbn. by rewrite Hv, Ht.
Qed.

Lemma update_thread_row_wf id f d n d' :
  (forall t, accepted (validateTitle (Thread.Title t)) && text_ok (Thread.Title t) = true ->
     Thread.Title (f t) = Thread.Title t) ->
  update_thread_row id f d = Ok (n, d') -> wf d -> wf d'.
Proof.
  intros Hf. unfold update_thread_row. destruct (threads d !! id) as [t|] eqn:Ht; [|by intros [= _ <-]].
  destruct (_ && _) eqn:Hi; [|done]. intros [= _ <-]. wf_insert.
  apply every_insert; [done|].
  assert (Hwf : thread_wf t = true) by by eapply every_lookup.
  unfold thread_wf in *. apply andb_true_iff in Hwf as [Hwf _]. by rewrite (Hf t Hwf), Hwf, Hi.
Qed.

#[export] Instance bump_post_wf id t : StmtKeeps wf (bump_post_stmt id t).
Proof. intros sv d a d'. by apply update_thread_row_wf. Qed.
#[export] Instance increment_views_wf id : StmtKeeps wf (increment_views_stmt id).
Proof. intros sv d a d'. by apply update_thread_row_wf. Qed.
#[export] Instance recalc_stats_wf id : StmtKeeps wf (recalc_stats_stmt id).
Proof. intros sv d a d'. by apply update_thread_row_wf. Qed.

Lemma update_thread_wf id title p l :
  validateTitle title = None -> StmtKeeps wf (update_thread_stmt id title p l).
Proof.
  intros Hv sv d a d' (Ht & _ & _ & Hs)%checked_Ok.
  destruct (threads d !! id) as [t|] eqn:Hk; injection Hs as <- <-; [|done]. wf_insert.
  apply every_insert; [done|].
  assert (Hwf : thread_wf t = true) by by eapply every_lookup.
  unfold thread_wf in *. apply andb_true_iff in Hwf as [_ Hwf]. cbn. by rewrite Hv, Ht, Hwf.
Qed.

Lemma insert_post_wf np : validateBody (NewPost.Body np) = None -> StmtKeeps wf (insert_post np).
Proof.
  intros Hv sv d a d' (Ht & _ & _ & [= <- <-])%checked_Ok. wf_insert.
  apply every_insert; [done|]. unfold post_wf. cbn. by rewrite Hv, Ht.
Qed.

Lemma update_post_body_wf id body u :
  validateBody body = None -> StmtKeeps wf (update_post_body id body u).
Proof.
  intros Hv sv d a d' (Ht & _ & _ & Hs)%checked_Ok.
  destruct (posts d !! id) as [p|] eqn:Hp; [|by injection Hs as <- <-].
  apply checked_Ok in Hs as (_ & _ & _ & [= <- <-]). wf_insert.
  apply every_insert; [done|]. unfold post_wf. cbn. by rewrite Hv, Ht.
Qed.

(** Deleting with cascades. *)
Lemma cascade_posts_wf ps d : every post_wf ps -> wf d -> wf (cascade_posts ps d).
Proof.
  intros Hps. wf_insert. apply every_fmap; [|done]. intros x. unfold clear_post.
  by destruct (has_key_opt _ _).
Qed.

Lemma cascade_threads_wf ts d : every thread_wf ts -> wf d -> wf (cascade_threads ts d).
Proof.
  intros Hts Hd. apply cascade_posts_wf.
  - eapply every_subset; [apply keep_subset|apply Hd].
  - revert Hd. wf_insert.
Qed.

Lemma clear_parent_wf gs g : group_wf g = true -> group_wf (clear_parent gs g) = true.
Proof.
  unfold clear_parent. destruct (has_key_opt _ _); [done|]. unfold group_wf, group_input. cbn.
  unfold validateGroup. cbn. destruct (_ || _); [done|]. destruct (_ || _); [done|].
  destruct (_ <? _)%Z; [done|]. by destruct (bool_decide (_ = Some _)).
Qed.

#[export] Instance delete_post_wf id : StmtKeeps wf (delete_post_stmt id).
Proof.
  intros sv d a d'. unfold delete_post_stmt. destruct (has_key _ _); intros [= <- <-]; [|done].
  intros Hd. apply cascade_posts_wf; [apply every_delete, Hd|done].
Qed.
#[export] Instance delete_thread_wf id : StmtKeeps wf (delete_thread_stmt id).
Proof.
  intros sv d a d'. unfold delete_thread_stmt. destruct (has_key _ _); intros [= <- <-]; [|done].
  intros Hd. apply cascade_threads_wf; [apply every_delete, Hd|done].
Qed.
#[export] Instance delete_group_wf id : StmtKeeps wf (delete_group_stmt id).
Proof.
  intros sv d a d'. unfold delete_group_stmt. destruct (has_key _ _); intros [= <- <-]; [|done].
  intros Hd. apply (cascade_threads_wf _ (set_groups _ d)).
  - eapply every_subset; [apply keep_subset|apply Hd].
  - destruct Hd. constructor; cbn; try done.
    apply every_fmap; [apply clear_parent_wf|by apply every_delete].
Qed.

(** Attachments. *)
Lemma sanitizeFilename_bounds name :
  sanitizeFilename name <> "" /\ (len (sanitizeFilename name) <= Z.of_nat maxFilenameLength)%Z.
Proof.
  unfold sanitizeFilename. set (x := path_Base _).
  destruct (String.eqb_spec x ""); [done|]. destruct (String.eqb_spec x "."); [done|].
  destruct (String.eqb_spec x "/"); [done|]. cbn [orb].
  destruct (Z.ltb_spec (Z.of_nat maxFilenameLength) (len x)) as [Hl|Hl]; [|done]. split.
  - by destruct x.
  - unfold len. pose proof (length_str_take maxFilenameLength x). lia.
Qed.

Lemma insert_attachment_wf u p name ty size key url :
  (size <=? 0)%Z = false -> (maxAttachmentSize <? size)%Z = false ->
  StmtKeeps wf (insert_attachment (NewAttachment.Mk u p (sanitizeFilename name) ty size key url)).
Proof.
  intros Hlo Hhi sv d a d' (Ht & _ & _ & [= <- <-])%checked_Ok. wf_insert.
  apply every_insert; [done|]. destruct (sanitizeFilename_bounds name) as [Hn Hl].
  unfold attachment_wf. cbn [Attachment.SizeBytes Attachment.Filename Attachment.ContentType
    Attachment.StorageKey Attachment.PublicURL] in *.
  rewrite !andb_true_iff. split_and!; [lia|lia| |lia|done].
  apply negb_true_iff. by apply String.eqb_neq.
Qed.
#[export] Instance delete_attachment_wf id : StmtKeeps wf (delete_attachment_stmt id).
Proof.
  intros sv d a d'. unfold delete_attachment_stmt. destruct (has_key _ _); intros [= <- <-]; [|done].
  wf_insert. by apply every_delete.
Qed.

(** Messages and notifications. *)
Lemma insert_message_wf ts a b body :
  N.eqb a b = false ->
  String.eqb body "" || (maxPMBodyLength <? RuneCountInString body)%Z = false ->
  StmtKeeps wf (insert_message ts (NewPrivateMessage.Mk a b body)).
Proof.
  intros Hab [Hb Hl]%orb_false_iff. apply resolved_keeps.
  intros sv d x d' (Ht & _ & _ & [= <- <-])%checked_Ok. wf_insert.
  apply every_insert; [done|]. unfold message_wf. cbn in *. rewrite Hab, Hb, Ht. cbn.
  rewrite andb_true_r. apply Z.leb_le. by apply Z.ltb_ge in Hl.
Qed.
#[export] Instance message_read_wf id u : StmtKeeps wf (MessageStore.mark_read_stmt id u).
Proof.
  intros sv d a d'. unfold MessageStore.mark_read_stmt.
  destruct (private_messages d !! id) as [m|] eqn:Hm; [|by intros [= <- <-]].
  case_match; intros [= <- <-]; [|done]. wf_insert. apply every_insert; [done|].
  change (message_wf m = true).
  by eapply every_lookup.
Qed.
#[export] Instance insert_notification_wf u t p : StmtKeeps wf (insert_notification u t p).
Proof.
  intros sv d a d'. unfold insert_notification. destruct (negb _) eqn:Hj; [done|].
  intros (Ht & _ & _ & [= <- <-])%checked_Ok. wf_insert. apply every_insert; [done|].
  unfold notification_wf. cbn. apply negb_false_iff in Hj. by rewrite Hj, Ht.
Qed.
#[export] Instance notification_read_wf id u : StmtKeeps wf (NotificationStore.mark_read_stmt id u).
Proof.
  intros sv d a d'. unfold NotificationStore.mark_read_stmt.
  destruct (notifications d !! id) as [m|] eqn:Hm; [|by intros [= <- <-]].
  case_match; intros [= <- <-]; [|done]. wf_insert. apply every_insert; [done|].
  change (notification_wf m = true).
  by eapply every_lookup.
Qed.
#[export] Instance mark_all_wf u : StmtKeeps wf (mark_all_stmt u).
Proof.
  intros sv d a d' [= <- <-]. wf_insert. apply every_fmap; [|done]. intros n. by destruct (unread u n).
Qed.

(** Sessions, roles and settings. *)
#[export] Instance insert_session_wf ns ip : StmtKeeps wf (insert_session ns ip).
Proof.
  intros sv d a d'. unfold insert_session. destruct (inet_param ip); [|done].
  intros (Ht & _ & _ & [= <- <-])%checked_Ok. wf_insert. by apply every_insert.
Qed.
#[export] Instance revoke_wf id t : StmtKeeps wf (update_unrevoked id (with_revoked t)).
Proof.
  intros sv d a d'. unfold update_unrevoked.
  destruct (user_sessions d !! id) as [s|] eqn:Hs; [|by intros [= <- <-]].
  case_match; intros [= <- <-]; [done|]. wf_insert. apply every_insert; [done|].
  change (session_wf s = true).
  by eapply every_lookup.
Qed.
#[export] Instance insert_user_roles_wf u ps f : StmtKeeps wf (insert_user_roles u ps f).
Proof. intros sv d a d' (_ & _ & _ & [= <- <-])%checked_Ok. wf_insert. Qed.
#[export] Instance delete_user_roles_wf u : StmtKeeps wf (delete_user_roles u).
Proof. intros sv d a d' [= <- <-]. wf_insert. Qed.

Lemma upsert_setting_wf k v :
  (jsonb_ok v = true -> forall t, setting_wf k (SettingRow v t) = true) ->
  StmtKeeps wf (upsert_setting k v).
Proof.
  intros Hv sv d a d'. unfold upsert_setting. destruct (negb _) eqn:Hj; [done|].
  intros (_ & _ & _ & [= <- <-])%checked_Ok. wf_insert. apply map_Forall_insert_2; [|done].
  apply Hv. by apply negb_false_iff.
Qed.
#[export] Instance set_installed_wf : StmtKeeps wf (upsert_setting keyInstalled (Marshal (JBool true))).
Proof. by apply upsert_setting_wf. Qed.
#[export] Instance set_name_wf s : StmtKeeps wf (upsert_setting keyForumName (Marshal (JString s))).
Proof. apply upsert_setting_wf. intros Hj t. exact Hj. Qed.

End statements.

(** ** Requests

    The checks that guard a statement are met again as hypotheses: every branch of a program
    remembers its condition, and the instances below look for the ones they need. *)

Section api.
Context `{Postgres, Argon2, Uuid, Jwt, Unicode}.

#[local] Hint Extern 1 (DbSafe wf (match ?x with _ => _ end)) =>
  destruct x eqn:? : typeclass_instances.

(** What the branches say. *)
Ltac checks :=
  repeat match goal with
  | E : negb _ = false |- _ => apply negb_false_iff in E
  | E : setup_invalid _ _ _ _ = false |- _ => unfold setup_invalid in E
  | E : _ || _ = false |- _ => apply orb_false_iff in E as [? ?]
  end; try assumption.
Ltac checked_by lem := apply lem; cbn in *; checks.

#[local] Hint Extern 1 (StmtKeeps wf (insert_user _)) => checked_by insert_user_wf : typeclass_instances.
#[local] Hint Extern 1 (StmtKeeps wf (update_user_row _ _ (fun sv => with_avatar _ _))) =>
  apply avatar_wf : typeclass_instances.
#[local] Hint Extern 1 (StmtKeeps wf (update_user_row _ _ (fun sv => with_status _ _))) =>
  checked_by status_wf : typeclass_instances.
#[local] Hint Extern 1 (StmtKeeps wf (insert_group _)) => checked_by insert_group_wf : typeclass_instances.
#[local] Hint Extern 1 (StmtKeeps wf (update_group _ _)) => checked_by update_group_wf : typeclass_instances.
#[local] Hint Extern 1 (StmtKeeps wf (insert_thread _)) => checked_by insert_thread_wf : typeclass_instances.
#[local] Hint Extern 1 (StmtKeeps wf (insert_post _)) => checked_by insert_post_wf : typeclass_instances.
#[local] Hint Extern 1 (StmtKeeps wf (update_post_body _ _ _)) =>
  checked_by update_post_body_wf : typeclass_instances.
#[local] Hint Extern 1 (StmtKeeps wf (insert_attachment _)) =>
  checked_by insert_attachment_wf : typeclass_instances.
#[local] Hint Extern 1 (StmtKeeps wf (insert_message _ _)) =>
  apply insert_message_wf; assumption : typeclass_instances.

(** All requests but the update of a thread, which writes back a title it has read. *)
Lemma serve_as_wf d c ep ui :
  (forall raw b, ep <> PatchThread raw b) -> DbSafe wf (serve_as d c ep ui).
Proof. intros Hne. destruct ep; try (by destruct (Hne _ _ eq_refl)); serve_one. Qed.

(** ** The update of a thread *)

Section update.
Context (e : env).

Definition any_time (w w' : world) : Prop := True.
#[export] Instance any_time_preorder : PreOrder any_time.
Proof. by split. Qed.
Definition blind (w : world) : unit := tt.
Definition wf_world (w : world) : Prop := wf (w_db w).
Definition anything (h : list unit) (v v' : unit) : Prop := True.

Abbreviation wpw := (wp e blind wf_world any_time anything).

Lemma wf_tick w : wf_world w -> wf_world (tick w) /\ blind (tick w) = blind w /\ any_time w (tick w).
Proof. done. Qed.

Lemma wp_safe {A} (p : prog A) x (Q : A -> config -> Prop) :
  DbSafe wf p -> (forall a y, Q a y) -> wpw x p Q.
Proof.
  intros Hp HQ. apply wp_quiet; [apply _|done| |by intros a y _].
  intros w0. specialize (Hp e). induction p as [a|B op k IH]; cbn; [done|].
  destruct Hp as [Hop Hk]. split; [|by intros b; apply IH].
  intros w (Hw & _ & _). split_and!; [by apply Hop|done|done].
Qed.

(** The title that is written back was read from a well-formed row. *)
Lemma apply_update_title t inp u rs title pinned locked :
  thread_wf t = true -> apply_update t inp u rs = Ok (title, pinned, locked) ->
  validateTitle title = None.
Proof.
  intros Ht. unfold apply_update. destruct (_ && _); [done|].
  destruct (UpdateThreadInput.Title inp) as [x|].
  - destruct (negb _); [done|]. destruct (validateTitle x) eqn:Hx; [done|]. by intros [= <- <- <-].
  - intros [= <- <- <-]. unfold thread_wf, accepted in Ht.
    by destruct (validateTitle (Thread.Title t)).
Qed.

Lemma update_keeps_wf id inp u rs x (Q : _ -> config -> Prop) :
  (forall a y, Q a y) -> wpw x (ThreadService.Update id inp u rs) Q.
Proof.
  intros HQ. unfold ThreadService.Update. apply wp_bind, wp_bind.
  apply wp_read; [done|apply wf_tick|apply _|]. intros w h _ [Hw _]. split.
  { intros er. cbn. destruct (isNoRows er); apply wp_safe; auto; apply _. }
  intros o [= <-]. apply wp_ret.
  destruct (threads (w_db w) !! id) as [t|] eqn:Ht; cbn [scanThread Scan];
    [|apply wp_safe; [apply _|auto]].
  destruct (apply_update t inp u rs) as [[[title p] l]|] eqn:Ha; [|apply HQ].
  assert (Hv : validateTitle title = None).
  { eapply apply_update_title; [|exact Ha]. eapply every_lookup; [apply (wf_threads _ Hw)|done]. }
  pose proof (update_thread_wf id title p l Hv). apply wp_safe; [|auto].
  unfold ThreadStore.Update, ThreadStore.SummaryByID. apply _.
Qed.

Lemma handle_wf d c ep x : wpw x (handle d c ep) done_with.
Proof.
  destruct (match ep with PatchThread _ _ => true | _ => false end) eqn:Hep.
  2: { apply wp_safe; [|done]. apply handle_of_serve. intros ui. apply serve_as_wf.
       by destruct ep. }
  destruct ep as [| | | | | | | | | | | | | | |raw b| | | | | | | | | | | | | | | | | | | | |]; try done.
  unfold handle. cbn [guard_of]. unfold RequireAuth. destruct (String.eqb _ ""); [exact I|].
  apply wp_bind, wp_safe; [apply _|]. intros [claims|er] y; [|exact I].
  destruct (uuid_Parse (Claims.Subject claims)) as [u|]; [|exact I].
  cbn [serve_as]. unfold threads_Update, pathID, decoded, answer.
  destruct (uuid_Parse raw) as [id|]; [|exact I]. destruct b as [inp|]; [|exact I].
  apply wp_bind, update_keeps_wf. intros [a|er] z; apply wp_safe; try done;
    autounfold with mc_handlers; apply _.
Qed.

(** C14: well-formedness: from tables whose rows are all well formed (user names and slugs in
    their languages, titles, bodies and messages within their limits, statuses from the allowed
    set, attachment sizes between 1 byte and 20 MiB, counters in range, texts valid UTF-8 without
    NUL, settings of the type they are read at), any requests, arriving at any time and
    interleaved statement by statement with faults anywhere, only ever reach tables whose rows
    are all well formed. *)
Theorem api_keeps_wellformed w ps' w' :
  wf (w_db w) -> rtc (step (fun p => exists d c ep, p = handle d c ep) e) ([], w) (ps', w') ->
  wf (w_db w').
Proof.
  intros Hw Hs.
  destruct (wp_steps e blind wf_world any_time anything
    (fun p => exists d c ep, p = handle d c ep) ([], w) (ps', w') [tt])
    with (s0 := tt) as (h & _ & Hl & _); try done.
  - intros p x (d & c & ep & ->) _. apply handle_wf.
  - constructor.
Qed.

End update.
End api.

(** ** Examples *)

Section examples.
#[local] Existing Instances ascii_server plain_argon2 decimal_uuid open_jwt ascii_unicode.

(** The migrated tables are well formed, and so is every state a fresh forum reaches. *)
Lemma migrated_wf a b c : wf (migrated a b c).
Proof. constructor; apply map_Forall_empty. Qed.

Definition first_user : pool response * world :=
  let reg := handle sample_deps anonymous
    (PostRegister (Some (registerRequest.Mk "carol" "carol@example.org" "password"))) in
  run_sched calm (replicate 8 0) ([reg], world_of (migrated 11%N 12%N 13%N)).

Lemma api_keeps_wellformed_witness :
  wf (w_db first_user.2) /\ size (users (w_db first_user.2)) = 1.
Proof.
  split; [|by vm_compute].
  apply (api_keeps_wellformed calm (world_of (migrated 11%N 12%N 13%N)) first_user.1 first_user.2
    (migrated_wf 11%N 12%N 13%N)).
  apply run_sched_reached, Forall_singleton. by eexists sample_deps, anonymous, _.
Defined.

End examples.
