(* ===== verification/Dispatch.v ===== *)
(** * The dispatcher empties the queue, in order (internal/ws/hub.go, [Run])

    [dispatcher_makes_room] of Hub.v says that senders are not blocked for ever; this file says
    what becomes of the notifications: left to itself, the dispatcher delivers all of them, each
    once, first in first out, and stops with an empty queue. *)
From S2P Require Import Prelude Models Hub.
Local Open Scope nat_scope.

(** The notifications not yet delivered, the oldest first. *)
Definition pending (h : hub) : list notify := option_list (busy h) ++ notifyCh h.

(** What they will do to a connection. *)
Definition receive_all (ns : list notify) (x : conn) : conn := foldl (fun x n => receive n x) x ns.

(** [Run]'s own steps. *)
Definition dispatching (l : label) : Prop := l = LReceive \/ l = LDeliver.

(** The number of steps that empty the queue: two for each notification that waits, one for the
    one already received. *)
Definition drain_steps (h : hub) : nat :=
  2 * length (notifyCh h) + match busy h with Some _ => 1 | None => 0 end.

(** The dispatcher has only moved notifications to the connections. *)
Definition drained (h h' : hub) : Prop :=
  clients h' = clients h /\ online h' = online h /\ running h' = running h /\
  notifyCh h' = [] /\ busy h' = None /\
  forall c, conns h' !! c = receive_all (pending h) <$> conns h !! c.

Lemma deliver_step h n :
  inv h -> busy h = Some n ->
  exists m, step LDeliver h =
      Some (Running (MkHub (clients h) (online h) (notifyCh h) None m (running h))) /\
    forall c, m !! c = receive n <$> conns h !! c.
Proof.
  intros Hi Hb. destruct (deliver_exact h n Hi) as (m & Hd & Hm). exists m.
  split; [|done]. cbn. by rewrite Hb, Hd.
Qed.

(** The dispatcher alone empties the queue. *)
Definition drains (h : hub) : Prop :=
  exists ls h', length ls = drain_steps h /\ Forall dispatching ls /\
    run_labels ls h = Some (Running h') /\ drained h h'.

Lemma idle_drains h : notifyCh h = [] -> busy h = None -> drains h.
Proof.
  intros Hq Hb. exists [], h. unfold drain_steps, drained, pending. rewrite Hq, Hb.
  split_and!; try done. intros c. cbn. by destruct (conns h !! c).
Qed.

(** The notification it holds goes first. *)
Lemma busy_drains h n :
  inv h -> busy h = Some n ->
  (forall g, inv g -> busy g = None -> running g = running h -> notifyCh g = notifyCh h -> drains g) ->
  drains h.
Proof.
  intros Hi Hb Hrest. destruct (deliver_step h n Hi Hb) as (m & Hs & Hm).
  destruct (step_inv _ _ _ Hi Hs) as (g & [= Hg] & Hig).
  destruct (Hrest g) as (ls & h' & Hl & Hd & Hrun & E1 & E2 & E3 & E4 & E5 & E6);
    [done|by rewrite <- Hg..|].
  exists (LDeliver :: ls), h'. split_and!.
  - cbn. rewrite Hl. unfold drain_steps. rewrite <- Hg. cbn. rewrite Hb. lia.
  - constructor; [by right|done].
  - cbn [run_labels]. by rewrite Hs, Hg.
  - unfold drained. rewrite E1, E2, E3, <- Hg. split_and!; try done.
    intros c. rewrite E6. unfold pending. rewrite <- Hg. cbn. rewrite Hm, Hb.
    by destruct (conns h !! c).
Qed.

(** An idle dispatcher receives the oldest. *)
Lemma free_drains h n q :
  inv h -> busy h = None -> running h = true -> notifyCh h = n :: q ->
  (forall g, inv g -> busy g = Some n -> running g = true -> notifyCh g = q -> drains g) ->
  drains h.
Proof.
  intros Hi Hb Hr Hq Hrest.
  assert (Hs : step LReceive h = Some (Running
    (MkHub (clients h) (online h) q (Some n) (conns h) (running h)))).
  { cbn. by rewrite Hr, Hb, Hq. }
  destruct (step_inv _ _ _ Hi Hs) as (g & [= Hg] & Hig).
  destruct (Hrest g) as (ls & h' & Hl & Hd & Hrun & E1 & E2 & E3 & E4 & E5 & E6);
    [done|by rewrite <- Hg..|].
  exists (LReceive :: ls), h'. split_and!.
  - cbn. rewrite Hl. unfold drain_steps. rewrite <- Hg, Hq, Hb. cbn. lia.
  - constructor; [by left|done].
  - cbn [run_labels]. by rewrite Hs, Hg.
  - unfold drained. rewrite E1, E2, E3, <- Hg. split_and!; try done.
    intros c. rewrite E6. unfold pending. by rewrite <- Hg, Hb, Hq.
Qed.

Lemma all_drain h : inv h -> running h = true -> drains h.
Proof.
  remember (notifyCh h) as q eqn:Hq. revert h Hq.
  induction q as [|n q IH]; intros h Hq Hi Hr.
  - destruct (busy h) as [n|] eqn:Hb; [|by apply idle_drains].
    apply (busy_drains h n); try done. intros g _ Hbg _ Hqg. apply idle_drains; congruence.
  - assert (Hfree : forall g, inv g -> busy g = None -> running g = true -> notifyCh g = n :: q ->
      drains g).
    { intros g Hg Hbg Hrg Hqg. apply (free_drains g n q); try done.
      intros k Hk _ Hrk Hqk. by apply IH. }
    destruct (busy h) as [n0|] eqn:Hb; [|by apply Hfree].
    apply (busy_drains h n0); try done. intros g Hg Hbg Hrg Hqg. apply Hfree; congruence.
Qed.

(** C23: liveness of delivery: in every reachable state, if no one queues anything more, the
    running dispatcher empties the queue in two steps per notification (one for the one it holds)
    and stops idle; every notification was delivered exactly once, in the order of the queue, to
    the connections registered for it that have room; who is connected and who is online has
    not changed. *)
Theorem dispatcher_drains h :
  reachable (Running h) -> running h = true ->
  exists ls h', length ls = drain_steps h /\ Forall dispatching ls /\
    run_labels ls h = Some (Running h') /\ drained h h'.
Proof. intros (h0 & [= <-] & Hi)%reachable_inv. by apply all_drain. Qed.

(** ** Example: two presence announcements and a message *)

Definition busy_hub_labels : list label :=
  [LAccept 1 5%N; LRegister 1; LAnnounce 1; LAccept 2 6%N; LRegister 2; LAnnounce 2;
   LNotify (MkNotify 5%N (MkEvent "hi" (any_data (JBool true)))); LReceive].
Definition busy_hub : hub :=
  match run_labels busy_hub_labels NewHub with Some (Running h) => h | _ => NewHub end.

Lemma busy_hub_reachable : reachable (Running busy_hub).
Proof. apply (reachable_labels busy_hub_labels NewHub); [apply reach_init|by vm_compute]. Qed.

Lemma dispatcher_drains_witness :
  exists h', drained busy_hub h' /\ length <$> (send <$> conns h' !! 1) = Some 3 /\
    length <$> (send <$> conns h' !! 2) = Some 2.
Proof.
  destruct (dispatcher_drains busy_hub busy_hub_reachable) as (ls & h' & _ & _ & _ & Hd);
    [by vm_compute|].
  exists h'. destruct Hd as (H1 & H2 & H3 & H4 & H5 & H6). split; [by split_and!|].
  rewrite !H6. by vm_compute.
Defined.
