(* ===== verification/Client.v ===== *)
(** * One WebSocket connection (internal/ws/client.go)

    The two goroutines of a connection share its socket and its channel of events.
    [ReadPump] waits for the peer and, when reading fails, closes the socket, unregisters the
    client and closes the channel; [WritePump] writes events and pings and, when the channel is
    closed or a write fails, closes the socket.  Hub.v models how the hub fills the channels of
    all connections; this file follows one connection to its end.

    The socket may fail at any time: whether a read or a write succeeds is part of the label of
    a step, except that nothing succeeds on a socket this side has closed. *)
From S2P Require Import Prelude Models Hub.
Local Open Scope nat_scope.

(** ** Constants, in nanoseconds *)

Definition second : Z := 1000000000.
Definition writeWait : Z := 10 * second.
Definition pongWait : Z := 60 * second.
Definition pingPeriod : Z := (pongWait * 9) / 10.
Definition maxMessageSize : Z := Z.shiftl 4 10.

(** ** State *)

(** Where [ReadPump] is: in its loop, or before one of the steps that end it. *)
Inductive reader := Reading | RCloseConn | RUnregister | RCloseSend | RDone.

(** Where [WritePump] is. *)
Inductive writer := Selecting | WCloseConn | WDone.

#[export] Instance reader_eq_dec : EqDecision reader.
Proof. solve_decision. Defined.
#[export] Instance writer_eq_dec : EqDecision writer.
Proof. solve_decision. Defined.

Inductive frame := FEvent (ev : Event) | FPing | FClose.

Record state := MkState {
  rd : reader;
  wr : writer;
  open : bool;               (* the socket, on this side *)
  queued : list Event;       (* c.send *)
  closed_send : bool;
  wire : list frame }.       (* what the peer was sent *)

(** After [NewClient]. *)
Definition NewClient : state := MkState Reading Selecting true [] false [].

(** The hub may queue events for the client: it is registered. *)
Definition is_registered (s : state) : bool :=
  match rd s with Reading | RCloseConn | RUnregister => true | _ => false end.

(** ** Steps *)

Inductive label :=
| Queue (ev : Event)      (* the hub's non-blocking send *)
| Read (ok : bool)        (* ReadMessage returns *)
| ReadCloses              (* the deferred c.conn.Close() of ReadPump *)
| Unregister              (* c.hub.unregister(c) *)
| CloseSend               (* close(c.send) *)
| Write (ok : bool)       (* an event, or the close frame, is taken from c.send and written *)
| Ping (ok : bool)        (* the ticker fires *)
| WriteCloses.            (* the deferred c.conn.Close() of WritePump *)

Definition set_rd (r : reader) (s : state) : state :=
  MkState r (wr s) (open s) (queued s) (closed_send s) (wire s).
Definition set_wr (w : writer) (s : state) : state :=
  MkState (rd s) w (open s) (queued s) (closed_send s) (wire s).
Definition close_conn (s : state) : state :=
  MkState (rd s) (wr s) false (queued s) (closed_send s) (wire s).
Definition put_frame (f : frame) (s : state) : state :=
  MkState (rd s) (wr s) (open s) (queued s) (closed_send s) (wire s ++ [f]).

(** The result of one frame written: on failure the pump leaves its loop. *)
Definition written (f : frame) (ok : bool) (s : state) : state :=
  if ok then put_frame f s else set_wr WCloseConn s.

(** One step; [None] when it is not enabled, or when the code would panic. *)
Definition step (l : label) (s : state) : option state :=
  match l with
  | Queue ev =>
      if is_registered s && negb (closed_send s)
      then Some (if length (queued s) <? sendBuffer
                 then MkState (rd s) (wr s) (open s) (queued s ++ [ev]) (closed_send s) (wire s)
                 else s)
      else None
  | Read ok =>
      match rd s with
      | Reading => if ok then (if open s then Some s else None) else Some (set_rd RCloseConn s)
      | _ => None
      end
  | ReadCloses =>
      match rd s with RCloseConn => Some (set_rd RUnregister (close_conn s)) | _ => None end
  | Unregister => match rd s with RUnregister => Some (set_rd RCloseSend s) | _ => None end
  | CloseSend =>
      match rd s with
      | RCloseSend => if closed_send s then None
                      else Some (MkState RDone (wr s) (open s) (queued s) true (wire s))
      | _ => None
      end
  | Write ok =>
      match wr s with
      | Selecting =>
          if ok && negb (open s) then None else
          match queued s with
          | ev :: q =>
              Some (written (FEvent ev) ok
                      (MkState (rd s) (wr s) (open s) q (closed_send s) (wire s)))
          | [] =>
              if closed_send s
              then Some (set_wr WCloseConn (if ok then put_frame FClose s else s))
              else None
          end
      | _ => None
      end
  | Ping ok =>
      match wr s with
      | Selecting => if ok && negb (open s) then None else Some (written FPing ok s)
      | _ => None
      end
  | WriteCloses =>
      match wr s with WCloseConn => Some (set_wr WDone (close_conn s)) | _ => None end
  end.

(** The hub's steps are not the connection's own. *)
Definition own (l : label) : bool := match l with Queue _ => false | _ => true end.

Fixpoint run (ls : list label) (s : state) : option state :=
  match ls with
  | [] => Some s
  | l :: ls' => match step l s with Some s' => run ls' s' | None => None end
  end.

Definition finished (s : state) : Prop := rd s = RDone /\ wr s = WDone.

(** The events among the frames, and those among the labels. *)
Definition events_of (fs : list frame) : list Event :=
  omap (fun f => match f with FEvent ev => Some ev | _ => None end) fs.
Definition queue_events (ls : list label) : list Event :=
  omap (fun l => match l with Queue ev => Some ev | _ => None end) ls.

(** ** The invariant *)

(** A pump that has passed its [Close] leaves the socket closed; the channel is closed by the
    last step of [ReadPump]. *)
Record inv (s : state) : Prop := {
  inv_reader : match rd s with Reading | RCloseConn => True | _ => open s = false end;
  inv_writer : wr s = WDone -> open s = false;
  inv_send : closed_send s = match rd s with RDone => true | _ => false end;
  inv_queue : length (queued s) <= sendBuffer }.

Lemma inv_NewClient : inv NewClient.
Proof. constructor; cbn; try done. unfold sendBuffer. lia. Qed.

Lemma client_step_inv l s s' : inv s -> step l s = Some s' -> inv s'.
Proof.
  intros [H1 H2 H3 H4] Hs. destruct s as [r w o q c f]; cbn in *.
  destruct l as [ev|ok| | | |ok|ok|]; cbn in Hs; unfold written in Hs;
    repeat case_match; simplify_eq/=; constructor; cbn; try done; try lia; auto.
  all: match goal with E : (length _ <=? 63) = true |- _ => apply Nat.leb_le in E end;
    rewrite length_app; cbn; unfold sendBuffer; lia.
Qed.

Lemma run_inv ls s s' : inv s -> run ls s = Some s' -> inv s'.
Proof.
  revert s. induction ls as [|l ls IH]; intros s Hi; cbn; [by intros [= <-]|].
  destruct (step l s) eqn:Hs; [|done]. apply IH. by eapply client_step_inv.
Qed.

(** ** The end of a connection *)

(** How many of its own steps a connection may still make once its socket is closed. *)
Definition steps_left (s : state) : nat :=
  match rd s with Reading => 4 | RCloseConn => 3 | RUnregister => 2 | RCloseSend => 1 | RDone => 0 end
  + match wr s with Selecting => 2 | WCloseConn => 1 | WDone => 0 end.

(** With the socket closed, every step of the connection's own is one less. *)
Lemma own_step_left l s s' :
  open s = false -> own l = true -> step l s = Some s' ->
  open s' = false /\ steps_left s = S (steps_left s').
Proof.
  intros Ho Hl Hs. destruct s as [r w o q c f]; cbn in Ho; subst o.
  destruct l as [ev|[]| | | |[]|[]|]; try done; cbn in Hs; unfold written in Hs.
  - destruct r; try done.
  - destruct r; try done; by injection Hs as <-.
  - destruct r; try done; by injection Hs as <-.
  - destruct r; try done; by injection Hs as <-.
  - destruct r; try done. destruct c; [done|]. by injection Hs as <-.
  - by destruct w.
  - destruct w; [|done..]. destruct q; [destruct c; [|done]|]; injection Hs as <-;
      split; [done| |done|]; unfold steps_left; cbn; lia.
  - by destruct w.
  - destruct w; [|done..]. injection Hs as <-. split; [done|]. unfold steps_left. cbn. lia.
  - destruct w; [done| |done]. injection Hs as <-. split; [done|]. unfold steps_left. cbn. lia.
Qed.

Lemma queue_step_left ev s s' :
  step (Queue ev) s = Some s' -> open s' = open s /\ steps_left s' = steps_left s /\
    rd s' = rd s /\ wr s' = wr s.
Proof. cbn. case_match; [|done]. intros [= <-]. by case_match. Qed.

(** As long as the connection is not finished, one of its own steps is enabled. *)
Lemma own_step_enabled s :
  inv s -> open s = false -> ~ finished s -> exists l s', own l = true /\ step l s = Some s'.
Proof.
  intros [H1 H2 H3 H4] Ho Hn. destruct s as [r w o q c f]; cbn in *.
  destruct r.
  - by eexists (Read false), _.
  - by eexists ReadCloses, _.
  - by eexists Unregister, _.
  - eexists CloseSend, _. by rewrite H3.
  - destruct w; [by eexists (Ping false), _|by eexists WriteCloses, _|by destruct Hn].
Qed.


(** ** What the peer is sent *)

Lemma events_of_app a b : events_of (a ++ b) = events_of a ++ events_of b.
Proof. apply omap_app. Qed.

(** Events are neither invented, reordered nor repeated. *)
Lemma step_events l s s' old :
  step l s = Some s' -> sublist (events_of (wire s) ++ queued s) old ->
  sublist (events_of (wire s') ++ queued s') (old ++ queue_events [l]).
Proof.
  intros Hs Hold. destruct s as [r w o q c f]. cbn in Hold.
  destruct l as [ev|ok| | | |ok|ok|]; cbn in Hs; unfold written in Hs;
    repeat case_match; simplify_eq/=; rewrite ?events_of_app in *; cbn; rewrite ?app_nil_r in *;
    try done.
  - rewrite app_assoc. by apply sublist_app.
  - by apply sublist_inserts_r.
  - by rewrite <- app_assoc.
  - etrans; [|exact Hold]. apply sublist_app; [done|]. by apply sublist_cons.
Qed.

(** Delivery: whatever the hub and the socket do, the events written to the peer, followed
    by those still waiting, are events the hub queued for this connection, in the order in which
    it queued them, each at most once; nothing is queued after the client is unregistered, and
    no more than 64 events wait. *)
Theorem connection_delivers ls s :
  run ls NewClient = Some s ->
  sublist (events_of (wire s) ++ queued s) (queue_events ls) /\
  length (queued s) <= 64 /\
  (rd s = RDone \/ rd s = RCloseSend -> forall ev, step (Queue ev) s = None).
Proof.
  intros Hr. pose proof (run_inv _ _ _ inv_NewClient Hr) as Hi. split_and!; [|apply Hi|].
  - assert (Hgen : forall s0 old, sublist (events_of (wire s0) ++ queued s0) old ->
      run ls s0 = Some s -> sublist (events_of (wire s) ++ queued s) (old ++ queue_events ls)).
    { clear Hr Hi. induction ls as [|l ls IH]; intros s0 old Hold; cbn [run].
      - intros [= <-]. by rewrite app_nil_r.
      - destruct (step l s0) as [s1|] eqn:Hs; [|done]. intros Hr.
        change (queue_events (l :: ls)) with (queue_events ([l] ++ ls)).
        unfold queue_events at 1. rewrite omap_app, app_assoc. apply (IH s1); [|done].
        by apply (step_events l s0). }
    by apply (Hgen NewClient []).
  - intros Hd ev. cbn. unfold is_registered. by destruct Hd as [-> | ->].
Qed.

(** ** Examples *)

Definition hello : Event := MkEvent "hello" (any_data (JBool true)).

(** The peer goes away after one event; the second is never written. *)
Definition short_visit : list label :=
  [Queue hello; Write true; Queue hello; Read false; ReadCloses; Unregister; CloseSend;
   Write false; WriteCloses].
Definition after_visit : state := default NewClient (run short_visit NewClient).


Lemma connection_delivers_witness :
  sublist (events_of (wire after_visit) ++ queued after_visit) [hello; hello].
Proof. apply (connection_delivers short_visit after_visit eq_refl). Defined.
