(* ===== verification/System.v ===== *)
(** * The routes beside the API (health.go, version.go, ws.go, media.go, message.go, keys of s3.go)

    Probes, versions, presence, downloads and the WebSocket handshake.  These handlers do not
    run the statements of the stores: they ask the database connection, the hub or the object
    store.  [endpoint] of Handlers.v enumerates the routes that do. *)
From S2P Require Import Prelude GoStrings GoErrors Models Db Prog Concrete Encoding Sha256 Config.
From S2P Require Import Password Jwt Storage AttachmentStore AuthService MediaService Hub Handlers.
From S2P Require Import Samples.
From Stdlib Require Import Ascii.
Local Open Scope mc_scope.

(** ** Probes and versions *)

(** The connection pool and the migration provider, as the handlers find them. *)
Record DB := MkDB { Ping : option error; SchemaVersion : result Z }.

(** Health reports the process as alive. *)
Definition Health : prog response := writeJSON 200 (PStatus "ok").

(** Ready reports whether the service can serve requests (DB reachable). *)
Definition Ready (db : DB) : prog response :=
  match Ping db with
  | Some _ => writeError 503 "db_unavailable" "database is not reachable"
  | None => writeJSON 200 (PStatus "ready")
  end.

(** Get returns the current component versions. *)
Definition Version_Get (db : DB) (backend : string) : prog response :=
  match SchemaVersion db with
  | Err _ => writeError 500 "schema_version_failed" "failed to read schema version"
  | Ok v => writeJSON 200 (PVersion backend v)
  end.

(** ** Presence *)

Section presence.
Context `{Uuid}.

(** Online exposes the currently present user IDs. *)
Definition Online (h : option hub) : prog response :=
  match h with
  | None => writeJSON 200 (POnline [])
  | Some h => writeJSON 200 (POnline (OnlineUsers h))
  end.

(** Presence returns whether a user is online. *)
Definition Presence (h : option hub) (userID : string) : prog response :=
  pathID userID "Invalid user id" (fun id =>
  match h with
  | None => writeJSON 200 (PPresence id false)
  | Some h => writeJSON 200 (PPresence id (IsOnline id h))
  end).

(** Presence over HTTP tells what the hub knows: in every reachable state the list of online
    users is, without repetition, exactly the users with a registered connection, a single user
    is reported online exactly when in that list, and both requests change nothing. *)
Theorem presence_agrees e h raw id w :
  reachable (Running h) -> uuid_Parse raw = Some id ->
  exists l b, run e (Online (Some h)) w = (Response 200 "" None (POnline l) [], w) /\
    run e (Presence (Some h) raw) w = (Response 200 "" None (PPresence id b) [], w) /\
    NoDup l /\
    (forall u, u ∈ l <-> exists c x, conns h !! c = Some x /\ user x = u /\ registered x = true) /\
    (b = true <-> id ∈ l).
Proof.
  intros Hr Hid. exists (OnlineUsers h), (IsOnline id h). unfold Presence, pathID. rewrite Hid.
  split_and!; [done|done|apply (NoDup_elements (online h))| |].
  - intros u. unfold OnlineUsers. rewrite elem_of_elements. apply (online_registered h u Hr).
  - unfold IsOnline, OnlineUsers. by rewrite bool_decide_eq_true, elem_of_elements.
Qed.

End presence.

(** ** The WebSocket handshake *)

(** What the handler ends in: a response, an upgrade that failed (the upgrader has answered), or
    a connection registered with the hub for a user. *)
Inductive handshake := Refused (r : response) | NotUpgraded | Connected (userID : uuid).

Section ws.
Context `{Uuid, Jwt}.

(** WS exposes the realtime endpoint. Authenticates via the access_token query parameter;
    [upgraded] is whether [upgrader.Upgrade] succeeds. *)
Definition WS (m : Manager.t) (access_token : string) (upgraded : bool) : prog handshake :=
  let raw := access_token in
  if String.eqb raw "" then r <- writeError 401 "missing_token" "access_token query parameter is required" ;; Ret (Refused r) else
  claims <- Parse m raw ;;
  match claims with
  | Err _ => r <- writeError 401 "invalid_token" "Invalid access token" ;; Ret (Refused r)
  | Ok claims =>
    match uuid_Parse (Claims.Subject claims) with
    | None => r <- writeError 401 "invalid_token" "Invalid access token" ;; Ret (Refused r)
    | Some userID => if upgraded then Ret (Connected userID) else Ret NotUpgraded
    end
  end.

(** A handshake that connects is the first step of a connection of the hub. *)
Definition accept_label (c : nat) (o : handshake) : option label :=
  match o with Connected u => Some (LAccept c u) | _ => None end.

(** The outcome of a handshake, with the laws of the JWT library. *)
Lemma WS_outcome `{!JwtLaws} e m raw up w o w' :
  run e (WS m raw up) w = (o, w') ->
  w_db w' = w_db w /\
  match o with
  | Refused r => status r = 401%Z
  | NotUpgraded => up = false
  | Connected u => up = true /\ exists c,
      uuid_Parse (Claims.Subject c) = Some u /\ genuine m raw (env_clock e (w_tick w)) c
  end.
Proof.
  unfold WS. destruct (String.eqb raw ""); [by intros [= <- <-]|].
  intros (claims & w1 & Hp & Hr)%run_bind_inv. destruct claims as [claims|er].
  2: { assert (Hw : w_db w1 = w_db w).
       { replace w1 with (run e (Parse m raw) w).2 by by rewrite Hp. by rewrite (db_safe_reads _ _). }
       injection Hr as <- <-. by split. }
  apply Parse_genuine in Hp as [Hg Hw].
  destruct (uuid_Parse (Claims.Subject claims)) as [u|] eqn:Hu; [|injection Hr as <- <-; by split].
  destruct up; injection Hr as <- <-; eauto 6.
Qed.

(** The realtime endpoint connects nobody without a valid token: with the laws of the JWT
    library, a connection is opened only as the subject of a token that is signed with the
    server's secret under HS256, comes from the server's issuer and is inside its validity;
    otherwise the answer is 401 and the hub is not involved; no table changes. *)
Theorem WS_authenticated `{!JwtLaws} e m raw up w o w' :
  run e (WS m raw up) w = (o, w') ->
  w_db w' = w_db w /\
  (forall n u, accept_label n o = Some (LAccept n u) -> up = true /\ exists c,
     uuid_Parse (Claims.Subject c) = Some u /\ genuine m raw (env_clock e (w_tick w)) c) /\
  (forall r, o = Refused r -> status r = 401%Z /\ forall n, accept_label n o = None).
Proof.
  intros [Hw Ho]%WS_outcome. split; [done|].
  by split; [intros n u; destruct o; try done; intros [= <-]|intros r ->].
Qed.

End ws.

(** ** Downloads *)

(** [minio.Client.GetObject] and what is done with its result: opening it, [Stat] (content type
    and size) and the bytes read until the end. *)
Class ObjectReader := {
  GetObject : string -> gmap string object -> option error;
  Stat : string -> gmap string object -> result (string * Z);
  Copy : string -> gmap string object -> string }.

(** A stored object is opened and read as it was stored. *)
Class ObjectReaderLaws `{ObjectReader} : Prop := {
  GetObject_stored k o m : m !! k = Some o -> GetObject k m = None;
  Stat_stored k o m : m !! k = Some o -> Stat k m = Ok (obj_type o, obj_size o);
  Copy_stored k o m : m !! k = Some o -> Copy k m = obj_data o }.

(** [PutObject] without an error has stored the object. *)
Definition honest_store (e : env) : Prop := forall t k o m m',
  env_PutObject e t k o m = (None, m') -> m' !! k = Some o.

Section serve.
Context `{ObjectReader}.

(** A call that reads the object store. *)
Definition object_read {A} (f : gmap string object -> A) : prog A :=
  Act (fun e w => (f (w_objects w), tick w)) Ret.

(** Open streams an object from the default bucket. *)
Definition Open (key : string) : prog (option error) := object_read (GetObject key).

(** The first character of a path is a slash. *)
Definition leading_slash (key : string) : bool :=
  match key with String a _ => is_byte 47 a | EmptyString => false end.

Definition media_not_found : prog response := writeError 404 "media_not_found" "File not found".

(** Serve streams an object from S3 at /media/{bucket}/*; [own] is the bucket of the store.  The
    answer's content type and length are those of [Stat], its bytes those read to the end. *)
Definition Serve (own bucket key : string) : prog response :=
  if negb (String.eqb bucket own) then media_not_found
  else if String.eqb key "" || leading_slash key then media_not_found
  else
  err <- Open key ;;
  match err with
  | Some _ => media_not_found
  | None =>
    stat <- object_read (Stat key) ;;
    match stat with
    | Err _ => media_not_found
    | Ok (ctype, size) =>
        data <- object_read (Copy key) ;;
        Ret (Response 200 "" None (PObject ctype size data) [])
    end
  end.

(** Only the store's own bucket is served, and only by relative keys. *)
Lemma Serve_elsewhere e own bucket key w :
  bucket <> own \/ key = "" \/ leading_slash key = true ->
  run e (Serve own bucket key) w = (Response 404 "media_not_found" None (PError "File not found") [], w).
Proof.
  unfold Serve. destruct (String.eqb_spec bucket own); [|done]. cbn.
  intros [?|[-> | ->]]; [done|done|]. by rewrite orb_true_r.
Qed.

Lemma Serve_stored `{!ObjectReaderLaws} e own key o w :
  key <> "" -> leading_slash key = false -> w_objects w !! key = Some o ->
  run e (Serve own own key) w =
    (Response 200 "" None (PObject (obj_type o) (obj_size o) (obj_data o)) [],
     tick (tick (tick w))).
Proof.
  intros Hne Hs Ho. unfold Serve. rewrite String.eqb_refl. cbn [negb].
  rewrite (proj2 (String.eqb_neq _ _) Hne), Hs. cbn.
  rewrite (GetObject_stored key o) by done. cbn. rewrite (Stat_stored key o) by done. cbn.
  by rewrite (Copy_stored key o).
Qed.

Context `{Postgres, Unicode, Uuid}.


End serve.

(** ** Examples *)

(** A store that reads back what it has. *)
Definition plain_reader : ObjectReader :=
  {| GetObject := fun k m => match m !! k with Some _ => None | None => Some (Plain "no such key") end;
     Stat := fun k m => match m !! k with
                        | Some o => Ok (obj_type o, obj_size o)
                        | None => Err (Plain "no such key")
                        end;
     Copy := fun k m => match m !! k with Some o => obj_data o | None => "" end |}.

Lemma plain_reader_laws : @ObjectReaderLaws plain_reader.
Proof. constructor; intros k o m Hk; cbn; by rewrite Hk. Qed.

Lemma calm_honest_store : honest_store calm.
Proof. intros t k o m m' [= <-]. apply lookup_insert_eq. Qed.

Section examples.
#[local] Existing Instances ascii_server decimal_uuid open_jwt ascii_unicode plain_reader
  plain_reader_laws open_jwt_laws.


Lemma presence_agrees_witness :
  exists l, 5%N ∈ l /\
    (run calm (Online (Some one_user)) one_thread).1 = Response 200 "" None (POnline l) [].
Proof.
  destruct (presence_agrees calm one_user "5" 5%N one_thread one_user_reachable)
    as (l & b & Hl & Hb & _ & _ & Hbl); [by vm_compute|].
  exists l. split; [|by rewrite Hl]. apply Hbl.
  assert (He : body (run calm (Presence (Some one_user) "5") one_thread).1 = PPresence 5%N true)
    by by vm_compute.
  rewrite Hb in He. by injection He.
Defined.

Lemma WS_authenticated_witness :
  let raw := token_for bob "bob" [RoleMember] 100 in
  exists c, uuid_Parse (Claims.Subject c) = Some bob /\
    genuine (jwtm sample_deps) raw (env_clock calm (w_tick one_session)) c.
Proof.
  intros raw.
  destruct (WS_authenticated calm (jwtm sample_deps) raw true one_session (Connected bob)
    (run calm (WS (jwtm sample_deps) raw true) one_session).2) as (_ & Hc & _);
    [by vm_compute|].
  by destruct (Hc 0 bob eq_refl) as [_ Hg].
Defined.

End examples.
