(* ===== verification/Router.v ===== *)
(** * The router (internal/http/router.go)

    The routing table is data: [api] nests routes, groups and middleware as [NewRouter] does, and
    [table] is what chi makes of it, one [route] per pattern.  Which route a request takes is
    chi's choice ([Mux], third party); [serve_http] runs the middleware of that route, outermost
    first, and its handler, which reads the path, the query and the body from their texts.

    Whatever a request says, an API route answers it as [handle] of Handlers.v does for the
    endpoint it decodes to, and what a client writes for an endpoint takes the endpoint's route
    and decodes to the endpoint ([http_reaches_handler]). *)
From S2P Require Import Prelude GoStrings GoErrors Models Db Prog Concrete Roles Encoding JsonText.
From S2P Require Import Urls Config Password Jwt JsonStruct Storage AuthService MediaService Hub.
From S2P Require Import GroupService ThreadService InstallService Handlers Samples Requests Cookies Account.
From S2P Require Import Middleware System.
From Stdlib Require Import Ascii.
Local Open Scope mc_scope.

(** ** The handlers of the routes *)

Module Target.
Inductive t :=
| health_Health | health_Ready | version_Get | install_GetStatus | install_Create
| auth_Register | auth_Login | auth_Refresh | auth_Logout | auth_Me
| groups_List | groups_Create | groups_Update | groups_Delete | groups_Get
| threads_ListByGroup | threads_Create | threads_Get | threads_Update | threads_Delete
| posts_ListByThread | posts_Create | posts_Update | posts_Delete
| media_UploadAvatar | media_UploadAttachment | media_DeleteAttachment | media_Serve
| admin_ListUsers | admin_UpdateUser | admin_GetSettings | admin_UpdateSettings | admin_ListMedia
| messages_Inbox | messages_Conversation | messages_Send | messages_UnreadCount | messages_MarkRead
| messages_Notifications | messages_MarkNotificationRead | messages_MarkAllNotificationsRead
| messages_Online | messages_Presence | ws_WS.
End Target.

(** ** The table, as the code nests it *)

Inductive middleware := Auth | Role (roles : list string).

Inductive node :=
| Handle (method pattern : string) (h : Target.t)
| Use (m : middleware)
| InGroup (l : list node)
| Mount (pattern : string) (l : list node).

Definition api : list node :=
  [Handle "GET" "/healthz" Target.health_Health;
   Handle "GET" "/readyz" Target.health_Ready;
   Mount "/api/v1"
    [Handle "GET" "/health" Target.health_Health;
     Handle "GET" "/version" Target.version_Get;
     Handle "GET" "/install" Target.install_GetStatus;
     Handle "POST" "/install" Target.install_Create;
     Mount "/auth"
      [Handle "POST" "/register" Target.auth_Register;
       Handle "POST" "/login" Target.auth_Login;
       Handle "POST" "/refresh" Target.auth_Refresh;
       Handle "POST" "/logout" Target.auth_Logout;
       InGroup [Use Auth; Handle "GET" "/me" Target.auth_Me]];
     Mount "/groups"
      [Handle "GET" "/" Target.groups_List;
       InGroup
        [Use Auth; Use (Role [RoleAdmin]);
         Handle "POST" "/" Target.groups_Create;
         Handle "PATCH" "/{groupID}" Target.groups_Update;
         Handle "DELETE" "/{groupID}" Target.groups_Delete];
       Handle "GET" "/{groupID}" Target.groups_Get;
       Mount "/{groupID}/threads"
        [Handle "GET" "/" Target.threads_ListByGroup;
         InGroup [Use Auth; Handle "POST" "/" Target.threads_Create]]];
     Mount "/threads"
      [Handle "GET" "/{threadID}" Target.threads_Get;
       InGroup
        [Use Auth;
         Handle "PATCH" "/{threadID}" Target.threads_Update;
         Handle "DELETE" "/{threadID}" Target.threads_Delete];
       Mount "/{threadID}/posts"
        [Handle "GET" "/" Target.posts_ListByThread;
         InGroup [Use Auth; Handle "POST" "/" Target.posts_Create]]];
     Mount "/posts"
      [InGroup
        [Use Auth;
         Handle "PATCH" "/{postID}" Target.posts_Update;
         Handle "DELETE" "/{postID}" Target.posts_Delete]];
     Mount "/media"
      [InGroup
        [Use Auth;
         Handle "POST" "/avatar" Target.media_UploadAvatar;
         Handle "POST" "/attachments" Target.media_UploadAttachment;
         Handle "DELETE" "/attachments/{attachmentID}" Target.media_DeleteAttachment]];
     Mount "/admin"
      [InGroup
        [Use Auth; Use (Role [RoleAdmin]);
         Handle "GET" "/users" Target.admin_ListUsers;
         Handle "PATCH" "/users/{userID}" Target.admin_UpdateUser;
         Handle "GET" "/settings" Target.admin_GetSettings;
         Handle "PUT" "/settings" Target.admin_UpdateSettings;
         Handle "GET" "/media" Target.admin_ListMedia]];
     Mount "/pms"
      [InGroup
        [Use Auth;
         Handle "GET" "/" Target.messages_Inbox;
         Handle "GET" "/with" Target.messages_Conversation;
         Handle "POST" "/" Target.messages_Send;
         Handle "GET" "/unread-count" Target.messages_UnreadCount;
         Handle "PATCH" "/{messageID}/read" Target.messages_MarkRead]];
     Mount "/notifications"
      [InGroup
        [Use Auth;
         Handle "GET" "/" Target.messages_Notifications;
         Handle "PATCH" "/{notificationID}/read" Target.messages_MarkNotificationRead;
         Handle "PATCH" "/read-all" Target.messages_MarkAllNotificationsRead]];
     Mount "/presence"
      [Handle "GET" "/" Target.messages_Online;
       Handle "GET" "/{userID}" Target.messages_Presence]];
   Handle "GET" "/media/{bucket}/*" Target.media_Serve;
   Handle "GET" "/ws" Target.ws_WS].

(** ** What chi makes of it *)

(** A segment of a pattern: a text, a parameter, or the rest of the path. *)
Inductive seg := Lit (s : string) | Param (name : string) | Rest.

Definition seg_of (s : string) : seg :=
  match s with
  | String a s' =>
      if is_byte 42 a then Rest
      else if is_byte 123 a then Param (str_take (String.length s' - 1) s')
      else Lit s
  | EmptyString => Lit ""
  end.
Definition segments (pattern : string) : list seg := seg_of <$> split_at 47 pattern.

Record route := Route {
  method : string; pattern : list seg; uses : list middleware; target : Target.t }.

(** The routes of a list of nodes under a prefix; [Use] holds for what follows it in its list,
    groups and mounts inherit it.  The root of a mounted router is reached with and without the
    final slash. *)
Fixpoint routes_of (prefix : string) (mws : list middleware) (n : node) {struct n} : list route :=
  let all := fix all (prefix : string) (mws : list middleware) (l : list node) : list route :=
    match l with
    | [] => []
    | Use m :: l' => all prefix (mws ++ [m]) l'
    | n :: l' => routes_of prefix mws n ++ all prefix mws l'
    end in
  match n with
  | Handle me p h =>
      Route me (segments (prefix +:+ p)) mws h ::
      (if String.eqb p "/" then [Route me (segments prefix) mws h] else [])
  | Use _ => []
  | InGroup l => all prefix mws l
  | Mount p l => all (prefix +:+ p) mws l
  end.
Definition table : list route := Eval vm_compute in routes_of "" [] (InGroup api).

(** The parameters a pattern takes from the segments of a path. *)
Definition params : Type := list (string * string).
Fixpoint match_path (p : list seg) (path : list string) : option params :=
  match p, path with
  | [], [] => Some []
  | [Rest], _ => Some [("*", String.concat "/" path)]
  | Lit s :: p', x :: path' => if String.eqb s x then match_path p' path' else None
  | Param name :: p', x :: path' =>
      if String.eqb x "" then None else cons (name, x) <$> match_path p' path'
  | _, _ => None
  end.

(** A route for a method and a path, with its parameters. *)
Definition answers (r : route) (me path : string) (ps : params) : Prop :=
  method r = me /\ match_path (pattern r) (split_at 47 path) = Some ps.

(** [chi.Mux]: the route a request takes. *)
Class Mux := mux_find : list route -> string -> string -> option (route * params).

(** The documented behaviour of patterns: a request that one route alone answers, with no empty
    parameter, takes that route, and its parameters are what the pattern takes from the path; and
    only routes that were registered are taken. *)
Class MuxLaws `{Mux} : Prop := {
  mux_only l r me path ps :
    r ∈ l -> answers r me path ps -> (forall r' ps', r' ∈ l -> answers r' me path ps' -> r' = r) ->
    mux_find l me path = Some (r, ps);
  mux_registered l r me path ps : mux_find l me path = Some (r, ps) -> r ∈ l }.

(** ** Requests as they arrive *)

(** What net/http and the router's middleware (third party: request ids, the peer's address,
    logs) hand on: the method, the path as chi reads it, the raw query, the headers the handlers
    look at, the body, and the multipart file and its [post_id] when the body is a form. *)
Record http_request := HttpRequest {
  Method : string; Path : string; RawQuery : string; h_Authorization : string;
  h_Cookie : list string; h_RemoteAddr : string; h_UserAgent : string;
  Body_ : string; FormFile : option upload.t; FormValue_post_id : string }.

(** What the handlers look at; [cookie] is the configured name of the refresh cookie. *)
Definition context_of (cookie : string) (q : http_request) : context :=
  let query := ParseQuery (RawQuery q) in
  Context_ (h_Authorization q) (Request_Cookie cookie (h_Cookie q)) (h_RemoteAddr q) (h_UserAgent q)
    (Urls.Get query "limit") (Urls.Get query "offset").

(** [chi.URLParam] *)
Definition URLParam (ps : params) (name : string) : string :=
  default "" (snd <$> head (filter (fun p => p.1 = name) ps)).

Section endpoints.
Context `{Uuid}.

(** The endpoint of Handlers.v a request to an API handler is, its body decoded. *)
Definition endpoint_of (h : Target.t) (ps : params) (q : http_request) : option endpoint :=
  let id := URLParam ps in
  let query := ParseQuery (RawQuery q) in
  match h with
  | Target.install_GetStatus => Some GetInstall
  | Target.install_Create => Some (PostInstall (decodeJSON (Body_ q)))
  | Target.auth_Register => Some (PostRegister (decodeJSON (Body_ q)))
  | Target.auth_Login => Some (PostLogin (decodeJSON (Body_ q)))
  | Target.auth_Refresh => Some PostRefresh
  | Target.auth_Logout => Some PostLogout
  | Target.auth_Me => Some GetMe
  | Target.groups_List => Some GetGroups
  | Target.groups_Create => Some (PostGroup (decodeJSON (Body_ q)))
  | Target.groups_Update => Some (PatchGroup (id "groupID") (decodeJSON (Body_ q)))
  | Target.groups_Delete => Some (DeleteGroup (id "groupID"))
  | Target.groups_Get => Some (GetGroup (id "groupID"))
  | Target.threads_ListByGroup => Some (GetThreads (id "groupID"))
  | Target.threads_Create => Some (PostThread (id "groupID") (decodeJSON (Body_ q)))
  | Target.threads_Get => Some (GetThread (id "threadID"))
  | Target.threads_Update => Some (PatchThread (id "threadID") (decodeJSON (Body_ q)))
  | Target.threads_Delete => Some (DeleteThread (id "threadID"))
  | Target.posts_ListByThread => Some (GetPosts (id "threadID"))
  | Target.posts_Create =>
      Some (PostPost (id "threadID") (postRequest.body <$> decodeJSON (Body_ q)))
  | Target.posts_Update =>
      Some (PatchPost (id "postID") (postRequest.body <$> decodeJSON (Body_ q)))
  | Target.posts_Delete => Some (DeletePost (id "postID"))
  | Target.media_UploadAvatar => Some (PostAvatar (FormFile q))
  | Target.media_UploadAttachment => Some (PostAttachment (FormFile q) (FormValue_post_id q))
  | Target.media_DeleteAttachment => Some (DeleteAttachment (id "attachmentID"))
  | Target.admin_ListUsers => Some GetUsers
  | Target.admin_UpdateUser => Some (PatchUser (id "userID") (decodeJSON (Body_ q)))
  | Target.admin_GetSettings => Some GetSettings
  | Target.admin_UpdateSettings =>
      Some (PutSettings (updateSettingsRequest.forum_name <$> decodeJSON (Body_ q)))
  | Target.admin_ListMedia => Some GetMedia
  | Target.messages_Inbox => Some GetInbox
  | Target.messages_Conversation => Some (GetConversation (Urls.Get query "with"))
  | Target.messages_Send => Some (PostMessage (decodeJSON (Body_ q)))
  | Target.messages_UnreadCount => Some GetUnreadCount
  | Target.messages_MarkRead => Some (PatchMessageRead (id "messageID"))
  | Target.messages_Notifications => Some GetNotifications
  | Target.messages_MarkNotificationRead => Some (PatchNotificationRead (id "notificationID"))
  | Target.messages_MarkAllNotificationsRead => Some PatchAllNotificationsRead
  | Target.health_Health | Target.health_Ready | Target.version_Get | Target.media_Serve
  | Target.messages_Online | Target.messages_Presence | Target.ws_WS => None
  end.

End endpoints.

(** ** Serving a request *)

(** What [NewRouter] wires together, as a request finds it. *)
Record server := Server {
  core : deps; database : DB; Version : string; bucket : string; the_hub : option hub;
  upgraded : bool;                 (* whether a WebSocket upgrade succeeds *)
  upgrade_error : response;        (* the upgrader's answer when it does not *)
  NotFound : string -> string -> response }.  (* chi's answer to a request without a route *)

(** The name of the refresh cookie. *)
Definition cookie_name (sv : server) : string :=
  Config.RefreshCookieName (AuthService.AuthService.cfg (auth_svc (core sv))).

(** The answer of a handshake; a connection is the 101 of the upgrader. *)
Definition handshake_answer (sv : server) (o : handshake) : response :=
  match o with
  | Refused r => r
  | NotUpgraded => upgrade_error sv
  | Connected u => Response 101 "" None (PConnected u) []
  end.

Section serving.
Context `{Postgres, Argon2, Uuid, Jwt, Unicode, ObjectReader, Mux}.

(** The handlers that read the identity themselves; the others have it from the middleware, or
    do not look at it. *)
Definition reads_identity (ep : endpoint) : bool :=
  match guard_of ep with Authenticated => true | _ => false end.

Definition handler_of (sv : server) (h : Target.t) (ps : params) (q : http_request) : handler :=
  match endpoint_of h ps q with
  | Some ep =>
      if reads_identity ep then fun r => with_identity (serve_as (core sv) (http r) ep) r
      else fun r => serve_as (core sv) (http r) ep nobody
  | None => fun _ =>
    match h with
    | Target.health_Health => Health
    | Target.health_Ready => Ready (database sv)
    | Target.version_Get => Version_Get (database sv) (Version sv)
    | Target.media_Serve => Serve (bucket sv) (URLParam ps "bucket") (URLParam ps "*")
    | Target.messages_Online => Online (the_hub sv)
    | Target.messages_Presence => Presence (the_hub sv) (URLParam ps "userID")
    | _ => o <- WS (jwtm (core sv)) (Urls.Get (ParseQuery (RawQuery q)) "access_token") (upgraded sv) ;;
           Ret (handshake_answer sv o)
    end
  end.

(** The middleware of a route around its handler, the first one outermost. *)
Definition wrap (sv : server) (m : middleware) (h : handler) : handler :=
  match m with
  | Auth => RequireAuth_http (jwtm (core sv)) h
  | Role roles => RequireRole_http roles h
  end.

(** [ServeHTTP] of the router. *)
Definition serve_http (sv : server) (q : http_request) : prog response :=
  match mux_find table (Method q) (Path q) with
  | None => Ret (NotFound sv (Method q) (Path q))
  | Some (r, ps) =>
      foldr (wrap sv) (handler_of sv (target r) ps q) (uses r) (Request (context_of (cookie_name sv) q) [])
  end.

(** ** Every API request is one of the model *)

Definition uses_of (g : guard) : list middleware :=
  match g with
  | Public => []
  | Authenticated => [Auth]
  | AdminOnly => [Auth; Role [RoleAdmin]]
  end.

Lemma table_guards r ps q ep :
  r ∈ table -> endpoint_of (target r) ps q = Some ep -> uses r = uses_of (guard_of ep).
Proof.
  assert (Hall : Forall (fun r => forall ps q ep,
    endpoint_of (target r) ps q = Some ep -> uses r = uses_of (guard_of ep)) table).
  { unfold table. repeat (apply Forall_cons_2; [intros ?? ep' He; cbn [endpoint_of target] in He;
      by (discriminate He || (injection He as <-; reflexivity))|]). apply Forall_nil_2. }
  intros Hr. rewrite Forall_forall in Hall. by apply Hall.
Qed.

(** Admin handlers do not look at the identity. *)
Lemma serve_as_admin d c ep ui : guard_of ep = AdminOnly -> serve_as d c ep ui = serve_as d c ep nobody.
Proof. by destruct ep. Qed.

Lemma wrapped_handle sv c ep :
  same (foldr (wrap sv)
    (if reads_identity ep then fun r => with_identity (serve_as (core sv) (http r) ep) r
     else fun r => serve_as (core sv) (http r) ep nobody)
    (uses_of (guard_of ep)) (Request c []))
  (handle (core sv) c ep).
Proof.
  unfold reads_identity, handle. destruct (guard_of ep) eqn:Hg; cbn [uses_of foldr wrap];
    [apply same_refl| |]; unfold RequireAuth_http, RequireAuth; cbn [http];
    (destruct (String.eqb _ ""); [apply same_refl|]); apply same_bind; intros [claims|er];
    try apply same_refl; (destruct (uuid_Parse _) as [u|]; [|apply same_refl]); try apply same_refl.
  unfold RequireRole_http, RequireRole. rewrite authUser_WithUser. cbn [http].
  rewrite (serve_as_admin _ _ _ (UserInfo.Mk u _ _) Hg). apply same_refl.
Qed.

(** A request on an API route is the program of the endpoint it decodes to. *)
Lemma serve_http_same sv q r ps ep :
  mux_find table (Method q) (Path q) = Some (r, ps) -> r ∈ table ->
  endpoint_of (target r) ps q = Some ep ->
  same (serve_http sv q) (handle (core sv) (context_of (cookie_name sv) q) ep).
Proof.
  intros Hf Hr He. unfold serve_http, handler_of. rewrite Hf, He, (table_guards r ps q ep Hr He).
  apply wrapped_handle.
Qed.

End serving.

(** ** No request answers two routes *)

(** Patterns that no path matches both of. *)
Fixpoint apart (p q : list seg) : bool :=
  match p, q with
  | Rest :: _, _ | _, Rest :: _ => false
  | Lit s :: p', Lit t :: q' => negb (String.eqb s t) || apart p' q'
  | Lit s :: p', Param _ :: q' | Param _ :: p', Lit s :: q' => String.eqb s "" || apart p' q'
  | Param _ :: p', Param _ :: q' => apart p' q'
  | [], [] => false
  | [], _ | _, [] => true
  end.

Lemma match_lit s p path ps :
  match_path (Lit s :: p) path = Some ps -> exists path', path = s :: path' /\ match_path p path' = Some ps.
Proof.
  destruct path as [|x path]; [done|]. cbn. destruct (String.eqb_spec s x) as [->|]; [eauto|done].
Qed.

Lemma match_param n p path ps :
  match_path (Param n :: p) path = Some ps ->
  exists x path' ps', path = x :: path' /\ x <> "" /\ match_path p path' = Some ps' /\ ps = (n, x) :: ps'.
Proof.
  destruct path as [|x path]; [done|]. cbn. destruct (String.eqb_spec x "") as [->|]; [done|].
  intros (ps' & Hp & ->)%fmap_Some. eauto 8.
Qed.

Lemma apart_sound p q path ps ps' :
  apart p q = true -> match_path p path = Some ps -> match_path q path = Some ps' -> False.
Proof.
  revert q path ps ps'. induction p as [|[s|n|] p IH]; intros [|[t|m|] q] path ps ps' Ha Hp Hq;
    cbn [apart] in Ha; try done.
  - destruct path; [|done]. by apply match_lit in Hq as (? & ? & _).
  - destruct path; [|done]. by apply match_param in Hq as (? & ? & ? & ? & _).
  - apply match_lit in Hp as (path' & -> & Hp). done.
  - apply match_lit in Hp as (path' & -> & Hp). apply match_lit in Hq as (? & [= <- <-] & Hq).
    rewrite String.eqb_refl in Ha. cbn in Ha. eauto.
  - apply match_lit in Hp as (path' & -> & Hp). apply match_param in Hq as (? & ? & ? & [= <- <-] & Hs & Hq & _).
    rewrite (proj2 (String.eqb_neq _ _) Hs) in Ha. cbn in Ha. eauto.
  - apply match_param in Hp as (x & path' & ? & -> & _). done.
  - apply match_param in Hp as (x & path' & ? & -> & Hs & Hp & _). apply match_lit in Hq as (? & [= <- <-] & Hq).
    rewrite (proj2 (String.eqb_neq _ _) Hs) in Ha. cbn in Ha. eauto.
  - apply match_param in Hp as (x & path' & ? & -> & _ & Hp & _).
    apply match_param in Hq as (? & ? & ? & [= <- <-] & _ & Hq & _). eauto.
Qed.

Definition disjoint (r r' : route) : bool :=
  negb (String.eqb (method r) (method r')) || apart (pattern r) (pattern r').
Fixpoint all_disjoint (l : list route) : bool :=
  match l with [] => true | r :: l' => forallb (disjoint r) l' && all_disjoint l' end.

Lemma all_disjoint_unique l r r' me path ps ps' :
  all_disjoint l = true -> r ∈ l -> r' ∈ l -> answers r me path ps -> answers r' me path ps' -> r' = r.
Proof.
  assert (Hd : forall r r' ps ps', disjoint r r' = true ->
    answers r me path ps -> answers r' me path ps' -> False).
  { intros s s' qs qs' Hd [<- Hs] [Hm Hs']. unfold disjoint in Hd. rewrite Hm, String.eqb_refl in Hd.
    cbn in Hd. by eapply apart_sound. }
  intros Hl Hr Hr' Ha Ha'. induction l as [|x l IH]; [by apply not_elem_of_nil in Hr|].
  cbn in Hl. apply andb_true_iff in Hl as [Hx Hl]. rewrite forallb_forall in Hx.
  setoid_rewrite <- list_elem_of_In in Hx.
  apply elem_of_cons in Hr as [->|Hr]; apply elem_of_cons in Hr' as [->|Hr']; [done| | |by apply IH].
  - exfalso. eapply Hd; [by apply Hx| |]; done.
  - exfalso. eapply Hd; [by apply Hx| |]; done.
Qed.

Lemma table_disjoint : all_disjoint table = true.
Proof. by vm_compute. Qed.

(** ** What a client writes *)

Section client.
Context `{Uuid}.

Definition path_of (l : list string) : string := String.concat "/" ("" :: l).

(** The method and the segments of the path of an endpoint. *)
Definition request_line (ep : endpoint) : string * list string :=
  match ep with
  | GetInstall => ("GET", ["api"; "v1"; "install"])
  | PostInstall _ => ("POST", ["api"; "v1"; "install"])
  | PostRegister _ => ("POST", ["api"; "v1"; "auth"; "register"])
  | PostLogin _ => ("POST", ["api"; "v1"; "auth"; "login"])
  | PostRefresh => ("POST", ["api"; "v1"; "auth"; "refresh"])
  | PostLogout => ("POST", ["api"; "v1"; "auth"; "logout"])
  | GetMe => ("GET", ["api"; "v1"; "auth"; "me"])
  | GetGroups => ("GET", ["api"; "v1"; "groups"])
  | PostGroup _ => ("POST", ["api"; "v1"; "groups"])
  | PatchGroup id _ => ("PATCH", ["api"; "v1"; "groups"; id])
  | DeleteGroup id => ("DELETE", ["api"; "v1"; "groups"; id])
  | GetGroup id => ("GET", ["api"; "v1"; "groups"; id])
  | GetThreads id => ("GET", ["api"; "v1"; "groups"; id; "threads"])
  | PostThread id _ => ("POST", ["api"; "v1"; "groups"; id; "threads"])
  | GetThread id => ("GET", ["api"; "v1"; "threads"; id])
  | PatchThread id _ => ("PATCH", ["api"; "v1"; "threads"; id])
  | DeleteThread id => ("DELETE", ["api"; "v1"; "threads"; id])
  | GetPosts id => ("GET", ["api"; "v1"; "threads"; id; "posts"])
  | PostPost id _ => ("POST", ["api"; "v1"; "threads"; id; "posts"])
  | PatchPost id _ => ("PATCH", ["api"; "v1"; "posts"; id])
  | DeletePost id => ("DELETE", ["api"; "v1"; "posts"; id])
  | PostAvatar _ => ("POST", ["api"; "v1"; "media"; "avatar"])
  | PostAttachment _ _ => ("POST", ["api"; "v1"; "media"; "attachments"])
  | DeleteAttachment id => ("DELETE", ["api"; "v1"; "media"; "attachments"; id])
  | GetUsers => ("GET", ["api"; "v1"; "admin"; "users"])
  | PatchUser id _ => ("PATCH", ["api"; "v1"; "admin"; "users"; id])
  | GetSettings => ("GET", ["api"; "v1"; "admin"; "settings"])
  | PutSettings _ => ("PUT", ["api"; "v1"; "admin"; "settings"])
  | GetMedia => ("GET", ["api"; "v1"; "admin"; "media"])
  | GetInbox => ("GET", ["api"; "v1"; "pms"])
  | GetConversation _ => ("GET", ["api"; "v1"; "pms"; "with"])
  | PostMessage _ => ("POST", ["api"; "v1"; "pms"])
  | GetUnreadCount => ("GET", ["api"; "v1"; "pms"; "unread-count"])
  | PatchMessageRead id => ("PATCH", ["api"; "v1"; "pms"; id; "read"])
  | GetNotifications => ("GET", ["api"; "v1"; "notifications"])
  | PatchNotificationRead id => ("PATCH", ["api"; "v1"; "notifications"; id; "read"])
  | PatchAllNotificationsRead => ("PATCH", ["api"; "v1"; "notifications"; "read-all"])
  end.

(** The identifiers in the path. *)
Definition path_ids (ep : endpoint) : list string :=
  match ep with
  | PatchGroup id _ | DeleteGroup id | GetGroup id | GetThreads id | PostThread id _
  | GetThread id | PatchThread id _ | DeleteThread id | GetPosts id | PostPost id _
  | PatchPost id _ | DeletePost id | DeleteAttachment id | PatchUser id _
  | PatchMessageRead id | PatchNotificationRead id => [id]
  | _ => []
  end.

(** The text of a body; nothing for a body that does not decode. *)
Definition text_of {T} `{Body T} (b : option T) : string :=
  match b with Some x => Encode (body_value x) | None => "" end.
Definition body_of (ep : endpoint) : string :=
  match ep with
  | PostInstall b => text_of b
  | PostRegister b => text_of b
  | PostLogin b => text_of b
  | PostGroup b | PatchGroup _ b => text_of b
  | PostThread _ b => text_of b
  | PatchThread _ b => text_of b
  | PostPost _ b | PatchPost _ b => text_of (postRequest.Mk <$> b)
  | PatchUser _ b => text_of b
  | PutSettings b => text_of (updateSettingsRequest.Mk <$> b)
  | PostMessage b => text_of b
  | _ => ""
  end.
Definition sendable_opt {T} `{Body T} (b : option T) : Prop := from_option sendable True b.
Definition sendable_body (ep : endpoint) : Prop :=
  match ep with
  | PostInstall b => sendable_opt b
  | PostRegister b => sendable_opt b
  | PostLogin b => sendable_opt b
  | PostGroup b | PatchGroup _ b => sendable_opt b
  | PostThread _ b => sendable_opt b
  | PatchThread _ b => sendable_opt b
  | PostPost _ b | PatchPost _ b => sendable_opt (postRequest.Mk <$> b)
  | PatchUser _ b => sendable_opt b
  | PutSettings b => sendable_opt (updateSettingsRequest.Mk <$> b)
  | PostMessage b => sendable_opt b
  | _ => True
  end.

Definition cookie_lines (cookie : string) (value : option string) : list string :=
  match value with None => [] | Some v => [cookie +:+ "=" +:+ v] end.

Definition client_request (cookie : string) (c : context) (ep : endpoint) : http_request :=
  HttpRequest (request_line ep).1 (path_of (request_line ep).2)
    (encode [("limit", q_limit c); ("offset", q_offset c);
             ("with", match ep with GetConversation w => w | _ => "" end)])
    (Authorization c) (cookie_lines cookie (refresh_cookie c)) (RemoteAddr c) (UserAgent c) (body_of ep)
    (match ep with PostAvatar f => f | PostAttachment f _ => f | _ => None end)
    (match ep with PostAttachment _ p => p | _ => "" end).

(** A request a client can write: no identifier is empty or has a slash, and the strings of the
    body are valid. *)
Definition no_slash (s : string) : bool := all_bytes (fun a => negb (is_byte 47 a)) s.
Definition writable (ep : endpoint) : Prop :=
  Forall (fun id => id <> "" /\ no_slash id = true) (path_ids ep) /\ sendable_body ep.

Lemma split_path l :
  Forall (fun s => no_slash s = true) l -> split_at 47 (path_of l) = "" :: l.
Proof.
  intros Hl. unfold path_of.
  assert (H0 : Forall (fun s => no_slash s = true) ("" :: l)) by by constructor.
  remember ("" :: l) as m eqn:Hm. clear Hl.
  assert (Hne : m <> []) by by subst. clear Hm. induction H0 as [|s m Hs Hm IH]; [done|].
  destruct m as [|t m]; [by apply split_at_word|].
  change (String.concat "/" (s :: t :: m)) with (s +:+ String "/" (String.concat "/" (t :: m))).
  rewrite split_at_app by done. by rewrite IH.
Qed.

End client.

Section reach.
Context `{UuidLaws0 : UuidLaws, !UuidText}.

Lemma decode_text {T} `{BodyLaws T} (b : option T) : sendable_opt b -> decodeJSON (text_of b) = b.
Proof.
  destruct b as [x|]; intros Hx; [|done]. cbn [text_of].
  rewrite <- (append_empty_r (Encode _)). by apply decodeJSON_Encode.
Qed.

(** A refresh cookie that a client can send back as it is: one of the server's tokens, under a
    name that a cookie can have. *)
Definition sendable_cookie (cookie : string) (c : context) : Prop :=
  match refresh_cookie c with
  | None => True
  | Some v => isToken cookie = true /\ all_bytes url_byte v = true
  end.

Lemma client_context cookie c ep :
  sendable_cookie cookie c -> context_of cookie (client_request cookie c ep) = c.
Proof.
  unfold sendable_cookie, context_of, client_request. intros Hc.
  cbn [RawQuery h_Authorization h_Cookie h_RemoteAddr h_UserAgent].
  rewrite ParseQuery_encode by (done || (unfold maxParams; cbn; lia)).
  replace (Request_Cookie _ _) with (refresh_cookie c); [by destruct c|].
  destruct (refresh_cookie c) as [v|] in Hc |- *; cbn [cookie_lines].
  - destruct Hc. symmetry. by apply pair_returns.
  - unfold Request_Cookie. by destruct (String.eqb _ _).
Qed.

Lemma client_with cookie c w :
  Urls.Get (ParseQuery (RawQuery (client_request cookie c (GetConversation w)))) "with" = w.
Proof.
  unfold client_request. cbn [RawQuery].
  by rewrite ParseQuery_encode by (done || (unfold maxParams; cbn; lia)).
Qed.

(** The route of an endpoint, and what it decodes from the client's request. *)
Definition reached_by (cookie : string) (c : context) (ep : endpoint) (r : route) : Prop :=
  method r = (request_line ep).1 /\
  exists ps, match_path (pattern r) ("" :: (request_line ep).2) = Some ps /\
    endpoint_of (target r) ps (client_request cookie c ep) = Some ep.

Lemma URLParam_hd k v : URLParam [(k, v)] k = v.
Proof. unfold URLParam. cbn. by rewrite decide_True. Qed.

Lemma endpoint_reached cookie c ep : writable ep -> Exists (reached_by cookie c ep) table.
Proof.
  intros [Hid Hb]. unfold table.
  destruct ep; cbn [path_ids sendable_body] in Hid, Hb; try (apply Forall_cons_1 in Hid as [[Hid _] _]);
    repeat first
      [ apply Exists_cons_hd; split; [reflexivity|]; eexists; split; [cbn;
          rewrite ?(proj2 (String.eqb_neq _ _) Hid); reflexivity|]
      | apply Exists_cons_tl ].
  all: cbn [endpoint_of target]; rewrite ?URLParam_hd, ?client_with; try reflexivity.
  all: cbn [client_request Body_ body_of]; rewrite decode_text by done; try reflexivity.
  all: by destruct body.
Qed.

End reach.

Section client_serving.
Context `{Postgres, Argon2, UuidLaws0 : UuidLaws, !UuidText, Jwt, Unicode, ObjectReader, MuxLaws0 : MuxLaws}.

Lemma writable_path ep : writable ep -> Forall (fun s => no_slash s = true) (request_line ep).2.
Proof.
  intros [Hid _]. destruct ep; cbn [path_ids request_line snd] in *;
    try (apply Forall_cons_1 in Hid as [[_ Hid] _]); repeat constructor; done.
Qed.

(** What a client writes for an endpoint is handled as that endpoint. *)
Lemma client_handled e sv c ep w :
  writable ep -> sendable_cookie (cookie_name sv) c ->
  run e (serve_http sv (client_request (cookie_name sv) c ep)) w = run e (handle (core sv) c ep) w.
Proof.
  intros Hep Hck.
  destruct (proj1 (Exists_exists _ _) (endpoint_reached (cookie_name sv) c ep Hep)) as (r & Hr & Hm & ps & Hp & He).
  assert (Ha : answers r (request_line ep).1 (path_of (request_line ep).2) ps).
  { split; [done|]. by rewrite (split_path _ (writable_path ep Hep)). }
  rewrite <- (client_context (cookie_name sv) c ep Hck) at 2. apply run_same, (serve_http_same sv _ r ps); [|done|done].
  apply mux_only; [done|done|]. intros r' ps' Hr' Ha'.
  by eapply all_disjoint_unique; [apply table_disjoint|exact Hr|exact Hr'|exact Ha|exact Ha'].
Qed.

(** C11: a request over HTTP is a request of the model: whatever route the router takes, the handler
    that runs is that of an endpoint under exactly the middleware of the endpoint, so the answer
    and the changes are those of [handle] for what the texts of the path, the query and the body
    decode to; and a client that writes an endpoint's method, path, query and JSON body, with
    any identifiers without a slash and any strings of valid UTF-8, and sends the cookie back
    that it was given, has that endpoint handled. *)
Theorem http_reaches_handler e sv q w :
  (forall r ps ep, mux_find table (Method q) (Path q) = Some (r, ps) ->
     endpoint_of (target r) ps q = Some ep ->
     run e (serve_http sv q) w = run e (handle (core sv) (context_of (cookie_name sv) q) ep) w) /\
  (forall c ep, writable ep -> sendable_cookie (cookie_name sv) c ->
     run e (serve_http sv (client_request (cookie_name sv) c ep)) w = run e (handle (core sv) c ep) w).
Proof.
  split; [intros r ps ep Hf He; by eapply run_same, serve_http_same; [|eapply mux_registered|]|].
  intros c ep. apply client_handled.
Qed.

End client_serving.

(** ** Examples *)

(** The first route of the table that answers. *)
Fixpoint first_route (l : list route) (me path : string) : option (route * params) :=
  match l with
  | [] => None
  | r :: l' =>
      if String.eqb (method r) me
      then match match_path (pattern r) (split_at 47 path) with
           | Some ps => Some (r, ps)
           | None => first_route l' me path
           end
      else first_route l' me path
  end.
Definition first_mux : Mux := first_route.

Lemma first_mux_laws : @MuxLaws first_mux.
Proof.
  unfold mux_find, first_mux. split; intros l r me path ps.
  2: { induction l as [|x l IH]; cbn; [done|].
       destruct (String.eqb _ _); [destruct (match_path _ _)|]; try (intros Hf; right; by apply IH).
       intros [= -> _]. by left. }
  intros Hr Ha Hu. destruct Ha as [Hm Hp]. induction l as [|x l IH]; [by apply not_elem_of_nil in Hr|]. cbn.
  assert (IH' : r ∈ l -> first_route l me path = Some (r, ps)).
  { intros Hl. apply IH; [done|]. intros r' ps' Hr' Ha'. apply (Hu r' ps'); [by right|done]. }
  destruct (String.eqb_spec (method x) me) as [Hx|Hx].
  - destruct (match_path (pattern x) _) as [ps'|] eqn:E.
    + assert (Hxr : x = r) by (apply (Hu x ps'); [by left|by split]). subst x. congruence.
    + apply IH'. apply elem_of_cons in Hr as [->|Hr]; [congruence|done].
  - apply IH'. apply elem_of_cons in Hr as [->|Hr]; [congruence|done].
Qed.

Definition sample_server : server :=
  Server sample_deps (MkDB None (Ok 6%Z)) "1.0.0" "media" None true
    (Response 400 "" None PNone []) (fun _ _ => Response 404 "" None PNone []).

Section examples.
#[local] Existing Instances ascii_server plain_argon2 decimal_uuid decimal_uuid_laws decimal_uuid_text
  open_jwt ascii_unicode plain_reader first_mux first_mux_laws.

Definition reply : endpoint := PostPost "30" (Some "hi").

Lemma http_reaches_handler_witness :
  Path (client_request (cookie_name sample_server) as_bob reply) = "/api/v1/threads/30/posts" /\
  status (run calm (serve_http sample_server (client_request (cookie_name sample_server) as_bob reply)) one_thread).1 = 201%Z /\
  run calm (serve_http sample_server (client_request (cookie_name sample_server) as_bob reply)) one_thread
  = run calm (handle sample_deps as_bob reply) one_thread.
Proof.
  destruct (http_reaches_handler calm sample_server (client_request (cookie_name sample_server) as_bob reply) one_thread) as [_ Hc].
  assert (Hw : writable reply).
  { split; [|reflexivity]. constructor; [by split|constructor]. }
  split; [reflexivity|]. rewrite (Hc as_bob reply Hw I). split; [by vm_compute|reflexivity].
Defined.

(** Keys are found up to case, later members win, unknown ones are ignored, and null is nothing. *)
Example login_text :
  let text := print (VObject [("IDENTIFIER", VString "a"); ("x", VNull); ("identifier", VString "bob");
                              ("Password", VString "pw"); ("password", VNull)]) in
  decodeJSON text = Some (loginRequest.Mk "bob" "pw") /\
  decodeJSON "null" = Some (loginRequest.Mk "" "") /\
  decodeJSON (T := loginRequest.t) "[]" = None /\
  decodeJSON (T := GroupService.GroupInput.t) (print (VObject [("sort_order", VNumber "1.0")])) = None.
Proof. by vm_compute. Qed.

(** The root of a mounted router is reached with and without a final slash; other routes are not. *)
Example trailing_slash :
  (target ∘ fst <$> mux_find table "GET" "/api/v1/groups/", target ∘ fst <$> mux_find table "GET" "/api/v1/groups",
   target ∘ fst <$> mux_find table "GET" "/api/v1/groups/7", target ∘ fst <$> mux_find table "GET" "/healthz/")
  = (Some Target.groups_List, Some Target.groups_List, Some Target.groups_Get, None).
Proof. by vm_compute. Qed.

End examples.
