(* ===== verification/Responses.v ===== *)
(** * Response bodies (the json tags of internal/models and the handlers, response.go)

    The value encoding/json writes for each payload of Handlers.v: structs in the order of their
    fields under the names of their tags, embedded structs flattened, fields tagged "-" left out,
    maps with their keys in order.  A time outside the years 0 to 9999 is an error of the encoder,
    and the body stays empty ([writeJSON] ignores the error).  The text a [jsonb] column returns
    is the server's, and so is a parameter. *)
From S2P Require Import Prelude GoStrings GoErrors Models Db Prog Concrete Encoding GoJson JsonText GoTime.
From S2P Require Import Jwt Storage Hub AuthService InstallService MediaService Handlers Requests.
From Stdlib Require Import Ascii.
Local Open Scope mc_scope.

Class Jsonb := jsonb_out : json -> value.
(** What it returns is a JSON text, nested as deep as what was stored. *)
Fixpoint json_depth (v : json) : nat :=
  match v with
  | JObject fs => S (foldr Nat.max 0%nat ((fun p => json_depth p.2) <$> fs))
  | _ => 0
  end.
Class JsonbLaws `{Jsonb} : Prop := {
  jsonb_numbers v : numbers_ok (jsonb_out v) = true;
  jsonb_depth v : (depth (jsonb_out v) <= json_depth v)%nat }.

(** ** Building values *)

(** A field whose value may be an error. *)
Definition member : Type := string * option value.
Fixpoint fields (l : list member) : option (list (string * value)) :=
  match l with
  | [] => Some []
  | (k, v) :: l' => v ← v; vs ← fields l'; Some ((k, v) :: vs)
  end.
Definition VStruct (l : list member) : option value := VObject <$> fields l.

(** Maps are written in the order of their keys. *)
Fixpoint insert_key (m : member) (l : list member) : list member :=
  match l with
  | [] => [m]
  | x :: l' => if String.leb m.1 x.1 then m :: l else x :: insert_key m l'
  end.
Definition VMap (l : list member) : option value := VStruct (foldr insert_key [] l).

Definition VSlice {A} (f : A -> option value) (l : list A) : option value := VArray <$> mapM f l.

Section bodies.
Context `{Uuid, Zone, Jsonb}.

Definition j_str (s : string) : option value := Some (VString s).
Definition j_bool (b : bool) : option value := Some (VBool b).
Definition j_int (n : Z) : option value := Some (VInt n).
Definition j_uuid (u : uuid) : option value := Some (VString (uuid_String u)).
Definition j_time (t : time) : option value := VString <$> time_text t.
Definition j_ptr {A} (f : A -> option value) (o : option A) : option value :=
  match o with Some a => f a | None => Some VNull end.

(** ** internal/models *)

Definition User_fields (u : User.t) : list member :=
  [("id", j_uuid (User.ID u)); ("username", j_str (User.Username u)); ("email", j_str (User.Email u));
   ("display_name", j_str (User.DisplayName u)); ("avatar_url", j_str (User.AvatarURL u));
   ("status", j_str (User.Status u)); ("created_at", j_time (User.CreatedAt u));
   ("updated_at", j_time (User.UpdatedAt u)); ("last_seen_at", j_ptr j_time (User.LastSeenAt u))].
Definition User_json (u : User.t) : option value := VStruct (User_fields u).

Definition UserWithRoles_json (u : UserWithRoles.t) : option value :=
  VStruct (User_fields (UserWithRoles.theUser u) ++ [("roles", VSlice j_str (UserWithRoles.Roles u))]).

Definition Group_json (g : Group.t) : option value :=
  VStruct [("id", j_uuid (Group.ID g)); ("name", j_str (Group.Name g)); ("slug", j_str (Group.Slug g));
    ("description", j_str (Group.Description g)); ("parent_id", j_ptr j_uuid (Group.ParentID g));
    ("sort_order", j_int (Group.SortOrder g)); ("created_at", j_time (Group.CreatedAt g));
    ("updated_at", j_time (Group.UpdatedAt g))].

Definition Thread_fields (t : Thread.t) : list member :=
  [("id", j_uuid (Thread.ID t)); ("group_id", j_uuid (Thread.GroupID t));
   ("author_id", j_uuid (Thread.AuthorID t)); ("title", j_str (Thread.Title t));
   ("pinned", j_bool (Thread.Pinned t)); ("locked", j_bool (Thread.Locked t));
   ("views", j_int (Thread.Views t)); ("post_count", j_int (Thread.PostCount t));
   ("last_post_at", j_ptr j_time (Thread.LastPostAt t)); ("created_at", j_time (Thread.CreatedAt t));
   ("updated_at", j_time (Thread.UpdatedAt t))].
Definition ThreadSummary_json (t : ThreadSummary.t) : option value :=
  VStruct (Thread_fields (ThreadSummary.theThread t) ++
    [("author_username", j_str (ThreadSummary.AuthorUsername t));
     ("author_display_name", j_str (ThreadSummary.AuthorDisplay t))]).

Definition Post_fields (p : Post.t) : list member :=
  [("id", j_uuid (Post.ID p)); ("thread_id", j_uuid (Post.ThreadID p));
   ("author_id", j_uuid (Post.AuthorID p)); ("body", j_str (Post.Body p));
   ("edited_by_id", j_ptr j_uuid (Post.EditedByID p)); ("edited_at", j_ptr j_time (Post.EditedAt p));
   ("created_at", j_time (Post.CreatedAt p)); ("updated_at", j_time (Post.UpdatedAt p))].
Definition PostSummary_json (p : PostSummary.t) : option value :=
  VStruct (Post_fields (PostSummary.thePost p) ++
    [("author_username", j_str (PostSummary.AuthorUsername p));
     ("author_display_name", j_str (PostSummary.AuthorDisplay p))]).

Definition PrivateMessage_fields (m : PrivateMessage.t) : list member :=
  [("id", j_uuid (PrivateMessage.ID m)); ("sender_id", j_uuid (PrivateMessage.SenderID m));
   ("recipient_id", j_uuid (PrivateMessage.RecipientID m)); ("body", j_str (PrivateMessage.Body m));
   ("read_at", j_ptr j_time (PrivateMessage.ReadAt m)); ("created_at", j_time (PrivateMessage.CreatedAt m))].
Definition PrivateMessage_json (m : PrivateMessage.t) : option value := VStruct (PrivateMessage_fields m).
Definition PMConversation_json (m : PMConversation.t) : option value :=
  VStruct (PrivateMessage_fields (PMConversation.theMessage m) ++
    [("sender_username", j_str (PMConversation.SenderUsername m));
     ("sender_display", j_str (PMConversation.SenderDisplay m))]).

Definition Notification_json (n : Notification.t) : option value :=
  VStruct [("id", j_uuid (Notification.ID n)); ("user_id", j_uuid (Notification.UserID n));
    ("type", j_str (Notification.Type_ n)); ("payload", Some (jsonb_out (Notification.Payload n)));
    ("read_at", j_ptr j_time (Notification.ReadAt n)); ("created_at", j_time (Notification.CreatedAt n))].

Definition Attachment_fields (a : Attachment.t) : list member :=
  [("id", j_uuid (Attachment.ID a)); ("owner_id", j_uuid (Attachment.OwnerID a));
   ("post_id", j_ptr j_uuid (Attachment.PostID a)); ("filename", j_str (Attachment.Filename a));
   ("content_type", j_str (Attachment.ContentType a)); ("size_bytes", j_int (Attachment.SizeBytes a));
   ("storage_key", j_str (Attachment.StorageKey a)); ("public_url", j_str (Attachment.PublicURL a));
   ("created_at", j_time (Attachment.CreatedAt a)); ("updated_at", j_time (Attachment.UpdatedAt a))].
Definition Attachment_json (a : Attachment.t) : option value := VStruct (Attachment_fields a).
Definition AttachmentWithOwner_json (a : AttachmentWithOwner.t) : option value :=
  VStruct (Attachment_fields (AttachmentWithOwner.theAttachment a) ++
    [("owner_username", j_str (AttachmentWithOwner.OwnerUsername a))]).

(** ** The payloads of the handlers *)

(** A page of a listing. *)
Definition page_json {A} (f : A -> option value) (l : list A) (total limit offset : Z) : option value :=
  VMap [("items", VSlice f l); ("total", j_int total); ("limit", j_int limit); ("offset", j_int offset)].

(** [loginResponse]: no roles are left out. *)
Definition loginResponse_json (access : string) (u : User.t) (roles : list string) : option value :=
  VStruct ([("access_token", j_str access); ("user", User_json u)] ++
    (if bool_decide (roles = []) then [] else [("roles", VSlice j_str roles)])).

(** The value of a payload that is JSON; [code] is that of an error. *)
Definition to_json (code : string) (p : payload) : option value :=
  match p with
  | PNone | PConnected _ | PObject _ _ _ => None
  | PError message => VMap [("code", j_str code); ("message", j_str message)]
  | PUser u => User_json u
  | PRegistered u => VMap [("user", User_json u)]
  | PLogin access u roles => loginResponse_json access u roles
  | PAccess access => VMap [("access_token", j_str access)]
  | PProfile u roles => VMap [("user", User_json u); ("roles", VSlice j_str roles)]
  | PGroup g => Group_json g
  | PGroups l => VMap [("items", VSlice Group_json l)]
  | PThread t => ThreadSummary_json t
  | PPost p => PostSummary_json p
  | PMessage m => PrivateMessage_json m
  | PAttachment a => Attachment_json a
  | PUserWithRoles u => UserWithRoles_json u
  | PSettings forum_name => VStruct [("forum_name", j_str forum_name)]
  | PInstallStatus s =>
      VStruct [("installed", j_bool (InstallService.InstallStatus.Installed s));
               ("forum_name", j_ptr j_str (InstallService.InstallStatus.ForumName s))]
  | PInstalled forum_name u =>
      VMap [("installed", j_bool true); ("forum_name", j_str forum_name); ("user", User_json u)]
  | PUnread messages notifications =>
      VMap [("messages", j_int messages); ("notifications", j_int notifications)]
  | PThreads l total limit offset => page_json ThreadSummary_json l total limit offset
  | PPosts l total limit offset => page_json PostSummary_json l total limit offset
  | PConversations l total limit offset => page_json PMConversation_json l total limit offset
  | PNotifications l total limit offset => page_json Notification_json l total limit offset
  | PUsers l total limit offset => page_json UserWithRoles_json l total limit offset
  | PMedia l total limit offset => page_json AttachmentWithOwner_json l total limit offset
  | PStatus st => VMap [("status", j_str st)]
  | PVersion backend db => VMap [("backend", j_str backend); ("db", j_int db)]
  | POnline l => VSlice j_uuid l
  | PPresence user_id online => VMap [("user_id", j_uuid user_id); ("online", j_bool online)]
  end.

(** The bytes of a response's body. *)
Definition body_text (r : response) : string :=
  match body r with
  | PObject _ _ data => data
  | p => match to_json (code r) p with Some v => Encode v | None => "" end
  end.

(** The value of an event of the hub, which [WriteJSON] encodes. *)
Definition event_json (ev : Event) : option value :=
  VStruct [("type", j_str (Hub.Type_ ev));
    ("data", match Hub.Data ev with
             | presence_data u online => VMap [("user_id", j_uuid u); ("online", j_bool online)]
             | pm_data m => PrivateMessage_json m
             | notification_data n => Notification_json n
             | any_data v => Some (jsonb_out v)
             end)].

(** ** Responses can be read back *)

(** A value that is a JSON text and nests at most [n] deep. *)
Definition good (n : nat) (o : option value) : Prop :=
  forall v, o = Some v -> numbers_ok v = true /\ (depth v <= n)%nat.

Lemma good_le n m o : (n <= m)%nat -> good n o -> good m o.
Proof. intros Hn Ho v Hv. destruct (Ho v Hv). split; [done|lia]. Qed.

Lemma good_str n s : good n (j_str s).
Proof. intros v [= <-]. cbn. split; [done|lia]. Qed.
Lemma good_bool n b : good n (j_bool b).
Proof. intros v [= <-]. cbn. split; [done|lia]. Qed.
Lemma good_int n z : good n (j_int z).
Proof.
  intros v [= <-]. cbn [VInt numbers_ok depth]. unfold number_ok. rewrite number_FormatInt. split; [done|lia].
Qed.
Lemma good_uuid n u : good n (j_uuid u).
Proof. intros v [= <-]. cbn. split; [done|lia]. Qed.
Lemma good_time n t : good n (j_time t).
Proof. intros v (s & _ & ->)%fmap_Some. cbn. split; [done|lia]. Qed.
Lemma good_ptr {A} n (f : A -> option value) o : (forall a, good n (f a)) -> good n (j_ptr f o).
Proof. intros Hf. destruct o as [a|]; [apply Hf|]. intros v [= <-]. cbn. split; [done|lia]. Qed.
Lemma good_None n : good n None.
Proof. by intros v. Qed.

Lemma good_slice {A} n (f : A -> option value) l : Forall (fun a => good n (f a)) l -> good (S n) (VSlice f l).
Proof.
  intros Hl v (vs & Hvs & ->)%fmap_Some. cbn [numbers_ok depth].
  cut (forallb numbers_ok vs = true /\ (foldr Nat.max 0 (depth <$> vs) <= n)%nat); [intros [? ?]; split; [done|lia]|].
  revert vs Hvs. induction Hl as [|a l Ha Hl IH]; intros vs Hvs; cbn in Hvs; [injection Hvs as <-; cbn; split; [done|lia]|].
  destruct (f a) as [v|] eqn:Hv; [|done]. destruct (mapM f l) as [ws|] eqn:Hw; [|done].
  injection Hvs as <-. destruct (Ha v eq_refl) as [Hn Hd], (IH ws eq_refl) as [Hns Hds].
  cbn. rewrite Hn, Hns. split; [done|lia].
Qed.

Lemma good_struct n l : Forall (fun m => good n m.2) l -> good (S n) (VStruct l).
Proof.
  intros Hl v (vs & Hvs & ->)%fmap_Some. cbn [numbers_ok depth].
  cut (forallb (fun p => numbers_ok p.2) vs = true /\
       (foldr Nat.max 0 ((fun p => depth p.2) <$> vs) <= n)%nat); [intros [? ?]; split; [done|lia]|].
  revert vs Hvs. induction Hl as [|[k o] l Ho Hl IH]; intros vs Hvs; cbn in Hvs; [injection Hvs as <-; cbn; split; [done|lia]|].
  destruct o as [v|]; [|done]. destruct (fields l) as [ws|]; [|done].
  injection Hvs as <-. destruct (Ho v eq_refl) as [Hn Hd], (IH ws eq_refl) as [Hns Hds].
  cbn. rewrite Hn, Hns. split; [done|lia].
Qed.

Lemma Forall_insert_key (P : member -> Prop) m l : P m -> Forall P l -> Forall P (insert_key m l).
Proof.
  intros Hm Hl. induction Hl as [|x l Hx Hl IH]; cbn; [by constructor|].
  destruct (String.leb m.1 x.1); repeat (constructor; try done).
Qed.

Lemma good_map n l : Forall (fun m => good n m.2) l -> good (S n) (VMap l).
Proof.
  intros Hl. apply good_struct. induction Hl as [|m l Hm Hl IH]; [constructor|]. cbn.
  by apply Forall_insert_key.
Qed.

Create HintDb good.
#[local] Hint Resolve good_str good_bool good_int good_uuid good_time good_None : good.
#[local] Hint Extern 2 (good _ (j_ptr _ _)) => apply good_ptr; intros : good.
#[local] Hint Extern 3 (good (S _) (VStruct _)) => apply good_struct : good.
#[local] Hint Extern 3 (good (S _) (VMap _)) => apply good_map : good.
#[local] Hint Extern 3 (good (S _) (VSlice _ _)) => apply good_slice, Forall_true; intros : good.
#[local] Hint Extern 1 (Forall _ (_ :: _)) => constructor : good.
#[local] Hint Extern 1 (Forall _ []) => constructor : good.
#[local] Hint Extern 1 (good _ (snd _)) => cbn [snd] : good.

#[local] Ltac good := auto 40 with good.

Lemma User_good n u : good (S n) (User_json u).
Proof. unfold User_json, User_fields. good. Qed.
Lemma UserWithRoles_good n u : good (S (S n)) (UserWithRoles_json u).
Proof. unfold UserWithRoles_json, User_fields. cbn [app]. good. Qed.
Lemma Group_good n g : good (S n) (Group_json g).
Proof. unfold Group_json. good. Qed.
Lemma ThreadSummary_good n t : good (S n) (ThreadSummary_json t).
Proof. unfold ThreadSummary_json, Thread_fields. cbn [app]. good. Qed.
Lemma PostSummary_good n p : good (S n) (PostSummary_json p).
Proof. unfold PostSummary_json, Post_fields. cbn [app]. good. Qed.
Lemma PrivateMessage_good n m : good (S n) (PrivateMessage_json m).
Proof. unfold PrivateMessage_json, PrivateMessage_fields. good. Qed.
Lemma PMConversation_good n m : good (S n) (PMConversation_json m).
Proof. unfold PMConversation_json, PrivateMessage_fields. cbn [app]. good. Qed.
Lemma Attachment_good n a : good (S n) (Attachment_json a).
Proof. unfold Attachment_json, Attachment_fields. good. Qed.
Lemma AttachmentWithOwner_good n a : good (S n) (AttachmentWithOwner_json a).
Proof. unfold AttachmentWithOwner_json, Attachment_fields. cbn [app]. good. Qed.
#[local] Hint Resolve User_good UserWithRoles_good Group_good ThreadSummary_good PostSummary_good
  PrivateMessage_good PMConversation_good Attachment_good AttachmentWithOwner_good : good.

Lemma Notification_good `{!JsonbLaws} n m :
  (json_depth (Notification.Payload m) <= n)%nat -> good (S n) (Notification_json m).
Proof.
  intros Hn. unfold Notification_json.
  assert (Hp : good n (Some (jsonb_out (Notification.Payload m)))).
  { intros v [= <-]. split; [apply jsonb_numbers|]. pose proof (jsonb_depth (Notification.Payload m)). lia. }
  good.
Qed.

(** How deep the stored values of a payload nest. *)
Definition stored_depth (p : payload) : nat :=
  match p with
  | PNotifications l _ _ _ => foldr Nat.max 0%nat ((fun n => json_depth (Notification.Payload n)) <$> l)
  | _ => 0
  end.

Lemma page_good {A} n (f : A -> option value) l total limit offset :
  Forall (fun a => good n (f a)) l -> good (S (S n)) (page_json f l total limit offset).
Proof.
  intros Hl. unfold page_json. apply good_map. constructor; [by apply good_slice|good].
Qed.

Lemma stored_depth_le (l : list Notification.t) :
  Forall (fun n => (json_depth (Notification.Payload n) <=
    foldr Nat.max 0 ((fun n => json_depth (Notification.Payload n)) <$> l))%nat) l.
Proof.
  induction l as [|n l IH]; [constructor|]. cbn. constructor; [lia|].
  eapply Forall_impl; [exact IH|]. cbn. lia.
Qed.

Lemma to_json_good `{!JsonbLaws} c p : good (4 + stored_depth p) (to_json c p).
Proof.
  destruct p; cbn [to_json stored_depth Nat.add]; unfold loginResponse_json;
    try (by apply page_good, Forall_true; intros; good); good.
  - destruct (bool_decide _); cbn [app]; good.
  - apply page_good. eapply Forall_impl; [apply stored_depth_le|]. cbn. intros n Hn.
    eapply good_le; [|by apply (Notification_good (stored_depth (PNotifications l total limit offset)))].
    cbn [stored_depth]. lia.
Qed.

(** ** Password hashes *)

Definition hide_user (u : User.t) : User.t :=
  User.Mk (User.ID u) (User.Username u) (User.Email u) "" (User.DisplayName u) (User.AvatarURL u)
    (User.Status u) (User.CreatedAt u) (User.UpdatedAt u) (User.LastSeenAt u).
Definition hide_roles (u : UserWithRoles.t) : UserWithRoles.t :=
  UserWithRoles.Mk (hide_user (UserWithRoles.theUser u)) (UserWithRoles.Roles u).

(** A payload without the password hashes of the users in it. *)
Definition hide (p : payload) : payload :=
  match p with
  | PUser u => PUser (hide_user u)
  | PRegistered u => PRegistered (hide_user u)
  | PLogin access u roles => PLogin access (hide_user u) roles
  | PProfile u roles => PProfile (hide_user u) roles
  | PUserWithRoles u => PUserWithRoles (hide_roles u)
  | PInstalled f u => PInstalled f (hide_user u)
  | PUsers l total limit offset => PUsers (hide_roles <$> l) total limit offset
  | p => p
  end.

Lemma VSlice_fmap {A} (f : A -> option value) (g : A -> A) l :
  (forall a, f (g a) = f a) -> VSlice f (g <$> l) = VSlice f l.
Proof.
  intros Hg. unfold VSlice. f_equal. induction l as [|a l IH]; [done|].
  rewrite fmap_cons. cbn [mapM]. by rewrite Hg, IH.
Qed.

Lemma hide_json c p : to_json c (hide p) = to_json c p.
Proof.
  destruct p; try reflexivity. cbn [hide to_json]. unfold page_json. by rewrite VSlice_fmap.
Qed.

Definition with_body (p : payload) (r : response) : response :=
  Response (status r) (code r) (set_cookie r) p (events r).

(** C18: what the server answers is JSON a client can read: the body of a response with a payload
    (other than a download) is the text of a value, and reading it gives that value, with every
    field under its tag; the text is the same whatever the password hashes of the users in it
    are, so it tells nothing of them. *)
Theorem response_text_sound `{!JsonbLaws} r :
  (forall v, to_json (code r) (body r) = Some v -> (4 + stored_depth (body r) <= maxNestingDepth)%nat ->
     (forall ct sz data, body r <> PObject ct sz data) /\ Decode (body_text r) = Some (coerce v)) /\
  body_text (with_body (hide (body r)) r) = body_text r.
Proof.
  split.
  - intros v Hv Hd. destruct (to_json_good (code r) (body r) v Hv) as [Hn Hdep].
    assert (Ht : body_text r = Encode v).
    { unfold body_text. destruct (body r); try done; by rewrite Hv. }
    split; [intros ct sz data He; by rewrite He in Hv|]. rewrite Ht.
    apply print_decode; [done|]. lia.
  - unfold body_text, with_body. cbn [body code]. pose proof (hide_json (code r) (body r)) as Hj.
    by destruct (body r); cbn [hide] in *; rewrite ?Hj.
Qed.

End bodies.

(** ** Examples *)

(** A server that keeps the members of an object as they were stored. *)
Fixpoint plain_value (v : json) : value :=
  match v with
  | JBool b => VBool b
  | JString s => VString s
  | JObject fs => VObject ((fun p => (p.1, plain_value p.2)) <$> fs)
  end.
Definition plain_jsonb : Jsonb := plain_value.

Lemma plain_value_ok : forall v, numbers_ok (plain_value v) = true /\ depth (plain_value v) = json_depth v.
Proof.
  fix IH 1. intros [b|s|fs]; [split; reflexivity|split; reflexivity|]. cbn [plain_value numbers_ok depth json_depth].
  assert (Hfs : forallb (fun p => numbers_ok p.2) ((fun p => (p.1, plain_value p.2)) <$> fs) = true /\
    (fun p => depth p.2) <$> ((fun p : string * json => (p.1, plain_value p.2)) <$> fs)
    = (fun p => json_depth p.2) <$> fs).
  { induction fs as [|[k v] fs IHfs]; [done|]. destruct (IH v) as [Hn Hd], IHfs as [Hns Hds]. cbn.
    rewrite Hn, Hd. split; [exact Hns|]. f_equal. exact Hds. }
  destruct Hfs as [Hn Hd]. by rewrite Hn, Hd.
Qed.

Lemma plain_jsonb_laws : @JsonbLaws plain_jsonb.
Proof.
  constructor; intros v; destruct (plain_value_ok v) as [Hn Hd]; [exact Hn|].
  change (depth (plain_value v) <= json_depth v)%nat. by rewrite Hd.
Qed.

(** A process that runs in UTC. *)
Definition utc : Zone := fun _ => 0%Z.

Section examples.
#[local] Existing Instances decimal_uuid utc plain_jsonb plain_jsonb_laws.

Definition a_profile : response :=
  Response 200 "" None (PProfile (a_user alice "alice" "a<b>@example.org" "secret") ["member"]) [].

Lemma response_text_sound_witness :
  exists v, to_json (code a_profile) (body a_profile) = Some v /\ Decode (body_text a_profile) = Some (coerce v).
Proof.
  destruct (response_text_sound a_profile) as [Hr _].
  pose (v := default VNull (to_json (code a_profile) (body a_profile))).
  assert (Hv : to_json (code a_profile) (body a_profile) = Some v) by by vm_compute.
  exists v. split; [exact Hv|]. apply (Hr v Hv). apply Nat.leb_le. by vm_compute.
Defined.

(** The text of an error and of a group. *)
Example error_text :
  body_text (Response 404 "group_not_found" None (PError "Group not found") [])
  = print (VObject [("code", VString "group_not_found"); ("message", VString "Group not found")]) +:+ text1 10.
Proof. by vm_compute. Qed.
Example presence_text :
  body_text (Response 200 "" None (PPresence 7%N true) [])
  = print (VObject [("online", VBool true); ("user_id", VString "7")]) +:+ text1 10.
Proof. by vm_compute. Qed.

End examples.
