(* ===== verification/Http.v ===== *)
(** * The server over HTTP

    Router.v turns a request that arrives as texts into the program that serves it.  Here any
    such requests, the probes, downloads and handshakes included, meet in one database: each of
    them is an API request of the model or leaves the tables alone, so what is proved of the API
    holds of the server as its clients see it. *)
From S2P Require Import Prelude GoStrings GoErrors Models Db Prog Concrete Rely Roles Encoding JsonText Urls.
From S2P Require Import Config Password Jwt JsonStruct Storage UserStore AuthService MediaService Hub.
From S2P Require Import Handlers Samples Requests Account Middleware Frames Access Board Evolution.
From S2P Require Import Refinement Views Roster Membership Catalogue Cataloguing Answered Wellformed System Router.
Local Open Scope mc_scope.

Section http.
Context `{Postgres, Argon2, Uuid, Jwt, Unicode, ObjectReader, MuxLaws0 : MuxLaws}.

(** The API request that a request is: the one of the route it takes. *)
Definition decodes (sv : server) (q : http_request) (c : context) (ep : endpoint) : Prop :=
  c = context_of (cookie_name sv) q /\
  exists r ps, mux_find table (Method q) (Path q) = Some (r, ps) /\ endpoint_of (target r) ps q = Some ep.

(** A program that is soon over and does not touch the tables. *)
Record idle (p : prog response) : Prop := {
  idle_safe : forall J, DbSafe J p;
  idle_ticks : Ticks p;
  idle_soon : within most_actions p }.

Lemma idle_still p : idle p -> Still p.
Proof. intros [Hs Ht _]. split; intros; auto. Qed.

(** ** The routes beside the API *)

#[local] Instance object_read_safe J {A} (f : gmap string object -> A) : DbSafe J (object_read f).
Proof. intros e. by split. Qed.
#[local] Instance object_read_ticks {A} (f : gmap string object -> A) : Ticks (object_read f).
Proof. intros e n. split; [|done]. cbn. lia. Qed.

Ltac beside :=
  unfold Health, Ready, Version_Get, Online, Presence, WS, Serve, Open, media_not_found, pathID, writeError,
    writeJSON, Parse.
Ltac idle_tac :=
  split; [intros J; beside; apply _|beside; apply _|];
  unfold most_actions; beside; unfold object_read; count_tac.

Lemma handler_idle sv r ps q :
  r ∈ table -> endpoint_of (target r) ps q = None ->
  uses r = [] /\ forall x, idle (handler_of sv (target r) ps q x).
Proof.
  assert (Hall : Forall (fun r => endpoint_of (target r) ps q = None ->
    uses r = [] /\ forall x, idle (handler_of sv (target r) ps q x)) table).
  { unfold table. repeat (apply Forall_cons_2;
      [cbn [endpoint_of target]; first [done|intros _; split; [done|]; intros x; cbn [handler_of endpoint_of]; idle_tac]|]).
    apply Forall_nil_2. }
  rewrite Forall_forall in Hall. auto.
Qed.

(** ** Every request is an API request or idle *)

Lemma serve_http_cases sv q :
  (exists ep, decodes sv q (context_of (cookie_name sv) q) ep /\ same (serve_http sv q) (handle (core sv) (context_of (cookie_name sv) q) ep)) \/
  idle (serve_http sv q).
Proof.
  destruct (mux_find table (Method q) (Path q)) as [[r ps]|] eqn:Hm.
  2: { right. unfold serve_http. rewrite Hm. split; [intros J|..]; apply _ || done. }
  pose proof (mux_registered _ _ _ _ _ Hm) as Hr. destruct (endpoint_of (target r) ps q) as [ep|] eqn:He.
  - left. exists ep. split; [split; [done|]; by exists r, ps|]. by eapply serve_http_same.
  - right. destruct (handler_idle sv r ps q Hr He) as [Hu Hi]. unfold serve_http. rewrite Hm, Hu. apply Hi.
Qed.

(** What holds of every API request and of idle programs holds of every request. *)
Lemma serve_http_ind (P : prog response -> Prop) sv q :
  (forall p p', same p p' -> P p' -> P p) -> (forall p, idle p -> P p) ->
  (forall ep, decodes sv q (context_of (cookie_name sv) q) ep -> P (handle (core sv) (context_of (cookie_name sv) q) ep)) ->
  P (serve_http sv q).
Proof.
  intros Hsame Hidle Hapi. destruct (serve_http_cases sv q) as [(ep & Hd & Hs)|Hi]; [|by apply Hidle].
  by eapply Hsame, Hapi.
Qed.

(** ** Any requests at once *)

Section server.
Context (e : env) (Hf : fresh_uuids e) (sv : server) (arrived : http_request -> Prop).

(** A program that an arrived request runs, and the API requests among them. *)
Definition served (p : prog response) : Prop := exists q, arrived q /\ p = serve_http sv q.
Definition sent (c : context) (ep : endpoint) : Prop := exists q, arrived q /\ decodes sv q c ep.

Lemma served_safe p : served p -> keeps e (fun w => db_ok (w_db w)) p.
Proof.
  intros (q & _ & ->). apply serve_http_ind; [intros ??; apply keeps_same|..].
  - intros p Hp. apply (idle_safe p Hp).
  - intros ep _. apply handle_safe.
Qed.

Lemma served_wf p x : served p -> wp e blind wf_world any_time anything x p done_with.
Proof.
  intros (q & _ & ->). apply serve_http_ind; [intros ??; apply wp_same|..].
  - intros p Hp. apply wp_safe; [apply (idle_safe p Hp)|done].
  - intros ep _. apply handle_wf.
Qed.

Lemma served_moves p x :
  served p -> wp e view (good e) (rely e) (permitted e (core sv) sent) x p done_with.
Proof.
  intros (q & Hq & ->). apply serve_http_ind; [intros ??; apply wp_same|..].
  - intros p Hp. apply wp_still; [by apply idle_still|done].
  - intros ep Hep. apply handle_moves; [done|]. by exists q.
Qed.

(** The server's hasher has the parameters the KDF accepts, and a scan loses no rows. *)
Context `{Laws0 : !Argon2Laws} (Hscan : honest_scans e) (Hpar : params_ok (hasher (core sv))).

Lemma served_joins p x :
  served p ->
  wp e (part roster_of) intact (drift roster_of persists) (lawful e change (core sv) sent) x p done_with.
Proof.
  intros (q & Hq & ->). apply serve_http_ind; [intros ??; apply wp_same|..].
  - intros p Hp. apply wp_calm; [apply _|apply lawful_same| |done]. split; intros; apply (idle_safe p Hp).
  - intros ep Hep. apply handle_changes; [done..|]. by exists q.
Qed.

Lemma served_files p x :
  served p ->
  wp e (part catalogue_of) intact (drift catalogue_of lasts)
    (lawful e (revision (core sv)) (core sv) sent) x p done_with.
Proof.
  intros (q & Hq & ->). apply serve_http_ind; [intros ??; apply wp_same|..].
  - intros p Hp. apply wp_calm; [apply _|apply lawful_same| |done]. split; intros; apply (idle_safe p Hp).
  - intros ep Hep. apply handle_revises. by exists q.
Qed.

(** What is so of every state that is reached from [w]: keys and references are sound, rows are
    well formed, and every change since [w] of the board, the roster and the catalogue was a
    permitted one of an arrived request that decodes to an API request. *)
Record accounted (w w' : world) : Prop := {
  acc_ok : db_ok (w_db w');
  acc_wf : wf (w_db w');
  acc_board : exists h, history (permitted e (core sv) sent) (board_of (w_db w)) (board_of (w_db w') :: h);
  acc_roster : exists h, history (lawful e change (core sv) sent) (roster_of (w_db w)) (roster_of (w_db w') :: h);
  acc_catalogue : exists h, history (lawful e (revision (core sv)) (core sv) sent)
    (catalogue_of (w_db w)) (catalogue_of (w_db w') :: h) }.

Lemma reached_accounted w ps' w' :
  db_ok (w_db w) -> wf (w_db w) -> old e w -> rtc (Prog.step served e) ([], w) (ps', w') -> accounted w w'.
Proof.
  intros Hd Hw Ho Hs. constructor.
  - apply (keeps_steps e (fun w => db_ok (w_db w)) served ([], w) (ps', w')); try done. apply served_safe.
  - destruct (wp_steps e blind wf_world any_time anything served ([], w) (ps', w') [tt])
      with (s0 := tt) as (h & _ & Hl & _); try done; [|constructor].
    intros p x Hp _. by apply served_wf.
  - destruct (wp_steps e view (good e) (rely e) (permitted e (core sv) sent) served ([], w) (ps', w') [view w])
      with (s0 := view w) as (h & Hh & _ & Hl); try done; [|constructor|].
    + intros p x Hp _. by apply served_moves.
    + destruct h as [|b h]; [done|]. injection Hl as ->. by exists h.
  - apply (lawful_history roster_of persists e (lawful e change (core sv) sent)) with (allowed := served) (ps' := ps'); try done.
    intros p x. apply served_joins.
  - apply (lawful_history catalogue_of lasts e (lawful e (revision (core sv)) (core sv) sent))
      with (allowed := served) (ps' := ps'); try done. intros p x. apply served_files.
Qed.

Lemma serve_http_within q : within most_actions (serve_http sv q).
Proof.
  apply serve_http_ind; [intros ??; apply within_same|apply idle_soon|]. intros ep _. apply handle_within.
Qed.


End server.
End http.

(** A database that was just migrated is where all this can start. *)
Lemma migrated_ready `{Postgres, Unicode} e (r1 r2 r3 : uuid) w :
  r1 <> r2 -> r1 <> r3 -> r2 <> r3 -> w_db w = migrated r1 r2 r3 ->
  db_ok (w_db w) /\ wf (w_db w) /\ old e w.
Proof.
  intros H12 H13 H23 Hw.
  assert (Hv : view w = ∅) by (unfold view; rewrite Hw; by vm_compute).
  rewrite Hw. split_and!; [by apply migrated_ok|constructor; apply map_Forall_empty|].
  constructor; [intros id o|intros id pid u]; rewrite Hv; [unfold origin|unfold writer]; by rewrite lookup_empty.
Qed.

(** ** Examples *)

Section examples.
#[local] Existing Instances ascii_server plain_argon2 plain_argon2_laws decimal_uuid decimal_uuid_laws decimal_uuid_text
  open_jwt ascii_unicode plain_reader first_mux first_mux_laws.

(** A reply, a probe and nonsense arrive together at a forum with bob's thread. *)
Definition texts : list http_request :=
  [client_request (cookie_name sample_server) as_bob reply;
   HttpRequest "GET" "/healthz" "" "" [] "" "" "" None "";
   HttpRequest "PATCH" "/api/v1/threads/30" "%zz" "Bearer junk" [] "" "" "{{{" None ""].
Definition together : pool response * world :=
  run_sched calm [2; 0; 1; 0; 2; 0; 0; 0; 0; 2; 0; 0]
    (serve_http sample_server <$> texts, bobs_thread).


End examples.
