(* ===== verification/Visit.v ===== *)
(** * A visit, text by text

    What the layers below promise of a login, put together at the level of what a browser sends
    and receives: the login is a JSON body, its answer sets a cookie by a header, the browser
    sends the pair of that header back, and is given another access token. *)
From S2P Require Import Prelude GoStrings GoErrors Models Db Prog Concrete Roles Encoding JsonText Urls.
From S2P Require Import Config Password Jwt JsonStruct Storage UserStore AuthService MediaService Hub.
From S2P Require Import Handlers Samples Requests Cookies Account Middleware Access System Router.
Local Open Scope mc_scope.

(** A browser that keeps the cookie of a Set-Cookie header sends its pair with later requests. *)
Definition send_back (header : string) (q : http_request) : http_request :=
  HttpRequest (Method q) (Path q) (RawQuery q) (h_Authorization q) [pair_of header] (h_RemoteAddr q)
    (h_UserAgent q) (Body_ q) (FormFile q) (FormValue_post_id q).

(** The random source fills the buffer it is given. *)
Definition fills (e : env) : Prop := forall t n b, env_rand e t n = Some b -> String.length b = n.

Lemma drawn_nonempty e tok : fills e -> drawn e tok -> Tokens.RefreshToken tok <> "".
Proof.
  intros Hf (j & b & Hb & ->). pose proof (Hf j RefreshTokenBytes b Hb) as Hl. unfold EncodeToString.
  destruct b as [|a0 [|a1 [|a2 b]]]; [done|done|done|]. cbn [bytes_of b64_encode string_of]. done.
Qed.

Lemma drawn_url e tok : drawn e tok -> all_bytes url_byte (Tokens.RefreshToken tok) = true.
Proof. intros (j & b & _ & ->). apply token_url. Qed.

(** The pair has no semicolon. *)
Lemma pair_bytes name v :
  isToken name = true -> all_bytes url_byte v = true ->
  all_bytes (fun a => negb (is_byte 59 a)) (name +:+ "=" +:+ v) = true.
Proof.
  intros [_ Hn]%andb_true_iff Hv.
  assert (Hsc : forall s, all_bytes token_byte s = true -> all_bytes (fun a => negb (is_byte 59 a)) s = true).
  { intros s. apply all_bytes_impl. intros a Hb. by destruct (token_bytes a Hb) as (_ & -> & _). }
  rewrite !all_bytes_app, (Hsc _ Hn), (Hsc v); [done|].
  eapply all_bytes_impl; [|exact Hv]. intros a Hb. apply (url_bytes a Hb).
Qed.

Section visit.
Context `{Postgres, Argon2, UuidLaws0 : UuidLaws, !UuidText, JwtLaws0 : JwtLaws, Unicode, ObjectReader}.
Context `{MuxLaws0 : MuxLaws}.

(** The header of a login's or a renewal's answer, for a token that was drawn. *)
Lemma session_header (cfg : Config.t) r tok e :
  isToken (Config.RefreshCookieName cfg) = true -> drawn e tok -> fills e ->
  set_cookie r = Some (Tokens.RefreshToken tok) ->
  exists header, Set_Cookie cfg r = Some header /\
    pair_of header = Config.RefreshCookieName cfg +:+ "=" +:+ Tokens.RefreshToken tok.
Proof.
  intros Hn Hd Hf Hr. pose proof (drawn_url e tok Hd) as Hv. pose proof (drawn_nonempty e tok Hf Hd) as Hne.
  destruct (header_pair (setRefreshCookie cfg (Tokens.RefreshToken tok))) as (attrs & Ha); [done..|].
  exists (Config.RefreshCookieName cfg +:+ "=" +:+ Tokens.RefreshToken tok +:+ "; Path=/" +:+ attrs). split.
  - unfold Set_Cookie. rewrite Hr. by destruct (Tokens.RefreshToken tok).
  - replace (_ +:+ _) with ((Config.RefreshCookieName cfg +:+ "=" +:+ Tokens.RefreshToken tok)
      +:+ String (byte 59) (" Path=/" +:+ attrs)) by by rewrite !append_assoc.
    apply pair_of_app. by apply pair_bytes.
Qed.

(** What the login and the renewal answer to tokens. *)
Definition session_answer (t : Tokens.t) : response :=
  Response 200 "" (Some (Tokens.RefreshToken t)) (PLogin (Tokens.AccessToken t) (Tokens.theUser t) (Tokens.Roles t)) [].
Definition renewal_answer (t : Tokens.t) : response :=
  Response 200 "" (Some (Tokens.RefreshToken t)) (PAccess (Tokens.AccessToken t)) [].

Lemma run_auth_Login e d c req tok w w' :
  run e (Login (auth_svc d) (loginRequest.identifier req) (loginRequest.password req) (UserAgent c) (clientIP c)) w
    = (Ok tok, w') ->
  run e (handle d c (PostLogin (Some req))) w = (session_answer tok, w').
Proof. intros Hr. unfold handle. cbn [guard_of serve_as auth_Login decoded]. rewrite run_bind. by rewrite Hr. Qed.

Lemma run_auth_Refresh e d c value tok w w' :
  refresh_cookie c = Some value -> value <> "" ->
  run e (Refresh (auth_svc d) value (UserAgent c) (clientIP c)) w = (Ok tok, w') ->
  run e (handle d c PostRefresh) w = (renewal_answer tok, w').
Proof.
  intros Hc Hne Hr. unfold handle. cbn [guard_of serve_as]. unfold auth_Refresh. rewrite Hc.
  destruct value; [done|]. rewrite run_bind. by rewrite Hr.
Qed.

(** C27: a visit: when the database, the random source and the signer do their part, the owner of
    an active account who sends its name, in any case, and its password as a JSON body to the
    login is answered 200 with an access token that is believed for its lifetime, its account and
    roles, and a Set-Cookie header; a browser that sends the pair of that header back to the
    renewal is answered 200 with another access token of the account and another cookie, as long
    as nothing changed and the session has not expired. *)
Theorem login_then_renewal e sv w c req u :
  let s := auth_svc (core sv) in let name := cookie_name sv in
  clear e s w -> fills e -> db_ok (w_db w) -> storable (UserAgent c) (clientIP c) ->
  isToken name = true -> refresh_cookie c = None -> sendable req ->
  text_ok (TrimSpace (loginRequest.identifier req)) = true ->
  users (w_db w) !! User.ID u = Some u ->
  lower (User.Username u) = lower (TrimSpace (loginRequest.identifier req)) ->
  User.Status u = UserStatusActive ->
  Verify (loginRequest.password req) (User.PasswordHash u) = Some (Ok true) ->
  exists tok w1 i header,
    run e (serve_http sv (client_request name c (PostLogin (Some req)))) w = (session_answer tok, w1) /\
    Tokens.theUser tok = u /\ (w_tick w <= i < w_tick w1)%nat /\ believed_after e s u tok i /\
    Set_Cookie (AuthService.cfg s) (session_answer tok) = Some header /\
    forall w2, w_db w2 = w_db w1 -> clear e s w2 -> unexpired e (Tokens.RefreshToken tok) w2 ->
      exists tok' w3 j,
        run e (serve_http sv (send_back header (client_request name c PostRefresh))) w2
          = (renewal_answer tok', w3) /\ Tokens.theUser tok' = u /\
        (w_tick w2 <= j < w_tick w3)%nat /\ believed_after e s u tok' j.
Proof.
  intros s name Hc Hf Hd Hst Hn Hnone Hreq Ht Hu Hl Hact Hv.
  destruct (login_outcome e s w _ _ u _ _ Hc Hd Hst Ht Hu Hl Hact Hv) as (tok & w1 & i & Hr & Htu & Hi & Hb & Hre & Hdr).
  destruct (session_header (AuthService.cfg s) (session_answer tok) tok e) as (header & Hset & Hpair); [done..|].
  exists tok, w1, i, header. split; [|do 4 (split; [done|])].
  - rewrite client_handled; [by apply run_auth_Login|split; [constructor|exact Hreq]|].
    by unfold sendable_cookie; rewrite Hnone.
  - intros w2 Hw2 Hc2 Hx. destruct (Hre w2 Hw2 Hc2 Hx) as (tok' & w3 & j & Hr2 & Hj). exists tok', w3, j. split; [|done].
    set (c' := Context_ (Authorization c) (Some (Tokens.RefreshToken tok)) (RemoteAddr c) (UserAgent c) (q_limit c) (q_offset c)).
    replace (send_back header (client_request name c PostRefresh)) with (client_request name c' PostRefresh)
      by (unfold send_back; by rewrite Hpair).
    rewrite client_handled; [|split; [constructor|done]|by split; [|eapply drawn_url]].
    by eapply run_auth_Refresh; [done|eapply drawn_nonempty|].
Qed.
End visit.

(** ** Examples *)

Section examples.
#[local] Existing Instances ascii_server plain_argon2 plain_argon2_laws decimal_uuid decimal_uuid_laws decimal_uuid_text
  open_jwt open_jwt_laws ascii_unicode plain_reader first_mux first_mux_laws.

Definition a_browser : context := Context_ "" None "10.0.0.1:5000" "test" "" "".
Definition carols_login : loginRequest.t := loginRequest.Mk "CAROL" "password1".

Lemma letters_length n s : String.length (letters n s) = (n + String.length s)%nat.
Proof. revert s. induction n as [|n IH]; intros s; cbn; [done|]. rewrite IH. cbn. lia. Qed.

Lemma rested_fills : fills rested.
Proof. intros t n b [= <-]. destruct n as [|n]; [done|]. cbn [some_bytes]. rewrite letters_length. cbn. lia. Qed.

(** The request over HTTP leaves the world as the service does. *)
Lemma login_runs :
  (run rested (serve_http sample_server (client_request (cookie_name sample_server) a_browser
    (PostLogin (Some carols_login)))) (carol "password1").2).2
  = (run rested carol_login (carol "password1").2).2.
Proof.
  rewrite client_handled; [|split; [constructor|by split; vm_compute]|done].
  destruct (run rested carol_login (carol "password1").2) as [[tok|er] w'] eqn:Hr.
  - assert (Hl : Login (auth_svc (core sample_server)) (loginRequest.identifier carols_login)
      (loginRequest.password carols_login) (UserAgent a_browser) (clientIP a_browser) = carol_login) by reflexivity.
    rewrite (run_auth_Login rested (core sample_server) a_browser carols_login tok (carol "password1").2 w'); [reflexivity|].
    rewrite Hl. exact Hr.
  - exfalso. by vm_compute in Hr.
Qed.

(** Carol logs in over HTTP, is given a cookie named as configured, and stays logged in by it. *)
Lemma login_then_renewal_witness :
  exists tok w1 header,
    run rested (serve_http sample_server (client_request (cookie_name sample_server) a_browser
      (PostLogin (Some carols_login)))) (carol "password1").2 = (session_answer tok, w1) /\
    Set_Cookie (AuthService.cfg sample_auth) (session_answer tok) = Some header /\
    exists tok' w3, run rested (serve_http sample_server (send_back header
      (client_request (cookie_name sample_server) a_browser PostRefresh))) w1 = (renewal_answer tok', w3).
Proof.
  destruct (login_then_renewal rested sample_server (carol "password1").2 a_browser carols_login carol_user)
    as (tok & w1 & i & header & Hr & Htu & Hi & Hb & Hset & Hre).
  - apply rested_clear. by vm_compute.
  - apply rested_fills.
  - apply db_okb_true. by vm_compute.
  - split; [by vm_compute|]. eexists. by vm_compute.
  - by vm_compute.
  - done.
  - by split; vm_compute.
  - by vm_compute.
  - by vm_compute.
  - by vm_compute.
  - by vm_compute.
  - by vm_compute.
  - assert (H1 : w1 = (run rested carol_login (carol "password1").2).2) by (by rewrite <- login_runs, Hr).
    assert (Hc1 : clear rested sample_auth w1) by (apply rested_clear; rewrite H1; by vm_compute).
    assert (Hx1 : unexpired rested (Tokens.RefreshToken tok) w1).
    { apply unexpiredb_true. rewrite H1. by vm_compute. }
    destruct (Hre w1 eq_refl Hc1 Hx1) as (tok' & w3 & j & Hr3 & _).
    exists tok, w1, header. split; [exact Hr|]. split; [exact Hset|]. exists tok', w3. exact Hr3.
Defined.

End examples.
