(* ===== verification/Realtime.v ===== *)
(** * From an announcement to the peers (internal/ws: hub.go and client.go together)

    Hub.v follows all connections but not their sockets, Client.v one connection but not the
    hub.  Here they run together: a connection's pumps start when it has announced itself, and
    the steps that touch both (taking an event from the channel, unregistering, closing the
    channel) happen in both at once.  Every run of the whole is a run of the hub and, for each
    connection, a run of its pumps, so the theorems of both files hold of it. *)
From S2P Require Import Prelude Models.
From S2P Require Hub Client.
Import Hub (pc, Fresh, Announcing, Live, Departing, Unregistered, Done, conn, at_, user, send, closed,
  notify, userID, event, presence, conns, busy, notifyCh, targets, receive, registered).
Import Client (rd, wr, queued, closed_send, wire, events_of).
Local Open Scope nat_scope.

(** ** The whole *)

(** [sent] records every notification that was put on the hub's channel, in order. *)
Record realtime := Realtime_ {
  hub : Hub.hub;
  pumps : gmap nat Client.state;
  sent : list notify }.

Inductive label :=
| HubStep (l : Hub.label)
| PumpStep (c : nat) (l : Client.label).

Inductive outcome := Running (r : realtime) | Panicked.

Definition start : realtime := Realtime_ Hub.NewHub ∅ [].

(** The steps of the hub that are nobody's pump's. *)
Definition hubs_own (l : Hub.label) : bool :=
  match l with Hub.LUnregister _ | Hub.LClose _ | Hub.LWrite _ => false | _ => true end.

(** [NewClient] has returned: its pumps run. *)
Definition started (x : conn) : bool :=
  match at_ x with Fresh | Announcing => false | _ => true end.

(** What a step of the hub puts on the channel. *)
Definition puts (l : Hub.label) (h : Hub.hub) : list notify :=
  match l with
  | Hub.LNotify n => [n]
  | Hub.LAnnounce c =>
      match conns h !! c with
      | Some (Hub.MkConn u Announcing _ _) => [Hub.MkNotify uuid_Nil (presence u true)]
      | Some (Hub.MkConn u Departing _ _) => [Hub.MkNotify uuid_Nil (presence u false)]
      | _ => []
      end
  | _ => []
  end.

(** The hub's non-blocking send, on the side of the connection. *)
Definition offer (ev : Hub.Event) (s : Client.state) : Client.state :=
  default s (Client.step (Client.Queue ev) s).

(** What a step of the hub does to the pumps. *)
Definition pumps_after (l : Hub.label) (h : Hub.hub) (ps : gmap nat Client.state)
    : gmap nat Client.state :=
  match l, busy h with
  | Hub.LRegister c, _ => <[c := Client.NewClient]> ps
  | Hub.LDeliver, Some n =>
      map_imap (fun c s => Some (if bool_decide (c ∈ targets n h) then offer (event n) s else s)) ps
  | _, _ => ps
  end.

(** The step of the hub that a step of a pump is as well. *)
Definition shared (c : nat) (l : Client.label) (s : Client.state) : option Hub.label :=
  match l with
  | Client.Unregister => Some (Hub.LUnregister c)
  | Client.CloseSend => Some (Hub.LClose c)
  | Client.Write _ => match queued s with [] => None | _ => Some (Hub.LWrite c) end
  | _ => None
  end.

Definition hub_step (l : Hub.label) (ps : gmap nat Client.state) (r : realtime) : option outcome :=
  match Hub.step l (hub r) with
  | Some (Hub.Running h') => Some (Running (Realtime_ h' ps (sent r ++ puts l (hub r))))
  | Some Hub.Panicked => Some Panicked
  | None => None
  end.

Definition step (l : label) (r : realtime) : option outcome :=
  match l with
  | HubStep l => if hubs_own l then hub_step l (pumps_after l (hub r) (pumps r)) r else None
  | PumpStep c l =>
    match conns (hub r) !! c, pumps r !! c with
    | Some x, Some s =>
      if started x && Client.own l then
        match Client.step l s with
        | Some s' =>
          match shared c l s with
          | None => Some (Running (Realtime_ (hub r) (<[c := s']> (pumps r)) (sent r)))
          | Some l' => hub_step l' (<[c := s']> (pumps r)) r
          end
        | None => None
        end
      else None
    | _, _ => None
    end
  end.

Inductive reachable : outcome -> Prop :=
| reach_start : reachable (Running start)
| reach_step r l o : reachable (Running r) -> step l r = Some o -> reachable o.

(** What is on the hub's channel, the notification in delivery first. *)
Definition pending (h : Hub.hub) : list notify := option_list (busy h) ++ notifyCh h.

(** The events of the notifications that are for a user. *)
Definition for_user (u : uuid) (n : notify) : bool :=
  N.eqb (userID n) uuid_Nil || N.eqb u (userID n).
Definition inbox (u : uuid) (ns : list notify) : list Hub.Event :=
  event <$> filter (fun n => for_user u n = true) ns.

(** ** What ties the hub to the pumps *)

(** Where [ReadPump] may be when the hub sees the connection at a place. *)
Definition at_reader (p : pc) (r : Client.reader) : Prop :=
  match p with
  | Fresh => False
  | Announcing => r = Client.Reading
  | Live => r = Client.Reading \/ r = Client.RCloseConn \/ r = Client.RUnregister
  | Departing | Unregistered => r = Client.RCloseSend
  | Done => r = Client.RDone
  end.

Definition agrees (x : conn) (s : Client.state) : Prop :=
  queued s = send x /\ closed_send s = closed x /\ at_reader (at_ x) (rd s).

(** A connection and its pumps, when [p] is on the channel and [sn] has been put on it: nothing
    but the order of [sn] reaches the wire, the buffer or the channel. *)
Definition conn_ok (p sn : list notify) (x : conn) (o : option Client.state) : Prop :=
  match o with
  | None => at_ x = Fresh /\ send x = [] /\ closed x = false
  | Some s =>
      agrees x s /\ (exists ls, Client.run ls Client.NewClient = Some s) /\
      sublist (events_of (wire s) ++ queued s ++ inbox (user x) p) (inbox (user x) sn)
  end.

Record linked (r : realtime) : Prop := {
  linked_hub : Hub.reachable (Hub.Running (hub r));
  linked_sent : exists old, sent r = old ++ pending (hub r);
  linked_conn : forall c, match conns (hub r) !! c with
    | None => pumps r !! c = None
    | Some x => conn_ok (pending (hub r)) (sent r) x (pumps r !! c)
    end }.

Lemma inbox_app u a b : inbox u (a ++ b) = inbox u a ++ inbox u b.
Proof. unfold inbox. by rewrite filter_app, fmap_app. Qed.

Lemma inbox_cons u n ns :
  inbox u (n :: ns) = (if for_user u n then [event n] else []) ++ inbox u ns.
Proof.
  unfold inbox. rewrite filter_cons.
  by destruct (for_user u n); [rewrite decide_True|rewrite decide_False].
Qed.

Lemma client_run_snoc ls l s s' :
  Client.run ls Client.NewClient = Some s -> Client.step l s = Some s' ->
  Client.run (ls ++ [l]) Client.NewClient = Some s'.
Proof.
  generalize Client.NewClient. induction ls as [|k ls IH]; intros s0; cbn.
  - by intros [= ->] ->.
  - destruct (Client.step k s0); [apply IH|done].
Qed.

(** Something more is put on the channel. *)
Lemma conn_ok_put ns p sn x o : conn_ok p sn x o -> conn_ok (p ++ ns) (sn ++ ns) x o.
Proof.
  destruct o as [s|]; [|done]. intros (Ha & Hr & Hs). split_and!; try done.
  rewrite !inbox_app, !app_assoc. apply sublist_app; [|done]. by rewrite <- app_assoc.
Qed.

(** The connection is announced. *)
Lemma conn_ok_pc q p sn x o :
  (at_ x = Announcing /\ q = Live) \/ (at_ x = Departing /\ q = Unregistered) ->
  conn_ok p sn x o -> conn_ok p sn (Hub.set_pc q x) o.
Proof.
  intros Hq. destruct o as [s|]; [|intros [Hf _]; by destruct Hq as [[Ha _]|[Ha _]]; rewrite Ha in Hf].
  intros ((Hs & Hc & Hat) & Hr & Hf). split_and!; try done. split_and!; [done|done|].
  destruct Hq as [[Ha ->]|[Ha ->]]; rewrite Ha in Hat; cbn in *; auto.
Qed.

(** The connection registers. *)
Lemma conn_ok_register q p old x o :
  q = Announcing \/ q = Live -> at_ x = Fresh -> conn_ok p (old ++ p) x o ->
  conn_ok p (old ++ p) (Hub.set_pc q x) (Some Client.NewClient).
Proof.
  intros Hq Hx. destruct o as [s|].
  { intros ((_ & _ & Hat) & _). by rewrite Hx in Hat. }
  intros (_ & Hs & Hc). split_and!.
  - split_and!; [done|done|]. destruct Hq as [-> | ->]; cbn; auto.
  - by exists [].
  - cbn. rewrite inbox_app. by apply sublist_inserts_l.
Qed.

Lemma queue_step ev s :
  Client.is_registered s = true -> closed_send s = false ->
  Client.step (Client.Queue ev) s =
    Some (if length (queued s) <? Hub.sendBuffer
          then Client.MkState (rd s) (wr s) (Client.open s) (queued s ++ [ev]) (closed_send s) (wire s)
          else s).
Proof. intros Hr Hc. unfold Client.step. by rewrite Hr, Hc. Qed.

(** A notification is delivered. *)
Lemma conn_ok_deliver n p sn x o :
  conn_ok (n :: p) sn x o -> (length (send x) <= Hub.sendBuffer) ->
  (closed x = true -> at_ x = Done) ->
  conn_ok p sn (receive n x)
    ((fun s => if registered x && for_user (user x) n then offer (event n) s else s) <$> o).
Proof.
  intros Ho Hl Hcl. destruct o as [s|].
  2: { destruct Ho as (Hf & Hs & Hc). unfold receive, registered. rewrite Hf. done. }
  destruct Ho as ((Hq & Hc & Hat) & [ls Hr] & Hs). rewrite inbox_cons in Hs. cbn [fmap option_fmap option_map].
  assert (Hskip : conn_ok p sn x (Some s)).
  { split_and!; [done|by exists ls|]. etrans; [|exact Hs]. apply sublist_app; [done|].
    apply sublist_app; [done|]. by apply sublist_inserts_l. }
  unfold receive. change (N.eqb (userID n) uuid_Nil || N.eqb (user x) (userID n)) with (for_user (user x) n).
  destruct (registered x && for_user (user x) n) eqn:Hreg; cbn [andb]; [|done].
  apply andb_true_iff in Hreg as [Hreg Hfor]. rewrite Hfor in Hs.
  assert (Hen : Client.is_registered s = true /\ closed x = false).
  { unfold registered in Hreg. unfold Client.is_registered. split.
    - destruct (at_ x); try done; cbn in Hat; [by rewrite Hat|]. by destruct Hat as [-> |[-> | ->]].
    - apply not_true_iff_false. intros Hx. by rewrite (Hcl Hx) in Hreg. }
  destruct Hen as [Hen Hcf]. rewrite <- Hc in Hcf.
  pose proof (queue_step (event n) s Hen Hcf) as Hstep. unfold offer. rewrite Hstep.
  rewrite Hq in *. destruct (length (send x) <? Hub.sendBuffer); [|done].
  split_and!; [split_and!; cbn; congruence| |].
  - exists (ls ++ [Client.Queue (event n)]). by apply (client_run_snoc _ _ s).
  - cbn in *. by rewrite <- !app_assoc in *.
Qed.

(** A step of a pump keeps the connection's order; who it agrees with is for the caller. *)
Lemma conn_ok_pump l p sn x x' s s' :
  Client.step l s = Some s' -> Client.own l = true -> user x' = user x -> agrees x' s' ->
  conn_ok p sn x (Some s) -> conn_ok p sn x' (Some s').
Proof.
  intros Hst Hown Hu Ha (_ & [ls Hr] & Hs). split_and!; [done| |].
  - exists (ls ++ [l]). by apply (client_run_snoc _ _ s).
  - rewrite Hu. etrans; [|exact Hs]. rewrite !app_assoc. apply sublist_app; [|done].
    pose proof (Client.step_events l s s' _ Hst (reflexivity _)) as He.
    replace (Client.queue_events [l]) with (@nil Hub.Event) in He by by destruct l.
    by rewrite app_nil_r in He.
Qed.

(** The steps of a pump that the hub does not see. *)
Lemma agrees_alone c l x s s' :
  agrees x s -> started x = true -> Client.own l = true -> shared c l s = None ->
  Client.step l s = Some s' -> agrees x s'.
Proof.
  intros (Hq & Hc & Hat) Hx Hown Hsh Hst. destruct s as [r w o q cl f]; cbn in *. subst q cl.
  destruct l as [ev|[]| | | |ok|ok|]; cbn in *; unfold Client.written in *; try done.
  - destruct r; try done. destruct o; [|done]. by injection Hst as <-.
  - destruct r; try done. injection Hst as <-. split_and!; [done|done|].
    unfold started in Hx. destruct (at_ x); try done; cbn in *; auto; naive_solver.
  - destruct r; try done. injection Hst as <-. split_and!; [done|done|].
    unfold started in Hx. destruct (at_ x); try done; cbn in *; auto; naive_solver.
  - destruct w; try done. destruct (ok && negb o); [done|]. destruct (send x) eqn:Hsx; [|done].
    destruct (closed x) eqn:Hcx; [|done].
    injection Hst as <-. destruct ok; by split_and!.
  - destruct w; try done. destruct (ok && negb o); [done|]. injection Hst as <-.
    destruct ok; by split_and!.
  - destruct w; try done. injection Hst as <-. by split_and!.
Qed.

(** ** The steps of the hub, as a connection sees them *)

Lemma register_frame c u h :
  let h1 := (Hub.register_locked c u h).1 in conns h1 = conns h /\ pending h1 = pending h.
Proof. done. Qed.

Lemma unregister_frame c u h :
  let h1 := (Hub.unregister_locked c u h).1 in conns h1 = conns h /\ pending h1 = pending h.
Proof. unfold Hub.unregister_locked. by destruct (_ && _). Qed.

Lemma targets_iff h n c x :
  Hub.inv h -> conns h !! c = Some x ->
  bool_decide (c ∈ targets n h) = registered x && for_user (user x) n.
Proof.
  intros Hi Hx. apply eq_true_iff_eq. rewrite bool_decide_eq_true, andb_true_iff. unfold for_user.
  rewrite orb_true_iff, !N.eqb_eq. split.
  - intros (y & Hy & Hr & Hu)%(Hub.targets_registered n h c Hi). assert (y = x) as -> by congruence.
    split; [done|]. destruct (N.eq_dec (userID n) uuid_Nil); auto.
  - intros [Hr Hu]. by apply (Hub.targets_complete n h c x).
Qed.

(** Every other connection is as before. *)
Lemma linked_at c x' o' h' ps sn r :
  linked r -> Hub.reachable (Hub.Running h') -> (exists old, sn = old ++ pending h') ->
  (forall d x o, d <> c -> conn_ok (pending (hub r)) (sent r) x o -> conn_ok (pending h') sn x o) ->
  conns h' = <[c := x']> (conns (hub r)) ->
  (forall d, d <> c -> ps !! d = pumps r !! d) -> ps !! c = o' -> conn_ok (pending h') sn x' o' ->
  linked (Realtime_ h' ps sn).
Proof.
  intros [_ _ Hc] Hr Hold Hother Hconns Hps Hpc Hok. constructor; cbn; [done|done|].
  intros d. rewrite Hconns. destruct (decide (d = c)) as [->|Hne].
  - by rewrite lookup_insert_eq, Hpc.
  - rewrite lookup_insert_ne, Hps by done. specialize (Hc d).
    destruct (conns (hub r) !! d); [by apply (Hother d)|done].
Qed.

Lemma alter_insert (f : conn -> conn) c x (m : gmap nat conn) :
  m !! c = Some x -> alter f c m = <[c := f x]> m.
Proof.
  intros Hx. apply map_eq. intros d. destruct (decide (d = c)) as [->|Hne].
  - by rewrite lookup_alter_eq, lookup_insert_eq, Hx.
  - by rewrite lookup_alter_ne, lookup_insert_ne.
Qed.

Lemma linked_inv r : linked r -> Hub.inv (hub r).
Proof. intros [Hr _ _]. by apply Hub.reachable_inv in Hr as (h & [= <-] & Hi). Qed.

(** The hub does not panic, and the sum of its steps is a run. *)
Lemma hub_step_runs l ps r o :
  linked r -> hub_step l ps r = Some o ->
  exists h', Hub.step l (hub r) = Some (Hub.Running h') /\ Hub.reachable (Hub.Running h') /\
    o = Running (Realtime_ h' ps (sent r ++ puts l (hub r))).
Proof.
  intros Hl. unfold hub_step. destruct (Hub.step l (hub r)) as [[h'|]|] eqn:Hs; [| |done].
  - intros [= <-]. exists h'. split_and!; try done. eapply Hub.reach_step; [apply (linked_hub _ Hl)|done].
  - destruct (Hub.step_inv l _ _ (linked_inv r Hl) Hs) as (h' & ? & _). done.
Qed.

Lemma linked_lookup r c x :
  linked r -> conns (hub r) !! c = Some x -> conn_ok (pending (hub r)) (sent r) x (pumps r !! c).
Proof. intros [_ _ Hc] Hx. specialize (Hc c). by rewrite Hx in Hc. Qed.

(** A step that leaves the connections and the channel alone. *)
Lemma linked_same h' r :
  linked r -> Hub.reachable (Hub.Running h') -> conns h' = conns (hub r) ->
  pending h' = pending (hub r) -> linked (Realtime_ h' (pumps r) (sent r ++ [])).
Proof.
  intros [_ [old Ho] Hc] Hr Hconns Hp. rewrite app_nil_r.
  constructor; cbn; rewrite ?Hconns, ?Hp; [done|by exists old|done].
Qed.

Lemma linked_accept c u r h' :
  linked r -> conns (hub r) !! c = None -> Hub.reachable (Hub.Running h') ->
  h' = Hub.with_conns (<[c := Hub.MkConn u Fresh [] false]> (conns (hub r))) (hub r) ->
  linked (Realtime_ h' (pumps r) (sent r ++ [])).
Proof.
  intros Hl Hc Hr ->. rewrite app_nil_r.
  apply (linked_at c (Hub.MkConn u Fresh [] false) None _ _ _ r); try done; [apply Hl|].
  pose proof (linked_conn _ Hl c) as Hn. by rewrite Hc in Hn.
Qed.

Lemma linked_register c x r h' b :
  linked r -> conns (hub r) !! c = Some x -> at_ x = Fresh -> Hub.reachable (Hub.Running h') ->
  h' = Hub.move c (if b : bool then Announcing else Live) (Hub.register_locked c (user x) (hub r)).1 ->
  linked (Realtime_ h' (<[c := Client.NewClient]> (pumps r)) (sent r ++ [])).
Proof.
  intros Hl Hx Hat Hr ->. rewrite app_nil_r. destruct (linked_sent _ Hl) as [old Ho].
  apply (linked_at c (Hub.set_pc (if b then Announcing else Live) x) (Some Client.NewClient) _ _ _ r);
    try done; cbn.
  - by exists old.
  - by apply alter_insert.
  - intros d Hd. by apply lookup_insert_ne.
  - apply lookup_insert_eq.
  - rewrite Ho. apply (conn_ok_register _ _ old x (pumps r !! c)); [by destruct b; auto|done|].
    pose proof (linked_lookup r c x Hl Hx) as Hok. by rewrite Ho in Hok.
Qed.

Lemma linked_put c x q n r h' :
  linked r -> conns (hub r) !! c = Some x ->
  (at_ x = Announcing /\ q = Live) \/ (at_ x = Departing /\ q = Unregistered) ->
  Hub.reachable (Hub.Running h') -> h' = Hub.move c q (Hub.push n (hub r)) ->
  linked (Realtime_ h' (pumps r) (sent r ++ [n])).
Proof.
  intros Hl Hx Hq Hr ->. destruct (linked_sent _ Hl) as [old Ho].
  assert (Hp : pending (Hub.move c q (Hub.push n (hub r))) = pending (hub r) ++ [n])
    by (unfold pending; cbn; by rewrite app_assoc).
  apply (linked_at c (Hub.set_pc q x) (pumps r !! c) _ _ _ r); try done; rewrite ?Hp.
  - exists old. by rewrite Ho, app_assoc.
  - intros d y o _. apply conn_ok_put.
  - cbn. by apply alter_insert.
  - apply conn_ok_put, conn_ok_pc; [done|by apply linked_lookup].
Qed.

Lemma linked_notify n r :
  linked r -> Hub.reachable (Hub.Running (Hub.push n (hub r))) ->
  linked (Realtime_ (Hub.push n (hub r)) (pumps r) (sent r ++ [n])).
Proof.
  intros Hl Hr. destruct (linked_sent _ Hl) as [old Ho].
  assert (Hp : pending (Hub.push n (hub r)) = pending (hub r) ++ [n])
    by (unfold pending; cbn; by rewrite app_assoc).
  constructor; cbn; [done| |].
  - exists old. by rewrite Hp, Ho, app_assoc.
  - intros c. rewrite Hp. pose proof (linked_conn _ Hl c) as Hc.
    destruct (conns (hub r) !! c); [by apply conn_ok_put|done].
Qed.

Lemma linked_deliver n r h' :
  linked r -> busy (hub r) = Some n -> Hub.reachable (Hub.Running h') ->
  Hub.step Hub.LDeliver (hub r) = Some (Hub.Running h') ->
  linked (Realtime_ h' (pumps_after Hub.LDeliver (hub r) (pumps r)) (sent r ++ [])).
Proof.
  intros Hl Hb Hr Hs. pose proof (linked_inv r Hl) as Hi. rewrite app_nil_r.
  destruct (Hub.deliver_exact (hub r) n Hi) as (m & Hd & Hm).
  cbn in Hs. rewrite Hb, Hd in Hs. injection Hs as <-.
  assert (Hp : pending (hub r) = n :: notifyCh (hub r)) by (unfold pending; by rewrite Hb).
  constructor; cbn; [done| |].
  - destruct (linked_sent _ Hl) as [old ->]. exists (old ++ [n]). by rewrite Hp, <- app_assoc.
  - intros c. rewrite Hb, Hm, map_lookup_imap. pose proof (linked_conn _ Hl c) as Hc.
    destruct (conns (hub r) !! c) as [x|] eqn:Hx; cbn; [|by rewrite Hc].
    rewrite Hp in Hc. apply conn_ok_deliver in Hc;
      [|by apply (Hub.inv_send _ Hi c)|
       by intros Hcx; rewrite (Hub.inv_closed _ Hi c x Hx), bool_decide_eq_true in Hcx].
    destruct (pumps r !! c) as [s|]; cbn in *; [|done]. by rewrite (targets_iff _ n c x Hi Hx).
Qed.

Lemma hub_step_linked l r o :
  linked r -> hubs_own l = true -> step (HubStep l) r = Some o -> exists r', o = Running r' /\ linked r'.
Proof.
  intros Hl Hown. cbn [step]. rewrite Hown.
  intros (h' & Hs & Hr & ->)%hub_step_runs; [|done]. eexists. split; [done|]. pose proof Hs as Hstep.
  destruct l as [c u|c|c|n|c|c|c| | |]; try done; 
    cbn [Hub.step puts pumps_after] in Hs |- *.
  - destruct (conns (hub r) !! c) eqn:Hc; [done|]. injection Hs as <-. by eapply linked_accept.
  - destruct (conns (hub r) !! c) as [[u [] q cl]|] eqn:Hc; try done.
    injection Hs as Hs. by eapply (linked_register c _ r h' _ Hl Hc).
  - destruct (conns (hub r) !! c) as [[u [] q cl]|] eqn:Hc; try done;
      (destruct (Hub.has_room _); [|done]); injection Hs as <-; eapply linked_put; eauto.
  - destruct (Hub.has_room _); [|done]. injection Hs as <-. by apply linked_notify.
  - destruct (Hub.running (hub r)) eqn:Hrun, (busy (hub r)) eqn:Hb, (notifyCh (hub r)) as [|n1 q] eqn:Hq;
      try done. injection Hs as <-. apply linked_same; try done. unfold pending. by rewrite Hb, Hq.
  - destruct (busy (hub r)) as [n|] eqn:Hb; [|done].
    pose proof (linked_deliver n r h' Hl Hb Hr Hstep) as Hd. unfold pumps_after in Hd. by rewrite Hb in Hd.
  - destruct (busy (hub r)) eqn:Hb; [done|]. injection Hs as <-.
    apply linked_same; try done. unfold pending. by rewrite Hb.
Qed.

(** A step that a pump makes with the hub: both see the same. *)
Lemma agrees_shared c l x s s' hl h h' :
  agrees x s -> started x = true -> shared c l s = Some hl -> conns h !! c = Some x ->
  Client.step l s = Some s' -> Hub.step hl h = Some (Hub.Running h') ->
  exists x', user x' = user x /\ agrees x' s' /\ puts hl h = [] /\
    conns h' = <[c := x']> (conns h) /\ pending h' = pending h.
Proof.
  intros (Hq & Hc & Hat) Hst Hsh Hx Hs Hh. destruct s as [r w o q cl f]; cbn in Hq, Hc, Hat. subst q cl.
  destruct l as [ev|ok| | | |ok|ok|]; cbn in Hsh; try done.
  - injection Hsh as <-. cbn in Hs, Hh. destruct r; try done. injection Hs as <-.
    rewrite Hx in Hh. destruct x as [u [] q cl]; try done.
    pose proof (unregister_frame c u h) as [Hconns Hpend].
    destruct (Hub.unregister_locked c u h) as [h1 b]. injection Hh as <-. cbn in Hconns, Hpend |- *.
    exists (Hub.set_pc (if b then Departing else Unregistered) (Hub.MkConn u Live q cl)).
    split_and!; try done; [split_and!; [done|done|by destruct b]|].
    rewrite Hconns. by apply alter_insert.
  - injection Hsh as <-. cbn in Hs, Hh. destruct r; try done.
    rewrite Hx in Hh. destruct x as [u [] q cl]; try done; cbn in *.
    destruct cl; [done|]. injection Hs as <-. injection Hh as <-.
    by exists (Hub.MkConn u Done q true).
  - cbn in Hs, Hh. destruct w; try done. destruct (ok && negb o); [done|].
    destruct (send x) as [|ev q] eqn:Hsx; [done|]. injection Hsh as <-. injection Hs as <-.
    cbn in Hh. rewrite Hx, Hsx in Hh. injection Hh as <-.
    exists (Hub.set_send q x). split_and!; try done. by destruct ok.
Qed.

(** A step of a pump, alone or with the hub. *)
Lemma pump_step_linked c l r o :
  linked r -> step (PumpStep c l) r = Some o -> exists r', o = Running r' /\ linked r'.
Proof.
  intros Hl. cbn [step]. destruct (conns (hub r) !! c) as [x|] eqn:Hx; [|done].
  destruct (pumps r !! c) as [s|] eqn:Hp; [|done].
  destruct (started x && Client.own l) eqn:He; [|done]. apply andb_true_iff in He as [Hst Hown].
  destruct (Client.step l s) as [s'|] eqn:Hs; [|done].
  pose proof (linked_lookup r c x Hl Hx) as Hok. rewrite Hp in Hok. pose proof Hok as (Ha & _ & _).
  destruct (shared c l s) as [hl|] eqn:Hsh.
  - intros (h' & Hhs & Hr & ->)%hub_step_runs; [|done]. eexists. split; [done|].
    destruct (agrees_shared c l x s s' hl (hub r) h' Ha Hst Hsh Hx Hs Hhs)
      as (x' & Hu & Ha' & -> & Hconns & Hpend). rewrite app_nil_r.
    apply (linked_at c x' (Some s') _ _ _ r); try done.
    + rewrite Hpend. apply Hl.
    + intros d y o' _. by rewrite Hpend.
    + intros d Hd. by apply lookup_insert_ne.
    + apply lookup_insert_eq.
    + rewrite Hpend. by apply (conn_ok_pump l _ _ x x' s s').
  - intros [= <-]. eexists. split; [done|].
    apply (linked_at c x (Some s') _ _ _ r); try done; try apply Hl.
    + by rewrite insert_id.
    + intros d Hd. by apply lookup_insert_ne.
    + apply lookup_insert_eq.
    + apply (conn_ok_pump l _ _ x x s s'); try done. by apply (agrees_alone c l x s s').
Qed.

Lemma reachable_linked o : reachable o -> exists r, o = Running r /\ linked r.
Proof.
  induction 1 as [|r l o _ (r' & [= <-] & Hl) Hs].
  - eexists. split; [done|]. constructor; [constructor|by exists []|done].
  - destruct l as [l|c l]; [|by eapply pump_step_linked].
    eapply hub_step_linked; [done| |exact Hs]. cbn in Hs. by destruct (hubs_own l).
Qed.

(** C25: from announcement to peer: whatever the users, the handlers, the sockets and the
    scheduler do, nothing panics, and the hub and every connection only do what they do on
    their own (a run of Hub.v, and for each connection one of Client.v, on the same buffer).
    What a peer has been sent is, in the order in which it was put on the hub's channel and each
    at most once, part of what was meant for its user or for everybody; together with what waits
    in its buffer and on the channel it still is. *)
Theorem announcements_delivered o :
  reachable o ->
  exists r, o = Running r /\ Hub.reachable (Hub.Running (hub r)) /\
    forall c s, pumps r !! c = Some s ->
      exists x, conns (hub r) !! c = Some x /\
        (exists ls, Client.run ls Client.NewClient = Some s) /\
        queued s = send x /\ closed_send s = closed x /\
        sublist (events_of (wire s) ++ queued s ++ inbox (user x) (pending (hub r)))
          (inbox (user x) (sent r)).
Proof.
  intros (r & -> & Hl)%reachable_linked. exists r. split; [done|]. split; [apply Hl|].
  intros c s Hp. pose proof (linked_conn _ Hl c) as Hc. rewrite Hp in Hc.
  destruct (conns (hub r) !! c) as [x|]; [|done]. destruct Hc as ((Hq & Hcl & _) & Hr & Hs).
  exists x. by split_and!.
Qed.

(** ** Example *)

Fixpoint run (ls : list label) (r : realtime) : option outcome :=
  match ls with
  | [] => Some (Running r)
  | l :: ls' => match step l r with Some (Running r') => run ls' r' | o => o end
  end.

Lemma run_reachable ls r o : reachable (Running r) -> run ls r = Some o -> reachable o.
Proof.
  revert r. induction ls as [|l ls IH]; intros r Hr; cbn; [by intros [= <-]|].
  destruct (step l r) as [[r'|]|] eqn:Hs; [|by intros [= <-]; eapply reach_step|done].
  apply IH. by eapply reach_step.
Qed.

(** User 7 connects, is told that it is online and gets a message; one for user 8 passes by. *)
Definition message (n : uuid) : notify := Hub.MkNotify n (Hub.MkEvent "pm" (Hub.any_data (JBool true))).
Definition one_visit : list label :=
  map HubStep [Hub.LAccept 0 7%N; Hub.LRegister 0; Hub.LAnnounce 0; Hub.LNotify (message 8);
    Hub.LNotify (message 7); Hub.LReceive; Hub.LDeliver; Hub.LReceive; Hub.LDeliver;
    Hub.LReceive; Hub.LDeliver] ++
  [PumpStep 0 (Client.Write true); PumpStep 0 (Client.Write true)].
Definition the_run (o : outcome) : realtime := match o with Running r => r | Panicked => start end.
Definition visited : realtime := the_run (default Panicked (run one_visit start)).

Lemma announcements_delivered_witness :
  exists s, pumps visited !! 0 = Some s /\ length (events_of (wire s)) = 2 /\
    length (sent visited) = 3 /\
    sublist (events_of (wire s)) (inbox 7%N (sent visited)).
Proof.
  assert (Hr : reachable (Running visited)).
  { apply (run_reachable one_visit start); [constructor|by vm_compute]. }
  destruct (announcements_delivered _ Hr) as (r & Heq & _ & Hall).
  pose proof (f_equal the_run Heq : visited = r) as Hv. rewrite <- Hv in Hall.
  pose (s := default Client.NewClient (pumps visited !! 0)).
  assert (Hs : pumps visited !! 0 = Some s) by by vm_compute.
  destruct (Hall 0 s Hs) as (x & Hx & _ & _ & _ & Hsub).
  exists s. split; [exact Hs|]. split; [by vm_compute|]. split; [by vm_compute|].
  assert (Hu : user x = 7%N).
  { assert (He : user <$> conns (hub visited) !! 0 = Some 7%N) by by vm_compute.
    rewrite Hx in He. by injection He. }
  rewrite <- Hu. etrans; [|exact Hsub]. by apply sublist_inserts_r.
Defined.
