(* ===== verification/Wiring.v ===== *)
(** * The objects of a running server and how they are wired

    Every struct that holds other components, from the stores over the services to the handlers
    ([NewRouter] of http/router.go makes them), each with its constructor, which in the source
    only fills in the fields.  The operations of these objects are the other files'; here is what
    they are built from, and when a graph of them is one server on one database. *)
From S2P Require Import Prelude GoStrings GoErrors Models Db Prog Config Password Jwt AuthService.
From S2P Require Import MediaService Hub Handlers System Router.

(** ** What the libraries give out *)

(** A pool of connections is known by the URL it was opened for, a client of the object store by
    its settings. *)
Definition Pool : Type := string.

Module Client.
Record t := New { endpoint : string; accessKey : string; secretKey : string; region : string;
  secure : bool }.
End Client.

(** ** db/db.go and storage/s3.go *)

(** The pool, and the provider of the migrations, which works on a pool too. *)
Record DB := MkDB { DB_pool : Pool; DB_provider : Pool }.

(** Pool exposes the underlying pgx pool for store/services layers. *)
Definition DB_Pool (d : DB) : Pool := DB_pool d.

Record S3 := MkS3 { S3_client : Client.t; S3_bucket : string }.

(** Bucket returns the default bucket name. *)
Definition S3_Bucket (s : S3) : string := S3_bucket s.

(** ** The stores *)

Record UserStore := NewUserStore { UserStore_db : Pool }.
Record SessionStore := NewSessionStore { SessionStore_db : Pool }.
Record GroupStore := NewGroupStore { GroupStore_db : Pool }.
Record ThreadStore := NewThreadStore { ThreadStore_db : Pool }.
Record PostStore := NewPostStore { PostStore_db : Pool }.
Record AttachmentStore := NewAttachmentStore { AttachmentStore_db : Pool }.
Record SettingsStore := NewSettingsStore { SettingsStore_db : Pool }.
Record MessageStore := NewMessageStore { MessageStore_db : Pool }.
Record NotificationStore := NewNotificationStore { NotificationStore_db : Pool }.

(** ** The services *)

Record AuthService := NewAuthService { AuthService_users : UserStore;
  AuthService_sessions : SessionStore; AuthService_hasher : Params.t; AuthService_jwt : Manager.t;
  AuthService_cfg : Config.t }.
Record GroupService := NewGroupService { GroupService_groups : GroupStore;
  GroupService_threads : ThreadStore }.
Record ThreadService := NewThreadService { ThreadService_groups : GroupStore;
  ThreadService_threads : ThreadStore }.
Record PostService := NewPostService { PostService_posts : PostStore;
  PostService_threads : ThreadStore }.
Record MediaService := NewMediaService { MediaService_attachments : AttachmentStore;
  MediaService_users : UserStore; MediaService_posts : PostStore; MediaService_s3 : S3;
  MediaService_cfg : Config.t }.
Record AdminService := NewAdminService { AdminService_users : UserStore;
  AdminService_attachments : AttachmentStore; AdminService_settings : SettingsStore }.
Record InstallService := NewInstallService { InstallService_users : UserStore;
  InstallService_settings : SettingsStore; InstallService_hasher : Params.t }.
Record MessageService := NewMessageService { MessageService_messages : MessageStore;
  MessageService_users : UserStore }.
Record NotificationService := NewNotificationService {
  NotificationService_notifications : NotificationStore }.

(** ** The handlers *)

Record Health := NewHealth { Health_db : DB }.
Record Version := NewVersion { Version_db : DB; Version_backend : string }.
Record Auth := NewAuth { Auth_svc : AuthService; Auth_cfg : Config.t }.
Record Groups := NewGroups { Groups_svc : GroupService }.
Record Threads := NewThreads { Threads_svc : ThreadService }.
Record Posts := NewPosts { Posts_svc : PostService }.
Record Media := NewMedia { Media_svc : MediaService; Media_s3 : S3 }.
Record Admin := NewAdmin { Admin_svc : AdminService }.
Record Install := NewInstall { Install_svc : InstallService }.
Record Messages := NewMessages { Messages_svc : MessageService; Messages_notif : NotificationService;
  Messages_hub : hub }.

(** What [NewRouter] mounts: the handlers, and what the middleware and the handshake use. *)
Record application := Application { jwtm : Manager.t; realtime : hub; health : Health;
  versionHandler : Version; auth : Auth; groups : Groups; threads : Threads; posts : Posts;
  media : Media; admin : Admin; install : Install; messages : Messages }.

(** ** One server on one database *)

(** The pools that an application's requests reach. *)
Definition pools (a : application) : list Pool :=
  let authSvc := Auth_svc (auth a) in let groupSvc := Groups_svc (groups a) in
  let threadSvc := Threads_svc (threads a) in let postSvc := Posts_svc (posts a) in
  let mediaSvc := Media_svc (media a) in let adminSvc := Admin_svc (admin a) in
  let installSvc := Install_svc (install a) in let messageSvc := Messages_svc (messages a) in
  let notificationSvc := Messages_notif (messages a) in
  [DB_pool (Health_db (health a)); DB_provider (Health_db (health a));
   DB_pool (Version_db (versionHandler a)); DB_provider (Version_db (versionHandler a));
   UserStore_db (AuthService_users authSvc); SessionStore_db (AuthService_sessions authSvc);
   GroupStore_db (GroupService_groups groupSvc); ThreadStore_db (GroupService_threads groupSvc);
   GroupStore_db (ThreadService_groups threadSvc); ThreadStore_db (ThreadService_threads threadSvc);
   PostStore_db (PostService_posts postSvc); ThreadStore_db (PostService_threads postSvc);
   AttachmentStore_db (MediaService_attachments mediaSvc); UserStore_db (MediaService_users mediaSvc);
   PostStore_db (MediaService_posts mediaSvc);
   UserStore_db (AdminService_users adminSvc); AttachmentStore_db (AdminService_attachments adminSvc);
   SettingsStore_db (AdminService_settings adminSvc);
   UserStore_db (InstallService_users installSvc); SettingsStore_db (InstallService_settings installSvc);
   MessageStore_db (MessageService_messages messageSvc); UserStore_db (MessageService_users messageSvc);
   NotificationStore_db (NotificationService_notifications notificationSvc)].

(** All requests work on the pool [p]; tokens are checked by the manager that mints them; a first
    administrator's password is hashed as everybody's; files are served from where they are
    stored; presence is told of the hub that the sockets register with. *)
Record coherent (p : Pool) (a : application) : Prop := {
  one_pool : Forall (eq p) (pools a);
  one_manager : AuthService_jwt (Auth_svc (auth a)) = jwtm a;
  one_hasher : InstallService_hasher (Install_svc (install a)) = AuthService_hasher (Auth_svc (auth a));
  one_store : Media_s3 (media a) = MediaService_s3 (Media_svc (media a));
  one_hub : Messages_hub (messages a) = realtime a }.

(** The parts of the services that the handlers of Handlers.v work with. *)
Definition deps_of (a : application) : deps :=
  let authSvc := Auth_svc (auth a) in let mediaSvc := Media_svc (media a) in
  Deps (AuthService.AuthService.Mk (AuthService_hasher authSvc) (AuthService_jwt authSvc)
          (AuthService_cfg authSvc))
       (MediaService.MediaService.Mk (MediaService_cfg mediaSvc) (S3_Bucket (MediaService_s3 mediaSvc))).

(** What an application's clients meet, by how the database answers a ping and the version of its
    schema, by the state of the hub, and by what the upgrader and chi answer. *)
Record surroundings := Surroundings { pings : Pool -> option error; versions : Pool -> result Z;
  presence : hub; upgrades : bool; refusal : response; missing : string -> string -> response }.

(** SchemaVersion and Ping of a DB. *)
Definition probed (x : surroundings) (d : DB) : System.DB :=
  System.MkDB (pings x (DB_pool d)) (versions x (DB_provider d)).

Definition server_of (x : surroundings) (a : application) : server :=
  Server (deps_of a) (probed x (Version_db (versionHandler a))) (Version_backend (versionHandler a))
    (S3_Bucket (Media_s3 (media a))) (Some (presence x)) (upgrades x) (refusal x) (missing x).
