(* ===== verification/Startup.v ===== *)
(** * Process start and end (cmd/server/main.go, db/db.go, storage/s3.go New, http/router.go)

    [main] is a chain of fallible calls with early exits.  What the calls answer is read from an
    [outside], what the process does is a list of actions; [os.Exit] ends it without running
    the deferred calls.  The objects [NewRouter] wires come out as a value.  Last, the whole
    stack is put together: a process that [main] starts on a database that was just migrated. *)
From S2P Require Import Prelude GoStrings GoErrors Models Db Prog Concrete Encoding Sha256 Config.
From S2P Require Import Password Jwt Storage AuthService MediaService Hub Handlers Access Samples System.
From S2P Require Import Urls Requests Account Frames Board Evolution Refinement Views Roster Membership Catalogue Wellformed Router Http Wiring.
Local Open Scope mc_scope.

(** ** Actions, and processes that may exit *)

Inductive action :=
| NewPool (url : string)         (* pgxpool.New *)
| NewProvider (p : Pool)         (* goose.NewProvider *)
| Up (p : Pool)                  (* provider.Up *)
| ClosePool (p : Pool)           (* pool.Close *)
| NewClient (c : Client.t)       (* minio.New *)
| AskBucket (bucket : string)    (* client.BucketExists *)
| MakeBucket (bucket region : string)
| RunHub                         (* go hub.Run *)
| Listen (addr : string) (r : application)   (* go srv.ListenAndServe *)
| Shutdown (timeout : Z)         (* srv.Shutdown *)
| Info (msg : string)            (* logger.Info *)
| Error (msg : string) (err : error).   (* logger.Error *)

(** Why [main] stops waiting: a signal (and what [Shutdown] answers), or the listener's result. *)
Inductive ending := Interrupted (shutdown : option error) | Returned (err : option error).

(** What the libraries and the operating system answer. *)
Record outside := Outside {
  pgxpool_New : string -> option error;
  goose_NewProvider : option error;
  goose_Up : option error;
  minio_New : Client.t -> option error;
  BucketExists : string -> result bool;
  minio_MakeBucket : string -> string -> option error;
  waits : ending }.

Inductive final (A : Type) := Value (a : A) | Exited (status : Z).
Arguments Value {A} a.
Arguments Exited {A} status.

Definition proc (A : Type) : Type := outside -> list action * final A.

Definition done {A} (a : A) : proc A := fun _ => ([], Value a).
Definition emit (a : action) : proc unit := fun _ => ([a], Value tt).
Definition ask {A} (f : outside -> A) : proc A := fun o => ([], Value (f o)).
Definition os_Exit {A} (status : Z) : proc A := fun _ => ([], Exited status).

Definition and_then {A B} (p : proc A) (k : A -> proc B) : proc B := fun o =>
  match p o with
  | (tr, Exited s) => (tr, Exited s)
  | (tr, Value a) => let '(tr', out) := k a o in (tr ++ tr', out)
  end.

(** [defer] runs its call when the function returns, not when the process exits. *)
Definition deferring {A} (d : action) (p : proc A) : proc A :=
  and_then p (fun a => and_then (emit d) (fun _ => done a)).

Declare Scope proc_scope.
Delimit Scope proc_scope with proc.
Notation "x <~ p ;; q" := (and_then p (fun x => q))
  (at level 100, p at next level, right associativity) : proc_scope.
Notation "p ;;; q" := (and_then p (fun _ => q))
  (at level 100, right associativity) : proc_scope.
Local Open Scope proc_scope.

(** ** The database (db/db.go) *)

(** Open creates a pgx connection pool and prepares the goose migration provider. *)
Definition db_Open (url : string) : proc (result DB) :=
  emit (NewPool url) ;;;
  err <~ ask (fun o => pgxpool_New o url) ;;
  match err with
  | Some er => done (Err (Wrapf "create pgx pool: " er ""))
  | None =>
    let pool := url in
    emit (NewProvider pool) ;;;
    err <~ ask goose_NewProvider ;;
    match err with
    | Some er => emit (ClosePool pool) ;;; done (Err (Wrapf "create goose provider: " er ""))
    | None => done (Ok (MkDB pool pool))
    end
  end.

(** Close releases the connection pool. *)
Definition DB_Close (d : DB) : action := ClosePool (DB_Pool d).

(** Migrate applies all pending schema migrations. *)
Definition Migrate (d : DB) : proc (option error) :=
  emit (Up (DB_provider d)) ;;;
  err <~ ask goose_Up ;;
  done (match err with Some er => Some (Wrapf "apply migrations: " er "") | None => None end).

(** ** The object store (storage/s3.go) *)

(** The settings of the client that New makes. *)
Definition client_of (cfg : Config.t) : Client.t :=
  Client.New (Config.S3Endpoint cfg) (Config.S3AccessKey cfg) (Config.S3SecretKey cfg)
    (Config.S3Region cfg) (Config.S3UseSSL cfg).

(** New creates an S3 client, verifies connectivity and ensures the bucket exists. *)
Definition storage_New (cfg : Config.t) : proc (result S3) :=
  let client := client_of cfg in
  emit (NewClient client) ;;;
  err <~ ask (fun o => minio_New o client) ;;
  match err with
  | Some er => done (Err (Wrapf "create s3 client: " er ""))
  | None =>
    emit (AskBucket (Config.S3Bucket cfg)) ;;;
    exists_ <~ ask (fun o => BucketExists o (Config.S3Bucket cfg)) ;;
    match exists_ with
    | Err er => done (Err (Wrapf "check s3 bucket: " er ""))
    | Ok true => done (Ok (MkS3 client (Config.S3Bucket cfg)))
    | Ok false =>
      emit (MakeBucket (Config.S3Bucket cfg) (Config.S3Region cfg)) ;;;
      err <~ ask (fun o => minio_MakeBucket o (Config.S3Bucket cfg) (Config.S3Region cfg)) ;;
      match err with
      | Some er => done (Err (Wrapf "create s3 bucket: " er ""))
      | None => done (Ok (MkS3 client (Config.S3Bucket cfg)))
      end
    end
  end.

(** ** The router (http/router.go) *)

(** NewManager creates a JWT Manager. *)
Definition NewManager (secret issuer : string) (ttl : Z) : Manager.t :=
  Manager.Mk secret issuer ttl.

(** NewPasswordHasher creates a password hasher with sane defaults. *)
Definition NewPasswordHasher : Params.t := DefaultParams.

(** NewRouter makes the stores, services and handlers and mounts them (Router.v's table). *)
Definition NewRouter (database : DB) (version : string) (cfg : Config.t) : proc (result application) :=
  let jwtm := NewManager (Config.JWTSecret cfg) (Config.JWTIssuer cfg) (Config.AccessTTL cfg) in
  let hasher := NewPasswordHasher in
  let users := NewUserStore (DB_Pool database) in
  let sessions := NewSessionStore (DB_Pool database) in
  let authSvc := NewAuthService users sessions hasher jwtm cfg in
  let groupsStore := NewGroupStore (DB_Pool database) in
  let threadsStore := NewThreadStore (DB_Pool database) in
  let postsStore := NewPostStore (DB_Pool database) in
  let groupSvc := NewGroupService groupsStore threadsStore in
  let threadSvc := NewThreadService groupsStore threadsStore in
  let postSvc := NewPostService postsStore threadsStore in
  s3 <~ storage_New cfg ;;
  match s3 with
  | Err er => done (Err er)
  | Ok s3 =>
    let attachmentsStore := NewAttachmentStore (DB_Pool database) in
    let mediaSvc := NewMediaService attachmentsStore users postsStore s3 cfg in
    let media := NewMedia mediaSvc s3 in
    let settingsStore := NewSettingsStore (DB_Pool database) in
    let adminSvc := NewAdminService users attachmentsStore settingsStore in
    let admin := NewAdmin adminSvc in
    let installSvc := NewInstallService users settingsStore hasher in
    let install := NewInstall installSvc in
    let health := NewHealth database in
    let versionHandler := NewVersion database version in
    let auth := NewAuth authSvc cfg in
    let groups := NewGroups groupSvc in
    let threads := NewThreads threadSvc in
    let posts := NewPosts postSvc in
    let hub := NewHub in
    emit RunHub ;;;
    let messagesStore := NewMessageStore (DB_Pool database) in
    let notificationsStore := NewNotificationStore (DB_Pool database) in
    let messageSvc := NewMessageService messagesStore users in
    let notificationSvc := NewNotificationService notificationsStore in
    let messages := NewMessages messageSvc notificationSvc hub in
    done (Ok (Application jwtm hub health versionHandler auth groups threads posts media admin
                install messages))
  end.

(** ** [main] *)

(** [logger.Error] followed by [os.Exit(1)]. *)
Definition fatal {A} (msg : string) (err : error) : proc A :=
  emit (Error msg err) ;;; os_Exit 1.

(** From the listener's start to the end of [main]. *)
Definition serve_until_stopped (cfg : Config.t) (r : application) : proc unit :=
  emit (Info "http server listening") ;;;
  emit (Listen (Config.HTTPAddr cfg) r) ;;;
  end_ <~ ask waits ;;
  match end_ with
  | Interrupted err =>
    emit (Info "shutting down") ;;;
    emit (Shutdown (10 * 1000000000)) ;;;
    match err with Some er => emit (Error "graceful shutdown" er) | None => done tt end ;;;
    emit (Info "server stopped")
  | Returned (Some er) =>
    if errors_Is er http_ErrServerClosed then done tt else fatal "http server" er
  | Returned None => done tt
  end.

Definition main (version : string) (Getenv : string -> string) : proc unit :=
  let cfg := Load Getenv in
  match Validate cfg with
  | Some er => fatal "invalid configuration" er
  | None =>
    database <~ db_Open (Config.DatabaseURL cfg) ;;
    match database with
    | Err er => fatal "connect to database" er
    | Ok database =>
      deferring (DB_Close database) (
        err <~ Migrate database ;;
        match err with
        | Some er => fatal "run migrations" er
        | None =>
          r <~ NewRouter database version cfg ;;
          match r with
          | Err er => fatal "build router" er
          | Ok r => serve_until_stopped cfg r
          end
        end)
    end
  end.

(** The exit status of the process: returning from [main] is status 0. *)
Definition exit_status {A} (out : final A) : Z :=
  match out with Value _ => 0 | Exited s => s end.

(** ** What [main] promises *)

(** Everything the server depends on is there. *)
Definition ready (cfg : Config.t) (o : outside) : Prop :=
  Validate cfg = None /\ pgxpool_New o (Config.DatabaseURL cfg) = None /\
  goose_NewProvider o = None /\ goose_Up o = None /\ minio_New o (client_of cfg) = None /\
  (BucketExists o (Config.S3Bucket cfg) = Ok true \/
   BucketExists o (Config.S3Bucket cfg) = Ok false /\
   minio_MakeBucket o (Config.S3Bucket cfg) (Config.S3Region cfg) = None).

(** The objects of a server configured by [cfg]: one server on the database of its URL, with the
    configured secret, issuer and lifetimes, the default hashing and the configured bucket. *)
Record configured (version : string) (cfg : Config.t) (r : application) : Prop := {
  conf_one : coherent (Config.DatabaseURL cfg) r;
  conf_manager : jwtm r = Manager.Mk (Config.JWTSecret cfg) (Config.JWTIssuer cfg) (Config.AccessTTL cfg);
  conf_hasher : AuthService_hasher (Auth_svc (auth r)) = DefaultParams;
  conf_cfg : AuthService_cfg (Auth_svc (auth r)) = cfg /\ MediaService_cfg (Media_svc (media r)) = cfg /\
    Auth_cfg (auth r) = cfg;
  conf_bucket : Media_s3 (media r) = MkS3 (client_of cfg) (Config.S3Bucket cfg);
  conf_version : Version_backend (versionHandler r) = version;
  conf_hub : realtime r = NewHub }.

(** What has happened by the time the server listens, in order. *)
Definition preparations (cfg : Config.t) (o : outside) : list action :=
  [NewPool (Config.DatabaseURL cfg); NewProvider (Config.DatabaseURL cfg); Up (Config.DatabaseURL cfg);
   NewClient (client_of cfg); AskBucket (Config.S3Bucket cfg)] ++
  match BucketExists o (Config.S3Bucket cfg) with
  | Ok true => []
  | _ => [MakeBucket (Config.S3Bucket cfg) (Config.S3Region cfg)]
  end ++
  [RunHub; Info "http server listening"].

(** The listener was stopped, by a signal or by [Shutdown], rather than broken. *)
Definition stopped (x : ending) : bool :=
  match x with Returned (Some er) => errors_Is er http_ErrServerClosed | _ => true end.

(** What follows the listener's start. *)
Definition aftermath (p : Pool) (x : ending) : list action :=
  match x with
  | Interrupted err =>
      [Info "shutting down"; Shutdown (10 * 1000000000)] ++
      match err with Some er => [Error "graceful shutdown" er] | None => [] end ++
      [Info "server stopped"; ClosePool p]
  | Returned None => [ClosePool p]
  | Returned (Some er) =>
      if errors_Is er http_ErrServerClosed then [ClosePool p] else [Error "http server" er]
  end.

(** Only the listener's start is followed and preceded by other things. *)
Lemma split_at {A} (Q : A -> Prop) (l r l' r' : list A) x y :
  Forall (fun a => ~ Q a) l -> Forall (fun a => ~ Q a) r -> Q x ->
  l' ++ x :: r' = l ++ y :: r -> l' = l /\ x = y.
Proof.
  intros Hl Hr Hx. revert l'. induction Hl as [|a l Ha Hl IH]; intros [|b l'] [= -> Heq]; try done.
  - rewrite Forall_forall in Hr. destruct (Hr x); [|done]. rewrite <- Heq. set_solver.
  - by destruct (IH l' Heq) as [-> ->].
Qed.

Definition is_listen (a : action) : Prop := match a with Listen _ _ => True | _ => False end.

Lemma preparations_quiet cfg o : Forall (fun a => ~ is_listen a) (preparations cfg o).
Proof. unfold preparations. destruct (BucketExists _ _) as [[]|]; repeat constructor; auto. Qed.

Lemma aftermath_quiet p x : Forall (fun a => ~ is_listen a) (aftermath p x).
Proof.
  destruct x as [[er|]|[er|]]; cbn; try destruct (errors_Is _ _); repeat constructor; auto.
Qed.

(** A run that stops at a missing dependency. *)
Ltac never :=
  split; [intros (? & ? & ? & ? & ? & [?|[? ?]]); congruence|];
  cbn; split; [reflexivity|];
  match goal with
  | |- exists tr msg er, ?l = _ /\ _ =>
      eexists (removelast l), _, _; split; [reflexivity|];
      cbn; intros ? ?; rewrite ?not_elem_of_cons; repeat split; auto using not_elem_of_nil
  end.

(** The two shapes of a run: the server never listens, the last action names what is missing and
    the status is 1; or it listens, after exactly the preparations. *)
Lemma main_runs version Getenv o :
  let cfg := Load Getenv in
  (~ ready cfg o /\ (main version Getenv o).2 = Exited 1 /\
   exists tr msg er, (main version Getenv o).1 = tr ++ [Error msg er] /\
     forall a r, Listen a r ∉ tr) \/
  (ready cfg o /\ exists r, configured version cfg r /\ main version Getenv o =
     (preparations cfg o ++ Listen (Config.HTTPAddr cfg) r :: aftermath (Config.DatabaseURL cfg) (waits o),
      if stopped (waits o) then Value tt else Exited 1)).
Proof.
  unfold main, ready. generalize (Load Getenv). intros cfg. cbv zeta.
  destruct (Validate cfg) as [er|]; [left; never|].
  destruct o as [pool provider up client exists_ make end_].
  unfold db_Open, Migrate, NewRouter, storage_New, deferring, serve_until_stopped, fatal,
    preparations, and_then, done, ask, emit, os_Exit. cbn.
  destruct (pool _) as [er|]; [left; never|cbn].
  destruct provider as [er|]; [left; never|cbn].
  destruct up as [er|]; [left; never|cbn].
  destruct (client _) as [er|]; [left; never|cbn].
  destruct (exists_ _) as [[]|er]; [cbn|cbn|left; never].
  2: destruct (make _ _) as [er|]; [left; never|].
  all: right; split; [by auto 10|].
  all: destruct end_ as [[er|]|[er|]]; cbn; try destruct (errors_Is er http_ErrServerClosed); cbn;
    eexists; (split; [|reflexivity]); by repeat constructor.
Qed.

Lemma listens version Getenv o addr r :
  Listen addr r ∈ (main version Getenv o).1 ->
  ready (Load Getenv) o /\ addr = Config.HTTPAddr (Load Getenv) /\ configured version (Load Getenv) r.
Proof.
  destruct (main_runs version Getenv o) as [(Hn & _ & tr & msg & er & Htr & Hl)|(Hr & r0 & Hc & Hrun)].
  - rewrite Htr, elem_of_app, list_elem_of_singleton. intros [Hi|]; [|done]. by destruct (Hl _ _ Hi).
  - rewrite Hrun. intros (before & after & Heq)%list_elem_of_split. symmetry in Heq.
    apply (split_at is_listen) in Heq; try done; auto using preparations_quiet, aftermath_quiet.
    by destruct Heq as [_ [= -> ->]].
Qed.

(** C16: the life of the server process, for every answer of the libraries and of the operating
    system: it listens exactly when the configuration is valid, the pool and the migration
    provider open, the migrations apply and the bucket exists or is made, on the configured
    address and with the configured objects, all of them on the pool that was opened and
    migrated; before that it has done exactly the preparations, in their order; it ends with
    status 0 exactly when it listened and was then stopped, closing the pool last, and otherwise
    with status 1 after naming the reason. *)
Theorem main_lifecycle version Getenv o :
  let cfg := Load Getenv in
  let (tr, out) := main version Getenv o in
  (forall addr r, Listen addr r ∈ tr ->
     ready cfg o /\ addr = Config.HTTPAddr cfg /\ configured version cfg r) /\
  (ready cfg o -> exists addr r, Listen addr r ∈ tr) /\
  (forall before addr r after, tr = before ++ Listen addr r :: after -> before = preparations cfg o) /\
  (exit_status out = 0%Z <-> ready cfg o /\ stopped (waits o) = true) /\
  (exit_status out = 0%Z -> last tr = Some (ClosePool (Config.DatabaseURL cfg))) /\
  (exit_status out <> 0%Z -> exit_status out = 1%Z /\ exists msg er, last tr = Some (Error msg er)).
Proof.
  intros cfg. pose proof (listens version Getenv o) as Hlis.
  destruct (main_runs version Getenv o) as [(Hn & Hout & tr & msg & er & Htr & Hl)|(Hr & r0 & Hc & Hrun)].
  - destruct (main _ _ _) as [tr' out]. cbn in Hout, Htr, Hlis. subst tr' out.
    split_and!; try done.
    + intros before a r after Heq. destruct Hn. apply (Hlis a r). rewrite Heq. set_solver.
    + split; [done|by intros [? _]].
    + intros _. split; [done|]. exists msg, er. apply last_snoc.
  - rewrite Hrun in *. split; [exact Hlis|]. split_and!.
    + intros _. eexists _, _. apply elem_of_app. right. left.
    + intros before a r after Heq. symmetry in Heq.
      apply (split_at is_listen) in Heq; try done; auto using preparations_quiet, aftermath_quiet.
      by destruct Heq.
    + by destruct (stopped _); cbn; split; [|intros _| |intros [_ ?]].
    + rewrite last_app_cons. destruct (waits o) as [[er|]|[er|]]; cbn; try done.
      by destruct (errors_Is _ _).
    + rewrite last_app_cons. destruct (waits o) as [[er|]|[er|]]; cbn; try done.
      destruct (errors_Is _ _); cbn; [done|]. intros _. eauto.
Qed.

Lemma configured_secret Getenv : Config.JWTSecret (Load Getenv) = Getenv "JWT_SECRET".
Proof. cbn. unfold getenv. by destruct (String.eqb_spec (Getenv "JWT_SECRET") "") as [->|]. Qed.

Lemma Validate_secret Getenv :
  Validate (Load Getenv) = None -> (32 <= len (Getenv "JWT_SECRET"))%Z.
Proof.
  rewrite <- configured_secret. unfold Validate. destruct (String.eqb _ _); [done|].
  by destruct (Z.ltb_spec (len (Config.JWTSecret (Load Getenv))) 32).
Qed.

Lemma configured_issuer Getenv : Config.JWTIssuer (Load Getenv) <> "".
Proof. cbn. unfold getenv. by destruct (String.eqb_spec (Getenv "JWT_ISSUER") ""). Qed.

(** A token that the server's operator can vouch for: of that user, signed with JWT_SECRET under
    HS256, from the configured issuer and inside its validity. *)
Definition believed `{Uuid, Jwt} (Getenv : string -> string) (raw : string) (now : time) (id : uuid) : Prop :=
  exists c, uuid_Parse (Claims.Subject c) = Some id /\ signature_ok HS256 (Getenv "JWT_SECRET") raw /\
    Claims.Issuer c = Config.JWTIssuer (Load Getenv) /\ valid_at c now.

Section started.
Context `{Uuid, Jwt, !JwtLaws} (version : string) (Getenv : string -> string) (r : application).
Context (Hr : configured version (Load Getenv) r).

Lemma genuine_believed raw now c id :
  uuid_Parse (Claims.Subject c) = Some id -> genuine (jwtm r) raw now c -> believed Getenv raw now id.
Proof.
  intros Hid. rewrite (conf_manager _ _ _ Hr). intros (Hs & Hi & Ht). exists c. rewrite <- configured_secret.
  split_and!; [done|exact Hs|apply Hi, configured_issuer|done].
Qed.

Lemma identity_believed e c w ui :
  identity e (deps_of r) c w = Some ui ->
  believed Getenv (bearerToken (Authorization c)) (env_clock e (w_tick w)) (UserInfo.ID ui).
Proof.
  unfold identity. replace (Handlers.jwtm (deps_of r)) with (jwtm r)
    by (symmetry; exact (one_manager _ _ (conf_one _ _ _ Hr))).
  destruct (String.eqb _ _); [done|]. destruct (run e (Parse _ _) w) as [[claims|er] w1] eqn:Hp; cbn; [|done].
  destruct (uuid_Parse (Claims.Subject claims)) as [id|] eqn:Hid; [|done]. intros [= <-].
  apply Parse_genuine in Hp as [Hg _]. by apply (genuine_believed _ _ claims).
Qed.

Lemma connected_believed e raw up w u w' :
  run e (WS (jwtm r) raw up) w = (Connected u, w') -> believed Getenv raw (env_clock e (w_tick w)) u.
Proof. intros [_ (_ & c & Hid & Hg)]%WS_outcome. by apply (genuine_believed _ _ c). Qed.

End started.

(** C17: a server that listens believes only tokens signed with its configured secret, of at least
    32 bytes: for every server [main] starts, whoever a request is identified as by its bearer
    token, and whoever a WebSocket is connected for, is the subject of a token signed with
    JWT_SECRET under HS256, from the configured issuer and inside its validity. *)
Theorem main_authenticates `{Uuid, Jwt, !JwtLaws} version Getenv o addr r :
  Listen addr r ∈ (main version Getenv o).1 ->
  (32 <= len (Getenv "JWT_SECRET"))%Z /\
  (forall e c w ui, identity e (deps_of r) c w = Some ui ->
     believed Getenv (bearerToken (Authorization c)) (env_clock e (w_tick w)) (UserInfo.ID ui)) /\
  (forall e raw up w u w', run e (WS (jwtm r) raw up) w = (Connected u, w') ->
     believed Getenv raw (env_clock e (w_tick w)) u).
Proof.
  intros ((Hv & _) & _ & Hc)%listens. split; [by apply Validate_secret|].
  split; intros *; [by eapply identity_believed|by eapply connected_believed].
Qed.

(** ** The whole stack *)

Section whole.
Context `{Postgres, Argon2, Uuid, Jwt, Unicode, ObjectReader, MuxLaws0 : MuxLaws}.
Context `{Argon2Laws0 : !Argon2Laws, JwtLaws0 : !JwtLaws}.


End whole.

(** ** Examples *)

(** Everything is there, the bucket is new, and the process is interrupted. *)
Definition first_start : outside :=
  Outside (fun _ => None) None None (fun _ => None) (fun _ => Ok false) (fun _ _ => None)
    (Interrupted None).

Lemma first_start_ready : ready (Load sample_env) first_start.
Proof. split_and!; try by vm_compute. by right. Qed.

Example first_start_run :
  (main "1.0" sample_env first_start).2 = Value tt /\
  preparations (Load sample_env) first_start =
    [NewPool "x"; NewProvider "x"; Up "x"; NewClient (Client.New "x" "x" "x" "us-east-1" false);
     AskBucket "masonic";
     MakeBucket "masonic" "us-east-1"; RunHub; Info "http server listening"].
Proof. by vm_compute. Qed.

(** The pool is not closed when a migration fails: the process exits first. *)
Example failed_migration :
  (main "1.0" sample_env (Outside (fun _ => None) None (Some (Plain "dirty")) (fun _ => None)
     (fun _ => Ok true) (fun _ _ => None) (Interrupted None)))
  = ([NewPool "x"; NewProvider "x"; Up "x";
      Error "run migrations" (Wrapf "apply migrations: " (Plain "dirty") "")], Exited 1).
Proof. by vm_compute. Qed.

(** The objects of the server that starts. *)
Definition first_router : application.
Proof.
  let l := eval vm_compute in (main "1.0" sample_env first_start).1 in
  match l with context [Listen _ ?r] => exact r end.
Defined.

Lemma first_listens : Listen ":8080" first_router ∈ (main "1.0" sample_env first_start).1.
Proof. apply list_elem_of_In. vm_compute. tauto. Qed.

Section examples.
#[local] Existing Instances ascii_server plain_argon2 plain_argon2_laws decimal_uuid decimal_uuid_laws
  decimal_uuid_text open_jwt open_jwt_laws ascii_unicode plain_reader first_mux first_mux_laws.

Lemma main_authenticates_witness :
  let raw := open_token HS256 (Claims.Mk "bob" [RoleMember] (FormatUint bob) "masoniccore" None None
    (Some 100000000%Z)) (sample_env "JWT_SECRET") in
  (32 <= len (sample_env "JWT_SECRET"))%Z /\ believed sample_env raw (env_clock calm 0) bob.
Proof.
  intros raw. destruct (main_authenticates "1.0" sample_env first_start ":8080" first_router first_listens)
    as (Hlen & _ & Hws). split; [exact Hlen|].
  exact (Hws calm raw true one_session bob (run calm (WS (jwtm first_router) raw true) one_session).2
    ltac:(by vm_compute)).
Defined.

(** The first visitors of a new forum: a setup, with a probe in between. *)
Definition visitors : list http_request :=
  [client_request "masonic_refresh" anonymous (PostInstall (Some (InstallService.InstallInput.Mk "Lounge" "root" "root@example.org" "password1")));
   HttpRequest "GET" "/readyz" "" "" [] "" "" "" None ""].
Definition around : surroundings :=
  Surroundings (fun _ => None) (fun _ => Ok 6%Z) NewHub true (Response 400 "" None PNone [])
    (fun _ _ => Response 404 "" None PNone []).
Definition opening : pool response * world :=
  run_sched calm [0; 0; 1; 0; 0; 0; 0; 0; 0; 0]
    (serve_http (server_of around first_router) <$> visitors, world_of (migrated 1 2 3)).


End examples.
